(** * The S3 multipart upload engine of ClickHouse

    A shallow embedding of [src/IO/S3/copyS3File.cpp] (the helpers behind
    [copyDataToS3File] and [copyS3File]) and of [src/IO/WriteBufferFromS3.cpp]
    (the streaming write buffer), with the properties of the engine proved
    over it.

    - [size_t] values are integers of [Z] with the 64-bit wrap-around of
      every addition and multiplication written out ([wrap]); an integer
      division by zero is undefined behaviour ([Undefined]).
    - The S3 client is a function from the requests answered so far and the
      request at hand to an outcome; every answered request is appended to
      the [trace] of the object that sent it.
    - A C++ exception is a result [Throw e s]: the object keeps the state [s]
      it had when the exception left the member function.
    - The thread pool behind [schedule] is an explicit list of events carried
      by the state, consumed at the points where the calling thread hands
      over control.
    - A loop of the source is a recursion on a fuel. A retry loop gets its
      budget of attempts; the loop over the parts in [performMultipartUpload]
      gets the number of parts that [calculatePartSize] has planned, which
      is what it takes when no position wraps around. A run that would need
      more ends in [OutOfFuel], and no property speaks about such a run.
    - Of a formatted exception message the model keeps the leading words,
      or the message of the server; the bucket, the key and the numbers put
      into the text are left out. The properties speak about the class and
      the code of an exception, not about its text.
    - The content length of a request is the [size_t] the source computes;
      its conversion to the type of the request is not modelled. *)

From Stdlib Require Import ZArith List String Bool Lia Arith Permutation.
Import ListNotations.

Local Open Scope string_scope.
Local Open Scope list_scope.
Local Open Scope Z_scope.

(** ** Machine integers *)

Definition SIZE_MODULUS : Z := 2 ^ 64.

(** Value of an unsigned 64-bit expression. *)
Definition wrap (x : Z) : Z := x mod SIZE_MODULUS.

Definition is_size_t (x : Z) : Prop := 0 <= x < SIZE_MODULUS.

Definition INT_MAX : Z := 2 ^ 31 - 1.

(** [static_cast<int>(x)] of a [size_t]. *)
Definition static_cast_int (x : Z) : Z := (x + 2 ^ 31) mod 2 ^ 32 - 2 ^ 31.

(** [std::max] and [std::min] on [size_t]. *)
Definition std_max (a b : Z) : Z := if a <? b then b else a.
Definition std_min (a b : Z) : Z := if b <? a then b else a.

(** The mathematical ceiling of [a / b], used in statements only. *)
Definition ceil_div (a b : Z) : Z := (a + b - 1) / b.

(** ** Errors and exceptions *)

(** [Aws::S3::S3Errors], as far as the engine tells its values apart. *)
Inductive S3Errors : Type :=
| NO_SUCH_KEY
| NO_SUCH_UPLOAD
| UNKNOWN.

Record AwsError : Type := mkAwsError {
  GetErrorType : S3Errors;
  GetExceptionName : string;
  GetMessage : string
}.

(** The two tests the retry loops make on a failure:
    [GetExceptionName() == "EntityTooLarge" || GetExceptionName() == "InvalidRequest"]
    and [GetErrorType() == Aws::S3::S3Errors::NO_SUCH_KEY]. *)
Definition is_too_large (e : AwsError) : bool :=
  String.eqb (GetExceptionName e) "EntityTooLarge"
  || String.eqb (GetExceptionName e) "InvalidRequest".

Definition is_no_such_key (e : AwsError) : bool :=
  match GetErrorType e with NO_SUCH_KEY => true | _ => false end.

(** [DB::ErrorCodes] used by the two files. *)
Inductive ErrorCode : Type :=
| S3_ERROR
| INVALID_CONFIG_PARAMETER
| LOGICAL_ERROR.

(** [DB::Exception] and its subclass [DB::S3Exception]. *)
Inductive Exception : Type :=
| DBException (code : ErrorCode) (message : string)
| S3Exception (s3_code : S3Errors) (message : string).

(** Modelled from the spec: the class [S3Exception] is declared outside the
    two files (IO/S3Common.h); section 7 of the specification classifies
    every failure reported by the object store as [Remote], which is the
    error code [S3_ERROR]. *)
Definition exception_code (e : Exception) : ErrorCode :=
  match e with
  | DBException c _ => c
  | S3Exception _ _ => S3_ERROR
  end.

(** The error kinds of the specification. *)
Inductive ErrorKind : Type := ConfigInvalid | Logic | Remote.

Definition kind_of (e : Exception) : ErrorKind :=
  match exception_code e with
  | S3_ERROR => Remote
  | INVALID_CONFIG_PARAMETER => ConfigInvalid
  | LOGICAL_ERROR => Logic
  end.

(** ** Requests, outcomes and the client *)

(** Where the body of a request reads its bytes from. *)
Inductive Body : Type :=
| SourceRange (offset size : Z)   (* LimitSeekableReadBuffer(create_read_buffer(), offset, size) *)
| TemporaryBuffer (size : Z).     (* the stream [temporary_buffer] *)

Record CompletedPart : Type := mkCompletedPart {
  ETag : string;
  PartNumber : Z
}.

Inductive Request : Type :=
| CreateMultipartUploadRequest
| UploadPartRequest (upload_id : string) (part_number : Z) (content_length : Z) (body : Body)
| UploadPartCopyRequest (upload_id : string) (part_number : Z) (range_first range_last : Z)
| CompleteMultipartUploadRequest (upload_id : string) (parts : list CompletedPart)
| AbortMultipartUploadRequest (upload_id : string)
| PutObjectRequest (content_length : Z) (body : Body)
| CopyObjectRequest
| HeadObjectRequest.

(** The outcome of a request; a success carries the upload id or the ETag
    where the request has one, the empty string otherwise. *)
Inductive Outcome : Type :=
| Success (result : string)
| Failure (error : AwsError).

Definition IsSuccess (o : Outcome) : bool :=
  match o with Success _ => true | Failure _ => false end.

Definition Trace : Type := list (Request * Outcome).

Definition Client : Type := Trace -> Request -> Outcome.

(** ** Observing a trace *)

Definition is_complete (r : Request) : bool :=
  match r with CompleteMultipartUploadRequest _ _ => true | _ => false end.

Definition is_put (r : Request) : bool :=
  match r with PutObjectRequest _ _ => true | _ => false end.

Definition is_copy (r : Request) : bool :=
  match r with CopyObjectRequest => true | _ => false end.

Definition is_head (r : Request) : bool :=
  match r with HeadObjectRequest => true | _ => false end.

Definition is_upload (r : Request) : bool :=
  match r with
  | UploadPartRequest _ _ _ _ | UploadPartCopyRequest _ _ _ _ => true
  | _ => false
  end.

Definition is_abort (r : Request) : bool :=
  match r with AbortMultipartUploadRequest _ => true | _ => false end.

Definition is_multipart (r : Request) : bool :=
  match r with
  | CreateMultipartUploadRequest
  | UploadPartRequest _ _ _ _ | UploadPartCopyRequest _ _ _ _
  | CompleteMultipartUploadRequest _ _
  | AbortMultipartUploadRequest _ => true
  | _ => false
  end.

(** The part number a request carries; zero for a request without one. *)
Definition part_number_of (r : Request) : Z :=
  match r with
  | UploadPartRequest _ n _ _ | UploadPartCopyRequest _ n _ _ => n
  | _ => 0
  end.

(** How many requests of a kind were answered so far. *)
Definition answered (kind : Request -> bool) (history : Trace) : nat :=
  List.length (filter (fun entry => kind (fst entry)) history).

(** A failed attempt that a retry loop may repeat. *)
Definition phantom_attempt (request : Request) (entry : Request * Outcome) : Prop :=
  fst entry = request /\
  exists e, snd entry = Failure e /\ GetErrorType e = NO_SUCH_KEY.

(** A failed attempt that the retry loops of the copy helpers repeat: it
    was answered with [NoSuchKey] and not refused as too large. *)
Definition repeated_attempt (request : Request) (entry : Request * Outcome) : Prop :=
  fst entry = request /\
  exists e, snd entry = Failure e /\ is_no_such_key e = true /\ is_too_large e = false.

(** The entries [es] are what [client] answers from the history [h] on. *)
Fixpoint answers_of (client : Client) (h : Trace) (es : Trace) : Prop :=
  match es with
  | [] => True
  | entry :: rest =>
      snd entry = client h (fst entry) /\ answers_of client (h ++ [entry]) rest
  end.

(** A part request that the server refused. *)
Definition failed_upload (entry : Request * Outcome) : bool :=
  is_upload (fst entry) && negb (IsSuccess (snd entry)).

Definition has_failed_upload (t : Trace) : bool := existsb failed_upload t.

Definition has_abort (t : Trace) : bool := existsb (fun entry => is_abort (fst entry)) t.

(** Every refused part request is followed by an [AbortMultipartUpload]. *)
Fixpoint aborts_follow (t : Trace) : bool :=
  match t with
  | [] => true
  | entry :: rest => (negb (failed_upload entry) || has_abort rest) && aborts_follow rest
  end.

(** An [AbortMultipartUpload] was sent for every refused part request:
    there are at least as many of the former as of the latter. *)
Definition aborts_cover (t : Trace) : Prop :=
  (List.length (filter failed_upload t) <= answered is_abort t)%nat.

(** The record of a single-shot operation: failed attempts that the retry
    loop repeated, fewer than its budget, then the attempt that ended it;
    the first attempt was answered with [first]. *)
Definition single_shot_attempts (request : Request) (budget : Z) (first : Outcome) (t : Trace)
  : Prop :=
  exists phantoms last,
    t = phantoms ++ [(request, last)] /\
    Forall (phantom_attempt request) phantoms /\
    Z.of_nat (List.length phantoms) < budget /\
    hd_error t = Some (request, first).

(** The part requests [reqs] carry the part numbers 1, 2, 3, ... in this
    order, as the [int] the requests hold. *)
Definition in_part_number_order (reqs : list Request) : Prop :=
  Forall (fun r => is_upload r = true) reqs /\
  forall i r, nth_error reqs i = Some r -> part_number_of r = static_cast_int (Z.of_nat i + 1).

(** The bytes of the source that a part request uploads: the offset of the
    first one and their number. [UploadPartCopy] names its range by its
    first and its last byte. *)
Definition part_range (r : Request) : option (Z * Z) :=
  match r with
  | UploadPartRequest _ _ _ (SourceRange first size) => Some (first, size)
  | UploadPartCopyRequest _ _ first last => Some (first, last - first + 1)
  | _ => None
  end.

(** The part requests [reqs] upload the bytes from [position] up to
    [end_position] one after the other, with no gap and no overlap: every
    part has [normal] bytes, the last one what is left. *)
Fixpoint tiles (normal position end_position : Z) (reqs : list Request) : Prop :=
  match reqs with
  | [] => position = end_position
  | r :: rest =>
      position < end_position /\
      part_range r = Some (position, std_min normal (end_position - position)) /\
      tiles normal (position + std_min normal (end_position - position)) end_position rest
  end.

(** The bytes that a part request carries in its body. *)
Definition part_length (r : Request) : Z :=
  match r with
  | UploadPartRequest _ _ content_length _ => content_length
  | _ => 0
  end.

(** The bytes that the part requests of a trace carry, all together. *)
Definition part_bytes (t : Trace) : Z :=
  fold_right (fun entry total => part_length (fst entry) + total) 0 t.

(** No part request follows a [CompleteMultipartUpload] request: the trace
    is a record without [CompleteMultipartUpload] followed by a record
    without part requests. *)
Definition parts_precede_completion (t : Trace) : Prop :=
  exists before after,
    t = before ++ after /\
    answered is_complete before = 0%nat /\
    Forall (fun entry => is_upload (fst entry) = false) after.

(** A part request with more than [size] bytes; a request of another kind
    qualifies as it is. *)
Definition full_part (size : Z) (r : Request) : Prop :=
  is_upload r = true -> size < part_length r.

(** A part request that is not empty and, unless it has the number [last],
    has more than [size] bytes. *)
Definition full_or_last (size last : Z) (r : Request) : Prop :=
  is_upload r = true ->
  0 < part_length r /\ (part_number_of r <> last -> size < part_length r).

(** A part request whose part number is the [int] of a counter within
    [limit]; a request of another kind qualifies as it is. *)
Definition numbered_within (limit : Z) (r : Request) : Prop :=
  is_upload r = true ->
  exists n, 0 <= n <= limit /\ part_number_of r = static_cast_int n.

(** The part requests of a trace, with their answers. *)
Definition upload_entries (t : Trace) : Trace :=
  filter (fun entry => is_upload (fst entry)) t.

(** The entry of the payload that stands for a part request and its
    answer: the ETag the server returned, with the number of the part. *)
Definition completed_of (entry : Request * Outcome) : CompletedPart :=
  mkCompletedPart
    (match snd entry with Success etag => etag | Failure _ => "" end)
    (part_number_of (fst entry)).

(** The payload [parts] has exactly one entry for every part request of
    the trace, all of which the server accepted. *)
Definition one_entry_per_part (t : Trace) (parts : list CompletedPart) : Prop :=
  has_failed_upload t = false /\
  Permutation (map completed_of (upload_entries t)) parts.

(** The entries of the payload are numbered 1, 2, 3, ... in this order, as
    the [int] the payload holds. *)
Definition numbered_from_one (parts : list CompletedPart) : Prop :=
  forall i p, nth_error parts i = Some p -> PartNumber p = static_cast_int (Z.of_nat i + 1).

(** The trace [t] of a multipart job that ends with its completion: after
    the requests [before], in which every part request was accepted and has
    its entry in [parts], come the [CompleteMultipartUpload] requests for
    the upload [upload_id] with the payload [parts], at least one, and
    after them only the check that the object exists. *)
Definition completes_with (t : Trace) (upload_id : string) (parts : list CompletedPart)
  : Prop :=
  exists before sent after,
    t = before ++ sent ++ after /\ sent <> [] /\
    Forall (fun entry => fst entry = CompleteMultipartUploadRequest upload_id parts) sent /\
    Forall (fun entry => fst entry = HeadObjectRequest) after /\
    one_entry_per_part before parts.

(** The payload [parts] is made from the tags [tags], in their order, one
    entry for each, numbered from one. *)
Definition made_from_tags (tags : list string) (parts : list CompletedPart) : Prop :=
  List.length parts = List.length tags /\ map ETag parts = tags /\
  numbered_from_one parts /\
  (Z.of_nat (List.length tags) <= INT_MAX ->
   map PartNumber parts = map Z.of_nat (seq 1 (List.length tags))).

(** Messages of the logger the properties refer to. *)
Inductive LogMessage : Type :=
| SkippingEmptyPart
| SkippingBadBuffer
| MaximumPartNumberReached
| WillRetry
| WillRetryWithMultipart.

(** ** Results of member functions *)

Inductive Result (S A : Type) : Type :=
| Ok (a : A) (s : S)
| Throw (e : Exception) (s : S)
| Undefined (s : S)     (* undefined behaviour was reached *)
| OutOfFuel (s : S)     (* a loop was cut off by its bound *)
| Blocked (s : S).      (* a condition variable is waited on forever *)

Arguments Ok {S A} a s.
Arguments Throw {S A} e s.
Arguments Undefined {S A} s.
Arguments OutOfFuel {S A} s.
Arguments Blocked {S A} s.

Definition M (S A : Type) : Type := S -> Result S A.

Definition ret {S A} (a : A) : M S A := fun s => Ok a s.

Definition bind {S A B} (c : M S A) (k : A -> M S B) : M S B :=
  fun s =>
    match c s with
    | Ok a s' => k a s'
    | Throw e s' => Throw e s'
    | Undefined s' => Undefined s'
    | OutOfFuel s' => OutOfFuel s'
    | Blocked s' => Blocked s'
    end.

Definition throw {S A} (e : Exception) : M S A := fun s => Throw e s.

Definition gets {S A} (f : S -> A) : M S A := fun s => Ok (f s) s.

Definition modify {S} (f : S -> S) : M S unit := fun s => Ok tt (f s).

Definition undefined {S A} : M S A := fun s => Undefined s.

(** [try { c } catch (...) { h; throw; }] *)
Definition try_rethrow {S A} (c : M S A) (h : S -> S) : M S A :=
  fun s =>
    match c s with
    | Throw e s' => Throw e (h s')
    | r => r
    end.

Declare Scope upload_scope.
Delimit Scope upload_scope with upload.

Notation "x <- c1 ;; c2" := (bind c1 (fun x => c2))
  (at level 61, c1 at next level, right associativity) : upload_scope.
Notation "c1 ;; c2" := (bind c1 (fun _ => c2))
  (at level 61, right associativity) : upload_scope.

Definition final_state {S A} (r : Result S A) : S :=
  match r with
  | Ok _ s | Throw _ s | Undefined s | OutOfFuel s | Blocked s => s
  end.

Definition returns_normally {S A} (r : Result S A) : bool :=
  match r with Ok _ _ => true | _ => false end.

Definition thrown {S A} (r : Result S A) : option Exception :=
  match r with Throw e _ => Some e | _ => None end.

(** [c] relates the state it starts from to the state it ends in, however
    it ends. *)
Definition preserves {S A} (R : S -> S -> Prop) (c : M S A) : Prop :=
  forall s, R s (final_state (c s)).

(** [c] relates the state it starts from to the state it ends in, when it
    returns normally. *)
Definition returning {S A} (R : S -> S -> Prop) (c : M S A) : Prop :=
  forall s a s', c s = Ok a s' -> R s s'.

(** The relation between two states that agree on [f]. *)
Definition keeps {S T} (f : S -> T) : S -> S -> Prop := fun s s' => f s' = f s.

(** Two runs of [c] that start in related states and both return, return
    the same value and end in related states. *)
Definition agrees {S A} (R : S -> S -> Prop) (c : M S A) : Prop :=
  forall s1 s2 a1 a2 s1' s2',
    R s1 s2 -> c s1 = Ok a1 s1' -> c s2 = Ok a2 s2' -> a1 = a2 /\ R s1' s2'.

(** ** Settings *)

(** [S3Settings::RequestSettings::PartUploadSettings]; every number is a
    [size_t]. *)
Record PartUploadSettings : Type := mkPartUploadSettings {
  min_upload_part_size : Z;
  max_upload_part_size : Z;
  upload_part_size_multiply_factor : Z;
  upload_part_size_multiply_parts_count_threshold : Z;
  max_part_number : Z;
  max_single_part_upload_size : Z;
  max_single_operation_copy_size : Z;
  storage_class_name : string
}.

Definition settings_in_range (p : PartUploadSettings) : Prop :=
  is_size_t (min_upload_part_size p) /\
  is_size_t (max_upload_part_size p) /\
  is_size_t (upload_part_size_multiply_factor p) /\
  is_size_t (upload_part_size_multiply_parts_count_threshold p) /\
  is_size_t (max_part_number p) /\
  is_size_t (max_single_part_upload_size p) /\
  is_size_t (max_single_operation_copy_size p).

Local Open Scope upload_scope.

(** * copyS3File.cpp *)

Module UploadHelper.

(** The two subclasses of [UploadHelper]. *)
Inductive HelperClass : Type :=
| CopyDataToFileHelper
| CopyFileHelper.

(** Where the closure of a task is: not yet handed to [schedule], waiting in
    the thread pool, executing with its request in flight, or returned. *)
Inductive Stage : Type :=
| NotScheduled
| Queued
| Running
| Returned.

Record UploadPartTask : Type := mkUploadPartTask {
  req : option Request;
  is_finished : bool;
  tag : string;
  exception : option Exception;
  stage : Stage
}.

Definition new_task : UploadPartTask :=
  mkUploadPartTask None false "" None NotScheduled.

Definition with_req (r : Request) (t : UploadPartTask) : UploadPartTask :=
  mkUploadPartTask (Some r) (is_finished t) (tag t) (exception t) (stage t).
Definition with_tag (x : string) (t : UploadPartTask) : UploadPartTask :=
  mkUploadPartTask (req t) (is_finished t) x (exception t) (stage t).
Definition with_exception (e : Exception) (t : UploadPartTask) : UploadPartTask :=
  mkUploadPartTask (req t) (is_finished t) (tag t) (Some e) (stage t).
Definition with_stage (g : Stage) (t : UploadPartTask) : UploadPartTask :=
  mkUploadPartTask (req t) (is_finished t) (tag t) (exception t) g.
Definition finished (t : UploadPartTask) : UploadPartTask :=
  mkUploadPartTask (req t) true (tag t) (exception t) Returned.

(** What the thread pool does with the closures it was given: the closure of
    the task at index [i] of [bg_tasks] starts, or the request it sent is
    answered and it runs to its end. *)
Inductive PoolEvent : Type :=
| TaskBegins (i : nat)
| TaskEnds (i : nat).

(** The members set by the constructors. [schedule] tells whether a thread
    pool runner was supplied. *)
Record Config : Type := mkConfig {
  helper_class : HelperClass;
  settings : PartUploadSettings;
  check_objects_after_upload : bool;
  max_unexpected_write_error_retries : Z;
  schedule : bool;
  offset : Z;
  size : Z
}.

Record State : Type := mkState {
  config : Config;
  normal_part_size : Z;
  multipart_upload_id : string;
  multipart_upload_aborted : bool;
  part_tags : list string;
  bg_tasks : list UploadPartTask;
  num_added_bg_tasks : Z;
  num_finished_bg_tasks : Z;
  trace : Trace;
  log : list LogMessage;
  pool_script : list (list PoolEvent)
}.

Definition set_normal_part_size (x : Z) (s : State) : State :=
  mkState (config s) x (multipart_upload_id s) (multipart_upload_aborted s) (part_tags s)
    (bg_tasks s) (num_added_bg_tasks s) (num_finished_bg_tasks s) (trace s) (log s) (pool_script s).
Definition set_multipart_upload_id (x : string) (s : State) : State :=
  mkState (config s) (normal_part_size s) x (multipart_upload_aborted s) (part_tags s)
    (bg_tasks s) (num_added_bg_tasks s) (num_finished_bg_tasks s) (trace s) (log s) (pool_script s).
Definition set_multipart_upload_aborted (x : bool) (s : State) : State :=
  mkState (config s) (normal_part_size s) (multipart_upload_id s) x (part_tags s)
    (bg_tasks s) (num_added_bg_tasks s) (num_finished_bg_tasks s) (trace s) (log s) (pool_script s).
Definition set_part_tags (x : list string) (s : State) : State :=
  mkState (config s) (normal_part_size s) (multipart_upload_id s) (multipart_upload_aborted s) x
    (bg_tasks s) (num_added_bg_tasks s) (num_finished_bg_tasks s) (trace s) (log s) (pool_script s).
Definition set_bg_tasks (x : list UploadPartTask) (s : State) : State :=
  mkState (config s) (normal_part_size s) (multipart_upload_id s) (multipart_upload_aborted s) (part_tags s)
    x (num_added_bg_tasks s) (num_finished_bg_tasks s) (trace s) (log s) (pool_script s).
Definition set_num_added_bg_tasks (x : Z) (s : State) : State :=
  mkState (config s) (normal_part_size s) (multipart_upload_id s) (multipart_upload_aborted s) (part_tags s)
    (bg_tasks s) x (num_finished_bg_tasks s) (trace s) (log s) (pool_script s).
Definition set_num_finished_bg_tasks (x : Z) (s : State) : State :=
  mkState (config s) (normal_part_size s) (multipart_upload_id s) (multipart_upload_aborted s) (part_tags s)
    (bg_tasks s) (num_added_bg_tasks s) x (trace s) (log s) (pool_script s).
Definition set_trace (x : Trace) (s : State) : State :=
  mkState (config s) (normal_part_size s) (multipart_upload_id s) (multipart_upload_aborted s) (part_tags s)
    (bg_tasks s) (num_added_bg_tasks s) (num_finished_bg_tasks s) x (log s) (pool_script s).
Definition set_log (x : list LogMessage) (s : State) : State :=
  mkState (config s) (normal_part_size s) (multipart_upload_id s) (multipart_upload_aborted s) (part_tags s)
    (bg_tasks s) (num_added_bg_tasks s) (num_finished_bg_tasks s) (trace s) x (pool_script s).
Definition set_pool_script (x : list (list PoolEvent)) (s : State) : State :=
  mkState (config s) (normal_part_size s) (multipart_upload_id s) (multipart_upload_aborted s) (part_tags s)
    (bg_tasks s) (num_added_bg_tasks s) (num_finished_bg_tasks s) (trace s) (log s) x.

(** A refused part request has left its exception in a task. *)
Definition failure_is_recorded (s : State) : Prop :=
  has_failed_upload (trace s) = true ->
  exists task, In task (bg_tasks s) /\ exception task <> None.

(** Without a thread pool there are no tasks. *)
Definition no_tasks_inline (s : State) : Prop :=
  schedule (config s) = false -> bg_tasks s = [].

(** What a step of the helper keeps, when it returns: the two facts above,
    and the members of the configuration. *)
Definition records_failures (s s' : State) : Prop :=
  config s' = config s /\
  (failure_is_recorded s -> failure_is_recorded s') /\
  (no_tasks_inline s -> no_tasks_inline s').

(** What a step of the helper keeps, however it ends. *)
Definition keeps_aborts (s s' : State) : Prop :=
  aborts_follow (trace s) = true -> aborts_follow (trace s') = true.

Definition keeps_cover (s s' : State) : Prop :=
  aborts_cover (trace s) -> aborts_cover (trace s').

(** An [AbortMultipartUpload] that was sent has set the flag
    [multipart_upload_aborted], no [CompleteMultipartUpload] was sent, and
    the tasks hold part requests. *)
Definition not_completed (s : State) : Prop :=
  (has_abort (trace s) = true -> multipart_upload_aborted s = true) /\
  answered is_complete (trace s) = 0%nat /\
  Forall (fun task => forall r, req task = Some r -> is_upload r = true) (bg_tasks s).

Definition keeps_not_completed (s s' : State) : Prop :=
  not_completed s -> not_completed s'.

(** Every task that has a request has a part request. *)
Definition holds_part_requests (s : State) : Prop :=
  Forall (fun task => forall r, req task = Some r -> is_upload r = true) (bg_tasks s).

(** A step of a multipart upload: requests of the multipart protocol are
    added to the record of the requests, nothing is taken from it. *)
Definition multipart_step (s s' : State) : Prop :=
  holds_part_requests s ->
  holds_part_requests s' /\
  exists sent,
    trace s' = trace s ++ sent /\
    Forall (fun entry => is_multipart (fst entry) = true) sent.

(** The helper as its constructor leaves it. *)
Definition construct (c : Config) (script : list (list PoolEvent)) : State :=
  mkState c 0 "" false [] [] 0 0 [] [] script.

(** A task as [uploadPart] hands it to the thread pool. *)
Definition queued (r : Request) : UploadPartTask :=
  mkUploadPartTask (Some r) false "" None Queued.

(** [uploadPart] has added the task for the request [r]. *)
Definition enqueue (r : Request) (s : State) : State :=
  set_num_added_bg_tasks (num_added_bg_tasks s + 1) (set_bg_tasks (bg_tasks s ++ [queued r]) s).

Section Order.

(** The tag the server gives to a part. *)
Variable etag_of : Request -> string.

(** A task that is with the thread pool and has not failed; when it has
    returned, it holds the tag of its part. *)
Definition task_on_course (t : UploadPartTask) : Prop :=
  exception t = None /\ stage t <> NotScheduled /\
  exists r, req t = Some r /\ is_upload r = true /\ (stage t = Returned -> tag t = etag_of r).

(** A multipart upload with a thread pool, before the tags are collected,
    in which nothing has failed. *)
Definition on_course (s : State) : Prop :=
  schedule (config s) = true /\ multipart_upload_aborted s = false /\ part_tags s = [] /\
  Forall task_on_course (bg_tasks s).

(** What the calling thread has decided so far: the parts, in the order in
    which it has scheduled them. *)
Definition plan (s : State) :=
  (config s, normal_part_size s, multipart_upload_id s, map req (bg_tasks s)).

Definition returned (s : State) (i : nat) : Prop :=
  exists t, nth_error (bg_tasks s) i = Some t /\ stage t = Returned.

(** What a step of the thread pool does to an upload that is on course. *)
Definition pool_step (s s' : State) : Prop :=
  on_course s ->
  on_course s' /\ plan s' = plan s /\ forall i, returned s i -> returned s' i.

(** Two uploads on course with the same plan. *)
Definition alike (s1 s2 : State) : Prop :=
  on_course s1 /\ on_course s2 /\ plan s1 = plan s2.

(** The tags of the planned parts, in the order of the plan. *)
Definition planned_tags (reqs : list (option Request)) : list string :=
  map (fun o => match o with Some r => etag_of r | None => "" end) reqs.

End Order.

(** [tasks[i] = f(tasks[i])]; nothing for an index out of range. *)
Fixpoint update_nth {A} (i : nat) (f : A -> A) (l : list A) : list A :=
  match l, i with
  | [], _ => []
  | x :: r, O => f x :: r
  | x :: r, S j => x :: update_nth j f r
  end.

Definition update_task (i : nat) (f : UploadPartTask -> UploadPartTask) (s : State) : State :=
  set_bg_tasks (update_nth i f (bg_tasks s)) s.

(** [CompletedMultipartUpload]: the loop [for (size_t i = 0; i < part_tags.size(); ++i)]. *)
Fixpoint completed_parts_from (i : Z) (tags : list string) : list CompletedPart :=
  match tags with
  | [] => []
  | t :: rest => mkCompletedPart t (static_cast_int (i + 1)) :: completed_parts_from (i + 1) rest
  end.

Definition completed_parts (tags : list string) : list CompletedPart :=
  completed_parts_from 0 tags.

(** The entries of the payload that the tasks stand for which have
    returned: the tag of each with the part number of its request. *)
Definition returned_parts (tasks : list UploadPartTask) : list CompletedPart :=
  flat_map (fun t => match stage t, req t with
                     | Returned, Some r => [mkCompletedPart (tag t) (part_number_of r)]
                     | _, _ => []
                     end) tasks.

(** A task that the thread pool was given and that has not failed. *)
Definition task_sound (t : UploadPartTask) : Prop :=
  exception t = None /\ stage t <> NotScheduled /\
  exists r, req t = Some r /\ is_upload r = true.

(** The tasks hold the part numbers 1, 2, 3, ... in their order. *)
Definition tasks_numbered (tasks : list UploadPartTask) : Prop :=
  forall j t r, nth_error tasks j = Some t -> req t = Some r ->
    part_number_of r = static_cast_int (Z.of_nat j + 1).

(** The ledger of a multipart upload in which nothing has failed, before
    the tags of the tasks are collected: every part request that was
    answered has its entry, with the tag the server returned, either among
    the tags recorded or in a task that has returned. *)
Definition ledger (s : State) : Prop :=
  multipart_upload_aborted s = false /\
  Forall task_sound (bg_tasks s) /\
  (schedule (config s) = false -> bg_tasks s = []) /\
  (schedule (config s) = true -> part_tags s = []) /\
  tasks_numbered (bg_tasks s) /\
  Permutation (map completed_of (upload_entries (trace s)))
    (completed_parts (part_tags s) ++ returned_parts (bg_tasks s)).

(** A task that has returned stays so, and no task is dropped. *)
Definition keeps_returned (s s' : State) : Prop :=
  (List.length (bg_tasks s) <= List.length (bg_tasks s'))%nat /\
  forall i t, nth_error (bg_tasks s) i = Some t -> stage t = Returned ->
    exists t', nth_error (bg_tasks s') i = Some t' /\ stage t' = Returned.

(** What a step of the helper does to the ledger when it returns: if no
    part was refused by the end of the step, none was before, and the
    ledger is kept. *)
Definition ledger_step (s s' : State) : Prop :=
  keeps_returned s s' /\
  (has_failed_upload (trace s') = false ->
   has_failed_upload (trace s) = false /\ (ledger s -> ledger s')).

(** What the thread pool leaves alone: the members the calling thread sets,
    the tags collected and the number of the tasks. *)
Definition pool_frame (s s' : State) : Prop :=
  config s' = config s /\ normal_part_size s' = normal_part_size s /\
  multipart_upload_id s' = multipart_upload_id s /\ part_tags s' = part_tags s /\
  List.length (bg_tasks s') = List.length (bg_tasks s).

(** The parts the calling thread has handed to [uploadPart] so far. *)
Definition parts_so_far (s : State) : Z :=
  Z.of_nat (List.length (part_tags s) + List.length (bg_tasks s)).

Section WithClient.

Variable client : Client.

Definition send (r : Request) : M State Outcome :=
  fun s => let o := client (trace s) r in Ok o (set_trace (trace s ++ [(r, o)]) s).

Definition LOG (m : LogMessage) : M State unit :=
  modify (fun s => set_log (log s ++ [m]) s).

Definition createMultipartUpload : M State unit :=
  outcome <- send CreateMultipartUploadRequest ;;
  match outcome with
  | Success upload_id => modify (set_multipart_upload_id upload_id)
  | Failure e => throw (S3Exception (GetErrorType e) (GetMessage e))
  end.

(** The loop [for (size_t retries = 1;; ++retries)] of
    [completeMultipartUpload]. *)
Fixpoint complete_retry_loop (fuel : nat) (retries max_retries : Z) (request : Request)
  : M State unit :=
  match fuel with
  | O => fun s => OutOfFuel s
  | S fuel' =>
      outcome <- send request ;;
      match outcome with
      | Success _ => ret tt
      | Failure e =>
          match GetErrorType e with
          | NO_SUCH_KEY =>
              if retries <? max_retries
              then LOG WillRetry ;; complete_retry_loop fuel' (wrap (retries + 1)) max_retries request
              else throw (S3Exception (GetErrorType e) (GetMessage e))
          | _ => throw (S3Exception (GetErrorType e) (GetMessage e))
          end
      end
  end.

Definition completeMultipartUpload : M State unit :=
  aborted <- gets multipart_upload_aborted ;;
  if aborted then ret tt
  else
    tags <- gets part_tags ;;
    match tags with
    | [] => throw (DBException S3_ERROR "Failed to complete multipart upload. No parts have uploaded")
    | _ =>
        upload_id <- gets multipart_upload_id ;;
        let request := CompleteMultipartUploadRequest upload_id (completed_parts tags) in
        max_retries <- gets (fun s => std_max (max_unexpected_write_error_retries (config s)) 1) ;;
        complete_retry_loop (Z.to_nat max_retries) 1 max_retries request
    end.

Definition abortMultipartUpload : M State unit :=
  upload_id <- gets multipart_upload_id ;;
  _ <- send (AbortMultipartUploadRequest upload_id) ;;
  modify (set_multipart_upload_aborted true).

(** Modelled from the spec: [S3::checkObjectExists] is defined outside the two
    files (IO/S3Common.cpp); section 4.D: "issue a HEAD on the destination;
    absence => Remote". *)
Definition checkObjectAfterUpload : M State unit :=
  outcome <- send HeadObjectRequest ;;
  match outcome with
  | Success _ => ret tt
  | Failure e => throw (S3Exception (GetErrorType e) (GetMessage e))
  end.

Definition calculatePartSize (total_size : Z) : M State unit :=
  fun s =>
    let st := settings (config s) in
    if total_size =? 0 then
      Throw (DBException LOGICAL_ERROR
               "Chosen multipart upload for an empty file. This must not happen") s
    else if max_part_number st =? 0 then
      Throw (DBException INVALID_CONFIG_PARAMETER "max_part_number must not be 0") s
    else if min_upload_part_size st =? 0 then
      Throw (DBException INVALID_CONFIG_PARAMETER "min_upload_part_size must not be 0") s
    else if max_upload_part_size st <? min_upload_part_size st then
      Throw (DBException INVALID_CONFIG_PARAMETER
               "max_upload_part_size must not be less than min_upload_part_size") s
    else
      let part_size := min_upload_part_size st in
      let num_parts := wrap (total_size + part_size - 1) / part_size in
      let part_size1 :=
        if max_part_number st <? num_parts
        then wrap (total_size + max_part_number st - 1) / max_part_number st
        else part_size in
      if part_size1 =? 0 then Undefined s   (* the division below is by zero *)
      else
        let num_parts1 :=
          if max_part_number st <? num_parts
          then wrap (total_size + part_size1 - 1) / part_size1
          else num_parts in
        let part_size2 :=
          if max_upload_part_size st <? part_size1 then max_upload_part_size st else part_size1 in
        let num_parts2 :=
          if max_upload_part_size st <? part_size1
          then wrap (total_size + part_size2 - 1) / part_size2
          else num_parts1 in
        if (num_parts2 <? 1) || (max_part_number st <? num_parts2)
           || (part_size2 <? min_upload_part_size st) || (max_upload_part_size st <? part_size2)
        then
          let msg :=
            if num_parts2 <? 1 then "Number of parts is zero"
            else if max_part_number st <? num_parts2 then "Number of parts exceeds"
            else if part_size2 <? min_upload_part_size st then "Size of a part is less than"
            else "Size of a part exceeds" in
          Throw (DBException INVALID_CONFIG_PARAMETER msg) s
        else
          Ok tt (set_normal_part_size part_size2 s).

Definition fillUploadPartRequest (part_number part_offset part_size : Z) : M State Request :=
  cls <- gets (fun s => helper_class (config s)) ;;
  upload_id <- gets multipart_upload_id ;;
  match cls with
  | CopyDataToFileHelper =>
      ret (UploadPartRequest upload_id (static_cast_int part_number) part_size
             (SourceRange part_offset part_size))
  | CopyFileHelper =>
      ret (UploadPartCopyRequest upload_id (static_cast_int part_number)
             part_offset (wrap (part_offset + part_size - 1)))
  end.

Definition processUploadPartRequest (request : Request) : M State string :=
  cls <- gets (fun s => helper_class (config s)) ;;
  outcome <- send request ;;
  match outcome with
  | Success etag => ret etag
  | Failure e =>
      abortMultipartUpload ;;
      match cls with
      | CopyDataToFileHelper => throw (S3Exception (GetErrorType e) (GetMessage e))
      | CopyFileHelper => throw (DBException S3_ERROR (GetMessage e))
      end
  end.

(** [processUploadTask] after its test of [multipart_upload_aborted]. *)
Definition processUploadTask_request (task : UploadPartTask) : M State UploadPartTask :=
  match req task with
  | None => undefined
  | Some r =>
      etag <- processUploadPartRequest r ;;
      ret (with_tag etag task)
  end.

Definition processUploadTask (task : UploadPartTask) : M State UploadPartTask :=
  aborted <- gets multipart_upload_aborted ;;
  if aborted then ret task
  else processUploadTask_request task.

(** The lambda [task_finish_notify]. *)
Definition task_finish_notify (i : nat) (s : State) : State :=
  set_num_finished_bg_tasks (num_finished_bg_tasks s + 1) (update_task i finished s).

(** The closure given to [schedule], in two steps: up to the point where the
    request is sent, and from the answer on. *)
Definition task_begins (i : nat) : M State unit :=
  fun s =>
    match nth_error (bg_tasks s) i with
    | Some task =>
        match stage task with
        | Queued =>
            if multipart_upload_aborted s
            then Ok tt (task_finish_notify i s)
            else Ok tt (update_task i (with_stage Running) s)
        | _ => Ok tt s
        end
    | None => Ok tt s
    end.

Definition task_ends (i : nat) : M State unit :=
  fun s =>
    match nth_error (bg_tasks s) i with
    | Some task =>
        match stage task with
        | Running =>
            match processUploadTask_request task s with
            | Ok task' s' => Ok tt (task_finish_notify i (update_task i (with_tag (tag task')) s'))
            | Throw e s' => Ok tt (task_finish_notify i (update_task i (with_exception e) s'))
            | Undefined s' => Undefined s'
            | OutOfFuel s' => OutOfFuel s'
            | Blocked s' => Blocked s'
            end
        | _ => Ok tt s
        end
    | None => Ok tt s
    end.

Definition pool_event (ev : PoolEvent) : M State unit :=
  match ev with
  | TaskBegins i => task_begins i
  | TaskEnds i => task_ends i
  end.

Fixpoint pool_events (evs : list PoolEvent) : M State unit :=
  match evs with
  | [] => ret tt
  | ev :: rest => pool_event ev ;; pool_events rest
  end.

(** The calling thread hands over: the thread pool takes the steps the
    script lists next. *)
Definition pool_turn : M State unit :=
  script <- gets pool_script ;;
  match script with
  | [] => ret tt
  | evs :: rest => modify (set_pool_script rest) ;; pool_events evs
  end.

(** Every closure still in the pool runs to its end. *)
Fixpoint pool_finish (indices : list nat) : M State unit :=
  match indices with
  | [] => ret tt
  | i :: rest => task_begins i ;; task_ends i ;; pool_finish rest
  end.

(** [bg_tasks_condvar.wait(lock, num_added_bg_tasks == num_finished_bg_tasks)] *)
Definition condvar_wait : M State unit :=
  pool_turn ;;
  n <- gets (fun s => List.length (bg_tasks s)) ;;
  pool_finish (seq 0 n) ;;
  added <- gets num_added_bg_tasks ;;
  finished <- gets num_finished_bg_tasks ;;
  if added =? finished then ret tt else (fun s => Blocked s).

Definition uploadPart (part_number part_offset part_size : Z) : M State unit :=
  if part_size =? 0 then LOG SkippingEmptyPart
  else
    scheduled <- gets (fun s => schedule (config s)) ;;
    if scheduled then
      i <- gets (fun s => List.length (bg_tasks s)) ;;
      modify (fun s => set_num_added_bg_tasks (num_added_bg_tasks s + 1)
                         (set_bg_tasks (bg_tasks s ++ [new_task]) s)) ;;
      try_rethrow
        (r <- fillUploadPartRequest part_number part_offset part_size ;;
         modify (update_task i (with_req r)) ;;
         modify (update_task i (with_stage Queued)))
        (task_finish_notify i) ;;
      pool_turn
    else
      r <- fillUploadPartRequest part_number part_offset part_size ;;
      task <- processUploadTask (with_req r new_task) ;;
      modify (fun s => set_part_tags (part_tags s ++ [tag task]) s).

(** The loop [for (auto & task : tasks)] of [waitForAllBackGroundTasks]. *)
Fixpoint collect_tags (tasks : list UploadPartTask) : M State unit :=
  match tasks with
  | [] => ret tt
  | task :: rest =>
      match exception task with
      | Some e => abortMultipartUpload ;; throw e
      | None =>
          modify (fun s => set_part_tags (part_tags s ++ [tag task]) s) ;;
          collect_tags rest
      end
  end.

Definition waitForAllBackGroundTasks : M State unit :=
  scheduled <- gets (fun s => schedule (config s)) ;;
  if negb scheduled then ret tt
  else
    condvar_wait ;;
    tasks <- gets bg_tasks ;;
    collect_tags tasks.

(** The loop [for (size_t part_number = 1; position < end_position; ++part_number)]. *)
Fixpoint upload_parts_loop (fuel : nat) (part_number position end_position : Z) : M State unit :=
  if position <? end_position then
    match fuel with
    | O => fun s => OutOfFuel s
    | S fuel' =>
        aborted <- gets multipart_upload_aborted ;;
        if aborted then ret tt
        else
          normal <- gets normal_part_size ;;
          let next_position := std_min (wrap (position + normal)) end_position in
          let part_size := wrap (next_position - position) in
          uploadPart part_number position part_size ;;
          upload_parts_loop fuel' (wrap (part_number + 1)) next_position end_position
    end
  else ret tt.

Definition performMultipartUpload (start_offset size : Z) : M State unit :=
  calculatePartSize size ;;
  createMultipartUpload ;;
  let position := start_offset in
  let end_position := wrap (start_offset + size) in
  normal <- gets normal_part_size ;;
  upload_parts_loop (Z.to_nat (ceil_div size normal)) 1 position end_position ;;
  waitForAllBackGroundTasks ;;
  completeMultipartUpload.

(** ** [CopyDataToFileHelper] *)

Definition CopyDataToFileHelper_performMultipartUpload : M State unit :=
  start_offset <- gets (fun s => offset (config s)) ;;
  total <- gets (fun s => size (config s)) ;;
  performMultipartUpload start_offset total.

Definition fillPutRequest : M State Request :=
  start_offset <- gets (fun s => offset (config s)) ;;
  total <- gets (fun s => size (config s)) ;;
  ret (PutObjectRequest total (SourceRange start_offset total)).

(** The loop [for (size_t retries = 1;; ++retries)] of [processPutRequest]. *)
Fixpoint put_retry_loop (fuel : nat) (retries max_retries : Z) (request : Request)
  : M State unit :=
  match fuel with
  | O => fun s => OutOfFuel s
  | S fuel' =>
      outcome <- send request ;;
      match outcome with
      | Success _ => ret tt
      | Failure e =>
          if is_too_large e then
            LOG WillRetryWithMultipart ;;
            CopyDataToFileHelper_performMultipartUpload
          else if is_no_such_key e && (retries <? max_retries) then
            LOG WillRetry ;;
            put_retry_loop fuel' (wrap (retries + 1)) max_retries request
          else throw (S3Exception (GetErrorType e) (GetMessage e))
      end
  end.

Definition processPutRequest (request : Request) : M State unit :=
  max_retries <- gets (fun s => std_max (max_unexpected_write_error_retries (config s)) 1) ;;
  put_retry_loop (Z.to_nat max_retries) 1 max_retries request.

Definition performSinglepartUpload : M State unit :=
  request <- fillPutRequest ;;
  processPutRequest request.

Definition CopyDataToFileHelper_performCopy : M State unit :=
  total <- gets (fun s => size (config s)) ;;
  limit <- gets (fun s => max_single_part_upload_size (settings (config s))) ;;
  (if total <=? limit then performSinglepartUpload
   else CopyDataToFileHelper_performMultipartUpload) ;;
  check <- gets (fun s => check_objects_after_upload (config s)) ;;
  if check then checkObjectAfterUpload else ret tt.

(** ** [CopyFileHelper] *)

Definition performMultipartUploadCopy : M State unit :=
  start_offset <- gets (fun s => offset (config s)) ;;
  total <- gets (fun s => size (config s)) ;;
  performMultipartUpload start_offset total.

Definition fillCopyRequest : M State Request := ret CopyObjectRequest.

(** The loop [for (size_t retries = 1;; ++retries)] of [processCopyRequest]. *)
Fixpoint copy_retry_loop (fuel : nat) (retries max_retries : Z) (request : Request)
  : M State unit :=
  match fuel with
  | O => fun s => OutOfFuel s
  | S fuel' =>
      outcome <- send request ;;
      match outcome with
      | Success _ => ret tt
      | Failure e =>
          if is_too_large e then
            LOG WillRetryWithMultipart ;;
            performMultipartUploadCopy
          else if is_no_such_key e && (retries <? max_retries) then
            LOG WillRetry ;;
            copy_retry_loop fuel' (wrap (retries + 1)) max_retries request
          else throw (S3Exception (GetErrorType e) (GetMessage e))
      end
  end.

Definition processCopyRequest (request : Request) : M State unit :=
  max_retries <- gets (fun s => std_max (max_unexpected_write_error_retries (config s)) 1) ;;
  copy_retry_loop (Z.to_nat max_retries) 1 max_retries request.

Definition performSingleOperationCopy : M State unit :=
  request <- fillCopyRequest ;;
  processCopyRequest request.

Definition CopyFileHelper_performCopy : M State unit :=
  total <- gets (fun s => size (config s)) ;;
  limit <- gets (fun s => max_single_operation_copy_size (settings (config s))) ;;
  (if total <=? limit then performSingleOperationCopy
   else performMultipartUploadCopy) ;;
  check <- gets (fun s => check_objects_after_upload (config s)) ;;
  if check then checkObjectAfterUpload else ret tt.

End WithClient.

End UploadHelper.

(** ** The functions [copyDataToS3File] and [copyS3File]

    Each builds its helper from its arguments and calls [performCopy]; the
    request settings give the policy, [check_objects_after_upload] and
    [max_unexpected_write_error_retries]. *)

Definition copyDataToS3File (client : Client) (offset size : Z)
    (settings : PartUploadSettings) (check_objects_after_upload : bool)
    (max_unexpected_write_error_retries : Z) (schedule : bool)
    (script : list (list UploadHelper.PoolEvent)) : Result UploadHelper.State unit :=
  UploadHelper.CopyDataToFileHelper_performCopy client
    (UploadHelper.construct
       (UploadHelper.mkConfig UploadHelper.CopyDataToFileHelper settings
          check_objects_after_upload max_unexpected_write_error_retries schedule offset size)
       script).

Definition copyS3File (client : Client) (src_offset src_size : Z)
    (settings : PartUploadSettings) (check_objects_after_upload : bool)
    (max_unexpected_write_error_retries : Z) (schedule : bool)
    (script : list (list UploadHelper.PoolEvent)) : Result UploadHelper.State unit :=
  UploadHelper.CopyFileHelper_performCopy client
    (UploadHelper.construct
       (UploadHelper.mkConfig UploadHelper.CopyFileHelper settings
          check_objects_after_upload max_unexpected_write_error_retries schedule
          src_offset src_size)
       script).

(** * WriteBufferFromS3.cpp *)

Module WriteBufferFromS3.

Definition S3_WARN_MAX_PARTS : Z := 10000.

(** Where the closure of a task is: not yet handed to [schedule], waiting in
    the thread pool, or returned. *)
Inductive Stage : Type :=
| NotScheduled
| Queued
| Returned.

(** [task_id] names the task for the thread pool, as the pointer captured by
    its closure does. *)
Record UploadPartTask : Type := mkUploadPartTask {
  task_id : Z;
  req : Request;
  is_finished : bool;
  tag : string;
  exception : option Exception;
  stage : Stage
}.

(** A default-constructed [UploadPartRequest]. *)
Definition default_upload_request : Request := UploadPartRequest "" 0 0 (TemporaryBuffer 0).

Definition new_task (id : Z) : UploadPartTask :=
  mkUploadPartTask id default_upload_request false "" None NotScheduled.

Definition with_req (r : Request) (t : UploadPartTask) : UploadPartTask :=
  mkUploadPartTask (task_id t) r (is_finished t) (tag t) (exception t) (stage t).
Definition with_tag (x : string) (t : UploadPartTask) : UploadPartTask :=
  mkUploadPartTask (task_id t) (req t) (is_finished t) x (exception t) (stage t).
Definition with_exception (e : Exception) (t : UploadPartTask) : UploadPartTask :=
  mkUploadPartTask (task_id t) (req t) (is_finished t) (tag t) (Some e) (stage t).
Definition with_stage (g : Stage) (t : UploadPartTask) : UploadPartTask :=
  mkUploadPartTask (task_id t) (req t) (is_finished t) (tag t) (exception t) g.
Definition finished (t : UploadPartTask) : UploadPartTask :=
  mkUploadPartTask (task_id t) (req t) true (tag t) (exception t) Returned.

Record PutObjectTask : Type := mkPutObjectTask {
  put_req : Request;
  put_is_finished : bool;
  put_exception : option Exception;
  put_stage : Stage
}.

Definition default_put_request : Request := PutObjectRequest 0 (TemporaryBuffer 0).

Definition new_put_task : PutObjectTask :=
  mkPutObjectTask default_put_request false None NotScheduled.

(** What the thread pool does with the closures it was given. *)
Inductive PoolEvent : Type :=
| UploadTaskRuns (id : Z)
| PutTaskRuns.

Record Config : Type := mkConfig {
  settings : PartUploadSettings;
  check_objects_after_upload : bool;
  max_unexpected_write_error_retries : Z;
  schedule : bool
}.

(** [working_offset] is [offset()], the bytes the producer put in the working
    buffer since the last [next()]; [temporary_buffer] is the number of bytes
    in the stream of that name, its [tellp()]. *)
Record State : Type := mkState {
  config : Config;
  working_offset : Z;
  upload_part_size : Z;
  temporary_buffer : Z;
  last_part_size : Z;
  part_number : Z;
  multipart_upload_id : string;
  part_tags : list string;
  is_prefinalized : bool;
  put_object_task : option PutObjectTask;
  upload_object_tasks : list UploadPartTask;
  num_added_bg_tasks : Z;
  num_finished_bg_tasks : Z;
  trace : Trace;
  log : list LogMessage;
  pool_script : list (list PoolEvent)
}.

Definition set_working_offset (x : Z) (s : State) : State :=
  mkState (config s) x (upload_part_size s) (temporary_buffer s) (last_part_size s)
    (part_number s) (multipart_upload_id s) (part_tags s) (is_prefinalized s) (put_object_task s)
    (upload_object_tasks s) (num_added_bg_tasks s) (num_finished_bg_tasks s) (trace s) (log s)
    (pool_script s).
Definition set_upload_part_size (x : Z) (s : State) : State :=
  mkState (config s) (working_offset s) x (temporary_buffer s) (last_part_size s)
    (part_number s) (multipart_upload_id s) (part_tags s) (is_prefinalized s) (put_object_task s)
    (upload_object_tasks s) (num_added_bg_tasks s) (num_finished_bg_tasks s) (trace s) (log s)
    (pool_script s).
Definition set_temporary_buffer (x : Z) (s : State) : State :=
  mkState (config s) (working_offset s) (upload_part_size s) x (last_part_size s)
    (part_number s) (multipart_upload_id s) (part_tags s) (is_prefinalized s) (put_object_task s)
    (upload_object_tasks s) (num_added_bg_tasks s) (num_finished_bg_tasks s) (trace s) (log s)
    (pool_script s).
Definition set_last_part_size (x : Z) (s : State) : State :=
  mkState (config s) (working_offset s) (upload_part_size s) (temporary_buffer s) x
    (part_number s) (multipart_upload_id s) (part_tags s) (is_prefinalized s) (put_object_task s)
    (upload_object_tasks s) (num_added_bg_tasks s) (num_finished_bg_tasks s) (trace s) (log s)
    (pool_script s).
Definition set_part_number (x : Z) (s : State) : State :=
  mkState (config s) (working_offset s) (upload_part_size s) (temporary_buffer s) (last_part_size s)
    x (multipart_upload_id s) (part_tags s) (is_prefinalized s) (put_object_task s)
    (upload_object_tasks s) (num_added_bg_tasks s) (num_finished_bg_tasks s) (trace s) (log s)
    (pool_script s).
Definition set_multipart_upload_id (x : string) (s : State) : State :=
  mkState (config s) (working_offset s) (upload_part_size s) (temporary_buffer s) (last_part_size s)
    (part_number s) x (part_tags s) (is_prefinalized s) (put_object_task s)
    (upload_object_tasks s) (num_added_bg_tasks s) (num_finished_bg_tasks s) (trace s) (log s)
    (pool_script s).
Definition set_part_tags (x : list string) (s : State) : State :=
  mkState (config s) (working_offset s) (upload_part_size s) (temporary_buffer s) (last_part_size s)
    (part_number s) (multipart_upload_id s) x (is_prefinalized s) (put_object_task s)
    (upload_object_tasks s) (num_added_bg_tasks s) (num_finished_bg_tasks s) (trace s) (log s)
    (pool_script s).
Definition set_is_prefinalized (x : bool) (s : State) : State :=
  mkState (config s) (working_offset s) (upload_part_size s) (temporary_buffer s) (last_part_size s)
    (part_number s) (multipart_upload_id s) (part_tags s) x (put_object_task s)
    (upload_object_tasks s) (num_added_bg_tasks s) (num_finished_bg_tasks s) (trace s) (log s)
    (pool_script s).
Definition set_put_object_task (x : option PutObjectTask) (s : State) : State :=
  mkState (config s) (working_offset s) (upload_part_size s) (temporary_buffer s) (last_part_size s)
    (part_number s) (multipart_upload_id s) (part_tags s) (is_prefinalized s) x
    (upload_object_tasks s) (num_added_bg_tasks s) (num_finished_bg_tasks s) (trace s) (log s)
    (pool_script s).
Definition set_upload_object_tasks (x : list UploadPartTask) (s : State) : State :=
  mkState (config s) (working_offset s) (upload_part_size s) (temporary_buffer s) (last_part_size s)
    (part_number s) (multipart_upload_id s) (part_tags s) (is_prefinalized s) (put_object_task s)
    x (num_added_bg_tasks s) (num_finished_bg_tasks s) (trace s) (log s)
    (pool_script s).
Definition set_num_added_bg_tasks (x : Z) (s : State) : State :=
  mkState (config s) (working_offset s) (upload_part_size s) (temporary_buffer s) (last_part_size s)
    (part_number s) (multipart_upload_id s) (part_tags s) (is_prefinalized s) (put_object_task s)
    (upload_object_tasks s) x (num_finished_bg_tasks s) (trace s) (log s)
    (pool_script s).
Definition set_num_finished_bg_tasks (x : Z) (s : State) : State :=
  mkState (config s) (working_offset s) (upload_part_size s) (temporary_buffer s) (last_part_size s)
    (part_number s) (multipart_upload_id s) (part_tags s) (is_prefinalized s) (put_object_task s)
    (upload_object_tasks s) (num_added_bg_tasks s) x (trace s) (log s)
    (pool_script s).
Definition set_trace (x : Trace) (s : State) : State :=
  mkState (config s) (working_offset s) (upload_part_size s) (temporary_buffer s) (last_part_size s)
    (part_number s) (multipart_upload_id s) (part_tags s) (is_prefinalized s) (put_object_task s)
    (upload_object_tasks s) (num_added_bg_tasks s) (num_finished_bg_tasks s) x (log s)
    (pool_script s).
Definition set_log (x : list LogMessage) (s : State) : State :=
  mkState (config s) (working_offset s) (upload_part_size s) (temporary_buffer s) (last_part_size s)
    (part_number s) (multipart_upload_id s) (part_tags s) (is_prefinalized s) (put_object_task s)
    (upload_object_tasks s) (num_added_bg_tasks s) (num_finished_bg_tasks s) (trace s) x
    (pool_script s).
Definition set_pool_script (x : list (list PoolEvent)) (s : State) : State :=
  mkState (config s) (working_offset s) (upload_part_size s) (temporary_buffer s) (last_part_size s)
    (part_number s) (multipart_upload_id s) (part_tags s) (is_prefinalized s) (put_object_task s)
    (upload_object_tasks s) (num_added_bg_tasks s) (num_finished_bg_tasks s) (trace s) (log s)
    x.

(** The members only the calling thread writes. *)
Definition front_end (s : State) :=
  (config s, working_offset s, upload_part_size s, temporary_buffer s, last_part_size s,
   part_number s, multipart_upload_id s, is_prefinalized s).

(** The tasks of the queue as the thread pool knows them. *)
Definition queue_view (s : State) : list (Z * Request) :=
  map (fun t => (task_id t, req t)) (upload_object_tasks s).

(** What the closures of the thread pool leave as it is. *)
Definition background_view (s : State) :=
  (front_end s, part_tags s, num_added_bg_tasks s, queue_view s).

(** What a request of the calling thread and the closure of the [PutObject]
    task leave as it is. *)
Definition queue_state (s : State) :=
  (front_end s, part_tags s, num_added_bg_tasks s, upload_object_tasks s).

(** The state in which [writePart] reaches its test of [schedule]. *)
Definition after_warning (s : State) : State :=
  if Z.of_nat (List.length (part_tags s)) =? S3_WARN_MAX_PARTS
  then set_log (log s ++ [MaximumPartNumberReached]) s
  else s.

(** The state in which the scheduling branch of [writePart] calls
    [fillUploadRequest]. *)
Definition with_new_task (s : State) : State :=
  set_num_added_bg_tasks (num_added_bg_tasks s + 1)
    (set_upload_object_tasks (upload_object_tasks s ++ [new_task (num_added_bg_tasks s)]) s).

(** How a member function may move the part counter: not at all, or to a
    number within [max_part_number]. *)
Definition counter_step (s s' : State) : Prop :=
  config s' = config s /\
  (part_number s' = part_number s \/
   part_number s' <= max_part_number (settings (config s))).

(** The requests a closure of the thread pool may send: the one of a task of
    the queue, or the one of the [PutObject] task. *)
Definition sendable (s : State) (r : Request) : Prop :=
  (exists t, In t (upload_object_tasks s) /\ req t = r) \/
  (exists t, put_object_task s = Some t /\ put_req t = r).

(** Nothing is taken from the log. *)
Definition log_grows (s s' : State) : Prop :=
  forall m, In m (log s) -> In m (log s').

(** The size that a part must exceed once [n] parts were numbered, as the
    policy has it: [min_upload_part_size], multiplied by the factor once for
    every [upload_part_size_multiply_parts_count_threshold] parts and capped
    at [max_upload_part_size]. *)
Definition grown_part_size (p : PartUploadSettings) (n : Z) : Z :=
  std_min
    (min_upload_part_size p
     * upload_part_size_multiply_factor p
       ^ (n / upload_part_size_multiply_parts_count_threshold p))
    (max_upload_part_size p).

(** A policy whose part size grows without leaving the [size_t]. *)
Definition growth_in_range (p : PartUploadSettings) : Prop :=
  0 < min_upload_part_size p <= max_upload_part_size p /\
  1 <= upload_part_size_multiply_factor p /\
  0 < upload_part_size_multiply_parts_count_threshold p /\
  max_upload_part_size p * upload_part_size_multiply_factor p < SIZE_MODULUS /\
  0 <= max_part_number p < SIZE_MODULUS - 1.

(** The counter of the parts is within the policy and [upload_part_size] is
    what the policy makes of it. *)
Definition sized (s : State) : Prop :=
  0 <= part_number s <= max_part_number (settings (config s)) /\
  upload_part_size s = grown_part_size (settings (config s)) (part_number s).

Definition sizing_step (s s' : State) : Prop :=
  config s' = config s /\ (sized s -> sized s').

(** The bytes of the parts that wait in the thread pool. *)
Definition queued_bytes (tasks : list UploadPartTask) : Z :=
  fold_right (fun t total => match stage t with
                             | Queued => part_length (req t) + total
                             | _ => total
                             end) 0 tasks.

(** The bytes that left the temporary buffer as parts: those of the part
    requests sent and those of the parts that wait in the thread pool. *)
Definition parted_bytes (s : State) : Z :=
  part_bytes (trace s) + queued_bytes (upload_object_tasks s).

(** The queue as [writePart] and the closures keep it: every task has a
    number of its own, below the counter of the tasks added, and holds a
    part request; a finished task does not wait in the pool; there are
    tasks only with a thread pool; the [PutObject] task holds no part
    request; and a part that the server refused has left its exception in a
    task of the queue. *)
Definition queue_in_order (s : State) : Prop :=
  NoDup (map task_id (upload_object_tasks s)) /\
  Forall (fun t => task_id t < num_added_bg_tasks s /\ is_upload (req t) = true /\
                   (is_finished t = true -> stage t <> Queued))
    (upload_object_tasks s) /\
  (schedule (config s) = false -> upload_object_tasks s = []) /\
  (forall t, put_object_task s = Some t -> is_upload (put_req t) = false) /\
  (has_failed_upload (trace s) = true ->
   Exists (fun t => exception t <> None) (upload_object_tasks s)).

(** No [PutObject] was sent and none is planned. *)
Definition no_put (s : State) : Prop :=
  put_object_task s = None /\ answered is_put (trace s) = 0%nat.

(** No task with the number [id] waits in the thread pool. *)
Definition settled (s : State) (id : Z) : Prop :=
  forall t, In t (upload_object_tasks s) -> task_id t = id -> stage t <> Queued.

(** What a step of the thread pool does to a queue in order: the bytes of
    a part pass from the queue to the trace, and no task goes back to the
    pool. *)
Definition settling_step (s s' : State) : Prop :=
  queue_in_order s ->
  queue_in_order s' /\ parted_bytes s' = parted_bytes s /\
  (no_put s -> no_put s') /\
  map task_id (upload_object_tasks s') = map task_id (upload_object_tasks s) /\
  forall id, settled s id -> settled s' id.

(** What a step of the calling thread does to a queue in order when it
    turns [d] bytes into parts. *)
Definition parting_step (d : Z) (s s' : State) : Prop :=
  queue_in_order s ->
  queue_in_order s' /\ parted_bytes s' = parted_bytes s + d /\ (no_put s -> no_put s').

(** A step that sends no part request and leaves the queue alone. *)
Definition quiet_step (s s' : State) : Prop :=
  upload_object_tasks s' = upload_object_tasks s /\
  num_added_bg_tasks s' = num_added_bg_tasks s /\
  config s' = config s /\
  option_map put_req (put_object_task s') = option_map put_req (put_object_task s) /\
  exists sent,
    trace s' = trace s ++ sent /\
    Forall (fun entry => is_upload (fst entry) = false) sent.

(** Every request sent so far, and every request that waits in the thread
    pool to be sent, is of the kind [P]. *)
Definition requests_are (P : Request -> Prop) (s : State) : Prop :=
  Forall (fun entry => P (fst entry)) (trace s) /\
  Forall (fun t => stage t = Queued -> P (req t)) (upload_object_tasks s) /\
  (forall t, put_object_task s = Some t -> put_stage t = Queued -> P (put_req t)).

Definition keeps_requests (P : Request -> Prop) (s s' : State) : Prop :=
  requests_are P s -> requests_are P s'.

(** Every part request sent so far, and every one that waits in the thread
    pool, carries a part number within [max_part_number]. *)
Definition within_ceiling (s : State) : Prop :=
  requests_are (numbered_within (max_part_number (settings (config s)))) s.

(** What a step of the buffer keeps, however it ends. *)
Definition ceiling_step (s s' : State) : Prop :=
  config s' = config s /\ (within_ceiling s -> within_ceiling s').

(** The part request [request] of the task numbered [id] was handed to the
    thread pool when the requests [before] had been answered: its task is
    in the queue, the first of its number, and it waits in the pool or has
    returned, and then the request was sent. *)
Definition handed_over (id : Z) (request : Request) (before : Trace) (s : State) : Prop :=
  exists pre task post sent,
    upload_object_tasks s = pre ++ task :: post /\
    Forall (fun t => task_id t <> id) pre /\
    task_id task = id /\ req task = request /\
    trace s = before ++ sent /\
    (stage task = Queued \/
     (stage task = Returned /\ exists answer, In (request, answer) sent)).

(** A buffer between two writes that has cut nothing but full parts; of the
    bytes given to it, at most [written] are in the temporary buffer. *)
Definition cut_in_full (written : Z) (s : State) : Prop :=
  requests_are (full_part (min_upload_part_size (settings (config s)))) s /\
  sized s /\ last_part_size s = temporary_buffer s /\
  0 <= temporary_buffer s <= written /\
  working_offset s = 0 /\ is_prefinalized s = false.

(** Nothing is taken from the trace. *)
Definition trace_grows (s s' : State) : Prop :=
  exists sent, trace s' = trace s ++ sent.

(** Of the [written] bytes given to the buffer, those that are not parts
    yet are in the temporary buffer; the working buffer is empty. *)
Definition accounted (written : Z) (s : State) : Prop :=
  queue_in_order s /\ working_offset s = 0 /\ is_prefinalized s = false /\
  0 <= temporary_buffer s /\
  parted_bytes s + temporary_buffer s = written.

(** The buffer that holds the [written] bytes it was given so far in its
    temporary buffer and has sent nothing. *)
Definition buffering (c : Config) (written : Z) (s : State) : Prop :=
  config s = c /\ working_offset s = 0 /\
  temporary_buffer s = written /\ last_part_size s = written /\
  multipart_upload_id s = "" /\ is_prefinalized s = false /\
  put_object_task s = None /\ upload_object_tasks s = [] /\
  num_added_bg_tasks s = num_finished_bg_tasks s /\ trace s = [].

(** The buffer whose [PutObject] task is with the thread pool. *)
Definition put_pending (c : Config) (request : Request) (s : State) : Prop :=
  config s = c /\ multipart_upload_id s = "" /\ upload_object_tasks s = [] /\
  num_added_bg_tasks s = num_finished_bg_tasks s /\ trace s = [] /\
  put_object_task s = Some (mkPutObjectTask request false None Queued).

(** The buffer whose [PutObject] task has run. *)
Definition put_settled (c : Config) (request : Request) (budget : Z) (first : Outcome)
    (s : State) : Prop :=
  config s = c /\ multipart_upload_id s = "" /\ upload_object_tasks s = [] /\
  num_added_bg_tasks s = num_finished_bg_tasks s /\
  single_shot_attempts request budget first (trace s) /\
  exists t, put_object_task s = Some t /\ put_stage t = Returned /\ put_is_finished t = true.

(** The buffer whose [PutObject] task has used up its budget on answers of
    [NoSuchKey] and has returned without an exception. *)
Definition put_exhausted (c : Config) (request : Request) (budget : Z) (s : State) : Prop :=
  config s = c /\ multipart_upload_id s = "" /\ upload_object_tasks s = [] /\
  num_added_bg_tasks s = num_finished_bg_tasks s /\
  Forall (phantom_attempt request) (trace s) /\
  Z.of_nat (List.length (trace s)) = budget /\
  exists t, put_object_task s = Some t /\ put_stage t = Returned /\
            put_is_finished t = true /\ put_exception t = None.

Section Order.

(** The tag the server gives to a part. *)
Variable etag_of : Request -> string.

(** A task that has not failed: it waits in the thread pool, or it has
    returned with the tag of its part. *)
Definition task_on_course (t : UploadPartTask) : Prop :=
  exception t = None /\ is_upload (req t) = true /\
  ((stage t = Queued /\ is_finished t = false) \/
   (stage t = Returned /\ is_finished t = true /\ tag t = etag_of (req t))).

(** A buffer with a thread pool in which no part has failed. *)
Definition on_course (s : State) : Prop :=
  schedule (config s) = true /\
  Forall task_on_course (upload_object_tasks s) /\
  NoDup (map task_id (upload_object_tasks s)) /\
  Forall (fun t => task_id t < num_added_bg_tasks s) (upload_object_tasks s).

(** The tags collected so far, followed by those of the parts that are
    still in the queue. *)
Definition eventual_tags (s : State) : list string :=
  part_tags s ++ map (fun t => etag_of (req t)) (upload_object_tasks s).

(** What the calling thread has decided so far. *)
Definition plan (s : State) := (front_end s, eventual_tags s).

Definition returned (s : State) (i : nat) : Prop :=
  exists t, nth_error (upload_object_tasks s) i = Some t /\ stage t = Returned.

(** What a step of the thread pool does to a buffer that is on course. *)
Definition pool_step (s s' : State) : Prop :=
  on_course s ->
  on_course s' /\ plan s' = plan s /\
  map task_id (upload_object_tasks s') = map task_id (upload_object_tasks s) /\
  forall i, returned s i -> returned s' i.

(** What waiting for the thread pool does to a buffer that is on course. *)
Definition wait_step (s s' : State) : Prop :=
  on_course s -> on_course s' /\ plan s' = plan s.

(** Two buffers on course with the same plan. *)
Definition alike (s1 s2 : State) : Prop :=
  on_course s1 /\ on_course s2 /\ plan s1 = plan s2.

(** The parts decided so far were numbered 1, 2, 3, ... and the counter is
    at the last number. *)
Definition numbered (s : State) : Prop :=
  exists reqs,
    eventual_tags s = map etag_of reqs /\ in_part_number_order reqs /\
    part_number s = Z.of_nat (List.length reqs) /\
    part_number s <= max_part_number (settings (config s)).

(** What a step of the calling thread does to a buffer that is on course
    and has numbered its parts. *)
Definition numbering_step (s s' : State) : Prop :=
  on_course s -> numbered s -> on_course s' /\ numbered s' /\ config s' = config s.

End Order.

(** The buffer as its constructor leaves it: [upload_part_size] starts at
    [min_upload_part_size] and [allocateBuffer] has run. The initial values
    of the other members are those of their declarations
    (IO/WriteBufferFromS3.h): zero, empty and null. *)
Definition construct (c : Config) (script : list (list PoolEvent)) : State :=
  mkState c 0 (min_upload_part_size (settings c)) 0 0 0 "" [] false None [] 0 0 [] [] script.

Definition empty (x : string) : bool := String.eqb x "".

Definition update_task (id : Z) (f : UploadPartTask -> UploadPartTask) (s : State) : State :=
  set_upload_object_tasks
    (map (fun t => if task_id t =? id then f t else t) (upload_object_tasks s)) s.

Definition update_put_task (f : PutObjectTask -> PutObjectTask) (s : State) : State :=
  set_put_object_task (option_map f (put_object_task s)) s.

Definition put_finished (t : PutObjectTask) : PutObjectTask :=
  mkPutObjectTask (put_req t) true (put_exception t) Returned.

(** [CompletedMultipartUpload]: the loop [for (size_t i = 0; i < tags.size(); ++i)]. *)
Fixpoint completed_parts_from (i : Z) (tags : list string) : list CompletedPart :=
  match tags with
  | [] => []
  | t :: rest => mkCompletedPart t (static_cast_int (i + 1)) :: completed_parts_from (i + 1) rest
  end.

Definition completed_parts (tags : list string) : list CompletedPart :=
  completed_parts_from 0 tags.

(** The entries of the payload that the tasks stand for which have
    returned: the tag of each with the part number of its request. *)
Definition returned_parts (tasks : list UploadPartTask) : list CompletedPart :=
  flat_map (fun t => match stage t with
                     | Returned => [mkCompletedPart (tag t) (part_number_of (req t))]
                     | _ => []
                     end) tasks.

(** A task that the thread pool was given and that has not failed; it is
    marked as finished only when its closure has returned. *)
Definition task_sound (t : UploadPartTask) : Prop :=
  exception t = None /\ is_upload (req t) = true /\ stage t <> NotScheduled /\
  (is_finished t = true -> stage t = Returned).

(** The tasks of the queue hold the part numbers that follow those of the
    tags collected. *)
Definition tasks_numbered (collected : nat) (tasks : list UploadPartTask) : Prop :=
  forall j t, nth_error tasks j = Some t ->
    part_number_of (req t) = static_cast_int (Z.of_nat collected + Z.of_nat j + 1).

(** The ledger of a streaming write in which nothing has failed: the queue
    is in order, the counter of the parts is at the number of the parts
    handed to [writePart], within a ceiling below the greatest [size_t],
    and every part request that was answered has its entry, with the tag
    the server returned, either among the tags collected or in a task that
    has returned. *)
Definition ledger (s : State) : Prop :=
  NoDup (map task_id (upload_object_tasks s)) /\
  Forall (fun t => task_id t < num_added_bg_tasks s) (upload_object_tasks s) /\
  Forall task_sound (upload_object_tasks s) /\
  (schedule (config s) = false -> upload_object_tasks s = []) /\
  (forall t, put_object_task s = Some t -> is_upload (put_req t) = false) /\
  tasks_numbered (List.length (part_tags s)) (upload_object_tasks s) /\
  part_number s = Z.of_nat (List.length (part_tags s) + List.length (upload_object_tasks s)) /\
  part_number s <= max_part_number (settings (config s)) < SIZE_MODULUS - 1 /\
  Permutation (map completed_of (upload_entries (trace s)))
    (completed_parts (part_tags s) ++ returned_parts (upload_object_tasks s)).

(** What a step of the buffer does to the ledger when it returns: nothing
    is taken from the trace, and if no part was refused by the end of the
    step, the ledger is kept. *)
Definition ledger_step (s s' : State) : Prop :=
  config s' = config s /\
  (exists sent, trace s' = trace s ++ sent) /\
  (has_failed_upload (trace s') = false -> ledger s -> ledger s').

(** A step of the thread pool: the queue keeps its tasks with their
    requests, and a task that has returned stays so. *)
Definition pool_keeps (s s' : State) : Prop :=
  map (fun t => (task_id t, req t)) (upload_object_tasks s')
  = map (fun t => (task_id t, req t)) (upload_object_tasks s) /\
  forall i t, nth_error (upload_object_tasks s) i = Some t -> stage t = Returned ->
    exists t', nth_error (upload_object_tasks s') i = Some t' /\ stage t' = Returned.

Section WithClient.

Variable client : Client.

Definition send (r : Request) : M State Outcome :=
  fun s => let o := client (trace s) r in Ok o (set_trace (trace s ++ [(r, o)]) s).

Definition LOG (m : LogMessage) : M State unit :=
  modify (fun s => set_log (log s ++ [m]) s).

Definition allocateBuffer : M State unit :=
  modify (fun s => set_last_part_size 0 (set_temporary_buffer 0 s)).

Definition createMultipartUpload : M State unit :=
  outcome <- send CreateMultipartUploadRequest ;;
  match outcome with
  | Success upload_id => modify (set_multipart_upload_id upload_id)
  | Failure e => throw (S3Exception (GetErrorType e) (GetMessage e))
  end.

Definition fillUploadRequest : M State Request :=
  modify (fun s => set_part_number (wrap (part_number s + 1)) s) ;;
  number <- gets part_number ;;
  upload_id <- gets multipart_upload_id ;;
  st <- gets (fun s => settings (config s)) ;;
  if negb (empty upload_id) && (max_part_number st <? number) then
    throw (DBException INVALID_CONFIG_PARAMETER "Part number exceeded")
  else
    tellp <- gets temporary_buffer ;;
    let request :=
      UploadPartRequest upload_id (static_cast_int number) tellp (TemporaryBuffer tellp) in
    (if negb (empty upload_id) then
       if upload_part_size_multiply_parts_count_threshold st =? 0 then undefined
       else if number mod upload_part_size_multiply_parts_count_threshold st =? 0 then
         modify (fun s =>
           set_upload_part_size
             (std_min (wrap (upload_part_size s * upload_part_size_multiply_factor st))
                      (max_upload_part_size st)) s)
       else ret tt
     else ret tt) ;;
    ret request.

Definition processUploadRequest (task : UploadPartTask) : M State UploadPartTask :=
  outcome <- send (req task) ;;
  match outcome with
  | Success etag => ret (with_tag etag task)
  | Failure e => throw (S3Exception (GetErrorType e) (GetMessage e))
  end.

(** The lambda [task_finish_notify] of [writePart]. *)
Definition task_finish_notify (id : Z) (s : State) : State :=
  set_num_finished_bg_tasks (num_finished_bg_tasks s + 1) (update_task id finished s).

(** The lambda [task_notify_finish] of [makeSinglepartUpload]. *)
Definition task_notify_finish (s : State) : State := update_put_task put_finished s.

Definition fillPutRequest : M State Request :=
  tellp <- gets temporary_buffer ;;
  ret (PutObjectRequest tellp (TemporaryBuffer tellp)).

(** The loop [for (size_t i = 0; i < max_retry; ++i)] of [processPutRequest]. *)
Fixpoint put_retry_loop (fuel : nat) (i max_retry : Z) (request : Request) : M State unit :=
  if i <? max_retry then
    match fuel with
    | O => fun s => OutOfFuel s
    | S fuel' =>
        outcome <- send request ;;
        match outcome with
        | Success _ => ret tt
        | Failure e =>
            match GetErrorType e with
            | NO_SUCH_KEY =>
                LOG WillRetry ;;
                put_retry_loop fuel' (wrap (i + 1)) max_retry request
            | _ => throw (S3Exception (GetErrorType e) (GetMessage e))
            end
        end
    end
  else ret tt.

Definition processPutRequest (task : PutObjectTask) : M State unit :=
  max_retry <- gets (fun s => std_max (max_unexpected_write_error_retries (config s)) 1) ;;
  put_retry_loop (Z.to_nat max_retry) 0 max_retry (put_req task).

(** The closures given to [schedule]. *)
Definition upload_task_runs (id : Z) : M State unit :=
  fun s =>
    match find (fun t => task_id t =? id) (upload_object_tasks s) with
    | Some task =>
        match stage task with
        | Queued =>
            match processUploadRequest task s with
            | Ok task' s' => Ok tt (task_finish_notify id (update_task id (with_tag (tag task')) s'))
            | Throw e s' => Ok tt (task_finish_notify id (update_task id (with_exception e) s'))
            | Undefined s' => Undefined s'
            | OutOfFuel s' => OutOfFuel s'
            | Blocked s' => Blocked s'
            end
        | _ => Ok tt s
        end
    | None => Ok tt s
    end.

Definition put_task_runs : M State unit :=
  fun s =>
    match put_object_task s with
    | Some task =>
        match put_stage task with
        | Queued =>
            match processPutRequest task s with
            | Ok _ s' => Ok tt (task_notify_finish s')
            | Throw e s' =>
                Ok tt (task_notify_finish
                         (update_put_task
                            (fun t => mkPutObjectTask (put_req t) (put_is_finished t) (Some e)
                                        (put_stage t)) s'))
            | Undefined s' => Undefined s'
            | OutOfFuel s' => OutOfFuel s'
            | Blocked s' => Blocked s'
            end
        | _ => Ok tt s
        end
    | None => Ok tt s
    end.

Definition pool_event (ev : PoolEvent) : M State unit :=
  match ev with
  | UploadTaskRuns id => upload_task_runs id
  | PutTaskRuns => put_task_runs
  end.

Fixpoint pool_events (evs : list PoolEvent) : M State unit :=
  match evs with
  | [] => ret tt
  | ev :: rest => pool_event ev ;; pool_events rest
  end.

(** The calling thread hands over: the thread pool takes the steps the
    script lists next. *)
Definition pool_turn : M State unit :=
  script <- gets pool_script ;;
  match script with
  | [] => ret tt
  | evs :: rest => modify (set_pool_script rest) ;; pool_events evs
  end.

(** Every upload closure still in the pool runs. *)
Fixpoint pool_finish (ids : list Z) : M State unit :=
  match ids with
  | [] => ret tt
  | id :: rest => upload_task_runs id ;; pool_finish rest
  end.

(** [bg_tasks_condvar.wait(lock, num_added_bg_tasks == num_finished_bg_tasks)] *)
Definition condvar_wait_tasks : M State unit :=
  pool_turn ;;
  ids <- gets (fun s => map task_id (upload_object_tasks s)) ;;
  pool_finish ids ;;
  added <- gets num_added_bg_tasks ;;
  finished <- gets num_finished_bg_tasks ;;
  if added =? finished then ret tt else (fun s => Blocked s).

(** [bg_tasks_condvar.wait(lock, put_object_task->is_finished)] *)
Definition condvar_wait_put : M State unit :=
  put_task_runs ;;
  task <- gets put_object_task ;;
  match task with
  | Some t => if put_is_finished t then ret tt else (fun s => Blocked s)
  | None => undefined
  end.

(** The loop [while (!tasks.empty())] of [waitForAllBackGroundTasksUnlocked]. *)
Fixpoint collect_all (tasks : list UploadPartTask) : M State unit :=
  match tasks with
  | [] => ret tt
  | task :: rest =>
      match exception task with
      | Some e => throw e
      | None =>
          modify (fun s => set_part_tags (part_tags s ++ [tag task]) s) ;;
          modify (set_upload_object_tasks rest) ;;
          collect_all rest
      end
  end.

Definition waitForAllBackGroundTasksUnlocked : M State unit :=
  scheduled <- gets (fun s => schedule (config s)) ;;
  if scheduled then
    condvar_wait_tasks ;;
    tasks <- gets upload_object_tasks ;;
    collect_all tasks ;;
    put <- gets put_object_task ;;
    match put with
    | Some _ =>
        condvar_wait_put ;;
        put' <- gets put_object_task ;;
        match put' with
        | Some t => match put_exception t with
                    | Some e => throw e
                    | None => ret tt
                    end
        | None => undefined
        end
    | None => ret tt
    end
  else ret tt.

Definition waitForAllBackGroundTasks : M State unit :=
  scheduled <- gets (fun s => schedule (config s)) ;;
  if scheduled then waitForAllBackGroundTasksUnlocked else ret tt.

(** The loop [while (!tasks.empty() && tasks.front().is_finished)] of
    [waitForReadyBackGroundTasks]. *)
Fixpoint collect_ready (tasks : list UploadPartTask) : M State unit :=
  match tasks with
  | [] => ret tt
  | task :: rest =>
      if is_finished task then
        modify (set_upload_object_tasks rest) ;;
        match exception task with
        | Some e => waitForAllBackGroundTasksUnlocked ;; throw e
        | None =>
            modify (fun s => set_part_tags (part_tags s ++ [tag task]) s) ;;
            collect_ready rest
        end
      else ret tt
  end.

Definition waitForReadyBackGroundTasks : M State unit :=
  scheduled <- gets (fun s => schedule (config s)) ;;
  if scheduled then
    pool_turn ;;
    tasks <- gets upload_object_tasks ;;
    collect_ready tasks
  else ret tt.

Definition writePart : M State unit :=
  size <- gets temporary_buffer ;;
  if size <? 0 then LOG SkippingBadBuffer
  else if size =? 0 then LOG SkippingEmptyPart
  else
    count <- gets (fun s => Z.of_nat (List.length (part_tags s))) ;;
    (if count =? S3_WARN_MAX_PARTS then LOG MaximumPartNumberReached else ret tt) ;;
    scheduled <- gets (fun s => schedule (config s)) ;;
    if scheduled then
      id <- gets num_added_bg_tasks ;;
      modify (fun s => set_num_added_bg_tasks (num_added_bg_tasks s + 1)
                         (set_upload_object_tasks (upload_object_tasks s ++ [new_task id]) s)) ;;
      try_rethrow
        (r <- fillUploadRequest ;;
         modify (update_task id (with_req r)) ;;
         modify (update_task id (with_stage Queued)))
        (task_finish_notify id) ;;
      pool_turn
    else
      r <- fillUploadRequest ;;
      task <- processUploadRequest (with_req r (new_task 0)) ;;
      modify (fun s => set_part_tags (part_tags s ++ [tag task]) s).

Definition makeSinglepartUpload : M State unit :=
  size <- gets temporary_buffer ;;
  if size <? 0 then LOG SkippingBadBuffer
  else
    scheduled <- gets (fun s => schedule (config s)) ;;
    if scheduled then
      modify (set_put_object_task (Some new_put_task)) ;;
      try_rethrow
        (r <- fillPutRequest ;;
         modify (update_put_task
                   (fun t => mkPutObjectTask r (put_is_finished t) (put_exception t) Queued)))
        task_notify_finish ;;
      pool_turn
    else
      r <- fillPutRequest ;;
      processPutRequest (mkPutObjectTask r false None NotScheduled).

Definition nextImpl : M State unit :=
  off <- gets working_offset ;;
  if off =? 0 then ret tt
  else
    tellp <- gets temporary_buffer ;;
    (if tellp =? -1 then allocateBuffer else ret tt) ;;
    modify (fun s => set_temporary_buffer (temporary_buffer s + off) s) ;;
    modify (fun s => set_last_part_size (wrap (last_part_size s + off)) s) ;;
    upload_id <- gets multipart_upload_id ;;
    last <- gets last_part_size ;;
    single <- gets (fun s => max_single_part_upload_size (settings (config s))) ;;
    (if empty upload_id && (single <? last) then createMultipartUpload else ret tt) ;;
    upload_id' <- gets multipart_upload_id ;;
    part <- gets upload_part_size ;;
    (if negb (empty upload_id') && (part <? last) then writePart ;; allocateBuffer
     else ret tt) ;;
    waitForReadyBackGroundTasks.

(** [WriteBuffer::next()], of the base class (IO/WriteBuffer.h): nothing for
    an empty working buffer, else [nextImpl()], after which the working
    buffer is empty again, also when [nextImpl()] throws. *)
Definition next : M State unit :=
  off <- gets working_offset ;;
  if off =? 0 then ret tt
  else
    try_rethrow nextImpl (set_working_offset 0) ;;
    modify (set_working_offset 0).

Definition preFinalize : M State unit :=
  next ;;
  upload_id <- gets multipart_upload_id ;;
  (if empty upload_id then makeSinglepartUpload else writePart) ;;
  modify (set_is_prefinalized true).

(** The loop [for (size_t i = 0; i < max_retry; ++i)] of
    [completeMultipartUpload]. *)
Fixpoint complete_retry_loop (fuel : nat) (i max_retry : Z) (request : Request) : M State unit :=
  if i <? max_retry then
    match fuel with
    | O => fun s => OutOfFuel s
    | S fuel' =>
        outcome <- send request ;;
        match outcome with
        | Success _ => ret tt
        | Failure e =>
            match GetErrorType e with
            | NO_SUCH_KEY =>
                LOG WillRetry ;;
                complete_retry_loop fuel' (wrap (i + 1)) max_retry request
            | _ => throw (S3Exception (GetErrorType e) (GetMessage e))
            end
        end
    end
  else ret tt.

Definition completeMultipartUpload : M State unit :=
  tags <- gets part_tags ;;
  match tags with
  | [] => throw (DBException S3_ERROR "Failed to complete multipart upload. No parts have uploaded")
  | _ =>
      upload_id <- gets multipart_upload_id ;;
      let request := CompleteMultipartUploadRequest upload_id (completed_parts tags) in
      max_retry <- gets (fun s => std_max (max_unexpected_write_error_retries (config s)) 1) ;;
      complete_retry_loop (Z.to_nat max_retry) 0 max_retry request
  end.

(** Modelled from the spec: [S3::checkObjectExists] is defined outside the two
    files (IO/S3Common.cpp); section 4.D: "issue a HEAD on the destination;
    absence => Remote". *)
Definition checkObjectExists : M State unit :=
  outcome <- send HeadObjectRequest ;;
  match outcome with
  | Success _ => ret tt
  | Failure e => throw (S3Exception (GetErrorType e) (GetMessage e))
  end.

Definition finalizeImpl : M State unit :=
  pre <- gets is_prefinalized ;;
  (if negb pre then preFinalize else ret tt) ;;
  waitForAllBackGroundTasks ;;
  upload_id <- gets multipart_upload_id ;;
  (if negb (empty upload_id) then completeMultipartUpload else ret tt) ;;
  check <- gets (fun s => check_objects_after_upload (config s)) ;;
  if check then checkObjectExists else ret tt.

(** ** A streaming write *)

(** The producer puts [n] bytes in the working buffer and [next()] flushes
    them. *)
Definition write (n : Z) : M State unit :=
  modify (set_working_offset n) ;;
  next.

Fixpoint write_all (chunks : list Z) : M State unit :=
  match chunks with
  | [] => ret tt
  | n :: rest => write n ;; write_all rest
  end.

(** The chunks are written one after the other, then the buffer is finalized. *)
Definition streaming_write (chunks : list Z) : M State unit :=
  write_all chunks ;;
  finalizeImpl.

End WithClient.

End WriteBufferFromS3.

(** * Sample configurations and stub clients *)

Module Samples.

(** A policy with small numbers: parts of 10 to 50 bytes, at most 5 parts,
    single-shot operations up to 20 bytes. *)
Definition small_policy : PartUploadSettings :=
  mkPartUploadSettings 10 50 2 2 5 20 20 "".

Definition copy_config (cls : UploadHelper.HelperClass) (retries : Z) (scheduled : bool)
    (offset size : Z) : UploadHelper.Config :=
  UploadHelper.mkConfig cls small_policy false retries scheduled offset size.

Definition no_such_key : AwsError :=
  mkAwsError NO_SUCH_KEY "NoSuchKey" "The specified key does not exist.".

Definition entity_too_large : AwsError :=
  mkAwsError UNKNOWN "EntityTooLarge" "Your proposed upload exceeds the maximum allowed size.".

Definition internal_error : AwsError :=
  mkAwsError UNKNOWN "InternalError" "We encountered an internal error.".

(** A server that accepts everything. *)
Definition accepting_client : Client :=
  fun _ r =>
    match r with
    | CreateMultipartUploadRequest => Success "upload-1"
    | UploadPartRequest _ _ _ _ | UploadPartCopyRequest _ _ _ _ => Success "etag"
    | _ => Success ""
    end.

(** A server that answers the first [n] [CompleteMultipartUpload] requests
    with the phantom [NoSuchKey]. *)
Definition phantom_complete_client (n : nat) : Client :=
  fun history r =>
    if is_complete r && (answered is_complete history <? n)%nat
    then Failure no_such_key
    else accepting_client history r.

(** A streaming buffer with a multipart upload open and one part recorded. *)
Definition buffer_with_one_part (retries : Z) : WriteBufferFromS3.State :=
  WriteBufferFromS3.set_part_tags ["etag"]
    (WriteBufferFromS3.set_multipart_upload_id "upload-1"
       (WriteBufferFromS3.construct
          (WriteBufferFromS3.mkConfig small_policy false retries false) [])).

(** A copy helper with a multipart upload open and one part recorded. *)
Definition helper_with_one_part (retries : Z) : UploadHelper.State :=
  UploadHelper.set_part_tags ["etag"]
    (UploadHelper.set_multipart_upload_id "upload-1"
       (UploadHelper.construct (copy_config UploadHelper.CopyDataToFileHelper retries false 0 100)
          [])).

(** A streaming buffer with a multipart upload open, [max_part_number] parts
    sent and 30 bytes in the part buffer. *)
Definition buffer_at_ceiling (scheduled : bool) : WriteBufferFromS3.State :=
  WriteBufferFromS3.set_temporary_buffer 30
    (WriteBufferFromS3.set_last_part_size 30
       (WriteBufferFromS3.set_part_number 5
          (WriteBufferFromS3.set_multipart_upload_id "upload-1"
             (WriteBufferFromS3.construct
                (WriteBufferFromS3.mkConfig small_policy false 1 scheduled) [])))).

(** A streaming buffer with a multipart upload open, 10000 tags recorded and
    30 bytes in the part buffer, under a policy that admits 20000 parts. *)
Definition buffer_with_10000_parts (scheduled : bool) : WriteBufferFromS3.State :=
  WriteBufferFromS3.set_temporary_buffer 30
    (WriteBufferFromS3.set_last_part_size 30
       (WriteBufferFromS3.set_part_number 10000
          (WriteBufferFromS3.set_part_tags (repeat "etag" (Z.to_nat 10000))
             (WriteBufferFromS3.set_multipart_upload_id "upload-1"
                (WriteBufferFromS3.construct
                   (WriteBufferFromS3.mkConfig
                      (mkPartUploadSettings 10 50 2 500 20000 20 20 "") false 1 scheduled)
                   []))))).

(** A server that refuses every single-shot operation as too large. *)
Definition too_large_client : Client :=
  fun history r =>
    match r with
    | PutObjectRequest _ _ | CopyObjectRequest => Failure entity_too_large
    | _ => accepting_client history r
    end.

(** A streaming buffer without a thread pool. *)
Definition inline_buffer : WriteBufferFromS3.State :=
  WriteBufferFromS3.construct (WriteBufferFromS3.mkConfig small_policy false 1 false) [].

(** A server that refuses the part with the given number. *)
Definition refusing_client (part : Z) : Client :=
  fun history r =>
    if is_upload r && (part_number_of r =? part)
    then Failure internal_error
    else accepting_client history r.

(** A server that refuses every part from the given number on. *)
Definition refusing_from_client (part : Z) : Client :=
  fun history r =>
    if is_upload r && (part <=? part_number_of r)
    then Failure internal_error
    else accepting_client history r.

(** Thirty bytes copied in three parts by a thread pool that picks up the
    three tasks only when the last one has been queued. *)
Definition helper_with_three_parts_in_flight : UploadHelper.State :=
  UploadHelper.construct (copy_config UploadHelper.CopyDataToFileHelper 1 true 0 30)
    [[]; []; [UploadHelper.TaskBegins 0; UploadHelper.TaskBegins 1; UploadHelper.TaskBegins 2]].

(** A server that answers the first [n] [PutObject] requests with the
    phantom [NoSuchKey]. *)
Definition phantom_put_client (n : nat) : Client :=
  fun history r =>
    if is_put r && (answered is_put history <? n)%nat
    then Failure no_such_key
    else accepting_client history r.

(** A streaming buffer without a thread pool that may retry. *)
Definition inline_buffer_with_retries (retries : Z) : WriteBufferFromS3.State :=
  WriteBufferFromS3.construct (WriteBufferFromS3.mkConfig small_policy false retries false) [].

(** The tag of a part: the decimal digit of its number, for the parts
    1 to 9. *)
Definition part_etag (r : Request) : string :=
  String (Ascii.ascii_of_nat (48 + Z.to_nat (part_number_of r))) "".

(** A server that accepts everything and tags every part with its number. *)
Definition labelling_client : Client :=
  fun history r => if is_upload r then Success (part_etag r) else accepting_client history r.

(** Thirty bytes copied in three parts with a thread pool. *)
Definition scheduled_copy : UploadHelper.Config :=
  copy_config UploadHelper.CopyDataToFileHelper 1 true 0 30.

(** The thread pool runs the three tasks when the last one was queued, the
    last one first. *)
Definition last_part_first : list (list UploadHelper.PoolEvent) :=
  [[]; [];
   [UploadHelper.TaskBegins 2; UploadHelper.TaskEnds 2;
    UploadHelper.TaskBegins 1; UploadHelper.TaskEnds 1;
    UploadHelper.TaskBegins 0; UploadHelper.TaskEnds 0]].

(** A streaming buffer with a thread pool. *)
Definition scheduled_buffer : WriteBufferFromS3.Config :=
  WriteBufferFromS3.mkConfig small_policy false 1 true.

(** The thread pool does nothing until the third part was queued, then runs
    the tasks from the last to the first. *)
Definition last_task_first : list (list WriteBufferFromS3.PoolEvent) :=
  [[]; []; []; []; []; [];
   [WriteBufferFromS3.UploadTaskRuns 2; WriteBufferFromS3.UploadTaskRuns 1;
    WriteBufferFromS3.UploadTaskRuns 0]].

(** A server that answers every single-shot operation with the phantom
    [NoSuchKey]. *)
Definition phantom_client : Client :=
  fun history r =>
    match r with
    | PutObjectRequest _ _ | CopyObjectRequest => Failure no_such_key
    | _ => accepting_client history r
    end.

(** A server that answers a single-shot operation with the phantom
    [NoSuchKey] while fewer than [n] requests were answered, and refuses it
    as too large from then on. *)
Definition phantom_then_too_large_client (n : nat) : Client :=
  fun history r =>
    match r with
    | PutObjectRequest _ _ | CopyObjectRequest =>
        if (List.length history <? n)%nat then Failure no_such_key
        else Failure entity_too_large
    | _ => accepting_client history r
    end.

End Samples.

(** * Properties *)

(** ** Arithmetic of [size_t] *)

Lemma ceil_div_bounds (a b : Z) :
  0 < b -> (ceil_div a b - 1) * b < a <= ceil_div a b * b.
Proof.
  intros Hb. unfold ceil_div.
  pose proof (Z.div_mod (a + b - 1) b ltac:(lia)) as Hd.
  pose proof (Z.mod_pos_bound (a + b - 1) b Hb) as Hm.
  nia.
Qed.

Lemma ceil_div_unique (a b n : Z) :
  0 < b -> (n - 1) * b < a <= n * b -> ceil_div a b = n.
Proof.
  intros Hb Hn. pose proof (ceil_div_bounds a b Hb). nia.
Qed.

Lemma wrap_small (x : Z) : is_size_t x -> wrap x = x.
Proof. intros H. apply Z.mod_small. exact H. Qed.

Lemma wrap_range (x : Z) : is_size_t (wrap x).
Proof. unfold is_size_t, wrap, SIZE_MODULUS. apply Z.mod_pos_bound. lia. Qed.

(** A ceiling computed in [size_t] that is not zero did not wrap around. *)
Lemma wrapped_ceiling_exact (t p : Z) :
  is_size_t t -> 0 < p -> is_size_t p ->
  1 <= wrap (t + p - 1) / p ->
  wrap (t + p - 1) / p = ceil_div t p.
Proof.
  unfold is_size_t, wrap, ceil_div, SIZE_MODULUS. intros Ht Hp Hp' Hge.
  destruct (Z_lt_ge_dec (t + p - 1) (2 ^ 64)) as [Hlt | Hov].
  - rewrite Z.mod_small by lia. reflexivity.
  - exfalso.
    assert (Hw : (t + p - 1) mod 2 ^ 64 = t + p - 1 - 2 ^ 64).
    { symmetry. apply (Z.mod_unique _ _ 1); lia. }
    rewrite Hw in Hge.
    rewrite Z.div_small in Hge by lia. lia.
Qed.

Lemma static_cast_int_small (x : Z) : 0 <= x <= INT_MAX -> static_cast_int x = x.
Proof.
  unfold static_cast_int, INT_MAX. intros H.
  rewrite Z.mod_small by lia. lia.
Qed.

Lemma static_cast_int_le (x : Z) : 0 <= x -> static_cast_int x <= x.
Proof.
  unfold static_cast_int. intros H.
  pose proof (Z.mod_pos_bound (x + 2 ^ 31) (2 ^ 32) ltac:(lia)) as Hm.
  destruct (Z_lt_ge_dec x (2 ^ 31)).
  - rewrite Z.mod_small by lia. lia.
  - lia.
Qed.

(** ** The part-size planner *)

(** What [calculatePartSize] has established when it returns. *)
Lemma calculatePartSize_returns (s s' : UploadHelper.State) (total_size : Z) :
  let p := UploadHelper.settings (UploadHelper.config s) in
  is_size_t total_size -> settings_in_range p ->
  UploadHelper.calculatePartSize total_size s = Ok tt s' ->
  s' = UploadHelper.set_normal_part_size (UploadHelper.normal_part_size s') s /\
  0 < total_size /\
  0 < min_upload_part_size p <= UploadHelper.normal_part_size s' /\
  UploadHelper.normal_part_size s' <= max_upload_part_size p /\
  1 <= ceil_div total_size (UploadHelper.normal_part_size s') <= max_part_number p.
Proof.
  intros p Ht (Hmin & Hmax & _ & _ & Hmpn & _ & _).
  unfold UploadHelper.calculatePartSize. fold p.
  destruct (Z.eqb_spec total_size 0) as [|Hnz]; [discriminate|].
  destruct (Z.eqb_spec (max_part_number p) 0) as [|Hmpn0]; [discriminate|].
  destruct (Z.eqb_spec (min_upload_part_size p) 0) as [|Hmin0]; [discriminate|].
  destruct (Z.ltb_spec (max_upload_part_size p) (min_upload_part_size p)) as [|Hle];
    [discriminate|].
  set (np := wrap (total_size + min_upload_part_size p - 1) / min_upload_part_size p).
  remember (max_part_number p <? np) as raise eqn:Hraise.
  set (ps1 := if raise
              then wrap (total_size + max_part_number p - 1) / max_part_number p
              else min_upload_part_size p).
  destruct (Z.eqb_spec ps1 0) as [|Hps1]; [discriminate|].
  set (np1 := if raise then wrap (total_size + ps1 - 1) / ps1 else np).
  remember (max_upload_part_size p <? ps1) as clamp eqn:Hclamp.
  set (ps2 := if clamp then max_upload_part_size p else ps1).
  set (np2 := if clamp then wrap (total_size + ps2 - 1) / ps2 else np1).
  destruct (Z.ltb_spec np2 1) as [|Hnp]; [discriminate|].
  destruct (Z.ltb_spec (max_part_number p) np2) as [|Hnpm]; [discriminate|].
  destruct (Z.ltb_spec ps2 (min_upload_part_size p)) as [|Hpsmin]; [discriminate|].
  destruct (Z.ltb_spec (max_upload_part_size p) ps2) as [|Hpsmax]; [discriminate|].
  simpl. intros Heq. injection Heq as <-. simpl.
  assert (Hnp2 : np2 = wrap (total_size + ps2 - 1) / ps2).
  { unfold np2, ps2, np1, ps1, np. destruct clamp, raise; reflexivity. }
  unfold is_size_t in *.
  assert (Hex : np2 = ceil_div total_size ps2).
  { rewrite Hnp2. apply wrapped_ceiling_exact; unfold is_size_t; lia. }
  rewrite <- Hex. repeat split; lia.
Qed.

(** The planner returns whenever the policy admits the size: the largest
    number of the largest parts holds the bytes, and no sum wraps around. *)
Lemma calculatePartSize_total (s : UploadHelper.State) (total_size : Z) :
  let p := UploadHelper.settings (UploadHelper.config s) in
  0 < total_size -> 0 < min_upload_part_size p -> 0 < max_part_number p ->
  min_upload_part_size p <= max_upload_part_size p ->
  total_size <= max_part_number p * max_upload_part_size p ->
  total_size + max_upload_part_size p < SIZE_MODULUS ->
  total_size + max_part_number p < SIZE_MODULUS ->
  exists s', UploadHelper.calculatePartSize total_size s = Ok tt s'.
Proof.
  intros p Ht Hmin Hmpn Hle Hfit Hov1 Hov2.
  unfold UploadHelper.calculatePartSize. fold p. unfold SIZE_MODULUS in *.
  destruct (Z.eqb_spec total_size 0) as [|_]; [lia|].
  destruct (Z.eqb_spec (max_part_number p) 0) as [|_]; [lia|].
  destruct (Z.eqb_spec (min_upload_part_size p) 0) as [|_]; [lia|].
  destruct (Z.ltb_spec (max_upload_part_size p) (min_upload_part_size p)) as [|_]; [lia|].
  assert (Hw : forall q, 0 < q -> total_size + q < 2 ^ 64 ->
                 wrap (total_size + q - 1) / q = ceil_div total_size q).
  { intros q Hq Hs. unfold wrap, ceil_div, SIZE_MODULUS. rewrite Z.mod_small by lia. reflexivity. }
  rewrite (Hw (min_upload_part_size p)) by lia.
  rewrite (Hw (max_part_number p)) by lia.
  set (np := ceil_div total_size (min_upload_part_size p)).
  set (c := ceil_div total_size (max_part_number p)).
  pose proof (ceil_div_bounds total_size (min_upload_part_size p) Hmin) as Bnp. fold np in Bnp.
  pose proof (ceil_div_bounds total_size (max_part_number p) Hmpn) as Bc. fold c in Bc.
  assert (Hc : 0 < c) by nia.
  assert (Hcle : c <= total_size).
  { assert ((c - 1) * 1 <= (c - 1) * max_part_number p)
      by (apply Z.mul_le_mono_nonneg_l; lia).
    lia. }
  assert (Hnp : 1 <= np) by nia.
  destruct (Z.ltb_spec (max_part_number p) np) as [Hbig | Hsmall].
  - (* the part size is raised to fit [max_part_number] parts *)
    assert (Hcmin : min_upload_part_size p <= c).
    { assert (max_part_number p * min_upload_part_size p <= (np - 1) * min_upload_part_size p)
        by (apply Z.mul_le_mono_nonneg_r; lia).
      destruct (Z_lt_ge_dec c (min_upload_part_size p)) as [Hlt|]; [|lia].
      assert (c * max_part_number p <= (min_upload_part_size p - 1) * max_part_number p)
        by (apply Z.mul_le_mono_nonneg_r; lia).
      lia. }
    destruct (Z.eqb_spec c 0) as [|_]; [lia|].
    destruct (Z.ltb_spec (max_upload_part_size p) c) as [Hclamp | Hnoclamp].
    + rewrite (Hw (max_upload_part_size p)) by lia.
      pose proof (ceil_div_bounds total_size (max_upload_part_size p) ltac:(lia)) as Bn2.
      set (parts := ceil_div total_size (max_upload_part_size p)) in *.
      assert (H1 : 1 <= parts) by nia.
      assert (H2 : parts <= max_part_number p) by nia.
      repeat match goal with
             | |- context [Z.ltb ?a ?b] => destruct (Z.ltb_spec a b); try lia
             end.
      simpl. eexists. reflexivity.
    + rewrite (Hw c) by lia.
      pose proof (ceil_div_bounds total_size c Hc) as Bn1.
      set (parts := ceil_div total_size c) in *.
      assert (H1 : 1 <= parts) by nia.
      assert (H2 : parts <= max_part_number p) by nia.
      repeat match goal with
             | |- context [Z.ltb ?a ?b] => destruct (Z.ltb_spec a b); try lia
             end.
      simpl. eexists. reflexivity.
  - destruct (Z.eqb_spec (min_upload_part_size p) 0) as [|_]; [lia|].
    repeat match goal with
           | |- context [Z.ltb ?a ?b] => destruct (Z.ltb_spec a b); try lia
           end.
    simpl. eexists. reflexivity.
Qed.

(** C2. For a total size [T > 0] and a policy with a positive minimal part
    size, a positive [max_part_number] and [min_upload_part_size] not above
    [max_upload_part_size], whenever [calculatePartSize] returns normally the
    part size it stored lies between the two bounds of the policy, the number
    of parts [N = ceil(T / part_size)] is at most [max_part_number], and the
    final part [T - (N - 1) * part_size] has between 1 and [part_size]
    bytes. *)
Theorem calculatePartSize_plan (s s' : UploadHelper.State) (T : Z) :
  let P := UploadHelper.settings (UploadHelper.config s) in
  is_size_t T -> settings_in_range P ->
  0 < T -> 0 < min_upload_part_size P -> 0 < max_part_number P ->
  min_upload_part_size P <= max_upload_part_size P ->
  UploadHelper.calculatePartSize T s = Ok tt s' ->
  let part_size := UploadHelper.normal_part_size s' in
  let N := ceil_div T part_size in
  min_upload_part_size P <= part_size <= max_upload_part_size P /\
  N <= max_part_number P /\
  0 < T - (N - 1) * part_size <= part_size.
Proof.
  intros P HT HP Hpos Hmin Hmpn Hle Hret part_size N.
  destruct (calculatePartSize_returns s s' T HT HP Hret) as (_ & _ & Hlo & Hhi & Hn).
  fold P in Hlo, Hhi, Hn. fold part_size in Hlo, Hhi, Hn. fold N in Hn.
  pose proof (ceil_div_bounds T part_size ltac:(lia)) as Hb. fold N in Hb.
  repeat split; lia.
Qed.

Lemma calculatePartSize_plan_witness :
  let s := UploadHelper.construct
             (Samples.copy_config UploadHelper.CopyDataToFileHelper 1 false 0 100) [] in
  UploadHelper.calculatePartSize 100 s = Ok tt (UploadHelper.set_normal_part_size 20 s) /\
  (10 <= 20 <= 50 /\ ceil_div 100 20 <= 5 /\ 0 < 100 - (ceil_div 100 20 - 1) * 20 <= 20).
Proof.
  intros s. split; [reflexivity|].
  apply (calculatePartSize_plan s (UploadHelper.set_normal_part_size 20 s) 100).
  - unfold is_size_t, SIZE_MODULUS. lia.
  - unfold settings_in_range, is_size_t, SIZE_MODULUS. simpl. lia.
  - lia.
  - simpl. lia.
  - simpl. lia.
  - simpl. lia.
  - reflexivity.
Defined.

(** ** Completing a multipart upload *)

Lemma completed_parts_from_etags (i : Z) (tags : list string) :
  map ETag (UploadHelper.completed_parts_from i tags) = tags.
Proof.
  revert i. induction tags as [|t tags IH]; intros i; simpl; [reflexivity|].
  rewrite IH. reflexivity.
Qed.

Lemma completed_parts_from_numbers (i : Z) (tags : list string) :
  0 <= i -> i + Z.of_nat (List.length tags) <= INT_MAX ->
  map PartNumber (UploadHelper.completed_parts_from i tags)
  = map (fun k => i + Z.of_nat k) (seq 1 (List.length tags)).
Proof.
  revert i. induction tags as [|t tags IH]; intros i Hi Hn; [reflexivity|].
  cbn [UploadHelper.completed_parts_from map List.length seq PartNumber].
  cbn [List.length] in Hn.
  rewrite static_cast_int_small by lia.
  rewrite IH by lia.
  f_equal.
  rewrite <- (seq_shift (List.length tags) 1), map_map.
  apply map_ext. intros k. lia.
Qed.

(** The payload lists the tags in order, numbered from 1 without a gap. *)
Lemma completed_parts_numbered (tags : list string) :
  Z.of_nat (List.length tags) <= INT_MAX ->
  List.length (UploadHelper.completed_parts tags) = List.length tags /\
  map ETag (UploadHelper.completed_parts tags) = tags /\
  map PartNumber (UploadHelper.completed_parts tags)
  = map Z.of_nat (seq 1 (List.length tags)).
Proof.
  intros Hn. unfold UploadHelper.completed_parts.
  pose proof (completed_parts_from_etags 0 tags) as He.
  split; [|split].
  - rewrite <- He at 2. rewrite length_map. reflexivity.
  - exact He.
  - rewrite completed_parts_from_numbers by lia. apply map_ext. intros k. lia.
Qed.

(** Both files build the payload with the same loop. *)
Lemma completed_parts_same (tags : list string) :
  WriteBufferFromS3.completed_parts tags = UploadHelper.completed_parts tags.
Proof.
  unfold WriteBufferFromS3.completed_parts, UploadHelper.completed_parts.
  generalize 0. induction tags as [|t tags IH]; intros i; simpl; [reflexivity|].
  rewrite IH. reflexivity.
Qed.

Lemma is_no_such_key_true (e : AwsError) :
  is_no_such_key e = true -> GetErrorType e = NO_SUCH_KEY.
Proof. unfold is_no_such_key. destruct (GetErrorType e); congruence. Qed.

Lemma wrap_succ (x bound : Z) : 0 <= x < bound -> bound < SIZE_MODULUS -> wrap (x + 1) = x + 1.
Proof. intros H Hb. apply wrap_small. unfold is_size_t. lia. Qed.

Lemma std_max_1 (x : Z) : 1 <= std_max x 1 /\ x <= std_max x 1.
Proof. unfold std_max. destruct (Z.ltb_spec x 1); lia. Qed.

Lemma std_max_size_t (x : Z) : is_size_t x -> is_size_t (std_max x 1).
Proof. unfold std_max, is_size_t, SIZE_MODULUS. destruct (Z.ltb_spec x 1); lia. Qed.

Lemma copy_complete_retry_loop_step (client : Client) (request : Request) (max_retries : Z)
    (fuel : nat) (retries : Z) (s : UploadHelper.State) :
  UploadHelper.complete_retry_loop client (S fuel) retries max_retries request s
  = let s1 := UploadHelper.set_trace
                (UploadHelper.trace s ++ [(request, client (UploadHelper.trace s) request)]) s in
    match client (UploadHelper.trace s) request with
    | Success _ => Ok tt s1
    | Failure e =>
        if is_no_such_key e && (retries <? max_retries)
        then UploadHelper.complete_retry_loop client fuel (wrap (retries + 1)) max_retries request
               (UploadHelper.set_log (UploadHelper.log s ++ [WillRetry]) s1)
        else Throw (S3Exception (GetErrorType e) (GetMessage e)) s1
    end.
Proof.
  cbn [UploadHelper.complete_retry_loop]. unfold bind, UploadHelper.send, is_no_such_key.
  destruct (client (UploadHelper.trace s) request) as [x|e]; [reflexivity|].
  destruct (GetErrorType e); try reflexivity.
  destruct (retries <? max_retries); reflexivity.
Qed.

(** The attempts of the copy helper: phantom failures, then an answer that
    ends the loop; a failure ends it with an exception. *)
Lemma copy_complete_retry_loop_spec (client : Client) (request : Request) (max_retries : Z)
    (fuel : nat) (retries : Z) (s : UploadHelper.State) :
  0 <= retries <= max_retries -> max_retries < SIZE_MODULUS ->
  max_retries - retries < Z.of_nat fuel ->
  exists es last lg,
    Forall (phantom_attempt request) es /\
    Z.of_nat (List.length es) <= max_retries - retries /\
    answers_of client (UploadHelper.trace s) (es ++ [(request, last)]) /\
    let s' := UploadHelper.set_log lg
                (UploadHelper.set_trace (UploadHelper.trace s ++ es ++ [(request, last)]) s) in
    match last with
    | Success _ =>
        UploadHelper.complete_retry_loop client fuel retries max_retries request s = Ok tt s'
    | Failure e =>
        UploadHelper.complete_retry_loop client fuel retries max_retries request s
        = Throw (S3Exception (GetErrorType e) (GetMessage e)) s' /\
        (GetErrorType e = NO_SUCH_KEY -> Z.of_nat (List.length es) = max_retries - retries)
    end.
Proof.
  revert retries s. induction fuel as [|fuel IH]; intros retries s Hr Hm Hf; [lia|].
  rewrite copy_complete_retry_loop_step. cbv zeta.
  destruct (client (UploadHelper.trace s) request) as [x|e] eqn:Ho.
  - exists [], (Success x), (UploadHelper.log s). split; [constructor|]. split; [simpl; lia|].
    split; [simpl; auto|]. destruct s; reflexivity.
  - destruct (is_no_such_key e) eqn:Hk; cbn [andb].
    + apply is_no_such_key_true in Hk.
      destruct (Z.ltb_spec retries max_retries) as [Hlt|Hge].
      * rewrite (wrap_succ retries max_retries) by lia.
        match goal with |- context [UploadHelper.complete_retry_loop client fuel _ _ _ ?st] =>
          destruct (IH (retries + 1) st ltac:(lia) Hm ltac:(lia))
            as (es & last & lg & Hes & Hlen & Hans & Hres)
        end.
        exists ((request, Failure e) :: es), last, lg.
        split; [constructor; [split; [reflexivity|exists e; split; [reflexivity|exact Hk]]
                             |exact Hes]|].
        split; [simpl List.length; lia|].
        split; [split; [simpl; auto|exact Hans]|].
        cbn [UploadHelper.trace UploadHelper.set_trace UploadHelper.set_log] in Hres.
        rewrite <- app_assoc in Hres. cbn [app] in Hres.
        destruct last; cbv zeta in Hres |- *.
        -- exact Hres.
        -- destruct Hres as [Hres Hn]. split; [exact Hres|]. intros Hty. specialize (Hn Hty).
           simpl List.length. lia.
      * exists [], (Failure e), (UploadHelper.log s). split; [constructor|].
        split; [simpl; lia|]. split; [simpl; auto|]. simpl. split; [destruct s; reflexivity|].
        intros _. lia.
    + exists [], (Failure e), (UploadHelper.log s). split; [constructor|].
      split; [simpl; lia|]. split; [simpl; auto|]. simpl. split; [destruct s; reflexivity|].
      intros Hty. unfold is_no_such_key in Hk. rewrite Hty in Hk. discriminate.
Qed.

Lemma buffer_complete_retry_loop_step (client : Client) (request : Request) (max_retry : Z)
    (fuel : nat) (i : Z) (s : WriteBufferFromS3.State) :
  WriteBufferFromS3.complete_retry_loop client (S fuel) i max_retry request s
  = if i <? max_retry then
      let s1 := WriteBufferFromS3.set_trace
                  (WriteBufferFromS3.trace s
                   ++ [(request, client (WriteBufferFromS3.trace s) request)]) s in
      match client (WriteBufferFromS3.trace s) request with
      | Success _ => Ok tt s1
      | Failure e =>
          if is_no_such_key e
          then WriteBufferFromS3.complete_retry_loop client fuel (wrap (i + 1)) max_retry request
                 (WriteBufferFromS3.set_log (WriteBufferFromS3.log s ++ [WillRetry]) s1)
          else Throw (S3Exception (GetErrorType e) (GetMessage e)) s1
      end
    else Ok tt s.
Proof.
  cbn [WriteBufferFromS3.complete_retry_loop].
  destruct (i <? max_retry); [|reflexivity].
  unfold bind, WriteBufferFromS3.send, is_no_such_key.
  destruct (client (WriteBufferFromS3.trace s) request) as [x|e]; [reflexivity|].
  destruct (GetErrorType e); reflexivity.
Qed.

(** The attempts of the streaming buffer: phantom failures, then either an
    answer that ends the loop, or the end of the budget, where the loop is
    left without an exception. *)
Lemma buffer_complete_retry_loop_spec (client : Client) (request : Request) (max_retry : Z)
    (fuel : nat) (i : Z) (s : WriteBufferFromS3.State) :
  0 <= i <= max_retry -> max_retry < SIZE_MODULUS ->
  max_retry - i <= Z.of_nat fuel ->
  let r := WriteBufferFromS3.complete_retry_loop client fuel i max_retry request s in
  exists es lg,
    Forall (phantom_attempt request) es /\
    Z.of_nat (List.length es) <= max_retry - i /\
    answers_of client (WriteBufferFromS3.trace s) es /\
    ((Z.of_nat (List.length es) = max_retry - i /\
      r = Ok tt (WriteBufferFromS3.set_log lg
                   (WriteBufferFromS3.set_trace (WriteBufferFromS3.trace s ++ es) s)))
     \/
     (exists last,
        let s' := WriteBufferFromS3.set_log lg
                    (WriteBufferFromS3.set_trace
                       (WriteBufferFromS3.trace s ++ es ++ [(request, last)]) s) in
        last = client (WriteBufferFromS3.trace s ++ es) request /\
        match last with
        | Success _ => r = Ok tt s'
        | Failure e =>
            is_no_such_key e = false /\
            r = Throw (S3Exception (GetErrorType e) (GetMessage e)) s'
        end)).
Proof.
  revert i s. induction fuel as [|fuel IH]; intros i s Hi Hm Hf r.
  - exists [], (WriteBufferFromS3.log s). split; [constructor|]. split; [simpl; lia|].
    split; [exact I|]. left. split; [simpl; lia|]. subst r. cbn [WriteBufferFromS3.complete_retry_loop].
    destruct (Z.ltb_spec i max_retry); [lia|].
    rewrite app_nil_r. destruct s; reflexivity.
  - subst r. rewrite buffer_complete_retry_loop_step.
    destruct (Z.ltb_spec i max_retry) as [Hlt|Hge].
    + cbv zeta.
      destruct (client (WriteBufferFromS3.trace s) request) as [x|e] eqn:Ho.
      * exists [], (WriteBufferFromS3.log s). split; [constructor|]. split; [simpl; lia|].
        split; [exact I|].
        right. exists (Success x). rewrite app_nil_r. split; [congruence|].
        destruct s; reflexivity.
      * destruct (is_no_such_key e) eqn:Hk.
        -- rewrite (wrap_succ i max_retry) by lia.
           match goal with
           | |- context [WriteBufferFromS3.complete_retry_loop client fuel _ _ _ ?st] =>
               destruct (IH (i + 1) st ltac:(lia) Hm ltac:(lia))
                 as (es & lg & Hes & Hlen & Hans & Hres)
           end.
           exists ((request, Failure e) :: es), lg.
           split; [constructor; [split; [reflexivity|exists e; split;
                     [reflexivity|apply is_no_such_key_true; exact Hk]]|exact Hes]|].
           split; [simpl List.length; lia|].
           cbn [WriteBufferFromS3.trace WriteBufferFromS3.set_trace WriteBufferFromS3.set_log]
             in Hres, Hans.
           split; [split; [simpl; auto|exact Hans]|].
           rewrite <- app_assoc in Hres. cbn [app] in Hres.
           destruct Hres as [[Hall Hres] | [last Hres]].
           ++ left. split; [simpl List.length; lia|exact Hres].
           ++ right. exists last. rewrite <- !app_assoc in Hres. exact Hres.
        -- exists [], (WriteBufferFromS3.log s). split; [constructor|]. split; [simpl; lia|].
           split; [exact I|].
           right. exists (Failure e). rewrite app_nil_r. split; [congruence|].
           split; [exact Hk|]. destruct s; reflexivity.
    + exists [], (WriteBufferFromS3.log s). split; [constructor|]. split; [simpl; lia|].
      split; [exact I|]. left. split; [simpl; lia|]. rewrite app_nil_r. destruct s; reflexivity.
Qed.

(** [processPutRequest] and [completeMultipartUpload] of the streaming buffer
    retry with the same loop. *)
Lemma buffer_put_retry_loop_same (client : Client) (request : Request) (max_retry : Z)
    (fuel : nat) (i : Z) (s : WriteBufferFromS3.State) :
  WriteBufferFromS3.put_retry_loop client fuel i max_retry request s
  = WriteBufferFromS3.complete_retry_loop client fuel i max_retry request s.
Proof. reflexivity. Qed.

(** A streaming buffer whose every [CompleteMultipartUpload] is answered with
    the phantom [NoSuchKey] leaves [completeMultipartUpload] without an
    exception, whatever the budget of retries. *)
Lemma buffer_complete_silent (client : Client) (s : WriteBufferFromS3.State) :
  is_size_t (WriteBufferFromS3.max_unexpected_write_error_retries (WriteBufferFromS3.config s)) ->
  WriteBufferFromS3.part_tags s <> [] ->
  (forall history request,
     is_complete request = true ->
     exists e, client history request = Failure e /\ is_no_such_key e = true) ->
  returns_normally (WriteBufferFromS3.completeMultipartUpload client s) = true.
Proof.
  intros Hr Htags Hclient.
  unfold WriteBufferFromS3.completeMultipartUpload, bind, gets.
  destruct (WriteBufferFromS3.part_tags s) as [|t tags] eqn:Ht; [congruence|].
  set (max_retry := std_max _ 1).
  set (request := CompleteMultipartUploadRequest _ _).
  pose proof (std_max_1 (WriteBufferFromS3.max_unexpected_write_error_retries
                           (WriteBufferFromS3.config s))) as Hmax.
  pose proof (std_max_size_t _ Hr) as Hsz. fold max_retry in Hmax, Hsz.
  destruct (buffer_complete_retry_loop_spec client request max_retry (Z.to_nat max_retry) 0 s)
    as (es & lg & Hes & Hlen & Hans & [[_ Hres] | [last [Hlast Hres]]]);
    try (unfold is_size_t in Hsz; lia).
  - rewrite Hres. reflexivity.
  - destruct (Hclient (WriteBufferFromS3.trace s ++ es) request eq_refl) as (e' & He' & Hk').
    rewrite He' in Hlast. subst last. cbv zeta in Hres. destruct Hres as [Hk _]. congruence.
Qed.

(** Whatever the budget, the loops send nothing but their request and change
    nothing but the trace and the log. *)
Lemma copy_complete_retry_loop_sends (client : Client) (request : Request) (max_retries : Z)
    (fuel : nat) (retries : Z) (s : UploadHelper.State) :
  exists sent lg,
    final_state (UploadHelper.complete_retry_loop client fuel retries max_retries request s)
    = UploadHelper.set_log lg (UploadHelper.set_trace (UploadHelper.trace s ++ sent) s) /\
    Forall (fun entry => fst entry = request) sent /\
    (fuel <> O -> sent <> []).
Proof.
  revert retries s. induction fuel as [|fuel IH]; intros retries s.
  - exists [], (UploadHelper.log s). simpl. rewrite app_nil_r.
    split; [destruct s; reflexivity|]. split; [constructor|congruence].
  - rewrite copy_complete_retry_loop_step. cbv zeta.
    set (o := client (UploadHelper.trace s) request).
    assert (Hone : forall (r : Result UploadHelper.State unit),
               final_state r = UploadHelper.set_trace (UploadHelper.trace s ++ [(request, o)]) s ->
               exists sent lg,
                 final_state r
                 = UploadHelper.set_log lg
                     (UploadHelper.set_trace (UploadHelper.trace s ++ sent) s) /\
                 Forall (fun entry => fst entry = request) sent /\
                 (S fuel <> O -> sent <> [])).
    { intros r Hr. exists [(request, o)], (UploadHelper.log s). rewrite Hr.
      split; [destruct s; reflexivity|]. split; [repeat constructor|discriminate]. }
    destruct o as [x|e]; [apply Hone; reflexivity|].
    destruct (is_no_such_key e && (retries <? max_retries)); [|apply Hone; reflexivity].
    match goal with
    | |- context [UploadHelper.complete_retry_loop client fuel ?k _ _ ?st] =>
        destruct (IH k st) as (sent & lg & Hfin & Hall & _)
    end.
    exists ((request, Failure e) :: sent), lg. rewrite Hfin.
    cbn [UploadHelper.trace UploadHelper.set_trace UploadHelper.set_log].
    rewrite <- app_assoc. split; [reflexivity|].
    split; [constructor; [reflexivity|exact Hall]|discriminate].
Qed.

Lemma buffer_complete_retry_loop_sends (client : Client) (request : Request) (max_retry : Z)
    (fuel : nat) (i : Z) (s : WriteBufferFromS3.State) :
  exists sent lg,
    final_state (WriteBufferFromS3.complete_retry_loop client fuel i max_retry request s)
    = WriteBufferFromS3.set_log lg
        (WriteBufferFromS3.set_trace (WriteBufferFromS3.trace s ++ sent) s) /\
    Forall (fun entry => fst entry = request) sent /\
    (fuel <> O -> i < max_retry -> sent <> []).
Proof.
  revert i s. induction fuel as [|fuel IH]; intros i s.
  - exists [], (WriteBufferFromS3.log s). rewrite app_nil_r.
    split; [|split; [constructor|congruence]].
    cbn [WriteBufferFromS3.complete_retry_loop].
    destruct (i <? max_retry); destruct s; reflexivity.
  - rewrite buffer_complete_retry_loop_step.
    destruct (Z.ltb_spec i max_retry) as [Hlt|Hge].
    + cbv zeta.
      set (o := client (WriteBufferFromS3.trace s) request).
      assert (Hone : forall (r : Result WriteBufferFromS3.State unit),
                 final_state r
                 = WriteBufferFromS3.set_trace (WriteBufferFromS3.trace s ++ [(request, o)]) s ->
                 exists sent lg,
                   final_state r
                   = WriteBufferFromS3.set_log lg
                       (WriteBufferFromS3.set_trace (WriteBufferFromS3.trace s ++ sent) s) /\
                   Forall (fun entry => fst entry = request) sent /\
                   (S fuel <> O -> i < max_retry -> sent <> [])).
      { intros r Hr. exists [(request, o)], (WriteBufferFromS3.log s). rewrite Hr.
        split; [destruct s; reflexivity|]. split; [repeat constructor|discriminate]. }
      destruct o as [x|e]; [apply Hone; reflexivity|].
      destruct (is_no_such_key e); [|apply Hone; reflexivity].
      match goal with
      | |- context [WriteBufferFromS3.complete_retry_loop client fuel ?k _ _ ?st] =>
          destruct (IH k st) as (sent & lg & Hfin & Hall & _)
      end.
      exists ((request, Failure e) :: sent), lg. rewrite Hfin.
      cbn [WriteBufferFromS3.trace WriteBufferFromS3.set_trace WriteBufferFromS3.set_log].
      rewrite <- app_assoc. split; [reflexivity|].
      split; [constructor; [reflexivity|exact Hall]|discriminate].
    + exists [], (WriteBufferFromS3.log s). rewrite app_nil_r.
      split; [destruct s; reflexivity|]. split; [constructor|lia].
Qed.

(** The payload of every [CompleteMultipartUpload] request, in the copy
    helpers and in the streaming buffer, has one entry per collected tag, the
    tags in their order and the part numbers 1, 2, ..., N, where N is the
    number of tags (N fits the [int] of the request); with no tag collected
    an exception of kind [Remote] is raised and nothing is sent. *)
Lemma completeMultipartUpload_sends_tags (client : Client) :
  (forall s : UploadHelper.State,
     UploadHelper.multipart_upload_aborted s = false ->
     let r := UploadHelper.completeMultipartUpload client s in
     let tags := UploadHelper.part_tags s in
     (tags = [] -> exists e, r = Throw e s /\ kind_of e = Remote) /\
     (tags <> [] -> Z.of_nat (List.length tags) <= INT_MAX ->
      exists parts sent,
        List.length parts = List.length tags /\
        map ETag parts = tags /\
        map PartNumber parts = map Z.of_nat (seq 1 (List.length tags)) /\
        sent <> [] /\
        Forall (fun entry =>
                  fst entry = CompleteMultipartUploadRequest (UploadHelper.multipart_upload_id s) parts)
               sent /\
        UploadHelper.trace (final_state r) = UploadHelper.trace s ++ sent)) /\
  (forall s : WriteBufferFromS3.State,
     let r := WriteBufferFromS3.completeMultipartUpload client s in
     let tags := WriteBufferFromS3.part_tags s in
     (tags = [] -> exists e, r = Throw e s /\ kind_of e = Remote) /\
     (tags <> [] -> Z.of_nat (List.length tags) <= INT_MAX ->
      exists parts sent,
        List.length parts = List.length tags /\
        map ETag parts = tags /\
        map PartNumber parts = map Z.of_nat (seq 1 (List.length tags)) /\
        sent <> [] /\
        Forall (fun entry =>
                  fst entry
                  = CompleteMultipartUploadRequest (WriteBufferFromS3.multipart_upload_id s) parts)
               sent /\
        WriteBufferFromS3.trace (final_state r) = WriteBufferFromS3.trace s ++ sent)).
Proof.
  split.
  - intros s Hab r tags. subst r tags.
    unfold UploadHelper.completeMultipartUpload, bind, gets. rewrite Hab.
    split.
    + intros ->. eexists. split; reflexivity.
    + intros Hne Hlen.
      destruct (UploadHelper.part_tags s) as [|t tags] eqn:Ht; [congruence|].
      rewrite <- Ht in *.
      destruct (completed_parts_numbered _ Hlen) as (Hl & He & Hn).
      exists (UploadHelper.completed_parts (UploadHelper.part_tags s)).
      pose proof (std_max_1 (UploadHelper.max_unexpected_write_error_retries
                               (UploadHelper.config s))) as Hmax.
      match goal with
      | |- context [UploadHelper.complete_retry_loop client ?f ?k ?m ?q s] =>
          destruct (copy_complete_retry_loop_sends client q m f k s)
            as (sent & lg & Hfin & Hall & Hsent)
      end.
      exists sent. repeat split; try assumption.
      * apply Hsent. lia.
      * rewrite Hfin. reflexivity.
  - intros s r tags. subst r tags.
    unfold WriteBufferFromS3.completeMultipartUpload, bind, gets.
    split.
    + intros ->. eexists. split; reflexivity.
    + intros Hne Hlen.
      destruct (WriteBufferFromS3.part_tags s) as [|t tags] eqn:Ht; [congruence|].
      rewrite <- Ht in *.
      destruct (completed_parts_numbered _ Hlen) as (Hl & He & Hn).
      rewrite completed_parts_same.
      exists (UploadHelper.completed_parts (WriteBufferFromS3.part_tags s)).
      pose proof (std_max_1 (WriteBufferFromS3.max_unexpected_write_error_retries
                               (WriteBufferFromS3.config s))) as Hmax.
      match goal with
      | |- context [WriteBufferFromS3.complete_retry_loop client ?f ?k ?m ?q s] =>
          destruct (buffer_complete_retry_loop_sends client q m f k s)
            as (sent & lg & Hfin & Hall & Hsent)
      end.
      exists sent. repeat split; try assumption.
      * apply Hsent; lia.
      * rewrite Hfin. reflexivity.
Qed.

(** The copy helper reports how the completion ended: it returns only after
    an answer of success, and every other end is an exception of kind
    [Remote]. *)
Lemma copy_completeMultipartUpload_reports (client : Client) (s : UploadHelper.State) :
  is_size_t (UploadHelper.max_unexpected_write_error_retries (UploadHelper.config s)) ->
  UploadHelper.multipart_upload_aborted s = false ->
  let r := UploadHelper.completeMultipartUpload client s in
  (exists sent request x,
     r = Ok tt (final_state r) /\
     UploadHelper.trace (final_state r) = UploadHelper.trace s ++ sent ++ [(request, Success x)] /\
     Z.of_nat (List.length sent)
     < std_max (UploadHelper.max_unexpected_write_error_retries (UploadHelper.config s)) 1)
  \/ (exists e, r = Throw e (final_state r) /\ kind_of e = Remote).
Proof.
  intros Hr Hab r. subst r.
  unfold UploadHelper.completeMultipartUpload, bind, gets. rewrite Hab.
  destruct (UploadHelper.part_tags s) as [|t tags] eqn:Ht.
  - right. eexists. split; reflexivity.
  - set (max_retries := std_max _ 1).
    set (request := CompleteMultipartUploadRequest _ _).
    pose proof (std_max_1 (UploadHelper.max_unexpected_write_error_retries
                             (UploadHelper.config s))) as Hmax.
    pose proof (std_max_size_t _ Hr) as Hsz. fold max_retries in Hmax, Hsz.
    unfold is_size_t in Hsz.
    destruct (copy_complete_retry_loop_spec client request max_retries (Z.to_nat max_retries) 1 s)
      as (es & last & lg & Hes & Hlen & Hans & Hres); try lia.
    destruct last as [x|e]; cbv zeta in Hres.
    + left. exists es, request, x. rewrite Hres. simpl. repeat split; lia.
    + right. destruct Hres as [Hres _]. rewrite Hres. eexists. split; reflexivity.
Qed.

(** C1. With a budget of one attempt and the phantom [NoSuchKey] as the
    answer to [CompleteMultipartUpload], the streaming buffer leaves
    [completeMultipartUpload] normally, the failed attempt being the only
    request it sent, where the copy helper raises an exception of kind
    [Remote]. *)
Theorem completeMultipartUpload_exhausted_budget :
  let client := Samples.phantom_complete_client 1 in
  let buffer := WriteBufferFromS3.completeMultipartUpload client (Samples.buffer_with_one_part 1) in
  let helper := UploadHelper.completeMultipartUpload client (Samples.helper_with_one_part 1) in
  returns_normally buffer = true /\
  map snd (WriteBufferFromS3.trace (final_state buffer)) = [Failure Samples.no_such_key] /\
  option_map kind_of (thrown helper) = Some Remote /\
  map snd (UploadHelper.trace (final_state helper)) = [Failure Samples.no_such_key].
Proof. vm_compute. repeat split; reflexivity. Qed.

(** ** Empty parts *)

(** C9. A part operation of size zero, in the copy helpers ([uploadPart] with
    [part_size = 0]) and in the streaming buffer ([writePart] with an empty
    part buffer), returns without an exception; it writes a line to the log
    and changes nothing else: no request is sent, no task is added and the
    list of part tags is as it was. *)
Theorem empty_part_is_skipped (client : Client) :
  (forall (s : UploadHelper.State) (part_number part_offset : Z),
     UploadHelper.uploadPart client part_number part_offset 0 s
     = Ok tt (UploadHelper.set_log (UploadHelper.log s ++ [SkippingEmptyPart]) s)) /\
  (forall s : WriteBufferFromS3.State,
     WriteBufferFromS3.temporary_buffer s = 0 ->
     WriteBufferFromS3.writePart client s
     = Ok tt (WriteBufferFromS3.set_log (WriteBufferFromS3.log s ++ [SkippingEmptyPart]) s)).
Proof.
  split.
  - intros s part_number part_offset. reflexivity.
  - intros s Hempty.
    unfold WriteBufferFromS3.writePart, bind, gets. rewrite Hempty. reflexivity.
Qed.

Lemma empty_part_is_skipped_witness :
  let s := WriteBufferFromS3.set_multipart_upload_id "upload-1"
             (WriteBufferFromS3.construct
                (WriteBufferFromS3.mkConfig Samples.small_policy false 1 false) []) in
  let r := WriteBufferFromS3.writePart Samples.accepting_client s in
  returns_normally r = true /\
  WriteBufferFromS3.trace (final_state r) = [] /\
  WriteBufferFromS3.part_tags (final_state r) = [] /\
  WriteBufferFromS3.upload_object_tasks (final_state r) = [] /\
  WriteBufferFromS3.part_number (final_state r) = 0.
Proof.
  intros s r. subst r.
  rewrite (proj2 (empty_part_is_skipped Samples.accepting_client) s eq_refl).
  repeat split.
Defined.

(** ** The part counter of the streaming buffer *)

(** The three ways [fillUploadRequest] ends. *)
Lemma fillUploadRequest_cases (s : WriteBufferFromS3.State) :
  let st := WriteBufferFromS3.settings (WriteBufferFromS3.config s) in
  let number := wrap (WriteBufferFromS3.part_number s + 1) in
  let s1 := WriteBufferFromS3.set_part_number number s in
  let opened := negb (WriteBufferFromS3.empty (WriteBufferFromS3.multipart_upload_id s)) in
  let request :=
    UploadPartRequest (WriteBufferFromS3.multipart_upload_id s) (static_cast_int number)
      (WriteBufferFromS3.temporary_buffer s)
      (TemporaryBuffer (WriteBufferFromS3.temporary_buffer s)) in
  if opened && (max_part_number st <? number) then
    WriteBufferFromS3.fillUploadRequest s
    = Throw (DBException INVALID_CONFIG_PARAMETER "Part number exceeded") s1
  else if opened && (upload_part_size_multiply_parts_count_threshold st =? 0) then
    WriteBufferFromS3.fillUploadRequest s = Undefined s1
  else if opened && (number mod upload_part_size_multiply_parts_count_threshold st =? 0) then
    WriteBufferFromS3.fillUploadRequest s
    = Ok request
        (WriteBufferFromS3.set_upload_part_size
           (std_min (wrap (WriteBufferFromS3.upload_part_size s
                           * upload_part_size_multiply_factor st))
                    (max_upload_part_size st)) s1)
  else
    WriteBufferFromS3.fillUploadRequest s = Ok request s1.
Proof.
  intros st number s1 opened request.
  unfold WriteBufferFromS3.fillUploadRequest, bind, gets, modify, throw, ret, undefined.
  cbn [WriteBufferFromS3.part_number WriteBufferFromS3.set_part_number
       WriteBufferFromS3.multipart_upload_id WriteBufferFromS3.config
       WriteBufferFromS3.temporary_buffer WriteBufferFromS3.upload_part_size].
  fold st number opened s1.
  destruct opened; cbn [andb].
  - destruct (max_part_number st <? number); [reflexivity|].
    destruct (upload_part_size_multiply_parts_count_threshold st =? 0); [reflexivity|].
    destruct (number mod upload_part_size_multiply_parts_count_threshold st =? 0); reflexivity.
  - reflexivity.
Qed.

(** A normal return of [fillUploadRequest] on an open multipart upload leaves
    the counter within [max_part_number], and the request carries it. *)
Lemma fillUploadRequest_within_ceiling (s s' : WriteBufferFromS3.State) (request : Request) :
  WriteBufferFromS3.empty (WriteBufferFromS3.multipart_upload_id s) = false ->
  WriteBufferFromS3.fillUploadRequest s = Ok request s' ->
  WriteBufferFromS3.part_number s' = wrap (WriteBufferFromS3.part_number s + 1) /\
  WriteBufferFromS3.part_number s'
  <= max_part_number (WriteBufferFromS3.settings (WriteBufferFromS3.config s')) /\
  WriteBufferFromS3.config s' = WriteBufferFromS3.config s /\
  WriteBufferFromS3.multipart_upload_id s' = WriteBufferFromS3.multipart_upload_id s /\
  WriteBufferFromS3.trace s' = WriteBufferFromS3.trace s /\
  request = UploadPartRequest (WriteBufferFromS3.multipart_upload_id s)
              (static_cast_int (WriteBufferFromS3.part_number s'))
              (WriteBufferFromS3.temporary_buffer s)
              (TemporaryBuffer (WriteBufferFromS3.temporary_buffer s)).
Proof.
  intros Hopen Hfill. pose proof (fillUploadRequest_cases s) as Hc. cbv zeta in Hc.
  rewrite Hopen in Hc. cbn [negb andb] in Hc.
  destruct (Z.ltb_spec (max_part_number (WriteBufferFromS3.settings (WriteBufferFromS3.config s)))
              (wrap (WriteBufferFromS3.part_number s + 1))) as [|Hle];
    [congruence|].
  destruct (upload_part_size_multiply_parts_count_threshold
              (WriteBufferFromS3.settings (WriteBufferFromS3.config s)) =? 0); [congruence|].
  destruct (wrap (WriteBufferFromS3.part_number s + 1)
            mod upload_part_size_multiply_parts_count_threshold
                  (WriteBufferFromS3.settings (WriteBufferFromS3.config s)) =? 0);
    rewrite Hc in Hfill; injection Hfill as <- <-; cbn; repeat split; exact Hle.
Qed.

(** ** Reasoning about member functions *)

Section Preservation.

Context {S : Type} (R : S -> S -> Prop).
Hypothesis R_refl : forall s, R s s.
Hypothesis R_trans : forall s1 s2 s3, R s1 s2 -> R s2 s3 -> R s1 s3.

Lemma preserves_ret {A} (a : A) : preserves R (ret a).
Proof. intros s. apply R_refl. Qed.

Lemma preserves_gets {A} (f : S -> A) : preserves R (gets f).
Proof. intros s. apply R_refl. Qed.

Lemma preserves_throw {A} (e : Exception) : preserves R (@throw S A e).
Proof. intros s. apply R_refl. Qed.

Lemma preserves_undefined {A} : preserves R (@undefined S A).
Proof. intros s. apply R_refl. Qed.

Lemma preserves_blocked {A} : preserves R (fun s => @Blocked S A s).
Proof. intros s. apply R_refl. Qed.

Lemma preserves_out_of_fuel {A} : preserves R (fun s => @OutOfFuel S A s).
Proof. intros s. apply R_refl. Qed.

Lemma preserves_modify (f : S -> S) : (forall s, R s (f s)) -> preserves R (modify f).
Proof. intros H s. apply H. Qed.

Lemma preserves_bind {A B} (c : M S A) (k : A -> M S B) :
  preserves R c -> (forall a, preserves R (k a)) -> preserves R (bind c k).
Proof.
  intros Hc Hk s. unfold bind. specialize (Hc s).
  destruct (c s) as [a s'| | | |]; try exact Hc.
  apply (R_trans _ s'); [exact Hc|apply Hk].
Qed.

Lemma preserves_try_rethrow {A} (c : M S A) (h : S -> S) :
  preserves R c -> (forall s, R s (h s)) -> preserves R (try_rethrow c h).
Proof.
  intros Hc Hh s. unfold try_rethrow. specialize (Hc s).
  destruct (c s) as [a s'|e s'| | |]; try exact Hc.
  apply (R_trans _ s'); [exact Hc|apply Hh].
Qed.

Lemma preserves_if {A} (b : bool) (c1 c2 : M S A) :
  preserves R c1 -> preserves R c2 -> preserves R (if b then c1 else c2).
Proof. destruct b; auto. Qed.

End Preservation.

Lemma bind_ok {S A B} (c : M S A) (k : A -> M S B) (s s2 : S) (b : B) :
  bind c k s = Ok b s2 -> exists a s1, c s = Ok a s1 /\ k a s1 = Ok b s2.
Proof.
  unfold bind. destruct (c s) as [a s1| | | |]; try discriminate.
  intros H. exists a, s1. split; [reflexivity|exact H].
Qed.

Lemma preserves_final_state {S A} (R : S -> S -> Prop) (c : M S A) (s : S) :
  preserves R c -> R s (final_state (c s)).
Proof. intros H. apply H. Qed.

Lemma preserves_ok {S A} (R : S -> S -> Prop) (c : M S A) (s s' : S) (a : A) :
  preserves R c -> c s = Ok a s' -> R s s'.
Proof. intros H Hc. specialize (H s). rewrite Hc in H. exact H. Qed.

Lemma keeps_refl {S T} (f : S -> T) (s : S) : keeps f s s.
Proof. reflexivity. Qed.

Lemma keeps_trans {S T} (f : S -> T) (s1 s2 s3 : S) :
  keeps f s1 s2 -> keeps f s2 s3 -> keeps f s1 s3.
Proof. unfold keeps. congruence. Qed.

(** Splits a goal [preserves R c] along the structure of [c]; [refl] and
    [trans] prove that [R] is reflexive and transitive. *)
Ltac preserve_with refl trans :=
  repeat match goal with
    | |- preserves _ (bind _ _) => apply (preserves_bind _ trans)
    | |- preserves _ (ret _) => apply (preserves_ret _ refl)
    | |- preserves _ (gets _) => apply (preserves_gets _ refl)
    | |- preserves _ (throw _) => apply (preserves_throw _ refl)
    | |- preserves _ undefined => apply (preserves_undefined _ refl)
    | |- preserves _ (fun s => Blocked _) => apply (preserves_blocked _ refl)
    | |- preserves _ (fun s => OutOfFuel _) => apply (preserves_out_of_fuel _ refl)
    | |- preserves _ (try_rethrow _ _) => apply (preserves_try_rethrow _ trans)
    | |- preserves _ (modify _) => apply preserves_modify
    | |- preserves _ (if ?b then _ else _) => destruct b
    | |- preserves _ (match ?x with _ => _ end) => destruct x
    | |- forall _, _ => intro
    end.

Ltac keeps_tac := preserve_with uconstr:(keeps_refl _) uconstr:(keeps_trans _).

(** ** What the background of the streaming buffer leaves alone *)

Create HintDb frames.

Ltac frame_tac :=
  keeps_tac; try solve [reflexivity | auto with frames].

Section BufferFrames.

Variable client : Client.

Lemma buffer_send_front_end (r : Request) :
  preserves (keeps WriteBufferFromS3.front_end) (WriteBufferFromS3.send client r).
Proof. intros s. reflexivity. Qed.

Lemma buffer_LOG_front_end (m : LogMessage) :
  preserves (keeps WriteBufferFromS3.front_end) (WriteBufferFromS3.LOG m).
Proof. intros s. reflexivity. Qed.

#[local] Hint Resolve buffer_send_front_end buffer_LOG_front_end : frames.

Lemma buffer_complete_retry_loop_front_end (fuel : nat) (i max_retry : Z) (request : Request) :
  preserves (keeps WriteBufferFromS3.front_end)
    (WriteBufferFromS3.complete_retry_loop client fuel i max_retry request).
Proof.
  revert i. induction fuel as [|fuel IH]; intros i; cbn [WriteBufferFromS3.complete_retry_loop];
    frame_tac.
Qed.

Lemma buffer_put_retry_loop_front_end (fuel : nat) (i max_retry : Z) (request : Request) :
  preserves (keeps WriteBufferFromS3.front_end)
    (WriteBufferFromS3.put_retry_loop client fuel i max_retry request).
Proof. exact (buffer_complete_retry_loop_front_end fuel i max_retry request). Qed.

#[local] Hint Resolve buffer_complete_retry_loop_front_end buffer_put_retry_loop_front_end : frames.

Lemma buffer_processPutRequest_front_end (task : WriteBufferFromS3.PutObjectTask) :
  preserves (keeps WriteBufferFromS3.front_end) (WriteBufferFromS3.processPutRequest client task).
Proof. unfold WriteBufferFromS3.processPutRequest. frame_tac. Qed.

Lemma buffer_processUploadRequest_front_end (task : WriteBufferFromS3.UploadPartTask) :
  preserves (keeps WriteBufferFromS3.front_end)
    (WriteBufferFromS3.processUploadRequest client task).
Proof. unfold WriteBufferFromS3.processUploadRequest. frame_tac. Qed.

#[local] Hint Resolve buffer_processPutRequest_front_end buffer_processUploadRequest_front_end : frames.

Lemma buffer_upload_task_runs_front_end (id : Z) :
  preserves (keeps WriteBufferFromS3.front_end) (WriteBufferFromS3.upload_task_runs client id).
Proof.
  intros s. unfold WriteBufferFromS3.upload_task_runs.
  destruct (find _ _) as [task|]; [|reflexivity].
  destruct (WriteBufferFromS3.stage task); try reflexivity.
  pose proof (buffer_processUploadRequest_front_end task s) as H.
  destruct (WriteBufferFromS3.processUploadRequest client task s); exact H.
Qed.

Lemma buffer_put_task_runs_front_end :
  preserves (keeps WriteBufferFromS3.front_end) (WriteBufferFromS3.put_task_runs client).
Proof.
  intros s. unfold WriteBufferFromS3.put_task_runs.
  destruct (WriteBufferFromS3.put_object_task s) as [task|]; [|reflexivity].
  destruct (WriteBufferFromS3.put_stage task); try reflexivity.
  pose proof (buffer_processPutRequest_front_end task s) as H.
  destruct (WriteBufferFromS3.processPutRequest client task s); exact H.
Qed.

#[local] Hint Resolve buffer_upload_task_runs_front_end buffer_put_task_runs_front_end : frames.

Lemma buffer_pool_events_front_end (evs : list WriteBufferFromS3.PoolEvent) :
  preserves (keeps WriteBufferFromS3.front_end) (WriteBufferFromS3.pool_events client evs).
Proof.
  induction evs as [|ev evs IH]; cbn [WriteBufferFromS3.pool_events]; frame_tac.
  destruct ev; cbn [WriteBufferFromS3.pool_event]; auto with frames.
Qed.

#[local] Hint Resolve buffer_pool_events_front_end : frames.

Lemma buffer_pool_turn_front_end :
  preserves (keeps WriteBufferFromS3.front_end) (WriteBufferFromS3.pool_turn client).
Proof. unfold WriteBufferFromS3.pool_turn. frame_tac. Qed.

Lemma buffer_pool_finish_front_end (ids : list Z) :
  preserves (keeps WriteBufferFromS3.front_end) (WriteBufferFromS3.pool_finish client ids).
Proof. induction ids as [|id ids IH]; cbn [WriteBufferFromS3.pool_finish]; frame_tac. Qed.

#[local] Hint Resolve buffer_pool_turn_front_end buffer_pool_finish_front_end : frames.

Lemma buffer_condvar_wait_tasks_front_end :
  preserves (keeps WriteBufferFromS3.front_end) (WriteBufferFromS3.condvar_wait_tasks client).
Proof. unfold WriteBufferFromS3.condvar_wait_tasks. frame_tac. Qed.

Lemma buffer_condvar_wait_put_front_end :
  preserves (keeps WriteBufferFromS3.front_end) (WriteBufferFromS3.condvar_wait_put client).
Proof. unfold WriteBufferFromS3.condvar_wait_put. frame_tac. Qed.

Lemma buffer_collect_all_front_end (tasks : list WriteBufferFromS3.UploadPartTask) :
  preserves (keeps WriteBufferFromS3.front_end) (WriteBufferFromS3.collect_all tasks).
Proof. induction tasks as [|task tasks IH]; cbn [WriteBufferFromS3.collect_all]; frame_tac. Qed.

#[local] Hint Resolve buffer_condvar_wait_tasks_front_end buffer_condvar_wait_put_front_end
  buffer_collect_all_front_end : frames.

Lemma buffer_waitForAllBackGroundTasksUnlocked_front_end :
  preserves (keeps WriteBufferFromS3.front_end)
    (WriteBufferFromS3.waitForAllBackGroundTasksUnlocked client).
Proof. unfold WriteBufferFromS3.waitForAllBackGroundTasksUnlocked. frame_tac. Qed.

#[local] Hint Resolve buffer_waitForAllBackGroundTasksUnlocked_front_end : frames.

Lemma buffer_waitForAllBackGroundTasks_front_end :
  preserves (keeps WriteBufferFromS3.front_end)
    (WriteBufferFromS3.waitForAllBackGroundTasks client).
Proof. unfold WriteBufferFromS3.waitForAllBackGroundTasks. frame_tac. Qed.

Lemma buffer_collect_ready_front_end (tasks : list WriteBufferFromS3.UploadPartTask) :
  preserves (keeps WriteBufferFromS3.front_end) (WriteBufferFromS3.collect_ready client tasks).
Proof. induction tasks as [|task tasks IH]; cbn [WriteBufferFromS3.collect_ready]; frame_tac. Qed.

#[local] Hint Resolve buffer_waitForAllBackGroundTasks_front_end buffer_collect_ready_front_end : frames.

Lemma buffer_waitForReadyBackGroundTasks_front_end :
  preserves (keeps WriteBufferFromS3.front_end)
    (WriteBufferFromS3.waitForReadyBackGroundTasks client).
Proof. unfold WriteBufferFromS3.waitForReadyBackGroundTasks. frame_tac. Qed.

Lemma buffer_completeMultipartUpload_front_end :
  preserves (keeps WriteBufferFromS3.front_end)
    (WriteBufferFromS3.completeMultipartUpload client).
Proof. unfold WriteBufferFromS3.completeMultipartUpload. frame_tac. Qed.

Lemma buffer_checkObjectExists_front_end :
  preserves (keeps WriteBufferFromS3.front_end) (WriteBufferFromS3.checkObjectExists client).
Proof. unfold WriteBufferFromS3.checkObjectExists. frame_tac. Qed.

End BufferFrames.

#[export] Hint Resolve buffer_send_front_end buffer_LOG_front_end
  buffer_complete_retry_loop_front_end buffer_put_retry_loop_front_end
  buffer_processPutRequest_front_end buffer_processUploadRequest_front_end
  buffer_upload_task_runs_front_end buffer_put_task_runs_front_end
  buffer_pool_events_front_end buffer_pool_turn_front_end buffer_pool_finish_front_end
  buffer_condvar_wait_tasks_front_end buffer_condvar_wait_put_front_end
  buffer_collect_all_front_end buffer_waitForAllBackGroundTasksUnlocked_front_end
  buffer_waitForAllBackGroundTasks_front_end buffer_collect_ready_front_end
  buffer_waitForReadyBackGroundTasks_front_end buffer_completeMultipartUpload_front_end
  buffer_checkObjectExists_front_end : frames.

(** ** [writePart], case by case *)

Lemma front_end_config (s s' : WriteBufferFromS3.State) :
  keeps WriteBufferFromS3.front_end s s' ->
  WriteBufferFromS3.config s' = WriteBufferFromS3.config s /\
  WriteBufferFromS3.part_number s' = WriteBufferFromS3.part_number s /\
  WriteBufferFromS3.multipart_upload_id s' = WriteBufferFromS3.multipart_upload_id s.
Proof. unfold keeps, WriteBufferFromS3.front_end. intros H. injection H. auto. Qed.

Lemma writePart_inline (client : Client) (s : WriteBufferFromS3.State) :
  0 < WriteBufferFromS3.temporary_buffer s ->
  WriteBufferFromS3.schedule (WriteBufferFromS3.config s) = false ->
  WriteBufferFromS3.writePart client s
  = match WriteBufferFromS3.fillUploadRequest (WriteBufferFromS3.after_warning s) with
    | Ok r s1 =>
        match WriteBufferFromS3.processUploadRequest client
                (WriteBufferFromS3.with_req r (WriteBufferFromS3.new_task 0)) s1 with
        | Ok task s2 =>
            Ok tt (WriteBufferFromS3.set_part_tags
                     (WriteBufferFromS3.part_tags s2 ++ [WriteBufferFromS3.tag task]) s2)
        | Throw e s2 => Throw e s2
        | Undefined s2 => Undefined s2
        | OutOfFuel s2 => OutOfFuel s2
        | Blocked s2 => Blocked s2
        end
    | Throw e s1 => Throw e s1
    | Undefined s1 => Undefined s1
    | OutOfFuel s1 => OutOfFuel s1
    | Blocked s1 => Blocked s1
    end.
Proof.
  intros Hsize Hsched. unfold WriteBufferFromS3.writePart, WriteBufferFromS3.after_warning.
  cbn [bind gets].
  destruct (Z.ltb_spec (WriteBufferFromS3.temporary_buffer s) 0); [lia|].
  destruct (Z.eqb_spec (WriteBufferFromS3.temporary_buffer s) 0); [lia|].
  unfold bind at 1. unfold gets at 1.
  unfold bind at 1.
  destruct (_ =? WriteBufferFromS3.S3_WARN_MAX_PARTS);
    cbn [WriteBufferFromS3.LOG modify ret];
    unfold bind at 1; unfold gets at 1;
    cbn [WriteBufferFromS3.config WriteBufferFromS3.set_log]; rewrite Hsched;
    unfold bind at 1;
    match goal with |- context [WriteBufferFromS3.fillUploadRequest ?st] =>
      destruct (WriteBufferFromS3.fillUploadRequest st) end; try reflexivity;
    unfold bind at 1;
    match goal with |- context [WriteBufferFromS3.processUploadRequest ?c ?t ?st] =>
      destruct (WriteBufferFromS3.processUploadRequest c t st) end; reflexivity.
Qed.

Lemma writePart_scheduled (client : Client) (s : WriteBufferFromS3.State) :
  0 < WriteBufferFromS3.temporary_buffer s ->
  WriteBufferFromS3.schedule (WriteBufferFromS3.config s) = true ->
  let id := WriteBufferFromS3.num_added_bg_tasks s in
  WriteBufferFromS3.writePart client s
  = match WriteBufferFromS3.fillUploadRequest (WriteBufferFromS3.with_new_task (WriteBufferFromS3.after_warning s)) with
    | Ok r s1 =>
        WriteBufferFromS3.pool_turn client
          (WriteBufferFromS3.update_task id (WriteBufferFromS3.with_stage WriteBufferFromS3.Queued)
             (WriteBufferFromS3.update_task id (WriteBufferFromS3.with_req r) s1))
    | Throw e s1 => Throw e (WriteBufferFromS3.task_finish_notify id s1)
    | Undefined s1 => Undefined s1
    | OutOfFuel s1 => OutOfFuel s1
    | Blocked s1 => Blocked s1
    end.
Proof.
  intros Hsize Hsched id. unfold WriteBufferFromS3.writePart, WriteBufferFromS3.after_warning, WriteBufferFromS3.with_new_task.
  cbn [bind gets].
  destruct (Z.ltb_spec (WriteBufferFromS3.temporary_buffer s) 0); [lia|].
  destruct (Z.eqb_spec (WriteBufferFromS3.temporary_buffer s) 0); [lia|].
  unfold bind at 1. unfold gets at 1.
  unfold bind at 1.
  destruct (_ =? WriteBufferFromS3.S3_WARN_MAX_PARTS);
    cbn [WriteBufferFromS3.LOG modify ret];
    unfold bind at 1; unfold gets at 1;
    cbn [WriteBufferFromS3.config WriteBufferFromS3.set_log]; rewrite Hsched;
    unfold bind at 1; unfold gets at 1;
    unfold bind at 1; unfold modify at 1;
    unfold bind at 1; unfold try_rethrow;
    unfold bind at 1;
    cbn [WriteBufferFromS3.num_added_bg_tasks WriteBufferFromS3.set_log
         WriteBufferFromS3.upload_object_tasks];
    match goal with |- context [WriteBufferFromS3.fillUploadRequest ?st] =>
      destruct (WriteBufferFromS3.fillUploadRequest st) end; reflexivity.
Qed.

(** ** What the thread pool leaves alone *)

Lemma update_task_queue_view (id : Z)
    (f : WriteBufferFromS3.UploadPartTask -> WriteBufferFromS3.UploadPartTask)
    (s : WriteBufferFromS3.State) :
  (forall t, WriteBufferFromS3.task_id (f t) = WriteBufferFromS3.task_id t /\
             WriteBufferFromS3.req (f t) = WriteBufferFromS3.req t) ->
  WriteBufferFromS3.queue_view (WriteBufferFromS3.update_task id f s)
  = WriteBufferFromS3.queue_view s.
Proof.
  intros Hf. unfold WriteBufferFromS3.queue_view, WriteBufferFromS3.update_task.
  cbn [WriteBufferFromS3.upload_object_tasks WriteBufferFromS3.set_upload_object_tasks].
  rewrite map_map. apply map_ext. intros t.
  destruct (WriteBufferFromS3.task_id t =? id); [|reflexivity].
  destruct (Hf t) as [-> ->]. reflexivity.
Qed.

Lemma update_task_background_view (id : Z)
    (f : WriteBufferFromS3.UploadPartTask -> WriteBufferFromS3.UploadPartTask)
    (s : WriteBufferFromS3.State) :
  (forall t, WriteBufferFromS3.task_id (f t) = WriteBufferFromS3.task_id t /\
             WriteBufferFromS3.req (f t) = WriteBufferFromS3.req t) ->
  keeps WriteBufferFromS3.background_view s (WriteBufferFromS3.update_task id f s).
Proof.
  intros Hf. unfold keeps, WriteBufferFromS3.background_view.
  rewrite update_task_queue_view by exact Hf. reflexivity.
Qed.

Lemma task_finish_notify_background_view (id : Z) (s : WriteBufferFromS3.State) :
  keeps WriteBufferFromS3.background_view s (WriteBufferFromS3.task_finish_notify id s).
Proof.
  unfold keeps, WriteBufferFromS3.task_finish_notify.
  pose proof (update_task_background_view id WriteBufferFromS3.finished s
                ltac:(intros t; split; reflexivity)) as H.
  unfold keeps in H. rewrite <- H. reflexivity.
Qed.

Section BufferPoolFrames.

Variable client : Client.

Lemma buffer_send_background (r : Request) :
  preserves (keeps WriteBufferFromS3.background_view) (WriteBufferFromS3.send client r).
Proof. intros s. reflexivity. Qed.

Lemma buffer_LOG_background (m : LogMessage) :
  preserves (keeps WriteBufferFromS3.background_view) (WriteBufferFromS3.LOG m).
Proof. intros s. reflexivity. Qed.

#[local] Hint Resolve buffer_send_background buffer_LOG_background : frames.

Lemma buffer_complete_retry_loop_background (fuel : nat) (i max_retry : Z) (request : Request) :
  preserves (keeps WriteBufferFromS3.background_view)
    (WriteBufferFromS3.complete_retry_loop client fuel i max_retry request).
Proof.
  revert i. induction fuel as [|fuel IH]; intros i; cbn [WriteBufferFromS3.complete_retry_loop];
    frame_tac.
Qed.

Lemma buffer_put_retry_loop_background (fuel : nat) (i max_retry : Z) (request : Request) :
  preserves (keeps WriteBufferFromS3.background_view)
    (WriteBufferFromS3.put_retry_loop client fuel i max_retry request).
Proof. exact (buffer_complete_retry_loop_background fuel i max_retry request). Qed.

#[local] Hint Resolve buffer_complete_retry_loop_background buffer_put_retry_loop_background
  : frames.

Lemma buffer_processPutRequest_background (task : WriteBufferFromS3.PutObjectTask) :
  preserves (keeps WriteBufferFromS3.background_view)
    (WriteBufferFromS3.processPutRequest client task).
Proof. unfold WriteBufferFromS3.processPutRequest. frame_tac. Qed.

Lemma buffer_processUploadRequest_background (task : WriteBufferFromS3.UploadPartTask) :
  preserves (keeps WriteBufferFromS3.background_view)
    (WriteBufferFromS3.processUploadRequest client task).
Proof. unfold WriteBufferFromS3.processUploadRequest. frame_tac. Qed.

Lemma buffer_upload_task_runs_background (id : Z) :
  preserves (keeps WriteBufferFromS3.background_view)
    (WriteBufferFromS3.upload_task_runs client id).
Proof.
  intros s. unfold WriteBufferFromS3.upload_task_runs.
  destruct (find _ _) as [task|]; [|reflexivity].
  destruct (WriteBufferFromS3.stage task); try reflexivity.
  pose proof (buffer_processUploadRequest_background task s) as H.
  destruct (WriteBufferFromS3.processUploadRequest client task s) as [task' s'|e s'| | |];
    cbn [final_state] in *; try exact H.
  - eapply keeps_trans; [exact H|].
    eapply keeps_trans; [|apply task_finish_notify_background_view].
    apply update_task_background_view. intros t. split; reflexivity.
  - eapply keeps_trans; [exact H|].
    eapply keeps_trans; [|apply task_finish_notify_background_view].
    apply update_task_background_view. intros t. split; reflexivity.
Qed.

Lemma buffer_put_task_runs_background :
  preserves (keeps WriteBufferFromS3.background_view) (WriteBufferFromS3.put_task_runs client).
Proof.
  intros s. unfold WriteBufferFromS3.put_task_runs.
  destruct (WriteBufferFromS3.put_object_task s) as [task|]; [|reflexivity].
  destruct (WriteBufferFromS3.put_stage task); try reflexivity.
  pose proof (buffer_processPutRequest_background task s) as H.
  destruct (WriteBufferFromS3.processPutRequest client task s); exact H.
Qed.

#[local] Hint Resolve buffer_upload_task_runs_background buffer_put_task_runs_background : frames.

Lemma buffer_pool_events_background (evs : list WriteBufferFromS3.PoolEvent) :
  preserves (keeps WriteBufferFromS3.background_view) (WriteBufferFromS3.pool_events client evs).
Proof.
  induction evs as [|ev evs IH]; cbn [WriteBufferFromS3.pool_events]; frame_tac.
  destruct ev; cbn [WriteBufferFromS3.pool_event]; auto with frames.
Qed.

#[local] Hint Resolve buffer_pool_events_background : frames.

Lemma buffer_pool_turn_background :
  preserves (keeps WriteBufferFromS3.background_view) (WriteBufferFromS3.pool_turn client).
Proof. unfold WriteBufferFromS3.pool_turn. frame_tac. Qed.

Lemma buffer_pool_finish_background (ids : list Z) :
  preserves (keeps WriteBufferFromS3.background_view) (WriteBufferFromS3.pool_finish client ids).
Proof. induction ids as [|id ids IH]; cbn [WriteBufferFromS3.pool_finish]; frame_tac. Qed.

End BufferPoolFrames.

Lemma background_view_front_end (s s' : WriteBufferFromS3.State) :
  keeps WriteBufferFromS3.background_view s s' ->
  keeps WriteBufferFromS3.front_end s s' /\
  WriteBufferFromS3.part_tags s' = WriteBufferFromS3.part_tags s /\
  WriteBufferFromS3.num_added_bg_tasks s' = WriteBufferFromS3.num_added_bg_tasks s /\
  WriteBufferFromS3.queue_view s' = WriteBufferFromS3.queue_view s.
Proof.
  unfold keeps, WriteBufferFromS3.background_view. intros H.
  split; [exact (f_equal (fun v => fst (fst (fst v))) H)|].
  split; [exact (f_equal (fun v => snd (fst (fst v))) H)|].
  split; [exact (f_equal (fun v => snd (fst v)) H)|].
  exact (f_equal snd H).
Qed.

Lemma after_warning_background (s : WriteBufferFromS3.State) :
  keeps WriteBufferFromS3.background_view s (WriteBufferFromS3.after_warning s) /\
  WriteBufferFromS3.trace (WriteBufferFromS3.after_warning s) = WriteBufferFromS3.trace s /\
  WriteBufferFromS3.upload_object_tasks (WriteBufferFromS3.after_warning s)
  = WriteBufferFromS3.upload_object_tasks s.
Proof.
  unfold WriteBufferFromS3.after_warning. destruct (_ =? _); repeat split.
Qed.

Lemma with_new_task_front_end (s : WriteBufferFromS3.State) :
  keeps WriteBufferFromS3.front_end s (WriteBufferFromS3.with_new_task s) /\
  WriteBufferFromS3.trace (WriteBufferFromS3.with_new_task s) = WriteBufferFromS3.trace s /\
  WriteBufferFromS3.part_tags (WriteBufferFromS3.with_new_task s) = WriteBufferFromS3.part_tags s.
Proof. repeat split. Qed.

(** On an open multipart upload whose next part number is beyond
    [max_part_number], [writePart] throws before anything is sent. *)
Lemma writePart_beyond_ceiling (client : Client) (s : WriteBufferFromS3.State) :
  WriteBufferFromS3.empty (WriteBufferFromS3.multipart_upload_id s) = false ->
  0 < WriteBufferFromS3.temporary_buffer s ->
  max_part_number (WriteBufferFromS3.settings (WriteBufferFromS3.config s))
  < wrap (WriteBufferFromS3.part_number s + 1) ->
  exists s',
    WriteBufferFromS3.writePart client s
    = Throw (DBException INVALID_CONFIG_PARAMETER "Part number exceeded") s' /\
    WriteBufferFromS3.trace s' = WriteBufferFromS3.trace s /\
    WriteBufferFromS3.part_tags s' = WriteBufferFromS3.part_tags s.
Proof.
  intros Hopen Hsize Hbeyond.
  destruct (after_warning_background s) as (Hbg & Htr & _).
  apply background_view_front_end in Hbg. destruct Hbg as (Hfe & Htags & _ & _).
  pose proof (front_end_config _ _ Hfe) as (Hcfg & Hpn & Hid).
  destruct (WriteBufferFromS3.schedule (WriteBufferFromS3.config s)) eqn:Hsched.
  - rewrite (writePart_scheduled client s Hsize Hsched).
    pose proof (fillUploadRequest_cases
                  (WriteBufferFromS3.with_new_task (WriteBufferFromS3.after_warning s))) as Hc.
    cbv zeta in Hc.
    cbn [WriteBufferFromS3.with_new_task WriteBufferFromS3.multipart_upload_id
         WriteBufferFromS3.set_num_added_bg_tasks WriteBufferFromS3.set_upload_object_tasks
         WriteBufferFromS3.config WriteBufferFromS3.part_number] in Hc.
    rewrite Hid, Hcfg, Hpn, Hopen in Hc. cbn [negb andb] in Hc.
    destruct (Z.ltb_spec (max_part_number (WriteBufferFromS3.settings (WriteBufferFromS3.config s)))
                (wrap (WriteBufferFromS3.part_number s + 1))); [|lia].
    rewrite Hc. eexists. split; [reflexivity|]. cbn. rewrite Htr, Htags. split; reflexivity.
  - rewrite (writePart_inline client s Hsize Hsched).
    pose proof (fillUploadRequest_cases (WriteBufferFromS3.after_warning s)) as Hc.
    cbv zeta in Hc.
    rewrite Hid, Hcfg, Hpn, Hopen in Hc. cbn [negb andb] in Hc.
    destruct (Z.ltb_spec (max_part_number (WriteBufferFromS3.settings (WriteBufferFromS3.config s)))
                (wrap (WriteBufferFromS3.part_number s + 1))); [|lia].
    rewrite Hc. eexists. split; [reflexivity|]. cbn. rewrite Htr, Htags. split; reflexivity.
Qed.

(** The counter after a normal return of [writePart] on an open multipart
    upload. *)
Lemma writePart_counter (client : Client) (s s' : WriteBufferFromS3.State) :
  WriteBufferFromS3.empty (WriteBufferFromS3.multipart_upload_id s) = false ->
  WriteBufferFromS3.writePart client s = Ok tt s' ->
  WriteBufferFromS3.config s' = WriteBufferFromS3.config s /\
  WriteBufferFromS3.multipart_upload_id s' = WriteBufferFromS3.multipart_upload_id s /\
  (WriteBufferFromS3.part_number s' = WriteBufferFromS3.part_number s \/
   WriteBufferFromS3.part_number s'
   <= max_part_number (WriteBufferFromS3.settings (WriteBufferFromS3.config s))).
Proof.
  intros Hopen Hw.
  destruct (Z_lt_ge_dec 0 (WriteBufferFromS3.temporary_buffer s)) as [Hsize|Hsmall].
  - destruct (after_warning_background s) as (Hbg & _ & _).
    apply background_view_front_end in Hbg. destruct Hbg as (Hfe & _).
    pose proof (front_end_config _ _ Hfe) as (Hcfg & Hpn & Hid).
    destruct (WriteBufferFromS3.schedule (WriteBufferFromS3.config s)) eqn:Hsched.
    + rewrite (writePart_scheduled client s Hsize Hsched) in Hw.
      destruct (WriteBufferFromS3.fillUploadRequest _) as [r s1| | | |] eqn:Hfill;
        try discriminate.
      apply fillUploadRequest_within_ceiling in Hfill;
        [|cbn; rewrite Hid; exact Hopen].
      destruct Hfill as (_ & Hle & Hc1 & Hid1 & _).
      pose proof (preserves_ok _ _ _ _ _ (buffer_pool_turn_front_end client) Hw) as Hp.
      apply front_end_config in Hp. destruct Hp as (Hc2 & Hpn2 & Hid2).
      cbn in Hc2, Hpn2, Hid2, Hc1, Hid1.
      rewrite Hc2, Hid2, Hpn2. rewrite Hc1 in Hle. rewrite Hc1, Hid1, Hcfg, Hid.
      rewrite Hcfg in Hle. auto.
    + rewrite (writePart_inline client s Hsize Hsched) in Hw.
      destruct (WriteBufferFromS3.fillUploadRequest _) as [r s1| | | |] eqn:Hfill;
        try discriminate.
      apply fillUploadRequest_within_ceiling in Hfill; [|rewrite Hid; exact Hopen].
      destruct Hfill as (_ & Hle & Hc1 & Hid1 & _).
      destruct (WriteBufferFromS3.processUploadRequest _ _ _) as [task s2| | | |] eqn:Hproc;
        try discriminate.
      pose proof (preserves_ok _ _ _ _ _ (buffer_processUploadRequest_front_end client _) Hproc)
        as Hp.
      apply front_end_config in Hp. destruct Hp as (Hc2 & Hpn2 & Hid2).
      injection Hw as <-. cbn.
      rewrite Hc2, Hid2, Hpn2. rewrite Hc1 in Hle. rewrite Hc1, Hid1, Hcfg, Hid.
      rewrite Hcfg in Hle. auto.
  - unfold WriteBufferFromS3.writePart in Hw. cbn [bind gets] in Hw.
    destruct (Z.ltb_spec (WriteBufferFromS3.temporary_buffer s) 0);
      [|destruct (Z.eqb_spec (WriteBufferFromS3.temporary_buffer s) 0); [|lia]];
      injection Hw as <-; cbn; auto.
Qed.

(** [nextImpl] on a working buffer that is not empty: the bytes are appended
    to the part buffer, then the three steps that may fail follow. *)
Lemma nextImpl_steps (client : Client) (s : WriteBufferFromS3.State) :
  WriteBufferFromS3.working_offset s <> 0 ->
  WriteBufferFromS3.nextImpl client s
  = (let off := WriteBufferFromS3.working_offset s in
     let s1 := if WriteBufferFromS3.temporary_buffer s =? -1
               then WriteBufferFromS3.set_last_part_size 0
                      (WriteBufferFromS3.set_temporary_buffer 0 s)
               else s in
     let s2 := WriteBufferFromS3.set_last_part_size
                 (wrap (WriteBufferFromS3.last_part_size s1 + off))
                 (WriteBufferFromS3.set_temporary_buffer
                    (WriteBufferFromS3.temporary_buffer s1 + off) s1) in
     let last := WriteBufferFromS3.last_part_size s2 in
     ((if WriteBufferFromS3.empty (WriteBufferFromS3.multipart_upload_id s2)
          && (max_single_part_upload_size (WriteBufferFromS3.settings (WriteBufferFromS3.config s2))
              <? last)
       then WriteBufferFromS3.createMultipartUpload client else ret tt) ;;
      (fun s3 =>
         (if negb (WriteBufferFromS3.empty (WriteBufferFromS3.multipart_upload_id s3))
             && (WriteBufferFromS3.upload_part_size s3 <? last)
          then WriteBufferFromS3.writePart client ;; WriteBufferFromS3.allocateBuffer
          else ret tt) s3) ;;
      WriteBufferFromS3.waitForReadyBackGroundTasks client) s2).
Proof.
  intros Hoff. unfold WriteBufferFromS3.nextImpl.
  unfold bind at 1. unfold gets at 1.
  destruct (Z.eqb_spec (WriteBufferFromS3.working_offset s) 0); [contradiction|].
  unfold bind at 1. unfold gets at 1.
  unfold bind at 1.
  destruct (WriteBufferFromS3.temporary_buffer s =? -1);
    cbn [WriteBufferFromS3.allocateBuffer modify ret];
    unfold bind at 1; unfold modify at 1;
    unfold bind at 1; unfold modify at 1;
    unfold bind at 1; unfold gets at 1;
    unfold bind at 1; unfold gets at 1;
    unfold bind at 1; unfold gets at 1;
    cbv zeta;
    cbn [WriteBufferFromS3.multipart_upload_id WriteBufferFromS3.set_last_part_size
         WriteBufferFromS3.set_temporary_buffer WriteBufferFromS3.last_part_size
         WriteBufferFromS3.config WriteBufferFromS3.temporary_buffer];
    match goal with
    | |- bind ?c ?k1 ?st = bind ?c ?k2 ?st =>
        unfold bind at 1; symmetry; unfold bind at 1; symmetry; destruct (c st)
    end; reflexivity.
Qed.

Lemma createMultipartUpload_ok (client : Client) (s s' : WriteBufferFromS3.State) :
  WriteBufferFromS3.createMultipartUpload client s = Ok tt s' ->
  exists upload_id,
    client (WriteBufferFromS3.trace s) CreateMultipartUploadRequest = Success upload_id /\
    s' = WriteBufferFromS3.set_multipart_upload_id upload_id
           (WriteBufferFromS3.set_trace
              (WriteBufferFromS3.trace s ++ [(CreateMultipartUploadRequest, Success upload_id)]) s).
Proof.
  unfold WriteBufferFromS3.createMultipartUpload, bind, WriteBufferFromS3.send.
  destruct (client _ _) as [upload_id|e]; [|discriminate].
  intros H. injection H as <-. exists upload_id. split; reflexivity.
Qed.

(** The counter after a normal return of [nextImpl]. *)
Lemma nextImpl_counter (client : Client) (s s' : WriteBufferFromS3.State) :
  WriteBufferFromS3.nextImpl client s = Ok tt s' ->
  WriteBufferFromS3.config s' = WriteBufferFromS3.config s /\
  (WriteBufferFromS3.part_number s' = WriteBufferFromS3.part_number s \/
   WriteBufferFromS3.part_number s'
   <= max_part_number (WriteBufferFromS3.settings (WriteBufferFromS3.config s))).
Proof.
  destruct (Z.eq_dec (WriteBufferFromS3.working_offset s) 0) as [Hz|Hnz].
  { unfold WriteBufferFromS3.nextImpl. cbn [bind gets]. rewrite Hz. cbn.
    intros H. injection H as <-. auto. }
  rewrite (nextImpl_steps client s Hnz). cbv zeta.
  set (s1 := if WriteBufferFromS3.temporary_buffer s =? -1 then _ else s).
  set (s2 := WriteBufferFromS3.set_last_part_size _ _).
  assert (F2 : WriteBufferFromS3.config s2 = WriteBufferFromS3.config s /\
               WriteBufferFromS3.part_number s2 = WriteBufferFromS3.part_number s).
  { subst s2 s1. destruct (WriteBufferFromS3.temporary_buffer s =? -1); split; reflexivity. }
  destruct F2 as [C2 P2]. clearbody s2. clear s1.
  intros H.
  apply bind_ok in H. destruct H as (u3 & s3 & H3 & H).
  apply bind_ok in H. destruct H as (u4 & s4 & H4 & H).
  assert (F3 : WriteBufferFromS3.config s3 = WriteBufferFromS3.config s /\
               WriteBufferFromS3.part_number s3 = WriteBufferFromS3.part_number s).
  { match type of H3 with (if ?b then _ else _) _ = _ => destruct b end.
    - destruct u3. apply createMultipartUpload_ok in H3. destruct H3 as (x & _ & ->). auto.
    - injection H3 as _ <-. auto. }
  clear H3. destruct F3 as [C3 P3].
  pose proof (preserves_ok _ _ _ _ _ (buffer_waitForReadyBackGroundTasks_front_end client) H)
    as Hr.
  apply front_end_config in Hr. destruct Hr as (C5 & P5 & _).
  rewrite C5, P5.
  match type of H4 with (if ?b then _ else _) _ = _ => destruct b eqn:Hb end.
  - apply andb_prop in Hb. destruct Hb as [Hopen _].
    apply bind_ok in H4. destruct H4 as (u & sw & Hw & Ha).
    injection Ha as _ <-. cbn.
    destruct u. apply writePart_counter in Hw;
      [|rewrite <- (negb_involutive (WriteBufferFromS3.empty _)); rewrite Hopen; reflexivity].
    destruct Hw as (Cw & _ & Pw). rewrite Cw, C3. rewrite C3, P3 in Pw. auto.
  - injection H4 as _ <-. rewrite C3, P3. auto.
Qed.

Section Returning.

Context {S : Type} (R : S -> S -> Prop).
Hypothesis R_refl : forall s, R s s.
Hypothesis R_trans : forall s1 s2 s3, R s1 s2 -> R s2 s3 -> R s1 s3.

Lemma returning_ret {A} (a : A) : returning R (ret a).
Proof. intros s a' s' H. injection H as _ <-. apply R_refl. Qed.

Lemma returning_gets {A} (f : S -> A) : returning R (gets f).
Proof. intros s a' s' H. injection H as _ <-. apply R_refl. Qed.

Lemma returning_throw {A} (e : Exception) : returning R (@throw S A e).
Proof. intros s a s' H. discriminate. Qed.

Lemma returning_undefined {A} : returning R (@undefined S A).
Proof. intros s a s' H. discriminate. Qed.

Lemma returning_blocked {A} : returning R (fun s => @Blocked S A s).
Proof. intros s a s' H. discriminate. Qed.

Lemma returning_out_of_fuel {A} : returning R (fun s => @OutOfFuel S A s).
Proof. intros s a s' H. discriminate. Qed.

Lemma returning_modify (f : S -> S) : (forall s, R s (f s)) -> returning R (modify f).
Proof. intros Hf s a s' H. injection H as _ <-. apply Hf. Qed.

Lemma returning_bind {A B} (c : M S A) (k : A -> M S B) :
  returning R c -> (forall a, returning R (k a)) -> returning R (bind c k).
Proof.
  intros Hc Hk s b s2 H. apply bind_ok in H. destruct H as (a & s1 & H1 & H2).
  apply (R_trans _ s1); [exact (Hc _ _ _ H1)|exact (Hk _ _ _ _ H2)].
Qed.

Lemma returning_try_rethrow {A} (c : M S A) (h : S -> S) :
  returning R c -> returning R (try_rethrow c h).
Proof.
  intros Hc s a s' H. unfold try_rethrow in H.
  destruct (c s) as [a0 s0| | | |] eqn:Hcs; try discriminate.
  injection H as <- <-. exact (Hc _ _ _ Hcs).
Qed.

Lemma returning_of_preserves {A} (c : M S A) : preserves R c -> returning R c.
Proof. intros H s a s' Hc. exact (preserves_ok _ _ _ _ _ H Hc). Qed.

End Returning.

(** Splits a goal [returning R c] along the structure of [c]. *)
Ltac return_with refl trans :=
  repeat match goal with
    | |- returning _ (bind _ _) => apply (returning_bind _ trans)
    | |- returning _ (ret _) => apply (returning_ret _ refl)
    | |- returning _ (gets _) => apply (returning_gets _ refl)
    | |- returning _ (throw _) => apply returning_throw
    | |- returning _ undefined => apply returning_undefined
    | |- returning _ (fun s => Blocked _) => apply returning_blocked
    | |- returning _ (fun s => OutOfFuel _) => apply returning_out_of_fuel
    | |- returning _ (try_rethrow _ _) => apply returning_try_rethrow
    | |- returning _ (modify _) => apply returning_modify
    | |- returning _ (if ?b then _ else _) => destruct b
    | |- returning _ (match ?x with _ => _ end) => destruct x
    | |- forall _, _ => intro
    end.

Lemma counter_step_refl (s : WriteBufferFromS3.State) : WriteBufferFromS3.counter_step s s.
Proof. split; auto. Qed.

Lemma counter_step_trans (s1 s2 s3 : WriteBufferFromS3.State) :
  WriteBufferFromS3.counter_step s1 s2 -> WriteBufferFromS3.counter_step s2 s3 ->
  WriteBufferFromS3.counter_step s1 s3.
Proof.
  unfold WriteBufferFromS3.counter_step. intros [C1 P1] [C2 P2]. rewrite C1 in *.
  split; [congruence|]. destruct P2 as [P2|P2]; [rewrite P2; exact P1|auto].
Qed.

Lemma counter_step_of_front_end (s s' : WriteBufferFromS3.State) :
  keeps WriteBufferFromS3.front_end s s' -> WriteBufferFromS3.counter_step s s'.
Proof. intros H. apply front_end_config in H. destruct H as (C & P & _). split; auto. Qed.

Section BufferCounter.

Variable client : Client.

Lemma counted_of_front_end {A} (c : M WriteBufferFromS3.State A) :
  preserves (keeps WriteBufferFromS3.front_end) c -> returning WriteBufferFromS3.counter_step c.
Proof.
  intros H s a s' Hc. apply counter_step_of_front_end. exact (preserves_ok _ _ _ _ _ H Hc).
Qed.

Lemma nextImpl_counted : returning WriteBufferFromS3.counter_step (WriteBufferFromS3.nextImpl client).
Proof. intros s [] s' H. exact (nextImpl_counter client s s' H). Qed.

Lemma next_counted : returning WriteBufferFromS3.counter_step (WriteBufferFromS3.next client).
Proof.
  intros s [] s'. unfold WriteBufferFromS3.next. cbn [bind gets].
  destruct (WriteBufferFromS3.working_offset s =? 0).
  - intros H. injection H as <-. apply counter_step_refl.
  - intros H. apply bind_ok in H. destruct H as (u & s1 & H1 & H2).
    injection H2 as <-.
    unfold try_rethrow in H1.
    destruct (WriteBufferFromS3.nextImpl client s) as [u' s1'| | | |] eqn:Hn; try discriminate.
    injection H1 as _ <-. destruct u'.
    destruct (nextImpl_counter client s s1' Hn) as [C P]. split; assumption.
Qed.

Lemma write_counted (n : Z) : returning WriteBufferFromS3.counter_step (WriteBufferFromS3.write client n).
Proof.
  intros s [] s'. unfold WriteBufferFromS3.write. cbn [bind modify].
  intros H. apply next_counted in H. exact H.
Qed.

Lemma write_all_counted (chunks : list Z) : returning WriteBufferFromS3.counter_step (WriteBufferFromS3.write_all client chunks).
Proof.
  induction chunks as [|n chunks IH]; cbn [WriteBufferFromS3.write_all].
  - intros s [] s' H. injection H as <-. apply counter_step_refl.
  - apply (returning_bind _ counter_step_trans); [apply write_counted|intros _; exact IH].
Qed.

Lemma makeSinglepartUpload_front_end :
  preserves (keeps WriteBufferFromS3.front_end) (WriteBufferFromS3.makeSinglepartUpload client).
Proof.
  unfold WriteBufferFromS3.makeSinglepartUpload, WriteBufferFromS3.fillPutRequest. frame_tac.
Qed.

Lemma preFinalize_counted : returning WriteBufferFromS3.counter_step (WriteBufferFromS3.preFinalize client).
Proof.
  unfold WriteBufferFromS3.preFinalize.
  apply (returning_bind _ counter_step_trans); [apply next_counted|intros _].
  intros s [] s' H. cbn [bind gets] in H.
  apply bind_ok in H. destruct H as (u & s1 & H1 & H2). injection H2 as <-.
  destruct (WriteBufferFromS3.empty (WriteBufferFromS3.multipart_upload_id s)) eqn:He.
  - pose proof (preserves_ok _ _ _ _ _ makeSinglepartUpload_front_end H1) as Hf.
    apply counter_step_of_front_end in Hf. exact Hf.
  - destruct u. destruct (writePart_counter client s s1 He H1) as (C & _ & P). split; assumption.
Qed.

Lemma finalizeImpl_counted : returning WriteBufferFromS3.counter_step (WriteBufferFromS3.finalizeImpl client).
Proof.
  unfold WriteBufferFromS3.finalizeImpl.
  intros s [] s' H. cbn [bind gets] in H.
  apply bind_ok in H. destruct H as (u1 & s1 & H1 & H).
  apply bind_ok in H. destruct H as (u2 & s2 & H2 & H).
  cbn [bind gets] in H.
  apply bind_ok in H. destruct H as (u3 & s3 & H3 & H).
  cbn [bind gets] in H.
  apply (counter_step_trans _ s1).
  { destruct (negb (WriteBufferFromS3.is_prefinalized s)).
    - destruct u1. exact (preFinalize_counted _ _ _ H1).
    - injection H1 as _ <-. apply counter_step_refl. }
  apply counter_step_of_front_end.
  apply (keeps_trans _ _ s2);
    [exact (preserves_ok _ _ _ _ _ (buffer_waitForAllBackGroundTasks_front_end client) H2)|].
  apply (keeps_trans _ _ s3).
  { destruct (negb (WriteBufferFromS3.empty (WriteBufferFromS3.multipart_upload_id s2))).
    - exact (preserves_ok _ _ _ _ _ (buffer_completeMultipartUpload_front_end client) H3).
    - injection H3 as _ <-. reflexivity. }
  destruct (WriteBufferFromS3.check_objects_after_upload (WriteBufferFromS3.config s3)).
  - exact (preserves_ok _ _ _ _ _ (buffer_checkObjectExists_front_end client) H).
  - injection H as <-. reflexivity.
Qed.

Lemma streaming_write_counted (chunks : list Z) :
  returning WriteBufferFromS3.counter_step (WriteBufferFromS3.streaming_write client chunks).
Proof.
  unfold WriteBufferFromS3.streaming_write.
  apply (returning_bind _ counter_step_trans);
    [apply write_all_counted|intros _; apply finalizeImpl_counted].
Qed.

End BufferCounter.

(** ** What every step of the thread pool respects *)

Section BufferPool.

Variable client : Client.
Variable R : WriteBufferFromS3.State -> WriteBufferFromS3.State -> Prop.

Hypothesis R_refl : forall s, R s s.
Hypothesis R_trans : forall s1 s2 s3, R s1 s2 -> R s2 s3 -> R s1 s3.
Hypothesis R_send :
  forall s r o, WriteBufferFromS3.sendable s r ->
    R s (WriteBufferFromS3.set_trace (WriteBufferFromS3.trace s ++ [(r, o)]) s).
Hypothesis R_log :
  forall s m, R s (WriteBufferFromS3.set_log (WriteBufferFromS3.log s ++ [m]) s).
Hypothesis R_update :
  forall s id f,
    (forall t, WriteBufferFromS3.task_id (f t) = WriteBufferFromS3.task_id t /\
               WriteBufferFromS3.req (f t) = WriteBufferFromS3.req t) ->
    R s (WriteBufferFromS3.update_task id f s).
Hypothesis R_finished :
  forall s x, R s (WriteBufferFromS3.set_num_finished_bg_tasks x s).
Hypothesis R_put :
  forall s f,
    (forall t, WriteBufferFromS3.put_req (f t) = WriteBufferFromS3.put_req t) ->
    R s (WriteBufferFromS3.update_put_task f s).
Hypothesis R_script :
  forall s x, R s (WriteBufferFromS3.set_pool_script x s).

Lemma pool_retry_loop (fuel : nat) (i max_retry : Z) (request : Request)
    (s : WriteBufferFromS3.State) :
  WriteBufferFromS3.sendable s request ->
  R s (final_state (WriteBufferFromS3.put_retry_loop client fuel i max_retry request s)).
Proof.
  revert i s. induction fuel as [|fuel IH]; intros i s Hs.
  - cbn [WriteBufferFromS3.put_retry_loop]. destruct (i <? max_retry); apply R_refl.
  - rewrite buffer_put_retry_loop_same, buffer_complete_retry_loop_step.
    destruct (i <? max_retry); [|apply R_refl]. cbv zeta.
    set (o := client (WriteBufferFromS3.trace s) request).
    pose proof (R_send s request o Hs) as H1.
    destruct o as [x|e]; [exact H1|].
    destruct (is_no_such_key e); [|exact H1].
    eapply R_trans; [exact H1|]. eapply R_trans; [apply R_log|].
    rewrite <- buffer_put_retry_loop_same. apply IH. exact Hs.
Qed.

Lemma pool_upload_task_runs (id : Z) :
  preserves R (WriteBufferFromS3.upload_task_runs client id).
Proof.
  intros s. unfold WriteBufferFromS3.upload_task_runs.
  destruct (find _ _) as [task|] eqn:Hfind; [|apply R_refl].
  destruct (WriteBufferFromS3.stage task); try apply R_refl.
  apply find_some in Hfind. destruct Hfind as [Hin _].
  unfold WriteBufferFromS3.processUploadRequest, bind, WriteBufferFromS3.send.
  set (o := client (WriteBufferFromS3.trace s) (WriteBufferFromS3.req task)).
  assert (H1 : R s (WriteBufferFromS3.set_trace
                      (WriteBufferFromS3.trace s ++ [(WriteBufferFromS3.req task, o)]) s)).
  { apply R_send. left. exists task. split; [exact Hin|reflexivity]. }
  destruct o as [etag|e]; cbn [ret throw final_state];
    unfold WriteBufferFromS3.task_finish_notify;
    (eapply R_trans; [|apply R_finished]);
    (eapply R_trans; [|apply R_update; intros t; split; reflexivity]);
    (eapply R_trans; [|apply R_update; intros t; split; reflexivity]);
    exact H1.
Qed.

Lemma pool_put_task_runs : preserves R (WriteBufferFromS3.put_task_runs client).
Proof.
  intros s. unfold WriteBufferFromS3.put_task_runs.
  destruct (WriteBufferFromS3.put_object_task s) as [task|] eqn:Hput; [|apply R_refl].
  destruct (WriteBufferFromS3.put_stage task); try apply R_refl.
  unfold WriteBufferFromS3.processPutRequest. cbn [bind gets].
  match goal with
  | |- context [WriteBufferFromS3.put_retry_loop client ?f ?i ?m ?q s] =>
      pose proof (pool_retry_loop f i m q s
                    ltac:(right; exists task; split; [exact Hput|reflexivity])) as H1;
      destruct (WriteBufferFromS3.put_retry_loop client f i m q s)
  end; cbn [final_state] in *; try exact H1.
  - unfold WriteBufferFromS3.task_notify_finish.
    eapply R_trans; [|apply R_put; intros t; reflexivity]. exact H1.
  - unfold WriteBufferFromS3.task_notify_finish.
    eapply R_trans; [|apply R_put; intros t; reflexivity].
    eapply R_trans; [|apply R_put; intros t; reflexivity]. exact H1.
Qed.

Lemma pool_pool_events (evs : list WriteBufferFromS3.PoolEvent) :
  preserves R (WriteBufferFromS3.pool_events client evs).
Proof.
  induction evs as [|ev evs IH]; cbn [WriteBufferFromS3.pool_events].
  - apply preserves_ret. exact R_refl.
  - apply preserves_bind; [exact R_trans| |intros _; exact IH].
    destruct ev; [apply pool_upload_task_runs|apply pool_put_task_runs].
Qed.

Lemma pool_pool_turn : preserves R (WriteBufferFromS3.pool_turn client).
Proof.
  unfold WriteBufferFromS3.pool_turn.
  apply preserves_bind; [exact R_trans|apply preserves_gets; exact R_refl|intros script].
  destruct script as [|evs rest]; [apply preserves_ret; exact R_refl|].
  apply preserves_bind; [exact R_trans| |intros _; apply pool_pool_events].
  apply preserves_modify. intros s. apply R_script.
Qed.

Lemma pool_pool_finish (ids : list Z) : preserves R (WriteBufferFromS3.pool_finish client ids).
Proof.
  induction ids as [|id ids IH]; cbn [WriteBufferFromS3.pool_finish].
  - apply preserves_ret. exact R_refl.
  - apply preserves_bind; [exact R_trans|apply pool_upload_task_runs|intros _; exact IH].
Qed.

End BufferPool.

(** ** The protocol ceiling of 10000 parts *)

Lemma log_grows_refl (s : WriteBufferFromS3.State) : WriteBufferFromS3.log_grows s s.
Proof. intros m H. exact H. Qed.

Lemma log_grows_trans (s1 s2 s3 : WriteBufferFromS3.State) :
  WriteBufferFromS3.log_grows s1 s2 -> WriteBufferFromS3.log_grows s2 s3 ->
  WriteBufferFromS3.log_grows s1 s3.
Proof. intros H1 H2 m H. apply H2, H1, H. Qed.

Lemma pool_turn_log_grows (client : Client) :
  preserves WriteBufferFromS3.log_grows (WriteBufferFromS3.pool_turn client).
Proof.
  apply pool_pool_turn.
  - exact log_grows_refl.
  - exact log_grows_trans.
  - intros s r o _ m H. exact H.
  - intros s m0 m H. cbn. apply in_or_app. left. exact H.
  - intros s id f _ m H. exact H.
  - intros s x m H. exact H.
  - intros s f _ m H. exact H.
  - intros s x m H. exact H.
Qed.

(** The closures of the thread pool keep their exceptions in their tasks. *)
Lemma pool_events_never_throw (client : Client) (evs : list WriteBufferFromS3.PoolEvent)
    (s : WriteBufferFromS3.State) :
  thrown (WriteBufferFromS3.pool_events client evs s) = None.
Proof.
  revert s. induction evs as [|ev evs IH]; intros s; [reflexivity|].
  cbn [WriteBufferFromS3.pool_events]. unfold bind.
  destruct ev as [id|]; cbn [WriteBufferFromS3.pool_event].
  - unfold WriteBufferFromS3.upload_task_runs.
    destruct (find _ _) as [task|]; [|apply IH].
    destruct (WriteBufferFromS3.stage task); try apply IH.
    destruct (WriteBufferFromS3.processUploadRequest client task s); try reflexivity; apply IH.
  - unfold WriteBufferFromS3.put_task_runs.
    destruct (WriteBufferFromS3.put_object_task s) as [task|]; [|apply IH].
    destruct (WriteBufferFromS3.put_stage task); try apply IH.
    destruct (WriteBufferFromS3.processPutRequest client task s); try reflexivity; apply IH.
Qed.

Lemma pool_turn_never_throws (client : Client) (s : WriteBufferFromS3.State) :
  thrown (WriteBufferFromS3.pool_turn client s) = None.
Proof.
  unfold WriteBufferFromS3.pool_turn. cbn [bind gets].
  destruct (WriteBufferFromS3.pool_script s) as [|evs rest]; [reflexivity|].
  cbn [bind modify]. apply pool_events_never_throw.
Qed.

Lemma queued_task_in_view (id : Z) (r : Request) (s : WriteBufferFromS3.State)
    (tasks : list WriteBufferFromS3.UploadPartTask) :
  WriteBufferFromS3.upload_object_tasks s = tasks ++ [WriteBufferFromS3.new_task id] ->
  In (id, r)
    (WriteBufferFromS3.queue_view
       (WriteBufferFromS3.update_task id (WriteBufferFromS3.with_stage WriteBufferFromS3.Queued)
          (WriteBufferFromS3.update_task id (WriteBufferFromS3.with_req r) s))).
Proof.
  intros Htasks. unfold WriteBufferFromS3.queue_view, WriteBufferFromS3.update_task.
  cbn [WriteBufferFromS3.upload_object_tasks WriteBufferFromS3.set_upload_object_tasks].
  rewrite Htasks, !map_map, map_app. apply in_or_app. right.
  cbn [map WriteBufferFromS3.new_task WriteBufferFromS3.task_id
       WriteBufferFromS3.with_req WriteBufferFromS3.with_stage WriteBufferFromS3.req].
  rewrite Z.eqb_refl. cbn. rewrite Z.eqb_refl. left. reflexivity.
Qed.

(** ** From a single-shot operation to the multipart path *)

Lemma retry_fuel_positive (retries : Z) : exists fuel, Z.to_nat (std_max retries 1) = S fuel.
Proof.
  pose proof (std_max_1 retries) as [H _].
  exists (Z.to_nat (std_max retries 1 - 1)). lia.
Qed.

(** C3, as stated, fails for the streaming buffer: its single [PutObject],
    answered with [EntityTooLarge], ends the write with an exception, and no
    request of a multipart upload is sent. *)
Lemma streaming_put_does_not_fall_back :
  let r := WriteBufferFromS3.streaming_write Samples.too_large_client [15]
             Samples.inline_buffer in
  thrown r = Some (S3Exception UNKNOWN (GetMessage Samples.entity_too_large)) /\
  map fst (WriteBufferFromS3.trace (final_state r))
  = [PutObjectRequest 15 (TemporaryBuffer 15)] /\
  answered is_multipart (WriteBufferFromS3.trace (final_state r)) = 0%nat.
Proof. vm_compute. repeat split; reflexivity. Qed.

(** ** Aborting after a refused part *)

Lemma has_abort_app (t1 t2 : Trace) : has_abort (t1 ++ t2) = has_abort t1 || has_abort t2.
Proof. apply existsb_app. Qed.

Lemma has_failed_upload_app (t1 t2 : Trace) :
  has_failed_upload (t1 ++ t2) = has_failed_upload t1 || has_failed_upload t2.
Proof. apply existsb_app. Qed.

(** A request that is accepted, or is not a part request, leaves the
    property as it is. *)
Lemma aborts_follow_app_clean (t : Trace) (entry : Request * Outcome) :
  failed_upload entry = false ->
  aborts_follow t = true -> aborts_follow (t ++ [entry]) = true.
Proof.
  intros Hclean. induction t as [|e t IH]; cbn [aborts_follow app].
  - intros _. rewrite Hclean. reflexivity.
  - intros H. apply andb_prop in H. destruct H as [He Ht].
    rewrite (IH Ht), has_abort_app. apply orb_prop in He.
    destruct He as [-> | ->]; [reflexivity|]. rewrite !orb_true_r. reflexivity.
Qed.

(** An [AbortMultipartUpload] covers everything sent before it. *)
Lemma aborts_follow_app_abort (t : Trace) (entry : Request * Outcome) :
  is_abort (fst entry) = true -> aborts_follow (t ++ [entry]) = true.
Proof.
  intros Habort.
  assert (Hclean : failed_upload entry = false).
  { unfold failed_upload. destruct entry as [[] o]; try discriminate; reflexivity. }
  induction t as [|e t IH]; cbn [aborts_follow app].
  - rewrite Hclean. reflexivity.
  - rewrite IH, has_abort_app. cbn [has_abort existsb]. rewrite Habort.
    rewrite !orb_true_r. reflexivity.
Qed.

(** What the property says of a trace, entry by entry. *)
Lemma aborts_follow_spec (t : Trace) (i : nat) (entry : Request * Outcome) :
  aborts_follow t = true ->
  nth_error t i = Some entry -> failed_upload entry = true ->
  exists j upload_id o,
    (i < j)%nat /\ nth_error t j = Some (AbortMultipartUploadRequest upload_id, o).
Proof.
  revert i. induction t as [|e t IH]; intros i Hall Hi Hfail.
  - destruct i; discriminate.
  - cbn [aborts_follow] in Hall. apply andb_prop in Hall. destruct Hall as [He Ht].
    destruct i as [|i].
    + injection Hi as ->. rewrite Hfail in He. cbn [negb orb] in He.
      unfold has_abort in He. apply existsb_exists in He.
      destruct He as ([r o] & Hin & Hab).
      apply In_nth_error in Hin. destruct Hin as [j Hj].
      destruct r; try discriminate.
      exists (S j), upload_id, o. split; [lia|exact Hj].
    + destruct (IH i Ht Hi Hfail) as (j & upload_id & o & Hlt & Hj).
      exists (S j), upload_id, o. split; [lia|exact Hj].
Qed.

Lemma keeps_aborts_refl (s : UploadHelper.State) : UploadHelper.keeps_aborts s s.
Proof. intros H. exact H. Qed.

Lemma keeps_aborts_trans (s1 s2 s3 : UploadHelper.State) :
  UploadHelper.keeps_aborts s1 s2 -> UploadHelper.keeps_aborts s2 s3 ->
  UploadHelper.keeps_aborts s1 s3.
Proof. intros H1 H2 H. apply H2, H1, H. Qed.

Lemma keeps_aborts_same_trace (s s' : UploadHelper.State) :
  UploadHelper.trace s' = UploadHelper.trace s -> UploadHelper.keeps_aborts s s'.
Proof. intros Ht H. rewrite Ht. exact H. Qed.

Create HintDb aborts.

Ltac aborts_tac :=
  preserve_with keeps_aborts_refl keeps_aborts_trans;
  try solve [ apply keeps_aborts_same_trace; reflexivity | auto with aborts ].

Section CopyAborts.

Variable client : Client.

Lemma copy_send_keeps_aborts (r : Request) :
  is_upload r = false -> preserves UploadHelper.keeps_aborts (UploadHelper.send client r).
Proof.
  intros Hr s H. cbn. apply aborts_follow_app_clean; [|exact H].
  unfold failed_upload. cbn [fst]. rewrite Hr. reflexivity.
Qed.

Lemma copy_LOG_keeps_aborts (m : LogMessage) :
  preserves UploadHelper.keeps_aborts (UploadHelper.LOG m).
Proof. intros s H. exact H. Qed.

#[local] Hint Resolve copy_LOG_keeps_aborts : aborts.
#[local] Hint Extern 1 (preserves UploadHelper.keeps_aborts (UploadHelper.send _ _)) =>
  apply copy_send_keeps_aborts; reflexivity : aborts.

Lemma copy_createMultipartUpload_keeps_aborts :
  preserves UploadHelper.keeps_aborts (UploadHelper.createMultipartUpload client).
Proof. unfold UploadHelper.createMultipartUpload. aborts_tac. Qed.

Lemma copy_abortMultipartUpload_keeps_aborts :
  preserves UploadHelper.keeps_aborts (UploadHelper.abortMultipartUpload client).
Proof. unfold UploadHelper.abortMultipartUpload. aborts_tac. Qed.

Lemma copy_checkObjectAfterUpload_keeps_aborts :
  preserves UploadHelper.keeps_aborts (UploadHelper.checkObjectAfterUpload client).
Proof. unfold UploadHelper.checkObjectAfterUpload. aborts_tac. Qed.

Lemma copy_complete_retry_loop_keeps_aborts (fuel : nat) (retries max_retries : Z)
    (upload_id : string) (parts : list CompletedPart) :
  preserves UploadHelper.keeps_aborts
    (UploadHelper.complete_retry_loop client fuel retries max_retries
       (CompleteMultipartUploadRequest upload_id parts)).
Proof.
  revert retries. induction fuel as [|fuel IH]; intros retries;
    cbn [UploadHelper.complete_retry_loop]; aborts_tac.
Qed.

#[local] Hint Resolve copy_createMultipartUpload_keeps_aborts
  copy_abortMultipartUpload_keeps_aborts copy_checkObjectAfterUpload_keeps_aborts
  copy_complete_retry_loop_keeps_aborts : aborts.

Lemma copy_completeMultipartUpload_keeps_aborts :
  preserves UploadHelper.keeps_aborts (UploadHelper.completeMultipartUpload client).
Proof. unfold UploadHelper.completeMultipartUpload. aborts_tac. Qed.

Lemma copy_calculatePartSize_keeps_aborts (total_size : Z) :
  preserves UploadHelper.keeps_aborts (UploadHelper.calculatePartSize total_size).
Proof.
  intros s. apply keeps_aborts_same_trace. unfold UploadHelper.calculatePartSize.
  repeat match goal with
         | |- context [if ?b then _ else _] => destruct b
         end; reflexivity.
Qed.

(** A refused part is followed by the abort at once. *)
Lemma copy_processUploadPartRequest_keeps_aborts (request : Request) :
  preserves UploadHelper.keeps_aborts (UploadHelper.processUploadPartRequest client request).
Proof.
  intros s H. unfold UploadHelper.processUploadPartRequest.
  cbn [bind gets]. unfold bind at 1. unfold UploadHelper.send.
  destruct (client (UploadHelper.trace s) request) as [etag|e].
  - cbn. apply aborts_follow_app_clean; [|exact H].
    unfold failed_upload. cbn. apply andb_false_r.
  - unfold bind at 1. unfold UploadHelper.abortMultipartUpload.
    cbn [bind gets modify UploadHelper.send].
    assert (Hab : forall x,
               aborts_follow
                 (UploadHelper.trace
                    (final_state
                       (@throw UploadHelper.State string x
                          (UploadHelper.set_multipart_upload_aborted true
                             (UploadHelper.set_trace
                                ((UploadHelper.trace s ++ [(request, Failure e)])
                                 ++ [(AbortMultipartUploadRequest
                                        (UploadHelper.multipart_upload_id s),
                                      client (UploadHelper.trace s ++ [(request, Failure e)])
                                        (AbortMultipartUploadRequest
                                           (UploadHelper.multipart_upload_id s)))])
                                (UploadHelper.set_trace
                                   (UploadHelper.trace s ++ [(request, Failure e)]) s))))))
               = true).
    { intros x. cbn. apply aborts_follow_app_abort. reflexivity. }
    destruct (UploadHelper.helper_class (UploadHelper.config s)); apply Hab.
Qed.

#[local] Hint Resolve copy_completeMultipartUpload_keeps_aborts
  copy_calculatePartSize_keeps_aborts copy_processUploadPartRequest_keeps_aborts : aborts.

Lemma copy_processUploadTask_request_keeps_aborts (task : UploadHelper.UploadPartTask) :
  preserves UploadHelper.keeps_aborts (UploadHelper.processUploadTask_request client task).
Proof. unfold UploadHelper.processUploadTask_request. aborts_tac. Qed.

#[local] Hint Resolve copy_processUploadTask_request_keeps_aborts : aborts.

Lemma copy_processUploadTask_keeps_aborts (task : UploadHelper.UploadPartTask) :
  preserves UploadHelper.keeps_aborts (UploadHelper.processUploadTask client task).
Proof. unfold UploadHelper.processUploadTask. aborts_tac. Qed.

Lemma copy_task_begins_keeps_aborts (i : nat) :
  preserves UploadHelper.keeps_aborts (UploadHelper.task_begins i).
Proof.
  intros s. apply keeps_aborts_same_trace. unfold UploadHelper.task_begins.
  destruct (nth_error _ _) as [task|]; [|reflexivity].
  destruct (UploadHelper.stage task); try reflexivity.
  destruct (UploadHelper.multipart_upload_aborted s); reflexivity.
Qed.

Lemma copy_task_ends_keeps_aborts (i : nat) :
  preserves UploadHelper.keeps_aborts (UploadHelper.task_ends client i).
Proof.
  intros s. unfold UploadHelper.task_ends.
  destruct (nth_error _ _) as [task|]; [|apply keeps_aborts_refl].
  destruct (UploadHelper.stage task); try apply keeps_aborts_refl.
  pose proof (copy_processUploadTask_request_keeps_aborts task s) as H.
  destruct (UploadHelper.processUploadTask_request client task s); exact H.
Qed.

#[local] Hint Resolve copy_processUploadTask_keeps_aborts copy_task_begins_keeps_aborts
  copy_task_ends_keeps_aborts : aborts.

Lemma copy_pool_events_keeps_aborts (evs : list UploadHelper.PoolEvent) :
  preserves UploadHelper.keeps_aborts (UploadHelper.pool_events client evs).
Proof.
  induction evs as [|ev evs IH]; cbn [UploadHelper.pool_events]; aborts_tac.
  destruct ev; cbn [UploadHelper.pool_event]; auto with aborts.
Qed.

#[local] Hint Resolve copy_pool_events_keeps_aborts : aborts.

Lemma copy_pool_turn_keeps_aborts :
  preserves UploadHelper.keeps_aborts (UploadHelper.pool_turn client).
Proof. unfold UploadHelper.pool_turn. aborts_tac. Qed.

Lemma copy_pool_finish_keeps_aborts (indices : list nat) :
  preserves UploadHelper.keeps_aborts (UploadHelper.pool_finish client indices).
Proof. induction indices as [|i indices IH]; cbn [UploadHelper.pool_finish]; aborts_tac. Qed.

#[local] Hint Resolve copy_pool_turn_keeps_aborts copy_pool_finish_keeps_aborts : aborts.

Lemma copy_condvar_wait_keeps_aborts :
  preserves UploadHelper.keeps_aborts (UploadHelper.condvar_wait client).
Proof. unfold UploadHelper.condvar_wait. aborts_tac. Qed.

Lemma copy_fillUploadPartRequest_keeps_aborts (part_number part_offset part_size : Z) :
  preserves UploadHelper.keeps_aborts
    (UploadHelper.fillUploadPartRequest part_number part_offset part_size).
Proof. unfold UploadHelper.fillUploadPartRequest. aborts_tac. Qed.

#[local] Hint Resolve copy_condvar_wait_keeps_aborts copy_fillUploadPartRequest_keeps_aborts
  : aborts.

Lemma copy_uploadPart_keeps_aborts (part_number part_offset part_size : Z) :
  preserves UploadHelper.keeps_aborts
    (UploadHelper.uploadPart client part_number part_offset part_size).
Proof. unfold UploadHelper.uploadPart. aborts_tac. Qed.

Lemma copy_collect_tags_keeps_aborts (tasks : list UploadHelper.UploadPartTask) :
  preserves UploadHelper.keeps_aborts (UploadHelper.collect_tags client tasks).
Proof. induction tasks as [|task tasks IH]; cbn [UploadHelper.collect_tags]; aborts_tac. Qed.

#[local] Hint Resolve copy_uploadPart_keeps_aborts copy_collect_tags_keeps_aborts : aborts.

Lemma copy_waitForAllBackGroundTasks_keeps_aborts :
  preserves UploadHelper.keeps_aborts (UploadHelper.waitForAllBackGroundTasks client).
Proof. unfold UploadHelper.waitForAllBackGroundTasks. aborts_tac. Qed.

Lemma copy_upload_parts_loop_keeps_aborts (fuel : nat) (part_number position end_position : Z) :
  preserves UploadHelper.keeps_aborts
    (UploadHelper.upload_parts_loop client fuel part_number position end_position).
Proof.
  revert part_number position.
  induction fuel as [|fuel IH]; intros part_number position;
    cbn [UploadHelper.upload_parts_loop]; aborts_tac.
Qed.

#[local] Hint Resolve copy_waitForAllBackGroundTasks_keeps_aborts
  copy_upload_parts_loop_keeps_aborts : aborts.

Lemma copy_performMultipartUpload_keeps_aborts (start_offset size : Z) :
  preserves UploadHelper.keeps_aborts
    (UploadHelper.performMultipartUpload client start_offset size).
Proof. unfold UploadHelper.performMultipartUpload. aborts_tac. Qed.

End CopyAborts.


(** ** A refused part does not go unnoticed *)

Lemma update_nth_length {A} (i : nat) (f : A -> A) (l : list A) :
  List.length (UploadHelper.update_nth i f l) = List.length l.
Proof.
  revert i. induction l as [|x l IH]; intros i; [destruct i; reflexivity|].
  destruct i; cbn; [reflexivity|]. rewrite IH. reflexivity.
Qed.

Lemma update_nth_same {A} (i : nat) (f : A -> A) (l : list A) :
  nth_error (UploadHelper.update_nth i f l) i = option_map f (nth_error l i).
Proof.
  revert i. induction l as [|x l IH]; intros i; [destruct i; reflexivity|].
  destruct i; cbn; [reflexivity|]. apply IH.
Qed.

Lemma update_nth_other {A} (i j : nat) (f : A -> A) (l : list A) :
  i <> j -> nth_error (UploadHelper.update_nth i f l) j = nth_error l j.
Proof.
  revert i j. induction l as [|x l IH]; intros i j Hij; [destruct i; reflexivity|].
  destruct i, j; cbn; try reflexivity; try congruence.
  apply IH. congruence.
Qed.

Lemma update_nth_exists {A} (P : A -> Prop) (i : nat) (f : A -> A) (l : list A) :
  (forall x, P x -> P (f x)) ->
  (exists x, In x l /\ P x) -> exists x, In x (UploadHelper.update_nth i f l) /\ P x.
Proof.
  intros Hf (x & Hin & Hx). apply In_nth_error in Hin. destruct Hin as [j Hj].
  destruct (Nat.eq_dec i j) as [->|Hij].
  - exists (f x). split; [|apply Hf; exact Hx].
    apply (nth_error_In _ j). rewrite update_nth_same, Hj. reflexivity.
  - exists x. split; [|exact Hx].
    apply (nth_error_In _ j). rewrite update_nth_other by exact Hij. exact Hj.
Qed.

Lemma records_failures_refl (s : UploadHelper.State) : UploadHelper.records_failures s s.
Proof. repeat split; auto. Qed.

Lemma records_failures_trans (s1 s2 s3 : UploadHelper.State) :
  UploadHelper.records_failures s1 s2 -> UploadHelper.records_failures s2 s3 ->
  UploadHelper.records_failures s1 s3.
Proof.
  intros (C1 & E1 & N1) (C2 & E2 & N2). split; [congruence|]. split; auto.
Qed.

(** A step that touches neither the trace, nor the tasks, nor the
    configuration. *)
Lemma records_failures_same (s s' : UploadHelper.State) :
  UploadHelper.config s' = UploadHelper.config s ->
  UploadHelper.trace s' = UploadHelper.trace s ->
  UploadHelper.bg_tasks s' = UploadHelper.bg_tasks s ->
  UploadHelper.records_failures s s'.
Proof.
  intros C T B. unfold UploadHelper.records_failures, UploadHelper.failure_is_recorded,
    UploadHelper.no_tasks_inline. rewrite C, T, B. auto.
Qed.

(** An entry that is not a refused part. *)
Lemma records_failures_clean_entry (s : UploadHelper.State) (entry : Request * Outcome) :
  failed_upload entry = false ->
  UploadHelper.records_failures s
    (UploadHelper.set_trace (UploadHelper.trace s ++ [entry]) s).
Proof.
  intros Hclean. split; [reflexivity|]. split; [|auto].
  unfold UploadHelper.failure_is_recorded. cbn.
  rewrite has_failed_upload_app. cbn [has_failed_upload existsb]. rewrite Hclean.
  rewrite !orb_false_r. auto.
Qed.

(** A write to one task that keeps its exception. *)
Lemma records_failures_update_task (i : nat)
    (f : UploadHelper.UploadPartTask -> UploadHelper.UploadPartTask) (s : UploadHelper.State) :
  (forall t, UploadHelper.exception t <> None -> UploadHelper.exception (f t) <> None) ->
  UploadHelper.records_failures s (UploadHelper.update_task i f s).
Proof.
  intros Hf. split; [reflexivity|]. split.
  - unfold UploadHelper.failure_is_recorded. cbn. intros H Hfail.
    apply update_nth_exists; [exact Hf|apply H; exact Hfail].
  - unfold UploadHelper.no_tasks_inline. cbn. intros H Hs. rewrite (H Hs).
    destruct i; reflexivity.
Qed.

Lemma records_failures_task_finish_notify (i : nat) (s : UploadHelper.State) :
  UploadHelper.records_failures s (UploadHelper.task_finish_notify i s).
Proof.
  unfold UploadHelper.task_finish_notify.
  eapply records_failures_trans;
    [apply (records_failures_update_task i UploadHelper.finished); intros t H; exact H|].
  apply records_failures_same; reflexivity.
Qed.

(** From [Ok a s = Ok a' s'] to the two equations, substituted. *)
Ltac ok_inv H := injection H; clear H; intros; subst.

Create HintDb records.

Ltac records_tac :=
  return_with records_failures_refl records_failures_trans;
  try solve [ apply records_failures_same; reflexivity | auto with records ].

Section CopyRecords.

Variable client : Client.

Lemma copy_send_records (r : Request) :
  is_upload r = false -> returning UploadHelper.records_failures (UploadHelper.send client r).
Proof.
  intros Hr s o s' H. ok_inv H. apply records_failures_clean_entry.
  unfold failed_upload. cbn [fst]. rewrite Hr. reflexivity.
Qed.

Lemma copy_LOG_records (m : LogMessage) :
  returning UploadHelper.records_failures (UploadHelper.LOG m).
Proof. intros s u s' H. ok_inv H. apply records_failures_same; reflexivity. Qed.

#[local] Hint Resolve copy_LOG_records : records.
#[local] Hint Extern 1 (returning UploadHelper.records_failures (UploadHelper.send _ _)) =>
  apply copy_send_records; reflexivity : records.

Lemma copy_createMultipartUpload_records :
  returning UploadHelper.records_failures (UploadHelper.createMultipartUpload client).
Proof. unfold UploadHelper.createMultipartUpload. records_tac. Qed.

Lemma copy_abortMultipartUpload_records :
  returning UploadHelper.records_failures (UploadHelper.abortMultipartUpload client).
Proof. unfold UploadHelper.abortMultipartUpload. records_tac. Qed.

Lemma copy_complete_retry_loop_records (fuel : nat) (retries max_retries : Z)
    (upload_id : string) (parts : list CompletedPart) :
  returning UploadHelper.records_failures
    (UploadHelper.complete_retry_loop client fuel retries max_retries
       (CompleteMultipartUploadRequest upload_id parts)).
Proof.
  revert retries. induction fuel as [|fuel IH]; intros retries;
    cbn [UploadHelper.complete_retry_loop]; records_tac.
Qed.

#[local] Hint Resolve copy_createMultipartUpload_records copy_abortMultipartUpload_records
  copy_complete_retry_loop_records : records.

Lemma copy_completeMultipartUpload_records :
  returning UploadHelper.records_failures (UploadHelper.completeMultipartUpload client).
Proof. unfold UploadHelper.completeMultipartUpload. records_tac. Qed.

Lemma copy_calculatePartSize_records (total_size : Z) :
  returning UploadHelper.records_failures (UploadHelper.calculatePartSize total_size).
Proof.
  intros s u s' H. apply records_failures_same;
    unfold UploadHelper.calculatePartSize in H;
    repeat match type of H with
           | (if ?b then _ else _) = _ => destruct b; try discriminate
           end; ok_inv H; reflexivity.
Qed.

(** A part request that returns was accepted. *)
Lemma copy_processUploadPartRequest_records (request : Request) :
  returning UploadHelper.records_failures
    (UploadHelper.processUploadPartRequest client request).
Proof.
  intros s etag s' H. unfold UploadHelper.processUploadPartRequest in H.
  cbn [bind gets] in H. unfold bind at 1 in H. unfold UploadHelper.send in H.
  destruct (client (UploadHelper.trace s) request) as [x|e].
  - ok_inv H. apply records_failures_clean_entry.
    unfold failed_upload. cbn. apply andb_false_r.
  - unfold bind in H.
    destruct (UploadHelper.abortMultipartUpload client _); try discriminate.
    destruct (UploadHelper.helper_class (UploadHelper.config s)); discriminate.
Qed.

#[local] Hint Resolve copy_completeMultipartUpload_records copy_calculatePartSize_records
  copy_processUploadPartRequest_records : records.

Lemma copy_processUploadTask_request_records (task : UploadHelper.UploadPartTask) :
  returning UploadHelper.records_failures
    (UploadHelper.processUploadTask_request client task).
Proof. unfold UploadHelper.processUploadTask_request. records_tac. Qed.

#[local] Hint Resolve copy_processUploadTask_request_records : records.

Lemma copy_processUploadTask_records (task : UploadHelper.UploadPartTask) :
  returning UploadHelper.records_failures (UploadHelper.processUploadTask client task).
Proof. unfold UploadHelper.processUploadTask. records_tac. Qed.

Lemma copy_task_begins_records (i : nat) :
  returning UploadHelper.records_failures (UploadHelper.task_begins i).
Proof.
  intros s u s' H. unfold UploadHelper.task_begins in H.
  destruct (nth_error _ _) as [task|];
    [|ok_inv H; apply records_failures_refl].
  destruct (UploadHelper.stage task);
    try (ok_inv H; apply records_failures_refl).
  destruct (UploadHelper.multipart_upload_aborted s); ok_inv H.
  - apply records_failures_task_finish_notify.
  - apply records_failures_update_task. intros t Ht. exact Ht.
Qed.

(** Sending a part request touches neither the configuration nor the
    tasks, however it ends. *)
Lemma copy_processUploadTask_request_tasks (task : UploadHelper.UploadPartTask) :
  preserves (keeps (fun s => (UploadHelper.config s, UploadHelper.bg_tasks s)))
    (UploadHelper.processUploadTask_request client task).
Proof.
  unfold UploadHelper.processUploadTask_request, UploadHelper.processUploadPartRequest,
    UploadHelper.abortMultipartUpload.
  keeps_tac; try solve [reflexivity | intros ?; reflexivity].
Qed.

Lemma copy_task_ends_records (i : nat) :
  returning UploadHelper.records_failures (UploadHelper.task_ends client i).
Proof.
  intros s u s' H. unfold UploadHelper.task_ends in H.
  destruct (nth_error _ _) as [task|] eqn:Hnth;
    [|ok_inv H; apply records_failures_refl].
  destruct (UploadHelper.stage task);
    try (ok_inv H; apply records_failures_refl).
  pose proof (copy_processUploadTask_request_tasks task s) as Hframe.
  destruct (UploadHelper.processUploadTask_request client task s) as [task' s1|e s1| | |] eqn:Hp;
    try discriminate; ok_inv H.
  - eapply records_failures_trans; [exact (copy_processUploadTask_request_records _ _ _ _ Hp)|].
    eapply records_failures_trans; [|apply records_failures_task_finish_notify].
    apply records_failures_update_task. intros t Ht. exact Ht.
  - cbn [final_state] in Hframe. unfold keeps in Hframe. injection Hframe as Hc Hb.
    assert (Hin : exists t, In t (UploadHelper.bg_tasks
                                    (UploadHelper.task_finish_notify i
                                       (UploadHelper.update_task i
                                          (UploadHelper.with_exception e) s1)))
                            /\ UploadHelper.exception t <> None).
    { cbn. rewrite Hb.
      eexists. split.
      - apply (nth_error_In _ i). rewrite !update_nth_same, Hnth. reflexivity.
      - discriminate. }
    split; [exact Hc|]. split.
    + intros _ _. exact Hin.
    + intros Hn Hs. cbn in Hs. rewrite Hc in Hs. specialize (Hn Hs).
      rewrite Hn in Hnth. destruct i; discriminate.
Qed.

#[local] Hint Resolve copy_processUploadTask_records copy_task_begins_records
  copy_task_ends_records : records.

Lemma copy_pool_events_records (evs : list UploadHelper.PoolEvent) :
  returning UploadHelper.records_failures (UploadHelper.pool_events client evs).
Proof.
  induction evs as [|ev evs IH]; cbn [UploadHelper.pool_events]; records_tac.
  destruct ev; cbn [UploadHelper.pool_event]; auto with records.
Qed.

#[local] Hint Resolve copy_pool_events_records : records.

Lemma copy_pool_turn_records :
  returning UploadHelper.records_failures (UploadHelper.pool_turn client).
Proof. unfold UploadHelper.pool_turn. records_tac. Qed.

Lemma copy_pool_finish_records (indices : list nat) :
  returning UploadHelper.records_failures (UploadHelper.pool_finish client indices).
Proof. induction indices as [|i indices IH]; cbn [UploadHelper.pool_finish]; records_tac. Qed.

#[local] Hint Resolve copy_pool_turn_records copy_pool_finish_records : records.

Lemma copy_condvar_wait_records :
  returning UploadHelper.records_failures (UploadHelper.condvar_wait client).
Proof. unfold UploadHelper.condvar_wait. records_tac. Qed.

Lemma copy_fillUploadPartRequest_records (part_number part_offset part_size : Z) :
  returning UploadHelper.records_failures
    (UploadHelper.fillUploadPartRequest part_number part_offset part_size).
Proof. unfold UploadHelper.fillUploadPartRequest. records_tac. Qed.

#[local] Hint Resolve copy_condvar_wait_records copy_fillUploadPartRequest_records : records.

Lemma copy_uploadPart_records (part_number part_offset part_size : Z) :
  returning UploadHelper.records_failures
    (UploadHelper.uploadPart client part_number part_offset part_size).
Proof.
  unfold UploadHelper.uploadPart.
  destruct (part_size =? 0); [auto with records|].
  intros s u s' H. cbn [bind gets] in H.
  destruct (UploadHelper.schedule (UploadHelper.config s)) eqn:Hsched.
  - (* a task is added only when there is a thread pool *)
    cbn [bind gets modify] in H.
    match type of H with
    | bind _ _ ?st = _ =>
        apply (records_failures_trans _ st);
          [|revert H; generalize st; intros st' H;
            revert st' u s' H;
            change (returning UploadHelper.records_failures
                      (try_rethrow
                         (r <- UploadHelper.fillUploadPartRequest part_number part_offset
                                 part_size ;;
                          modify (UploadHelper.update_task
                                    (List.length (UploadHelper.bg_tasks s))
                                    (UploadHelper.with_req r)) ;;
                          modify (UploadHelper.update_task
                                    (List.length (UploadHelper.bg_tasks s))
                                    (UploadHelper.with_stage UploadHelper.Queued)))
                         (UploadHelper.task_finish_notify
                            (List.length (UploadHelper.bg_tasks s))) ;;
                       UploadHelper.pool_turn client));
            records_tac;
            apply records_failures_update_task; intros t Ht; exact Ht]
    end.
    split; [reflexivity|]. split.
    + unfold UploadHelper.failure_is_recorded. cbn. intros Hrec Hfail.
      destruct (Hrec Hfail) as (t & Hin & Ht). exists t. split; [|exact Ht].
      apply in_or_app. left. exact Hin.
    + intros _ Hs. cbn in Hs. congruence.
  - revert s u s' H Hsched.
    assert (Hinline : returning UploadHelper.records_failures
              (r <- UploadHelper.fillUploadPartRequest part_number part_offset part_size ;;
               task <- UploadHelper.processUploadTask client
                         (UploadHelper.with_req r UploadHelper.new_task) ;;
               modify (fun s => UploadHelper.set_part_tags
                                  (UploadHelper.part_tags s ++ [UploadHelper.tag task]) s))).
    { records_tac. }
    intros s u s' H _. exact (Hinline _ _ _ H).
Qed.

Lemma copy_collect_tags_records (tasks : list UploadHelper.UploadPartTask) :
  returning UploadHelper.records_failures (UploadHelper.collect_tags client tasks).
Proof. induction tasks as [|task tasks IH]; cbn [UploadHelper.collect_tags]; records_tac. Qed.

#[local] Hint Resolve copy_uploadPart_records copy_collect_tags_records : records.

Lemma copy_waitForAllBackGroundTasks_records :
  returning UploadHelper.records_failures (UploadHelper.waitForAllBackGroundTasks client).
Proof. unfold UploadHelper.waitForAllBackGroundTasks. records_tac. Qed.

Lemma copy_upload_parts_loop_records (fuel : nat) (part_number position end_position : Z) :
  returning UploadHelper.records_failures
    (UploadHelper.upload_parts_loop client fuel part_number position end_position).
Proof.
  revert part_number position.
  induction fuel as [|fuel IH]; intros part_number position;
    cbn [UploadHelper.upload_parts_loop]; records_tac.
Qed.

#[local] Hint Resolve copy_waitForAllBackGroundTasks_records copy_upload_parts_loop_records
  : records.

Lemma copy_performMultipartUpload_records (start_offset size : Z) :
  returning UploadHelper.records_failures
    (UploadHelper.performMultipartUpload client start_offset size).
Proof. unfold UploadHelper.performMultipartUpload. records_tac. Qed.

End CopyRecords.

(** ** The failure of a part surfaces after the upload was aborted *)

Lemma aborts_follow_clean (t : Trace) :
  has_failed_upload t = false -> aborts_follow t = true.
Proof.
  induction t as [|e t IH]; cbn [has_failed_upload existsb aborts_follow]; [reflexivity|].
  intros H. apply orb_false_elim in H. destruct H as [He Ht].
  rewrite He. cbn [negb orb andb]. apply IH. exact Ht.
Qed.

Lemma has_failed_upload_nth (t : Trace) (i : nat) (entry : Request * Outcome) :
  nth_error t i = Some entry -> failed_upload entry = true -> has_failed_upload t = true.
Proof.
  intros Hi Hfail. apply existsb_exists. exists entry.
  split; [exact (nth_error_In _ _ Hi)|exact Hfail].
Qed.

Section CopyFailures.

Variable client : Client.

Lemma copy_abortMultipartUpload_returns (s : UploadHelper.State) :
  UploadHelper.abortMultipartUpload client s
  = Ok tt (UploadHelper.set_multipart_upload_aborted true
             (UploadHelper.set_trace
                (UploadHelper.trace s
                 ++ [(AbortMultipartUploadRequest (UploadHelper.multipart_upload_id s),
                      client (UploadHelper.trace s)
                        (AbortMultipartUploadRequest (UploadHelper.multipart_upload_id s)))])
                s)).
Proof. reflexivity. Qed.

(** The tags are collected only from tasks that recorded no exception. *)
Lemma copy_collect_tags_ok (tasks : list UploadHelper.UploadPartTask)
    (s s' : UploadHelper.State) :
  UploadHelper.collect_tags client tasks s = Ok tt s' ->
  Forall (fun task => UploadHelper.exception task = None) tasks /\
  UploadHelper.bg_tasks s' = UploadHelper.bg_tasks s.
Proof.
  revert s. induction tasks as [|task tasks IH]; intros s H; cbn [UploadHelper.collect_tags] in H.
  - ok_inv H. split; [constructor|reflexivity].
  - destruct (UploadHelper.exception task) eqn:He; [discriminate|].
    apply bind_ok in H. destruct H as (u & s1 & H1 & H2). ok_inv H1.
    destruct (IH _ H2) as [Hall Htasks].
    split; [constructor; assumption|exact Htasks].
Qed.

Lemma copy_waitForAllBackGroundTasks_ok (s s' : UploadHelper.State) :
  UploadHelper.waitForAllBackGroundTasks client s = Ok tt s' ->
  UploadHelper.schedule (UploadHelper.config s) = true ->
  Forall (fun task => UploadHelper.exception task = None) (UploadHelper.bg_tasks s').
Proof.
  intros H Hsched. unfold UploadHelper.waitForAllBackGroundTasks in H.
  cbn [bind gets] in H. rewrite Hsched in H. cbn [negb] in H.
  apply bind_ok in H. destruct H as (u & s1 & _ & H).
  cbn [bind gets] in H. apply copy_collect_tags_ok in H.
  destruct H as [Hall Htasks]. rewrite Htasks. exact Hall.
Qed.

Lemma copy_completeMultipartUpload_tasks :
  preserves (keeps UploadHelper.bg_tasks) (UploadHelper.completeMultipartUpload client).
Proof.
  assert (Hloop : forall fuel retries max_retries request,
             preserves (keeps UploadHelper.bg_tasks)
               (UploadHelper.complete_retry_loop client fuel retries max_retries request)).
  { induction fuel as [|fuel IH]; intros retries max_retries request;
      cbn [UploadHelper.complete_retry_loop];
      keeps_tac; try solve [reflexivity | intros ?; reflexivity | apply IH]. }
  unfold UploadHelper.completeMultipartUpload.
  keeps_tac; try solve [reflexivity | intros ?; reflexivity | apply Hloop].
Qed.

(** A multipart upload that returns has had no part refused. *)
Lemma copy_performMultipartUpload_ok (start_offset size : Z) (s0 s' : UploadHelper.State) :
  UploadHelper.bg_tasks s0 = [] ->
  has_failed_upload (UploadHelper.trace s0) = false ->
  UploadHelper.performMultipartUpload client start_offset size s0 = Ok tt s' ->
  has_failed_upload (UploadHelper.trace s') = false.
Proof.
  intros Htasks Hclean H.
  destruct (copy_performMultipartUpload_records client start_offset size _ _ _ H)
    as (Hcfg & Hrec & Hinline).
  destruct (has_failed_upload (UploadHelper.trace s')) eqn:Hfail; [exfalso|reflexivity].
  destruct Hrec as (task & Hin & Hexc); [|exact Hfail|].
  { intros Hf. rewrite Hclean in Hf. discriminate. }
  destruct (UploadHelper.schedule (UploadHelper.config s0)) eqn:Hsched.
  - unfold UploadHelper.performMultipartUpload in H.
    apply bind_ok in H. destruct H as (u1 & s1 & H1 & H).
    apply bind_ok in H. destruct H as (u2 & s2 & H2 & H).
    cbn [bind gets] in H.
    apply bind_ok in H. destruct H as (u3 & s3 & H3 & H).
    apply bind_ok in H. destruct H as (u4 & s4 & H4 & H).
    destruct u4.
    assert (Hs3 : UploadHelper.schedule (UploadHelper.config s3) = true).
    { assert (Hc : UploadHelper.config s3 = UploadHelper.config s0).
      { transitivity (UploadHelper.config s2);
          [exact (proj1 (copy_upload_parts_loop_records client _ _ _ _ _ _ _ H3))|].
        transitivity (UploadHelper.config s1);
          [exact (proj1 (copy_createMultipartUpload_records client _ _ _ H2))|].
        exact (proj1 (copy_calculatePartSize_records _ _ _ _ H1)). }
      rewrite Hc. exact Hsched. }
    pose proof (copy_waitForAllBackGroundTasks_ok _ _ H4 Hs3) as Hall.
    pose proof (copy_completeMultipartUpload_tasks s4) as Hkeep.
    rewrite H in Hkeep. cbn [final_state] in Hkeep. unfold keeps in Hkeep.
    rewrite Hkeep in Hin. rewrite Forall_forall in Hall.
    apply Hexc, Hall, Hin.
  - assert (Hnone : UploadHelper.bg_tasks s' = []).
    { apply Hinline; [intros _; exact Htasks|]. rewrite Hcfg. exact Hsched. }
    rewrite Hnone in Hin. destruct Hin.
Qed.

End CopyFailures.

(** C4, as stated, fails for the streaming buffer: a refused part surfaces
    as the exception of the part request, no [AbortMultipartUpload] is sent
    and the upload is left open. *)
Lemma streaming_write_does_not_abort :
  let r := WriteBufferFromS3.streaming_write (Samples.refusing_client 1) [15; 15]
             Samples.inline_buffer in
  thrown r = Some (S3Exception UNKNOWN "We encountered an internal error.") /\
  has_failed_upload (WriteBufferFromS3.trace (final_state r)) = true /\
  has_abort (WriteBufferFromS3.trace (final_state r)) = false.
Proof. vm_compute. repeat split. Qed.

(** ** A streaming write that fits a single [PutObject] *)

(** Symbolic execution of the member functions on a state that is given
    field by field. *)
Ltac buffer_step :=
  cbv beta iota zeta delta
    [bind gets modify ret throw undefined try_rethrow final_state returns_normally thrown
     andb orb negb tl option_map
     WriteBufferFromS3.allocateBuffer WriteBufferFromS3.LOG WriteBufferFromS3.send
     WriteBufferFromS3.fillPutRequest WriteBufferFromS3.collect_ready
     WriteBufferFromS3.collect_all WriteBufferFromS3.pool_finish
     WriteBufferFromS3.update_put_task WriteBufferFromS3.put_finished
     WriteBufferFromS3.task_notify_finish
     WriteBufferFromS3.config WriteBufferFromS3.working_offset
     WriteBufferFromS3.upload_part_size WriteBufferFromS3.temporary_buffer
     WriteBufferFromS3.last_part_size WriteBufferFromS3.part_number
     WriteBufferFromS3.multipart_upload_id WriteBufferFromS3.part_tags
     WriteBufferFromS3.is_prefinalized WriteBufferFromS3.put_object_task
     WriteBufferFromS3.upload_object_tasks WriteBufferFromS3.num_added_bg_tasks
     WriteBufferFromS3.num_finished_bg_tasks WriteBufferFromS3.trace
     WriteBufferFromS3.log WriteBufferFromS3.pool_script
     WriteBufferFromS3.put_req WriteBufferFromS3.put_is_finished
     WriteBufferFromS3.put_exception WriteBufferFromS3.put_stage
     WriteBufferFromS3.set_working_offset WriteBufferFromS3.set_upload_part_size
     WriteBufferFromS3.set_temporary_buffer WriteBufferFromS3.set_last_part_size
     WriteBufferFromS3.set_part_number WriteBufferFromS3.set_multipart_upload_id
     WriteBufferFromS3.set_part_tags WriteBufferFromS3.set_is_prefinalized
     WriteBufferFromS3.set_put_object_task WriteBufferFromS3.set_upload_object_tasks
     WriteBufferFromS3.set_num_added_bg_tasks WriteBufferFromS3.set_num_finished_bg_tasks
     WriteBufferFromS3.set_trace WriteBufferFromS3.set_log
     WriteBufferFromS3.set_pool_script].

Ltac buffer_run :=
  buffer_step;
  repeat (progress (try change (WriteBufferFromS3.empty EmptyString) with true;
                    try change (0 =? 0) with true);
          buffer_step).

Section SingleShot.

Variable client : Client.

(** The loop sends no more requests than its budget has left. *)
Lemma buffer_complete_retry_loop_count (request : Request) (max_retry : Z) (fuel : nat) (i : Z)
    (s : WriteBufferFromS3.State) :
  0 <= i <= max_retry -> max_retry < SIZE_MODULUS ->
  Z.of_nat (List.length
              (WriteBufferFromS3.trace
                 (final_state
                    (WriteBufferFromS3.complete_retry_loop client fuel i max_retry request s))))
  <= Z.of_nat (List.length (WriteBufferFromS3.trace s)) + (max_retry - i).
Proof.
  revert i s. induction fuel as [|fuel IH]; intros i s Hi Hm.
  - cbn [WriteBufferFromS3.complete_retry_loop].
    destruct (i <? max_retry); cbn [final_state ret]; lia.
  - rewrite buffer_complete_retry_loop_step.
    destruct (Z.ltb_spec i max_retry) as [Hlt|Hge]; [|cbn [final_state]; lia].
    cbv zeta.
    assert (Hone : Z.of_nat (List.length
                               (WriteBufferFromS3.trace s
                                ++ [(request, client (WriteBufferFromS3.trace s) request)]))
                   = Z.of_nat (List.length (WriteBufferFromS3.trace s)) + 1).
    { rewrite length_app. cbn [List.length]. lia. }
    destruct (client (WriteBufferFromS3.trace s) request) as [x|e];
      [cbn [final_state WriteBufferFromS3.trace WriteBufferFromS3.set_trace]; lia|].
    destruct (is_no_such_key e);
      [|cbn [final_state WriteBufferFromS3.trace WriteBufferFromS3.set_trace]; lia].
    rewrite (wrap_succ i max_retry) by lia.
    etransitivity; [apply IH; lia|].
    cbn [WriteBufferFromS3.trace WriteBufferFromS3.set_trace WriteBufferFromS3.set_log].
    lia.
Qed.

(** What [processPutRequest] leaves behind when it starts with nothing sent:
    the attempts, and a state that differs in the record of requests and in
    the log only. *)
Lemma buffer_put_retry_loop_attempts (request : Request) (budget : Z)
    (s : WriteBufferFromS3.State) :
  1 <= budget < SIZE_MODULUS ->
  WriteBufferFromS3.trace s = [] ->
  let r := WriteBufferFromS3.put_retry_loop client (Z.to_nat budget) 0 budget request s in
  exists t lg,
    single_shot_attempts request budget (client [] request) t /\
    final_state r = WriteBufferFromS3.set_log lg (WriteBufferFromS3.set_trace t s) /\
    (returns_normally r = true \/ exists e, thrown r = Some e).
Proof.
  intros Hb Hnil r.
  pose proof (buffer_complete_retry_loop_count request budget (Z.to_nat budget) 0 s
                ltac:(lia) ltac:(lia)) as Hcount.
  destruct (buffer_complete_retry_loop_spec client request budget (Z.to_nat budget) 0 s
              ltac:(lia) ltac:(lia) ltac:(lia))
    as (es & lg & Hph & Hlen & Hans & Hcases).
  rewrite <- buffer_put_retry_loop_same in Hcases, Hcount.
  fold r in Hcases, Hcount. rewrite Hnil in Hcases, Hans, Hcount. cbn [app] in Hcases.
  assert (Hhd : forall entry es', es = entry :: es' -> entry = (request, client [] request)).
  { intros [q o] es' ->. destruct Hans as [Ho _].
    apply Forall_inv in Hph. destruct Hph as [Hq _].
    cbn [fst snd] in *. subst. reflexivity. }
  destruct Hcases as [[Hall Hr]|(last & Hlast & Hr)].
  - (* the budget is used up: the last attempt is a phantom too *)
    destruct (exists_last (l := es)) as (phantoms & [q o] & Hes).
    { intros ->. cbn in Hall. lia. }
    exists es, lg.
    split.
    + rewrite Hes in Hph. apply Forall_app in Hph. destruct Hph as [Hph Hl].
      apply Forall_inv in Hl. destruct Hl as [Hq _]. cbn [fst] in Hq. subst q.
      exists phantoms, o. split; [exact Hes|]. split; [exact Hph|].
      split; [rewrite Hes, length_app in Hall; cbn [List.length] in Hall; lia|].
      destruct es as [|entry es']; [destruct phantoms; discriminate|].
      cbn [hd_error]. rewrite (Hhd _ _ eq_refl). reflexivity.
    + rewrite Hr. split; [reflexivity|]. left. reflexivity.
  - exists (es ++ [(request, last)]), lg.
    cbv zeta in Hr.
    assert (Hfinal : final_state r
                     = WriteBufferFromS3.set_log lg
                         (WriteBufferFromS3.set_trace (es ++ [(request, last)]) s)).
    { destruct last as [x|e]; [rewrite Hr|destruct Hr as [_ ->]]; reflexivity. }
    rewrite Hfinal in Hcount.
    cbn [WriteBufferFromS3.trace WriteBufferFromS3.set_trace WriteBufferFromS3.set_log] in Hcount.
    rewrite length_app in Hcount. cbn [List.length] in Hcount.
    split.
    + exists es, last. split; [reflexivity|]. split; [exact Hph|]. split; [lia|].
      destruct es as [|entry es'].
      * cbn [app hd_error] in *. subst last. reflexivity.
      * cbn [app hd_error]. rewrite (Hhd _ _ eq_refl). reflexivity.
    + split; [exact Hfinal|]. destruct last as [x|e].
      * rewrite Hr. left. reflexivity.
      * destruct Hr as [_ Hr]. rewrite Hr. right. eexists. reflexivity.
Qed.

(** With no task in the queue a closure of the thread pool finds nothing to
    do. *)
Lemma buffer_upload_task_runs_none (id : Z) (s : WriteBufferFromS3.State) :
  WriteBufferFromS3.upload_object_tasks s = [] ->
  WriteBufferFromS3.upload_task_runs client id s = Ok tt s.
Proof. intros H. unfold WriteBufferFromS3.upload_task_runs. rewrite H. reflexivity. Qed.

Lemma buffer_pool_events_idle (evs : list WriteBufferFromS3.PoolEvent)
    (s : WriteBufferFromS3.State) :
  WriteBufferFromS3.upload_object_tasks s = [] ->
  WriteBufferFromS3.put_object_task s = None ->
  WriteBufferFromS3.pool_events client evs s = Ok tt s.
Proof.
  intros Htasks Hput. induction evs as [|ev evs IH]; [reflexivity|].
  cbn [WriteBufferFromS3.pool_events]. unfold bind.
  destruct ev; cbn [WriteBufferFromS3.pool_event].
  - rewrite buffer_upload_task_runs_none by exact Htasks. exact IH.
  - unfold WriteBufferFromS3.put_task_runs. rewrite Hput. exact IH.
Qed.

Lemma buffer_pool_turn_idle (s : WriteBufferFromS3.State) :
  WriteBufferFromS3.upload_object_tasks s = [] ->
  WriteBufferFromS3.put_object_task s = None ->
  WriteBufferFromS3.pool_turn client s
  = Ok tt (WriteBufferFromS3.set_pool_script (tl (WriteBufferFromS3.pool_script s)) s).
Proof.
  intros Htasks Hput. unfold WriteBufferFromS3.pool_turn. cbn [bind gets].
  destruct (WriteBufferFromS3.pool_script s) as [|evs rest] eqn:Hscript.
  - cbn [tl ret]. destruct s; cbn in Hscript; subst; reflexivity.
  - cbn [bind modify tl]. apply buffer_pool_events_idle; assumption.
Qed.

(** Bytes that fit the single-part limit stay in the temporary buffer. *)
Lemma buffer_write_buffering (c : WriteBufferFromS3.Config) (written n : Z)
    (s : WriteBufferFromS3.State) :
  WriteBufferFromS3.buffering c written s ->
  0 <= written -> 0 <= n ->
  written + n <= max_single_part_upload_size (WriteBufferFromS3.settings c) ->
  max_single_part_upload_size (WriteBufferFromS3.settings c) < SIZE_MODULUS ->
  exists s', WriteBufferFromS3.write client n s = Ok tt s' /\
             WriteBufferFromS3.buffering c (written + n) s'.
Proof.
  intros (Hc & Hoff & Htmp & Hlast & Hid & Hpre & Hput & Htasks & Hnum & Htrace) Hw Hn Hfit Hmax.
  destruct s. cbn in Hc, Hoff, Htmp, Hlast, Hid, Hpre, Hput, Htasks, Hnum, Htrace. subst.
  unfold WriteBufferFromS3.write, WriteBufferFromS3.next.
  buffer_run.
  destruct (Z.eqb_spec n 0) as [->|Hn0].
  - eexists. split; [reflexivity|]. rewrite Z.add_0_r. repeat split; reflexivity.
  - rewrite nextImpl_steps by (cbn; exact Hn0).
    buffer_run.
    destruct (Z.eqb_spec written (-1)) as [|_]; [lia|].
    buffer_run.
    rewrite (wrap_small (written + n)) by (unfold is_size_t; lia).
    destruct (Z.ltb_spec (max_single_part_upload_size (WriteBufferFromS3.settings c))
                (written + n)) as [|_]; [lia|].
    buffer_run.
    unfold WriteBufferFromS3.waitForReadyBackGroundTasks. buffer_run.
    destruct (WriteBufferFromS3.schedule c).
    + rewrite buffer_pool_turn_idle by reflexivity. buffer_run.
      eexists. split; [reflexivity|]. repeat split; reflexivity.
    + eexists. split; [reflexivity|]. repeat split; reflexivity.
Qed.

Lemma buffer_write_all_buffering (c : WriteBufferFromS3.Config) (chunks : list Z) :
  forall (written : Z) (s : WriteBufferFromS3.State),
  WriteBufferFromS3.buffering c written s ->
  0 <= written -> Forall (fun n => 0 <= n) chunks ->
  written + fold_right Z.add 0 chunks
  <= max_single_part_upload_size (WriteBufferFromS3.settings c) ->
  max_single_part_upload_size (WriteBufferFromS3.settings c) < SIZE_MODULUS ->
  exists s', WriteBufferFromS3.write_all client chunks s = Ok tt s' /\
             WriteBufferFromS3.buffering c (written + fold_right Z.add 0 chunks) s'.
Proof.
  induction chunks as [|n chunks IH]; intros written s Hs Hw Hall Hfit Hmax;
    cbn [WriteBufferFromS3.write_all fold_right] in *.
  - exists s. split; [reflexivity|]. rewrite Z.add_0_r. exact Hs.
  - inversion Hall as [|? ? Hn Hrest]; subst.
    assert (Hsum : 0 <= fold_right Z.add 0 chunks).
    { clear -Hrest. induction Hrest; cbn [fold_right]; lia. }
    destruct (buffer_write_buffering c written n s Hs Hw Hn ltac:(lia) Hmax) as (s1 & H1 & Hs1).
    destruct (IH (written + n) s1 Hs1 ltac:(lia) Hrest ltac:(lia) Hmax) as (s2 & H2 & Hs2).
    exists s2. unfold bind. rewrite H1. split; [exact H2|].
    rewrite Z.add_assoc. exact Hs2.
Qed.

(** The record of the requests of a job that took the single-shot path: the
    attempts of the [PutObject], then at most the check of the object. *)
Lemma buffer_finalizeImpl_inline (c : WriteBufferFromS3.Config) (total : Z)
    (s : WriteBufferFromS3.State) :
  WriteBufferFromS3.buffering c total s ->
  0 <= total ->
  is_size_t (WriteBufferFromS3.max_unexpected_write_error_retries c) ->
  WriteBufferFromS3.schedule c = false ->
  let request := PutObjectRequest total (TemporaryBuffer total) in
  let budget := std_max (WriteBufferFromS3.max_unexpected_write_error_retries c) 1 in
  exists t heads,
    WriteBufferFromS3.trace (final_state (WriteBufferFromS3.finalizeImpl client s)) = t ++ heads /\
    single_shot_attempts request budget (client [] request) t /\
    (heads = [] \/ exists o, heads = [(HeadObjectRequest, o)]).
Proof.
  intros (Hc & Hoff & Htmp & Hlast & Hid & Hpre & Hput & Htasks & Hnum & Htrace)
    Htotal Hretries Hsched request budget.
  destruct s. cbn in Hc, Hoff, Htmp, Hlast, Hid, Hpre, Hput, Htasks, Hnum, Htrace. subst.
  unfold WriteBufferFromS3.finalizeImpl, WriteBufferFromS3.preFinalize, WriteBufferFromS3.next,
    WriteBufferFromS3.makeSinglepartUpload, WriteBufferFromS3.processPutRequest,
    WriteBufferFromS3.waitForAllBackGroundTasks, WriteBufferFromS3.checkObjectExists.
  buffer_run.
  destruct (Z.ltb_spec total 0) as [|_]; [lia|].
  rewrite Hsched. buffer_run.
  fold request. fold budget.
  match goal with
  | |- context [WriteBufferFromS3.put_retry_loop client ?f ?i ?m ?q ?st] =>
      destruct (buffer_put_retry_loop_attempts q m st) as (t & lg & Ht & Hfinal & Hends);
        [pose proof (std_max_1 (WriteBufferFromS3.max_unexpected_write_error_retries c));
         pose proof (std_max_size_t _ Hretries) as Hmax; unfold is_size_t in Hmax;
         subst budget; lia
        |reflexivity|];
      destruct (WriteBufferFromS3.put_retry_loop client f i m q st) as [[] s1|e s1|s1|s1|s1]
  end;
    cbn [final_state returns_normally thrown] in Hfinal, Hends.
  - subst s1. buffer_run. rewrite Hsched. buffer_run.
    destruct (WriteBufferFromS3.check_objects_after_upload c).
    + match goal with
      | |- context [client ?h HeadObjectRequest] => destruct (client h HeadObjectRequest)
      end;
        (exists t; eexists; split; [reflexivity|split; [exact Ht|right; eexists; reflexivity]]).
    + exists t, []. rewrite app_nil_r. split; [reflexivity|]. split; [exact Ht|left; reflexivity].
  - subst s1. exists t, []. rewrite app_nil_r.
    split; [reflexivity|]. split; [exact Ht|left; reflexivity].
  - destruct Hends as [|[e He]]; discriminate.
  - destruct Hends as [|[e He]]; discriminate.
  - destruct Hends as [|[e He]]; discriminate.
Qed.

(** The closure of the [PutObject] task sends the attempts, once. *)
Lemma buffer_put_task_runs_pending (c : WriteBufferFromS3.Config) (request : Request)
    (s : WriteBufferFromS3.State) :
  is_size_t (WriteBufferFromS3.max_unexpected_write_error_retries c) ->
  WriteBufferFromS3.put_pending c request s ->
  exists s',
    WriteBufferFromS3.put_task_runs client s = Ok tt s' /\
    WriteBufferFromS3.put_settled c request
      (std_max (WriteBufferFromS3.max_unexpected_write_error_retries c) 1)
      (client [] request) s'.
Proof.
  intros Hretries (Hc & Hid & Htasks & Hnum & Htrace & Hput).
  destruct s. cbn in Hc, Hid, Htasks, Hnum, Htrace, Hput. subst.
  unfold WriteBufferFromS3.put_task_runs, WriteBufferFromS3.processPutRequest.
  buffer_run.
  match goal with
  | |- context [WriteBufferFromS3.put_retry_loop client ?f ?i ?m ?q ?st] =>
      destruct (buffer_put_retry_loop_attempts q m st) as (t & lg & Ht & Hfinal & Hends);
        [pose proof (std_max_1 (WriteBufferFromS3.max_unexpected_write_error_retries c));
         pose proof (std_max_size_t _ Hretries) as Hmax; unfold is_size_t in Hmax; lia
        |reflexivity|];
      destruct (WriteBufferFromS3.put_retry_loop client f i m q st) as [[] s1|e s1|s1|s1|s1]
  end;
    cbn [final_state returns_normally thrown] in Hfinal, Hends;
    try (destruct Hends as [|[e He]]; discriminate);
    subst s1; buffer_run;
    (eexists; split; [reflexivity|]);
    unfold WriteBufferFromS3.put_settled; cbn;
    repeat (split; [reflexivity || exact Ht|]);
    eexists; repeat split; reflexivity.
Qed.

Lemma buffer_put_task_runs_settled (c : WriteBufferFromS3.Config) (request : Request)
    (budget : Z) (first : Outcome) (s : WriteBufferFromS3.State) :
  WriteBufferFromS3.put_settled c request budget first s ->
  WriteBufferFromS3.put_task_runs client s = Ok tt s.
Proof.
  intros (_ & _ & _ & _ & _ & t & Hput & Hstage & _).
  unfold WriteBufferFromS3.put_task_runs. rewrite Hput, Hstage. reflexivity.
Qed.

(** Whatever the thread pool does next, the [PutObject] task is waiting or
    has run. *)
Lemma buffer_pool_events_put (c : WriteBufferFromS3.Config) (request : Request)
    (evs : list WriteBufferFromS3.PoolEvent) :
  is_size_t (WriteBufferFromS3.max_unexpected_write_error_retries c) ->
  let settled :=
    WriteBufferFromS3.put_settled c request
      (std_max (WriteBufferFromS3.max_unexpected_write_error_retries c) 1)
      (client [] request) in
  forall s,
    WriteBufferFromS3.put_pending c request s \/ settled s ->
    exists s',
      WriteBufferFromS3.pool_events client evs s = Ok tt s' /\
      (WriteBufferFromS3.put_pending c request s' \/ settled s').
Proof.
  intros Hretries settled.
  induction evs as [|ev evs IH]; intros s Hs; cbn [WriteBufferFromS3.pool_events].
  - exists s. split; [reflexivity|exact Hs].
  - unfold bind. destruct ev; cbn [WriteBufferFromS3.pool_event].
    + rewrite buffer_upload_task_runs_none; [apply IH; exact Hs|].
      destruct Hs as [Hs|Hs]; apply Hs.
    + destruct Hs as [Hs|Hs].
      * destruct (buffer_put_task_runs_pending c request s Hretries Hs) as (s1 & -> & Hs1).
        apply IH. right. exact Hs1.
      * rewrite (buffer_put_task_runs_settled _ _ _ _ _ Hs). apply IH. right. exact Hs.
Qed.

Lemma buffer_pool_turn_put (c : WriteBufferFromS3.Config) (request : Request) :
  is_size_t (WriteBufferFromS3.max_unexpected_write_error_retries c) ->
  let settled :=
    WriteBufferFromS3.put_settled c request
      (std_max (WriteBufferFromS3.max_unexpected_write_error_retries c) 1)
      (client [] request) in
  forall s,
    WriteBufferFromS3.put_pending c request s \/ settled s ->
    exists s',
      WriteBufferFromS3.pool_turn client s = Ok tt s' /\
      (WriteBufferFromS3.put_pending c request s' \/ settled s').
Proof.
  intros Hretries settled s Hs. unfold WriteBufferFromS3.pool_turn. cbn [bind gets].
  destruct (WriteBufferFromS3.pool_script s) as [|evs rest]; [exists s; split; [reflexivity|exact Hs]|].
  cbn [bind modify]. apply buffer_pool_events_put; [exact Hretries|].
  destruct Hs as [Hs|Hs]; [left|right]; exact Hs.
Qed.

(** The wait at the end lets the [PutObject] task run, if it has not yet,
    and hands over its exception. *)
Lemma buffer_waitForAllBackGroundTasks_put (c : WriteBufferFromS3.Config) (request : Request)
    (s : WriteBufferFromS3.State) :
  is_size_t (WriteBufferFromS3.max_unexpected_write_error_retries c) ->
  WriteBufferFromS3.schedule c = true ->
  let settled :=
    WriteBufferFromS3.put_settled c request
      (std_max (WriteBufferFromS3.max_unexpected_write_error_retries c) 1)
      (client [] request) in
  WriteBufferFromS3.put_pending c request s \/ settled s ->
  let r := WriteBufferFromS3.waitForAllBackGroundTasks client s in
  settled (final_state r) /\ (returns_normally r = true \/ exists e, thrown r = Some e).
Proof.
  intros Hretries Hsched settled Hs r. subst r.
  assert (Hc : WriteBufferFromS3.config s = c) by (destruct Hs as [Hs|Hs]; apply Hs).
  unfold WriteBufferFromS3.waitForAllBackGroundTasks,
    WriteBufferFromS3.waitForAllBackGroundTasksUnlocked, WriteBufferFromS3.condvar_wait_tasks,
    WriteBufferFromS3.condvar_wait_put.
  unfold bind, gets. rewrite Hc, Hsched. cbv beta iota. rewrite ?Hc, ?Hsched.
  destruct (buffer_pool_turn_put c request Hretries s Hs) as (s1 & H1 & Hs1).
  rewrite H1.
  assert (Htasks : WriteBufferFromS3.upload_object_tasks s1 = [])
    by (destruct Hs1 as [Hs1|Hs1]; apply Hs1).
  assert (Hnum : WriteBufferFromS3.num_added_bg_tasks s1
                 = WriteBufferFromS3.num_finished_bg_tasks s1)
    by (destruct Hs1 as [Hs1|Hs1]; apply Hs1).
  assert (Hrun : exists s2, WriteBufferFromS3.put_task_runs client s1 = Ok tt s2 /\ settled s2).
  { destruct Hs1 as [Hs1|Hs1].
    - apply buffer_put_task_runs_pending; assumption.
    - exists s1. split; [apply (buffer_put_task_runs_settled _ _ _ _ _ Hs1)|exact Hs1]. }
  assert (Hsome : exists t, WriteBufferFromS3.put_object_task s1 = Some t).
  { destruct Hs1 as [Hs1|Hs1].
    - eexists. apply Hs1.
    - destruct Hs1 as (_ & _ & _ & _ & _ & t & Ht & _). exists t. exact Ht. }
  destruct Hsome as (t1 & Ht1). destruct Hrun as (s2 & H2 & Hs2).
  pose proof Hs2 as (_ & _ & _ & _ & _ & t2 & Ht2 & _ & Hfin).
  repeat (progress (rewrite ?Htasks, ?Ht1, ?H2, ?Ht2, ?Hfin; try rewrite Hnum, Z.eqb_refl;
                    cbn [map WriteBufferFromS3.pool_finish WriteBufferFromS3.collect_all];
                    unfold ret; cbv beta iota)).
  destruct (WriteBufferFromS3.put_exception t2) as [e|]; cbn [throw final_state].
  - split; [exact Hs2|]. right. exists e. reflexivity.
  - split; [exact Hs2|]. left. reflexivity.
Qed.

Lemma buffer_finalizeImpl_scheduled (c : WriteBufferFromS3.Config) (total : Z)
    (s : WriteBufferFromS3.State) :
  WriteBufferFromS3.buffering c total s ->
  0 <= total ->
  is_size_t (WriteBufferFromS3.max_unexpected_write_error_retries c) ->
  WriteBufferFromS3.schedule c = true ->
  let request := PutObjectRequest total (TemporaryBuffer total) in
  let budget := std_max (WriteBufferFromS3.max_unexpected_write_error_retries c) 1 in
  exists t heads,
    WriteBufferFromS3.trace (final_state (WriteBufferFromS3.finalizeImpl client s)) = t ++ heads /\
    single_shot_attempts request budget (client [] request) t /\
    (heads = [] \/ exists o, heads = [(HeadObjectRequest, o)]).
Proof.
  intros (Hc & Hoff & Htmp & Hlast & Hid & Hpre & Hput & Htasks & Hnum & Htrace)
    Htotal Hretries Hsched request budget.
  destruct s. cbn in Hc, Hoff, Htmp, Hlast, Hid, Hpre, Hput, Htasks, Hnum, Htrace. subst.
  unfold WriteBufferFromS3.finalizeImpl, WriteBufferFromS3.preFinalize, WriteBufferFromS3.next,
    WriteBufferFromS3.makeSinglepartUpload, WriteBufferFromS3.checkObjectExists.
  buffer_run.
  destruct (Z.ltb_spec total 0) as [|_]; [lia|].
  rewrite Hsched. buffer_run. fold request.
  match goal with
  | |- context [WriteBufferFromS3.pool_turn client ?st] =>
      destruct (buffer_pool_turn_put c request Hretries st) as (s1 & -> & Hs1);
        [left; repeat split; reflexivity|]
  end.
  buffer_run.
  match goal with
  | |- context [WriteBufferFromS3.waitForAllBackGroundTasks client ?st] =>
      destruct (buffer_waitForAllBackGroundTasks_put c request st Hretries Hsched)
        as (Hs2 & Hends);
        [destruct s1; destruct Hs1 as [Hs1|Hs1]; [left|right]; exact Hs1|];
      destruct (WriteBufferFromS3.waitForAllBackGroundTasks client st) as [[] s2|e s2|s2|s2|s2]
  end;
    cbn [final_state returns_normally thrown] in Hs2, Hends;
    try (destruct Hends as [|[e He]]; discriminate);
    destruct Hs2 as (Hc2 & Hid2 & _ & _ & Ht & _);
    destruct s2; cbn in Hc2, Hid2, Ht; subst; buffer_run.
  - destruct (WriteBufferFromS3.check_objects_after_upload c).
    + match goal with
      | |- context [client ?h HeadObjectRequest] => destruct (client h HeadObjectRequest)
      end;
        (eexists; eexists; split; [reflexivity|split; [exact Ht|right; eexists; reflexivity]]).
    + eexists. exists []. rewrite app_nil_r.
      split; [reflexivity|]. split; [exact Ht|left; reflexivity].
  - eexists. exists []. rewrite app_nil_r.
    split; [reflexivity|]. split; [exact Ht|left; reflexivity].
Qed.

End SingleShot.

Lemma single_shot_record (request : Request) (budget : Z) (first : Outcome)
    (t heads : Trace) :
  is_put request = true ->
  single_shot_attempts request budget first t ->
  heads = [] \/ (exists o, heads = [(HeadObjectRequest, o)]) ->
  answered is_multipart (t ++ heads) = 0%nat /\
  filter (fun entry => is_put (fst entry)) (t ++ heads) = t.
Proof.
  intros Hput (phantoms & last & -> & Hph & _ & _) Hheads.
  assert (Hkeep : filter (fun entry => is_put (fst entry)) phantoms = phantoms /\
                  filter (fun entry => is_multipart (fst entry)) phantoms = []).
  { induction Hph as [|entry phantoms [Hq _] _ [IH1 IH2]]; [split; reflexivity|].
    cbn [filter]. rewrite Hq, Hput.
    destruct request; try discriminate. cbn [is_multipart].
    rewrite IH1, IH2. split; reflexivity. }
  destruct Hkeep as [Hputs Hmulti].
  unfold answered. rewrite !filter_app, Hputs, Hmulti. cbn [filter fst].
  rewrite Hput. destruct request; try discriminate. cbn [is_multipart app].
  destruct Hheads as [->|[o ->]]; cbn [filter fst is_multipart is_put List.length app];
    rewrite ?app_nil_r; split; reflexivity.
Qed.

(** C8 (amended). A streaming write whose bytes add up to exactly
    [max_single_part_upload_size] sends no request of a multipart upload,
    whatever the server answers and with or without a thread pool. Its
    [PutObject] requests are all the same request, for all the bytes; each
    but the last was answered with the phantom [NoSuchKey], and they are no
    more than max(max_unexpected_write_error_retries, 1). There is exactly
    one [PutObject] when the server does not answer the first one with
    [NoSuchKey]. *)
Theorem exact_single_part_boundary (client : Client) (cfg : WriteBufferFromS3.Config)
    (script : list (list WriteBufferFromS3.PoolEvent)) (chunks : list Z) :
  Forall (fun n => 0 <= n) chunks ->
  fold_right Z.add 0 chunks = max_single_part_upload_size (WriteBufferFromS3.settings cfg) ->
  is_size_t (max_single_part_upload_size (WriteBufferFromS3.settings cfg)) ->
  is_size_t (WriteBufferFromS3.max_unexpected_write_error_retries cfg) ->
  let total := max_single_part_upload_size (WriteBufferFromS3.settings cfg) in
  let request := PutObjectRequest total (TemporaryBuffer total) in
  let t := WriteBufferFromS3.trace
             (final_state
                (WriteBufferFromS3.streaming_write client chunks
                   (WriteBufferFromS3.construct cfg script))) in
  answered is_multipart t = 0%nat /\
  (exists phantoms last,
     filter (fun entry => is_put (fst entry)) t = phantoms ++ [(request, last)] /\
     Forall (phantom_attempt request) phantoms /\
     Z.of_nat (List.length phantoms)
     < std_max (WriteBufferFromS3.max_unexpected_write_error_retries cfg) 1) /\
  ((forall e, client [] request = Failure e -> is_no_such_key e = false) ->
   answered is_put t = 1%nat).
Proof.
  intros Hchunks Hsum Hsize Hretries total request t.
  assert (Hstart : WriteBufferFromS3.buffering cfg 0 (WriteBufferFromS3.construct cfg script)).
  { repeat split; reflexivity. }
  destruct (buffer_write_all_buffering client cfg chunks 0 _ Hstart ltac:(lia) Hchunks
              ltac:(lia) ltac:(apply Hsize))
    as (s1 & Hwrite & Hs1).
  cbn [Z.add] in Hs1. rewrite Hsum in Hs1. fold total in Hs1.
  assert (Hrecord : exists t1 heads,
             t = t1 ++ heads /\
             single_shot_attempts request
               (std_max (WriteBufferFromS3.max_unexpected_write_error_retries cfg) 1)
               (client [] request) t1 /\
             (heads = [] \/ exists o, heads = [(HeadObjectRequest, o)])).
  { subst t. unfold WriteBufferFromS3.streaming_write, bind. rewrite Hwrite.
    destruct (WriteBufferFromS3.schedule cfg) eqn:Hsched.
    - apply buffer_finalizeImpl_scheduled; [exact Hs1|apply Hsize|exact Hretries|exact Hsched].
    - apply buffer_finalizeImpl_inline; [exact Hs1|apply Hsize|exact Hretries|exact Hsched]. }
  destruct Hrecord as (t1 & heads & Ht & Hshot & Hheads).
  destruct (single_shot_record request _ _ t1 heads eq_refl Hshot Hheads) as [Hmulti Hputs].
  rewrite Ht. split; [exact Hmulti|].
  destruct Hshot as (phantoms & last & Ht1 & Hph & Hlen & Hhd).
  split.
  - exists phantoms, last. rewrite Hputs. split; [exact Ht1|]. split; [exact Hph|exact Hlen].
  - intros Hfirst. unfold answered. rewrite Hputs, Ht1.
    destruct phantoms as [|entry phantoms]; [reflexivity|exfalso].
    rewrite Ht1 in Hhd. cbn [app hd_error] in Hhd. injection Hhd as Hentry.
    apply Forall_inv in Hph. destruct Hph as (_ & e & He & Hkey).
    rewrite Hentry in He. cbn [snd] in He.
    specialize (Hfirst e He). unfold is_no_such_key in Hfirst. rewrite Hkey in Hfirst.
    discriminate.
Qed.

Lemma exact_single_part_boundary_witness :
  let t := WriteBufferFromS3.trace
             (final_state
                (WriteBufferFromS3.streaming_write Samples.accepting_client [5; 15]
                   Samples.inline_buffer)) in
  answered is_multipart t = 0%nat /\ answered is_put t = 1%nat.
Proof.
  pose proof (exact_single_part_boundary Samples.accepting_client
                (WriteBufferFromS3.mkConfig Samples.small_policy false 1 false) [] [5; 15]
                ltac:(repeat constructor; lia) eq_refl
                ltac:(unfold is_size_t; vm_compute; split; [discriminate|reflexivity])
                ltac:(unfold is_size_t; vm_compute; split; [discriminate|reflexivity]))
    as (Hmulti & _ & Hone).
  split; [exact Hmulti|]. apply Hone. intros e He. discriminate He.
Defined.

(** C8, as stated, fails when the server answers the [PutObject] with the
    phantom [NoSuchKey] and the budget allows a retry: the request is sent
    a second time. *)
Lemma exact_boundary_put_is_retried :
  let r := WriteBufferFromS3.streaming_write (Samples.phantom_put_client 1) [5; 15]
             (Samples.inline_buffer_with_retries 2) in
  returns_normally r = true /\
  map fst (WriteBufferFromS3.trace (final_state r))
  = [PutObjectRequest 20 (TemporaryBuffer 20); PutObjectRequest 20 (TemporaryBuffer 20)] /\
  answered is_put (WriteBufferFromS3.trace (final_state r)) = 2%nat.
Proof. vm_compute. repeat split; reflexivity. Qed.

(** ** The order of the tags *)

Section Agreement.

Context {S : Type} (R : S -> S -> Prop).

Lemma agrees_ret {A} (a : A) : agrees R (ret a).
Proof. intros s1 s2 a1 a2 s1' s2' HR H1 H2. ok_inv H1. ok_inv H2. split; [reflexivity|exact HR]. Qed.

Lemma agrees_gets {A} (f : S -> A) :
  (forall s1 s2, R s1 s2 -> f s1 = f s2) -> agrees R (gets f).
Proof.
  intros Hf s1 s2 a1 a2 s1' s2' HR H1 H2. ok_inv H1. ok_inv H2.
  split; [apply Hf; exact HR|exact HR].
Qed.

Lemma agrees_modify (f : S -> S) :
  (forall s1 s2, R s1 s2 -> R (f s1) (f s2)) -> agrees R (modify f).
Proof.
  intros Hf s1 s2 a1 a2 s1' s2' HR H1 H2. ok_inv H1. ok_inv H2.
  split; [reflexivity|apply Hf; exact HR].
Qed.

Lemma agrees_throw {A} (e : Exception) : agrees R (@throw S A e).
Proof. intros s1 s2 a1 a2 s1' s2' HR H1 H2. discriminate. Qed.

Lemma agrees_undefined {A} : agrees R (@undefined S A).
Proof. intros s1 s2 a1 a2 s1' s2' HR H1 H2. discriminate. Qed.

Lemma agrees_out_of_fuel {A} : agrees R (fun s => @OutOfFuel S A s).
Proof. intros s1 s2 a1 a2 s1' s2' HR H1 H2. discriminate. Qed.

Lemma agrees_bind {A B} (c : M S A) (k : A -> M S B) :
  agrees R c -> (forall a, agrees R (k a)) -> agrees R (bind c k).
Proof.
  intros Hc Hk s1 s2 b1 b2 s1' s2' HR H1 H2.
  apply bind_ok in H1. destruct H1 as (a1 & m1 & Hc1 & Hk1).
  apply bind_ok in H2. destruct H2 as (a2 & m2 & Hc2 & Hk2).
  destruct (Hc _ _ _ _ _ _ HR Hc1 Hc2) as [<- HRm].
  exact (Hk _ _ _ _ _ _ _ HRm Hk1 Hk2).
Qed.

Lemma agrees_try_rethrow {A} (c : M S A) (h : S -> S) :
  agrees R c -> agrees R (try_rethrow c h).
Proof.
  intros Hc s1 s2 a1 a2 s1' s2' HR H1 H2. unfold try_rethrow in H1, H2.
  destruct (c s1) as [x1 m1| | | |] eqn:Hc1; try discriminate.
  destruct (c s2) as [x2 m2| | | |] eqn:Hc2; try discriminate.
  ok_inv H1. ok_inv H2. exact (Hc _ _ _ _ _ _ HR Hc1 Hc2).
Qed.

(** A step that leaves the relation as it is, on whichever side it is
    taken. *)
Lemma agrees_of_returning (Q : S -> S -> Prop) (c : M S unit) :
  (forall s1 s2, R s1 s2 -> R s2 s1) ->
  (forall s1 s2 s1', R s1 s2 -> Q s1 s1' -> R s1' s2) ->
  returning Q c -> agrees R c.
Proof.
  intros Hsym Hstep Hc s1 s2 [] [] s1' s2' HR H1 H2. split; [reflexivity|].
  apply Hsym, (Hstep s2 s1'); [|exact (Hc _ _ _ H2)].
  apply Hsym, (Hstep s1 s2); [exact HR|exact (Hc _ _ _ H1)].
Qed.

End Agreement.

(** Splits a goal [agrees R c] along the structure of [c]. *)
Ltac agrees_tac :=
  repeat match goal with
    | |- agrees _ (bind _ _) => apply agrees_bind
    | |- agrees _ (ret _) => apply agrees_ret
    | |- agrees _ (throw _) => apply agrees_throw
    | |- agrees _ undefined => apply agrees_undefined
    | |- agrees _ (fun s => OutOfFuel _) => apply agrees_out_of_fuel
    | |- agrees _ (try_rethrow _ _) => apply agrees_try_rethrow
    | |- agrees _ (if ?b then _ else _) => destruct b
    | |- forall _, _ => intro
    end.

Lemma Forall_update_nth {A} (P : A -> Prop) (i : nat) (f : A -> A) (l : list A) :
  (forall x, nth_error l i = Some x -> P x -> P (f x)) ->
  Forall P l -> Forall P (UploadHelper.update_nth i f l).
Proof.
  revert i. induction l as [|x l IH]; intros i Hf Hall; [destruct i; constructor|].
  inversion Hall as [|? ? Hx Hl]; subst.
  destruct i as [|i]; cbn [UploadHelper.update_nth].
  - constructor; [apply Hf; [reflexivity|exact Hx]|exact Hl].
  - constructor; [exact Hx|]. apply IH; [|exact Hl]. intros y Hy. apply Hf. exact Hy.
Qed.

Lemma map_update_nth {A B} (g : A -> B) (i : nat) (f : A -> A) (l : list A) :
  (forall x, g (f x) = g x) -> map g (UploadHelper.update_nth i f l) = map g l.
Proof.
  intros Hf. revert i. induction l as [|x l IH]; intros i; [destruct i; reflexivity|].
  destruct i as [|i]; cbn [UploadHelper.update_nth map]; [rewrite Hf; reflexivity|].
  rewrite IH. reflexivity.
Qed.

Section CopyOrder.

Variable client : Client.
Variable etag_of : Request -> string.

Hypothesis client_accepts :
  forall history r, is_upload r = true -> client history r = Success (etag_of r).

Lemma pool_step_refl (s : UploadHelper.State) : UploadHelper.pool_step etag_of s s.
Proof. intros H. split; [exact H|]. split; [reflexivity|]. intros i Hi. exact Hi. Qed.

Lemma pool_step_trans (s1 s2 s3 : UploadHelper.State) :
  UploadHelper.pool_step etag_of s1 s2 -> UploadHelper.pool_step etag_of s2 s3 ->
  UploadHelper.pool_step etag_of s1 s3.
Proof.
  intros H12 H23 H1. destruct (H12 H1) as (H2 & Hp12 & Hr12).
  destruct (H23 H2) as (H3 & Hp23 & Hr23).
  split; [exact H3|]. split; [congruence|]. intros i Hi. apply Hr23, Hr12, Hi.
Qed.

(** A change of one task that keeps its request and keeps it on course. *)
Lemma pool_step_update_task (i : nat)
    (f : UploadHelper.UploadPartTask -> UploadHelper.UploadPartTask) (s : UploadHelper.State) :
  (forall t, UploadHelper.req (f t) = UploadHelper.req t) ->
  (forall t, nth_error (UploadHelper.bg_tasks s) i = Some t ->
             UploadHelper.task_on_course etag_of t ->
             UploadHelper.task_on_course etag_of (f t) /\
             (UploadHelper.stage t = UploadHelper.Returned ->
              UploadHelper.stage (f t) = UploadHelper.Returned)) ->
  UploadHelper.pool_step etag_of s (UploadHelper.update_task i f s).
Proof.
  intros Hreq Hf (Hsched & Hab & Htags & Hall).
  split; [|split].
  - repeat split; try assumption. cbn.
    apply Forall_update_nth; [|exact Hall]. intros t Ht Hc. apply (Hf t Ht Hc).
  - unfold UploadHelper.plan. cbn. rewrite map_update_nth by exact Hreq. reflexivity.
  - intros j (t & Ht & Hst). unfold UploadHelper.returned. cbn.
    destruct (Nat.eq_dec i j) as [->|Hij].
    + exists (f t). rewrite update_nth_same, Ht. split; [reflexivity|].
      rewrite Forall_forall in Hall. apply (Hf t Ht); [|exact Hst].
      apply Hall. exact (nth_error_In _ _ Ht).
    + exists t. rewrite update_nth_other by exact Hij. split; assumption.
Qed.

Lemma pool_step_same (s s' : UploadHelper.State) :
  UploadHelper.config s' = UploadHelper.config s ->
  UploadHelper.normal_part_size s' = UploadHelper.normal_part_size s ->
  UploadHelper.multipart_upload_id s' = UploadHelper.multipart_upload_id s ->
  UploadHelper.multipart_upload_aborted s' = UploadHelper.multipart_upload_aborted s ->
  UploadHelper.part_tags s' = UploadHelper.part_tags s ->
  UploadHelper.bg_tasks s' = UploadHelper.bg_tasks s ->
  UploadHelper.pool_step etag_of s s'.
Proof.
  intros Hc Hn Hid Hab Htags Htasks (H1 & H2 & H3 & H4).
  split; [|split].
  - unfold UploadHelper.on_course. rewrite Hc, Hab, Htags, Htasks. repeat split; assumption.
  - unfold UploadHelper.plan. rewrite Hc, Hn, Hid, Htasks. reflexivity.
  - unfold UploadHelper.returned. rewrite Htasks. intros i Hi. exact Hi.
Qed.

Lemma pool_step_task_finish_notify (i : nat) (s : UploadHelper.State) :
  (forall t, nth_error (UploadHelper.bg_tasks s) i = Some t ->
             UploadHelper.task_on_course etag_of (UploadHelper.finished t)) ->
  UploadHelper.pool_step etag_of s (UploadHelper.task_finish_notify i s).
Proof.
  intros Hf. unfold UploadHelper.task_finish_notify.
  eapply pool_step_trans; [|apply pool_step_same; reflexivity].
  apply pool_step_update_task; [reflexivity|].
  intros t Ht _. split; [apply Hf; exact Ht|reflexivity].
Qed.

Lemma copy_task_begins_pool_step (i : nat) :
  returning (UploadHelper.pool_step etag_of) (UploadHelper.task_begins i).
Proof.
  intros s u s' H. unfold UploadHelper.task_begins in H.
  destruct (nth_error _ _) as [task|] eqn:Hnth; [|ok_inv H; apply pool_step_refl].
  destruct (UploadHelper.stage task) eqn:Hst; try (ok_inv H; apply pool_step_refl).
  intros Hs. pose proof Hs as (_ & Hab & _ & _). rewrite Hab in H. ok_inv H.
  revert Hs. apply pool_step_update_task; [reflexivity|].
  intros t Ht (He & Hn & r & Hr & Hup & Htag). split.
  - split; [exact He|]. split; [discriminate|]. exists r. repeat split; try assumption.
    cbn. discriminate.
  - intros Hret. rewrite Hnth in Ht. ok_inv Ht. congruence.
Qed.

Lemma copy_task_ends_pool_step (i : nat) :
  returning (UploadHelper.pool_step etag_of) (UploadHelper.task_ends client i).
Proof.
  intros s u s' H. unfold UploadHelper.task_ends in H.
  destruct (nth_error _ _) as [task|] eqn:Hnth; [|ok_inv H; apply pool_step_refl].
  destruct (UploadHelper.stage task) eqn:Hst; try (ok_inv H; apply pool_step_refl).
  intros Hs. pose proof Hs as (_ & _ & _ & Hall).
  rewrite Forall_forall in Hall.
  destruct (Hall task (nth_error_In _ _ Hnth)) as (He & Hn & r & Hr & Hup & Htag).
  unfold UploadHelper.processUploadTask_request, UploadHelper.processUploadPartRequest,
    UploadHelper.send, bind, gets in H.
  rewrite Hr, (client_accepts _ r Hup) in H.
  cbn [ret UploadHelper.tag UploadHelper.with_tag] in H. ok_inv H.
  revert Hs.
  match goal with
  | |- _ -> UploadHelper.on_course _
              (UploadHelper.task_finish_notify _ (UploadHelper.update_task _ ?f ?s1)) /\ _ =>
      apply (pool_step_trans s s1); [apply pool_step_same; reflexivity|];
      apply (pool_step_trans s1 (UploadHelper.update_task i f s1))
  end.
  - apply pool_step_update_task; [reflexivity|].
    intros t Ht Hc. cbn [UploadHelper.bg_tasks UploadHelper.set_trace] in Ht.
    rewrite Hnth in Ht. ok_inv Ht. split.
    + split; [exact He|]. split; [exact Hn|]. exists r. repeat split; try assumption.
    + cbn. congruence.
  - apply pool_step_task_finish_notify.
    intros t Ht. cbn in Ht. rewrite update_nth_same, Hnth in Ht. cbn in Ht. ok_inv Ht.
    split; [exact He|]. split; [discriminate|]. exists r. repeat split; assumption.
Qed.

Ltac pool_step_tac :=
  return_with pool_step_refl pool_step_trans;
  try solve [ apply pool_step_same; reflexivity | assumption ].

Lemma copy_pool_events_pool_step (evs : list UploadHelper.PoolEvent) :
  returning (UploadHelper.pool_step etag_of) (UploadHelper.pool_events client evs).
Proof.
  induction evs as [|ev evs IH]; cbn [UploadHelper.pool_events]; pool_step_tac.
  destruct ev; [apply copy_task_begins_pool_step|apply copy_task_ends_pool_step].
Qed.

Lemma copy_pool_turn_pool_step :
  returning (UploadHelper.pool_step etag_of) (UploadHelper.pool_turn client).
Proof. unfold UploadHelper.pool_turn. pool_step_tac. apply copy_pool_events_pool_step. Qed.

(** A task that is on course has returned once its closure has run. *)
Lemma copy_task_runs_returned (i : nat) (s s1 s' : UploadHelper.State) :
  UploadHelper.on_course etag_of s ->
  (i < List.length (UploadHelper.bg_tasks s))%nat ->
  UploadHelper.task_begins i s = Ok tt s1 ->
  UploadHelper.task_ends client i s1 = Ok tt s' ->
  UploadHelper.pool_step etag_of s s' /\ UploadHelper.returned s' i.
Proof.
  intros Hs Hi H1 H2.
  pose proof (copy_task_begins_pool_step _ _ _ _ H1) as P1.
  pose proof (copy_task_ends_pool_step _ _ _ _ H2) as P2.
  split; [exact (pool_step_trans _ _ _ P1 P2)|].
  destruct (P1 Hs) as (Hs1 & _ & Hr1). destruct (P2 Hs1) as (_ & _ & Hr2).
  destruct (nth_error (UploadHelper.bg_tasks s) i) as [task|] eqn:Hnth;
    [|apply nth_error_None in Hnth; lia].
  pose proof Hs as (_ & Hab & _ & Hall). rewrite Forall_forall in Hall.
  destruct (Hall task (nth_error_In _ _ Hnth)) as (He & Hn & r & Hr & Hup & Htag).
  unfold UploadHelper.task_begins in H1. rewrite Hnth, Hab in H1.
  destruct (UploadHelper.stage task) eqn:Hst.
  - congruence.
  - (* queued: the closure starts, then ends *)
    ok_inv H1. unfold UploadHelper.task_ends in H2. cbn in H2.
    rewrite update_nth_same, Hnth in H2. cbn in H2.
    unfold UploadHelper.processUploadTask_request, UploadHelper.processUploadPartRequest,
      UploadHelper.send, bind, gets in H2.
    cbn in H2. rewrite Hr, (client_accepts _ r Hup) in H2. cbn in H2. ok_inv H2.
    unfold UploadHelper.returned. cbn. rewrite !update_nth_same, Hnth. cbn.
    eexists. split; reflexivity.
  - (* the request was sent already *)
    ok_inv H1. unfold UploadHelper.task_ends in H2. rewrite Hnth, Hst in H2.
    unfold UploadHelper.processUploadTask_request, UploadHelper.processUploadPartRequest,
      UploadHelper.send, bind, gets in H2.
    rewrite Hr, (client_accepts _ r Hup) in H2. cbn in H2. ok_inv H2.
    unfold UploadHelper.returned. cbn. rewrite !update_nth_same, Hnth. cbn.
    eexists. split; reflexivity.
  - apply Hr2, Hr1. exists task. split; assumption.
Qed.

Lemma copy_pool_finish_returned (indices : list nat) :
  forall s s',
  UploadHelper.on_course etag_of s ->
  Forall (fun i => (i < List.length (UploadHelper.bg_tasks s))%nat) indices ->
  UploadHelper.pool_finish client indices s = Ok tt s' ->
  UploadHelper.pool_step etag_of s s' /\
  Forall (UploadHelper.returned s') indices.
Proof.
  induction indices as [|i indices IH]; intros s s' Hs Hlt H; cbn [UploadHelper.pool_finish] in H.
  - ok_inv H. split; [apply pool_step_refl|constructor].
  - inversion Hlt as [|? ? Hi Hrest]; subst.
    apply bind_ok in H. destruct H as ([] & s0 & H0 & H).
    apply bind_ok in H. destruct H as ([] & s1 & H1 & H2).
    destruct (copy_task_runs_returned i s s0 s1 Hs Hi H0 H1) as (P1 & Hret).
    destruct (P1 Hs) as (Hs1 & Hplan & _).
    assert (Hlen : List.length (UploadHelper.bg_tasks s1) = List.length (UploadHelper.bg_tasks s)).
    { unfold UploadHelper.plan in Hplan. injection Hplan as _ _ _ Hm.
      rewrite <- (length_map UploadHelper.req), Hm, length_map. reflexivity. }
    destruct (IH s1 s' Hs1) as (P2 & Hall); [rewrite Hlen; exact Hrest|exact H2|].
    split; [exact (pool_step_trans _ _ _ P1 P2)|].
    constructor; [|exact Hall]. destruct (P2 Hs1) as (_ & _ & Hkeep). apply Hkeep, Hret.
Qed.

Lemma plan_length (s s' : UploadHelper.State) :
  UploadHelper.plan s' = UploadHelper.plan s ->
  List.length (UploadHelper.bg_tasks s') = List.length (UploadHelper.bg_tasks s).
Proof.
  unfold UploadHelper.plan. intros H. injection H as _ _ _ Hm.
  rewrite <- (length_map UploadHelper.req), Hm, length_map. reflexivity.
Qed.

(** When the wait is over every task has returned. *)
Lemma copy_condvar_wait_returned (s s' : UploadHelper.State) :
  UploadHelper.on_course etag_of s ->
  UploadHelper.condvar_wait client s = Ok tt s' ->
  UploadHelper.on_course etag_of s' /\ UploadHelper.plan s' = UploadHelper.plan s /\
  Forall (fun t => UploadHelper.stage t = UploadHelper.Returned) (UploadHelper.bg_tasks s').
Proof.
  intros Hs H. unfold UploadHelper.condvar_wait in H.
  apply bind_ok in H. destruct H as ([] & s1 & H1 & H).
  cbn [bind gets] in H.
  apply bind_ok in H. destruct H as ([] & s2 & H2 & H).
  cbn [bind gets] in H.
  assert (Hs' : s' = s2).
  { destruct (_ =? _); [ok_inv H; reflexivity|discriminate]. }
  subst s'. clear H.
  destruct (copy_pool_turn_pool_step _ _ _ H1 Hs) as (Hs1 & Hp1 & _).
  destruct (copy_pool_finish_returned
              (seq 0 (List.length (UploadHelper.bg_tasks s1))) s1 s2 Hs1) as (P2 & Hret);
    [apply Forall_forall; intros i Hi; apply in_seq in Hi; lia|exact H2|].
  destruct (P2 Hs1) as (Hs2 & Hp2 & _).
  split; [exact Hs2|]. split; [congruence|].
  apply Forall_forall. intros t Hin. apply In_nth_error in Hin. destruct Hin as [i Hi].
  rewrite Forall_forall in Hret.
  destruct (Hret i) as (t' & Ht' & Hst).
  - apply in_seq. split; [lia|]. cbn.
    rewrite <- (plan_length _ _ Hp2). apply nth_error_Some. congruence.
  - congruence.
Qed.

(** The tags are collected in the order of the tasks. *)
Lemma copy_collect_tags_planned (tasks : list UploadHelper.UploadPartTask) :
  forall s s',
  Forall (UploadHelper.task_on_course etag_of) tasks ->
  Forall (fun t => UploadHelper.stage t = UploadHelper.Returned) tasks ->
  UploadHelper.collect_tags client tasks s = Ok tt s' ->
  s' = UploadHelper.set_part_tags
         (UploadHelper.part_tags s
          ++ UploadHelper.planned_tags etag_of (map UploadHelper.req tasks)) s.
Proof.
  induction tasks as [|t tasks IH]; intros s s' Hall Hret H; cbn [UploadHelper.collect_tags] in H.
  - ok_inv H. cbn. rewrite app_nil_r. destruct s'; reflexivity.
  - inversion Hall as [|? ? (He & _ & r & Hr & _ & Htag) Hall']; subst.
    inversion Hret as [|? ? Hst Hret']; subst.
    rewrite He in H. cbn [bind modify] in H.
    rewrite (IH _ _ Hall' Hret' H). cbn. rewrite Hr, (Htag Hst), <- app_assoc. reflexivity.
Qed.

Lemma copy_waitForAllBackGroundTasks_planned (s s' : UploadHelper.State) :
  UploadHelper.on_course etag_of s ->
  UploadHelper.waitForAllBackGroundTasks client s = Ok tt s' ->
  UploadHelper.part_tags s'
  = UploadHelper.planned_tags etag_of (map UploadHelper.req (UploadHelper.bg_tasks s)) /\
  UploadHelper.plan s' = UploadHelper.plan s.
Proof.
  intros Hs H. unfold UploadHelper.waitForAllBackGroundTasks in H.
  cbn [bind gets] in H. pose proof Hs as (Hsched & _). rewrite Hsched in H. cbn [negb] in H.
  apply bind_ok in H. destruct H as ([] & s1 & H1 & H). cbn [bind gets] in H.
  destruct (copy_condvar_wait_returned _ _ Hs H1) as (Hs1 & Hp1 & Hret).
  pose proof Hs1 as (_ & _ & Htags & Hall).
  rewrite (copy_collect_tags_planned _ _ _ Hall Hret H).
  unfold UploadHelper.plan in *. cbn. rewrite Htags. cbn [app].
  injection Hp1 as Hc Hn Hid Hm. rewrite Hm. split; [reflexivity|]. congruence.
Qed.

Hypothesis create_is_stateless :
  forall history,
    client history CreateMultipartUploadRequest = client [] CreateMultipartUploadRequest.

Lemma alike_sym (s1 s2 : UploadHelper.State) :
  UploadHelper.alike etag_of s1 s2 -> UploadHelper.alike etag_of s2 s1.
Proof. intros (H1 & H2 & Hp). split; [exact H2|]. split; [exact H1|]. symmetry. exact Hp. Qed.

Lemma alike_pool_step (s1 s2 s1' : UploadHelper.State) :
  UploadHelper.alike etag_of s1 s2 -> UploadHelper.pool_step etag_of s1 s1' ->
  UploadHelper.alike etag_of s1' s2.
Proof.
  intros (H1 & H2 & Hp) Hstep. destruct (Hstep H1) as (H1' & Hp' & _).
  split; [exact H1'|]. split; [exact H2|]. congruence.
Qed.

Lemma agrees_of_pool_step (c : M UploadHelper.State unit) :
  returning (UploadHelper.pool_step etag_of) c -> agrees (UploadHelper.alike etag_of) c.
Proof. apply agrees_of_returning; [exact alike_sym|exact alike_pool_step]. Qed.

Lemma update_nth_app_last {A} (f : A -> A) (l : list A) (x : A) :
  UploadHelper.update_nth (List.length l) f (l ++ [x]) = l ++ [f x].
Proof. induction l as [|y l IH]; cbn; [reflexivity|]. rewrite IH. reflexivity. Qed.

(** The request of a part is made from the class of the helper, the upload
    and the numbers of the part. *)
Lemma copy_fillUploadPartRequest_returns (part_number part_offset part_size : Z)
    (s : UploadHelper.State) :
  exists r,
    is_upload r = true /\ part_number_of r = static_cast_int part_number /\
    forall s2,
      UploadHelper.config s2 = UploadHelper.config s ->
      UploadHelper.multipart_upload_id s2 = UploadHelper.multipart_upload_id s ->
      UploadHelper.fillUploadPartRequest part_number part_offset part_size s2 = Ok r s2.
Proof.
  unfold UploadHelper.fillUploadPartRequest. cbn [bind gets].
  destruct (UploadHelper.helper_class (UploadHelper.config s)) eqn:Hcls;
    eexists; (split; [|split; [|intros s2 Hc Hid; rewrite Hc, Hcls, Hid; reflexivity]]);
    reflexivity.
Qed.

(** With a thread pool [uploadPart] queues the part and hands over. *)
Lemma copy_uploadPart_scheduled (part_number part_offset part_size : Z) (r : Request)
    (s : UploadHelper.State) :
  UploadHelper.schedule (UploadHelper.config s) = true ->
  part_size <> 0 ->
  (forall s2,
     UploadHelper.config s2 = UploadHelper.config s ->
     UploadHelper.multipart_upload_id s2 = UploadHelper.multipart_upload_id s ->
     UploadHelper.fillUploadPartRequest part_number part_offset part_size s2 = Ok r s2) ->
  UploadHelper.uploadPart client part_number part_offset part_size s
  = UploadHelper.pool_turn client (UploadHelper.enqueue r s).
Proof.
  intros Hsched Hsize Hfill. unfold UploadHelper.uploadPart.
  destruct (Z.eqb_spec part_size 0) as [|_]; [contradiction|].
  cbn [bind gets]. rewrite Hsched. cbn [bind gets modify].
  unfold try_rethrow, bind at 1. unfold bind at 1.
  rewrite Hfill by reflexivity. cbn [modify].
  unfold UploadHelper.update_task. cbn.
  unfold UploadHelper.enqueue, UploadHelper.queued.
  rewrite !update_nth_app_last. reflexivity.
Qed.

Lemma alike_enqueue (r : Request) (s1 s2 : UploadHelper.State) :
  is_upload r = true ->
  UploadHelper.alike etag_of s1 s2 ->
  UploadHelper.alike etag_of (UploadHelper.enqueue r s1) (UploadHelper.enqueue r s2).
Proof.
  intros Hup (H1 & H2 & Hp).
  assert (Hqueue : forall s, UploadHelper.on_course etag_of s ->
                             UploadHelper.on_course etag_of (UploadHelper.enqueue r s)).
  { intros s (Hsched & Hab & Htags & Hall). repeat split; try assumption. cbn.
    apply Forall_app. split; [exact Hall|]. constructor; [|constructor].
    split; [reflexivity|]. split; [discriminate|]. exists r. repeat split; [exact Hup|].
    discriminate. }
  split; [apply Hqueue; exact H1|]. split; [apply Hqueue; exact H2|].
  unfold UploadHelper.plan in *. cbn. injection Hp as Hc Hn Hid Hm.
  rewrite !map_app, Hc, Hn, Hid, Hm. reflexivity.
Qed.

Lemma copy_uploadPart_agrees (part_number part_offset part_size : Z) :
  agrees (UploadHelper.alike etag_of)
    (UploadHelper.uploadPart client part_number part_offset part_size).
Proof.
  destruct (Z.eq_dec part_size 0) as [->|Hsize].
  - unfold UploadHelper.uploadPart. cbn [Z.eqb]. apply agrees_of_pool_step.
    intros s u s' H. ok_inv H. apply pool_step_same; reflexivity.
  - intros s1 s2 a1 a2 s1' s2' Hlike H1 H2.
    pose proof Hlike as ((Hsched1 & _) & (Hsched2 & _) & Hp).
    destruct (copy_fillUploadPartRequest_returns part_number part_offset part_size s1)
      as (r & Hup & _ & Hfill).
    unfold UploadHelper.plan in Hp. injection Hp as Hc _ Hid _.
    rewrite (copy_uploadPart_scheduled _ _ _ r s1 Hsched1 Hsize Hfill) in H1.
    rewrite (copy_uploadPart_scheduled _ _ _ r s2 Hsched2 Hsize) in H2.
    + exact (agrees_of_pool_step _ copy_pool_turn_pool_step _ _ _ _ _ _
               (alike_enqueue r s1 s2 Hup Hlike) H1 H2).
    + intros s3 Hc3 Hid3. apply Hfill; congruence.
Qed.

Lemma alike_plan (s1 s2 : UploadHelper.State) :
  UploadHelper.alike etag_of s1 s2 ->
  UploadHelper.config s1 = UploadHelper.config s2 /\
  UploadHelper.normal_part_size s1 = UploadHelper.normal_part_size s2 /\
  UploadHelper.multipart_upload_id s1 = UploadHelper.multipart_upload_id s2 /\
  UploadHelper.multipart_upload_aborted s1 = UploadHelper.multipart_upload_aborted s2.
Proof.
  intros ((_ & Ha1 & _) & (_ & Ha2 & _) & Hp). unfold UploadHelper.plan in Hp.
  injection Hp as Hc Hn Hid _. repeat split; congruence.
Qed.

Lemma copy_upload_parts_loop_agrees (fuel : nat) :
  forall part_number position end_position,
  agrees (UploadHelper.alike etag_of)
    (UploadHelper.upload_parts_loop client fuel part_number position end_position).
Proof.
  induction fuel as [|fuel IH]; intros part_number position end_position;
    cbn [UploadHelper.upload_parts_loop]; agrees_tac;
    try (apply agrees_gets; intros s1 s2 Hlike; apply (alike_plan _ _ Hlike)).
  - apply copy_uploadPart_agrees.
  - apply IH.
Qed.

Lemma alike_set_normal_part_size (x : Z) (s1 s2 : UploadHelper.State) :
  UploadHelper.alike etag_of s1 s2 ->
  UploadHelper.alike etag_of (UploadHelper.set_normal_part_size x s1)
    (UploadHelper.set_normal_part_size x s2).
Proof.
  intros (H1 & H2 & Hp). split; [exact H1|]. split; [exact H2|].
  unfold UploadHelper.plan in *. cbn. injection Hp as Hc _ Hid Hm. congruence.
Qed.

(** The size of the parts is computed from the configuration alone. *)
Lemma copy_calculatePartSize_agrees (total_size : Z) :
  agrees (UploadHelper.alike etag_of) (UploadHelper.calculatePartSize total_size).
Proof.
  intros s1 s2 [] [] s1' s2' Hlike H1 H2. split; [reflexivity|].
  destruct (alike_plan _ _ Hlike) as (Hc & _).
  unfold UploadHelper.calculatePartSize in H1, H2. rewrite <- Hc in H2.
  cbv zeta in H1, H2.
  repeat match type of H1 with
         | context [if ?b then _ else _] =>
             destruct b; try discriminate H1
         end;
    ok_inv H1; ok_inv H2; apply alike_set_normal_part_size; exact Hlike.
Qed.

Lemma copy_createMultipartUpload_agrees :
  agrees (UploadHelper.alike etag_of) (UploadHelper.createMultipartUpload client).
Proof.
  intros s1 s2 [] [] s1' s2' Hlike H1 H2. split; [reflexivity|].
  unfold UploadHelper.createMultipartUpload, UploadHelper.send, bind in H1, H2.
  rewrite create_is_stateless in H1, H2.
  destruct (client [] CreateMultipartUploadRequest) as [upload_id|e]; [|discriminate].
  cbn [modify] in H1, H2. ok_inv H1. ok_inv H2.
  destruct Hlike as (C1 & C2 & Hp). split; [exact C1|]. split; [exact C2|].
  unfold UploadHelper.plan in *. cbn. injection Hp as Hc Hn _ Hm. congruence.
Qed.

Lemma copy_completeMultipartUpload_tags :
  preserves (keeps UploadHelper.part_tags) (UploadHelper.completeMultipartUpload client).
Proof.
  assert (Hloop : forall fuel retries max_retries request,
             preserves (keeps UploadHelper.part_tags)
               (UploadHelper.complete_retry_loop client fuel retries max_retries request)).
  { induction fuel as [|fuel IH]; intros retries max_retries request;
      cbn [UploadHelper.complete_retry_loop];
      keeps_tac; try solve [reflexivity | intros ?; reflexivity | apply IH]. }
  unfold UploadHelper.completeMultipartUpload.
  keeps_tac; try solve [reflexivity | intros ?; reflexivity | apply Hloop].
Qed.

(** Two uploads with the same plan that both return have collected the same
    tags: those of the planned parts, in the order of the plan. *)
Lemma copy_performMultipartUpload_alike (start_offset size : Z)
    (s1 s2 s1' s2' : UploadHelper.State) :
  UploadHelper.alike etag_of s1 s2 ->
  UploadHelper.performMultipartUpload client start_offset size s1 = Ok tt s1' ->
  UploadHelper.performMultipartUpload client start_offset size s2 = Ok tt s2' ->
  UploadHelper.part_tags s1' = UploadHelper.part_tags s2' /\
  UploadHelper.part_tags s1'
  = UploadHelper.planned_tags etag_of (map UploadHelper.req (UploadHelper.bg_tasks s1')).
Proof.
  intros Hlike H1 H2. unfold UploadHelper.performMultipartUpload in H1, H2.
  apply bind_ok in H1. destruct H1 as ([] & a1 & Ha1 & H1).
  apply bind_ok in H2. destruct H2 as ([] & a2 & Ha2 & H2).
  destruct (copy_calculatePartSize_agrees _ _ _ _ _ _ _ Hlike Ha1 Ha2) as (_ & Hlike_a).
  apply bind_ok in H1. destruct H1 as ([] & b1 & Hb1 & H1).
  apply bind_ok in H2. destruct H2 as ([] & b2 & Hb2 & H2).
  destruct (copy_createMultipartUpload_agrees _ _ _ _ _ _ Hlike_a Hb1 Hb2) as (_ & Hlike_b).
  cbn [bind gets] in H1, H2.
  destruct (alike_plan _ _ Hlike_b) as (_ & Hn & _). rewrite <- Hn in H2.
  apply bind_ok in H1. destruct H1 as ([] & c1 & Hc1 & H1).
  apply bind_ok in H2. destruct H2 as ([] & c2 & Hc2 & H2).
  destruct (copy_upload_parts_loop_agrees _ _ _ _ _ _ _ _ _ _ Hlike_b Hc1 Hc2)
    as (_ & (C1 & C2 & Hp)).
  apply bind_ok in H1. destruct H1 as ([] & d1 & Hd1 & H1).
  apply bind_ok in H2. destruct H2 as ([] & d2 & Hd2 & H2).
  destruct (copy_waitForAllBackGroundTasks_planned _ _ C1 Hd1) as (T1 & P1).
  destruct (copy_waitForAllBackGroundTasks_planned _ _ C2 Hd2) as (T2 & P2).
  pose proof (copy_completeMultipartUpload_tags d1) as K1. rewrite H1 in K1.
  pose proof (copy_completeMultipartUpload_tags d2) as K2. rewrite H2 in K2.
  pose proof (copy_completeMultipartUpload_tasks client d1) as B1. rewrite H1 in B1.
  cbn [final_state] in K1, K2, B1. unfold keeps in K1, K2, B1.
  rewrite K1, K2, T1, T2, B1.
  unfold UploadHelper.plan in Hp, P1. injection Hp as _ _ _ Hm. injection P1 as _ _ _ Hm1.
  rewrite Hm1. split; [rewrite Hm; reflexivity|reflexivity].
Qed.

End CopyOrder.

(** ** The numbers of the parts *)

Lemma in_part_number_order_nil : in_part_number_order [].
Proof. split; [constructor|]. intros [|i] r H; discriminate. Qed.

Lemma in_part_number_order_app (reqs : list Request) (r : Request) :
  in_part_number_order reqs ->
  is_upload r = true ->
  part_number_of r = static_cast_int (Z.of_nat (List.length reqs) + 1) ->
  in_part_number_order (reqs ++ [r]).
Proof.
  intros (Hup & Hnum) Hr Hn. split.
  - apply Forall_app. split; [exact Hup|]. constructor; [exact Hr|constructor].
  - intros i x Hi.
    destruct (Nat.lt_ge_cases i (List.length reqs)) as [Hlt|Hge].
    + rewrite nth_error_app1 in Hi by exact Hlt. apply Hnum. exact Hi.
    + rewrite nth_error_app2 in Hi by exact Hge.
      destruct (i - List.length reqs)%nat as [|k] eqn:Hk; [|destruct k; discriminate].
      cbn in Hi. ok_inv Hi. replace i with (List.length reqs) by lia. exact Hn.
Qed.

(** The part that [upload_parts_loop] cuts off is not empty. *)
Lemma part_size_not_zero (position end_position normal : Z) :
  is_size_t position -> is_size_t end_position -> 0 < normal < SIZE_MODULUS ->
  position < end_position ->
  wrap (std_min (wrap (position + normal)) end_position - position) <> 0.
Proof.
  unfold is_size_t, std_min, wrap, SIZE_MODULUS. intros Hp He Hn Hlt.
  destruct (Z.ltb_spec end_position ((position + normal) mod 2 ^ 64)) as [_|Hle].
  - rewrite Z.mod_small by lia. lia.
  - rewrite Zminus_mod_idemp_l.
    replace (position + normal - position) with normal by lia.
    rewrite Z.mod_small by lia. lia.
Qed.

Section CopyNumbers.

Variable client : Client.
Variable etag_of : Request -> string.

Hypothesis client_accepts :
  forall history r, is_upload r = true -> client history r = Success (etag_of r).

Lemma copy_upload_parts_loop_numbered (fuel : nat) :
  forall part_number position end_position s s' reqs,
  UploadHelper.on_course etag_of s ->
  map UploadHelper.req (UploadHelper.bg_tasks s) = map Some reqs ->
  in_part_number_order reqs ->
  part_number = wrap (Z.of_nat (List.length reqs) + 1) ->
  Z.of_nat (List.length reqs) + Z.of_nat fuel < SIZE_MODULUS ->
  0 < UploadHelper.normal_part_size s < SIZE_MODULUS ->
  is_size_t position -> is_size_t end_position ->
  UploadHelper.upload_parts_loop client fuel part_number position end_position s = Ok tt s' ->
  exists reqs',
    UploadHelper.on_course etag_of s' /\
    map UploadHelper.req (UploadHelper.bg_tasks s') = map Some reqs' /\
    in_part_number_order reqs'.
Proof.
  induction fuel as [|fuel IH];
    intros part_number position end_position s s' reqs Hs Hreqs Hord Hpn Hfuel Hnormal Hpos Hend H;
    cbn [UploadHelper.upload_parts_loop] in H;
    destruct (Z.ltb_spec position end_position) as [Hlt|Hge];
    cbv beta iota in H;
    try discriminate;
    try (ok_inv H; exists reqs; split; [assumption|split; assumption]).
  cbn [bind gets] in H. pose proof Hs as (Hsched & Hab & _). rewrite Hab in H.
  cbn [bind gets] in H.
  apply bind_ok in H. destruct H as ([] & s1 & H1 & H2).
  match type of H1 with
  | UploadHelper.uploadPart _ _ _ ?size _ = _ =>
      destruct (copy_fillUploadPartRequest_returns part_number position size s)
        as (r & Hup & Hnum & Hfill)
  end.
  rewrite (copy_uploadPart_scheduled client _ _ _ r s Hsched
             (part_size_not_zero _ _ _ Hpos Hend Hnormal Hlt) Hfill) in H1.
  assert (Hqueue : UploadHelper.alike etag_of (UploadHelper.enqueue r s)
                     (UploadHelper.enqueue r s)).
  { apply alike_enqueue; [exact Hup|]. split; [exact Hs|]. split; [exact Hs|reflexivity]. }
  destruct Hqueue as (Hq & _).
  destruct (copy_pool_turn_pool_step client etag_of client_accepts _ _ _ H1 Hq)
    as (Hs1 & Hp1 & _).
  unfold UploadHelper.plan in Hp1. cbn in Hp1. injection Hp1 as _ Hn1 _ Hm1.
  apply (IH _ _ _ s1 s' (reqs ++ [r])) in H2; try assumption.
  - rewrite Hm1, !map_app, Hreqs. reflexivity.
  - apply in_part_number_order_app; [exact Hord|exact Hup|]. rewrite Hnum, Hpn.
    rewrite wrap_small by (unfold is_size_t; lia). reflexivity.
  - rewrite length_app, Hpn. cbn [List.length].
    rewrite (wrap_small (Z.of_nat (List.length reqs) + 1)) by (unfold is_size_t; lia).
    f_equal. lia.
  - rewrite length_app. cbn [List.length]. lia.
  - rewrite Hn1. exact Hnormal.
  - unfold std_min. destruct (_ <? _); [exact Hend|apply wrap_range].
Qed.

Lemma planned_tags_some (reqs : list Request) :
  UploadHelper.planned_tags etag_of (map Some reqs) = map etag_of reqs.
Proof. unfold UploadHelper.planned_tags. rewrite map_map. reflexivity. Qed.

(** The tags that a multipart upload with a thread pool has collected when
    it returns are those of part requests numbered 1, 2, 3, ... *)
Lemma copy_performMultipartUpload_numbered (cfg : UploadHelper.Config)
    (script : list (list UploadHelper.PoolEvent)) (start_offset size : Z)
    (s' : UploadHelper.State) :
  UploadHelper.schedule cfg = true ->
  is_size_t start_offset -> is_size_t size -> settings_in_range (UploadHelper.settings cfg) ->
  UploadHelper.performMultipartUpload client start_offset size
    (UploadHelper.construct cfg script) = Ok tt s' ->
  exists reqs, in_part_number_order reqs /\ UploadHelper.part_tags s' = map etag_of reqs.
Proof.
  intros Hsched Hstart Hsize Hrange H. unfold UploadHelper.performMultipartUpload in H.
  apply bind_ok in H. destruct H as ([] & a & Ha & H).
  destruct (calculatePartSize_returns (UploadHelper.construct cfg script) a size Hsize Hrange Ha)
    as (Hah & _ & Hlo & Hhi & Hparts).
  apply bind_ok in H. destruct H as ([] & b & Hb & H).
  assert (Hbh : exists upload_id t,
             b = UploadHelper.set_multipart_upload_id upload_id (UploadHelper.set_trace t a)).
  { unfold UploadHelper.createMultipartUpload, UploadHelper.send, bind in Hb.
    destruct (client _ _) as [upload_id|e]; [|discriminate].
    cbn [modify] in Hb. ok_inv Hb. eexists. eexists. reflexivity. }
  destruct Hbh as (upload_id & t & Hbh).
  cbn [bind gets] in H.
  apply bind_ok in H. destruct H as ([] & c & Hc & H).
  apply bind_ok in H. destruct H as ([] & d & Hd & H).
  assert (Hn : UploadHelper.normal_part_size b = UploadHelper.normal_part_size a)
    by (rewrite Hbh; reflexivity).
  assert (Hcourse : UploadHelper.on_course etag_of b).
  { rewrite Hbh, Hah. repeat split; try assumption. constructor. }
  assert (Htasks : map UploadHelper.req (UploadHelper.bg_tasks b) = map Some []).
  { rewrite Hbh, Hah. reflexivity. }
  destruct Hrange as (_ & Hmax & _ & _ & Hmpn & _).
  cbn [UploadHelper.config UploadHelper.construct] in Hlo, Hhi, Hparts.
  apply (copy_upload_parts_loop_numbered _ _ _ _ _ _ [] Hcourse Htasks
           in_part_number_order_nil) in Hc.
  - destruct Hc as (reqs & Hc & Hreqs & Hord).
    exists reqs. split; [exact Hord|].
    destruct (copy_waitForAllBackGroundTasks_planned client etag_of client_accepts _ _ Hc Hd)
      as (Htags & _).
    pose proof (copy_completeMultipartUpload_tags client d) as K. rewrite H in K.
    cbn [final_state] in K. unfold keeps in K.
    rewrite K, Htags, Hreqs. apply planned_tags_some.
  - reflexivity.
  - cbn [List.length]. rewrite Hn. unfold is_size_t in Hmpn. lia.
  - rewrite Hn. unfold is_size_t in Hmax. lia.
  - exact Hstart.
  - apply wrap_range.
Qed.

End CopyNumbers.

(** ** The order of the tags of the streaming buffer *)

Lemma NoDup_map_eq {A B} (f : A -> B) (l : list A) (x y : A) :
  NoDup (map f l) -> In x l -> In y l -> f x = f y -> x = y.
Proof.
  induction l as [|z l IH]; intros Hnd Hx Hy Hf; [destruct Hx|].
  cbn [map] in Hnd. inversion Hnd as [|? ? Hnotin Hnd']; subst.
  destruct Hx as [->|Hx], Hy as [->|Hy].
  - reflexivity.
  - exfalso. apply Hnotin. rewrite Hf. apply in_map. exact Hy.
  - exfalso. apply Hnotin. rewrite <- Hf. apply in_map. exact Hx.
  - apply IH; assumption.
Qed.

Section BufferQueue.

Variable client : Client.

Lemma buffer_send_queue_state (r : Request) :
  preserves (keeps WriteBufferFromS3.queue_state) (WriteBufferFromS3.send client r).
Proof. intros s. reflexivity. Qed.

Lemma buffer_LOG_queue_state (m : LogMessage) :
  preserves (keeps WriteBufferFromS3.queue_state) (WriteBufferFromS3.LOG m).
Proof. intros s. reflexivity. Qed.

Lemma buffer_complete_retry_loop_queue_state (fuel : nat) (i max_retry : Z) (request : Request) :
  preserves (keeps WriteBufferFromS3.queue_state)
    (WriteBufferFromS3.complete_retry_loop client fuel i max_retry request).
Proof.
  revert i. induction fuel as [|fuel IH]; intros i; cbn [WriteBufferFromS3.complete_retry_loop];
    keeps_tac;
    try solve [reflexivity | apply buffer_send_queue_state | apply buffer_LOG_queue_state
              | apply IH].
Qed.

Lemma buffer_processPutRequest_queue_state (task : WriteBufferFromS3.PutObjectTask) :
  preserves (keeps WriteBufferFromS3.queue_state)
    (WriteBufferFromS3.processPutRequest client task).
Proof.
  unfold WriteBufferFromS3.processPutRequest. keeps_tac.
  intros s. rewrite buffer_put_retry_loop_same. apply buffer_complete_retry_loop_queue_state.
Qed.

Lemma buffer_put_task_runs_queue_state :
  preserves (keeps WriteBufferFromS3.queue_state) (WriteBufferFromS3.put_task_runs client).
Proof.
  intros s. unfold WriteBufferFromS3.put_task_runs.
  destruct (WriteBufferFromS3.put_object_task s) as [task|]; [|reflexivity].
  destruct (WriteBufferFromS3.put_stage task); try reflexivity.
  pose proof (buffer_processPutRequest_queue_state task s) as H.
  destruct (WriteBufferFromS3.processPutRequest client task s); exact H.
Qed.

Lemma buffer_completeMultipartUpload_queue_state :
  preserves (keeps WriteBufferFromS3.queue_state)
    (WriteBufferFromS3.completeMultipartUpload client).
Proof.
  unfold WriteBufferFromS3.completeMultipartUpload. keeps_tac;
    try solve [reflexivity | apply buffer_complete_retry_loop_queue_state].
Qed.

Lemma buffer_checkObjectExists_queue_state :
  preserves (keeps WriteBufferFromS3.queue_state) (WriteBufferFromS3.checkObjectExists client).
Proof.
  unfold WriteBufferFromS3.checkObjectExists. keeps_tac;
    try solve [reflexivity | apply buffer_send_queue_state].
Qed.

End BufferQueue.

Section BufferOrder.

Variable client : Client.
Variable etag_of : Request -> string.

Hypothesis client_accepts :
  forall history r, is_upload r = true -> client history r = Success (etag_of r).

Lemma buffer_pool_step_refl (s : WriteBufferFromS3.State) :
  WriteBufferFromS3.pool_step etag_of s s.
Proof.
  intros H. split; [exact H|]. split; [reflexivity|]. split; [reflexivity|].
  intros i Hi. exact Hi.
Qed.

Lemma buffer_pool_step_trans (s1 s2 s3 : WriteBufferFromS3.State) :
  WriteBufferFromS3.pool_step etag_of s1 s2 -> WriteBufferFromS3.pool_step etag_of s2 s3 ->
  WriteBufferFromS3.pool_step etag_of s1 s3.
Proof.
  intros H12 H23 H1. destruct (H12 H1) as (H2 & Hp12 & Hi12 & Hr12).
  destruct (H23 H2) as (H3 & Hp23 & Hi23 & Hr23).
  split; [exact H3|]. split; [congruence|]. split; [congruence|].
  intros i Hi. apply Hr23, Hr12, Hi.
Qed.

(** A step that touches neither the queue nor what the calling thread
    keeps. *)
Lemma buffer_pool_step_same (s s' : WriteBufferFromS3.State) :
  keeps WriteBufferFromS3.queue_state s s' -> WriteBufferFromS3.pool_step etag_of s s'.
Proof.
  unfold keeps, WriteBufferFromS3.queue_state. intros H.
  assert (Hf : WriteBufferFromS3.front_end s' = WriteBufferFromS3.front_end s)
    by exact (f_equal (fun x => fst (fst (fst x))) H).
  assert (Htags : WriteBufferFromS3.part_tags s' = WriteBufferFromS3.part_tags s)
    by exact (f_equal (fun x => snd (fst (fst x))) H).
  assert (Hnum : WriteBufferFromS3.num_added_bg_tasks s' = WriteBufferFromS3.num_added_bg_tasks s)
    by exact (f_equal (fun x => snd (fst x)) H).
  assert (Htasks : WriteBufferFromS3.upload_object_tasks s'
                   = WriteBufferFromS3.upload_object_tasks s)
    by exact (f_equal snd H).
  intros (Hsched & Hall & Hnd & Hids).
  assert (Hc : WriteBufferFromS3.config s' = WriteBufferFromS3.config s)
    by apply (front_end_config s s' Hf).
  split; [|split; [|split]].
  - unfold WriteBufferFromS3.on_course. rewrite Hc, Htasks, Hnum.
    split; [exact Hsched|]. split; [exact Hall|]. split; [exact Hnd|exact Hids].
  - unfold WriteBufferFromS3.plan, WriteBufferFromS3.eventual_tags.
    rewrite Hf, Htags, Htasks. reflexivity.
  - rewrite Htasks. reflexivity.
  - unfold WriteBufferFromS3.returned. rewrite Htasks. intros i Hi. exact Hi.
Qed.

(** A change of the tasks with one identifier that keeps their requests and
    keeps them on course. *)
Lemma buffer_pool_step_update_task (id : Z)
    (f : WriteBufferFromS3.UploadPartTask -> WriteBufferFromS3.UploadPartTask)
    (s : WriteBufferFromS3.State) :
  (forall t, WriteBufferFromS3.task_id (f t) = WriteBufferFromS3.task_id t /\
             WriteBufferFromS3.req (f t) = WriteBufferFromS3.req t) ->
  (forall t, In t (WriteBufferFromS3.upload_object_tasks s) ->
             WriteBufferFromS3.task_id t = id ->
             WriteBufferFromS3.task_on_course etag_of t ->
             WriteBufferFromS3.task_on_course etag_of (f t) /\
             (WriteBufferFromS3.stage t = WriteBufferFromS3.Returned ->
              WriteBufferFromS3.stage (f t) = WriteBufferFromS3.Returned)) ->
  WriteBufferFromS3.pool_step etag_of s (WriteBufferFromS3.update_task id f s).
Proof.
  intros Hkeep Hf (Hsched & Hall & Hnd & Hids).
  set (g := fun t => if WriteBufferFromS3.task_id t =? id then f t else t).
  assert (Hid : forall t, WriteBufferFromS3.task_id (g t) = WriteBufferFromS3.task_id t).
  { intros t. unfold g. destruct (_ =? _); [apply Hkeep|reflexivity]. }
  assert (Hreq : forall t, WriteBufferFromS3.req (g t) = WriteBufferFromS3.req t).
  { intros t. unfold g. destruct (_ =? _); [apply Hkeep|reflexivity]. }
  assert (Hids' : map WriteBufferFromS3.task_id (map g (WriteBufferFromS3.upload_object_tasks s))
                  = map WriteBufferFromS3.task_id (WriteBufferFromS3.upload_object_tasks s)).
  { rewrite map_map. apply map_ext. exact Hid. }
  rewrite Forall_forall in Hall.
  split; [|split; [|split]].
  - split; [exact Hsched|]. cbn. fold g. split; [|split].
    + apply Forall_forall. intros t' Hin. apply in_map_iff in Hin.
      destruct Hin as (t & <- & Hin). unfold g.
      destruct (Z.eqb_spec (WriteBufferFromS3.task_id t) id) as [Heq|_].
      * apply (Hf t Hin Heq). apply Hall. exact Hin.
      * apply Hall. exact Hin.
    + rewrite Hids'. exact Hnd.
    + apply Forall_forall. intros t' Hin. apply in_map_iff in Hin.
      destruct Hin as (t & <- & Hin). rewrite Hid.
      rewrite Forall_forall in Hids. apply Hids. exact Hin.
  - unfold WriteBufferFromS3.plan, WriteBufferFromS3.eventual_tags. cbn. fold g.
    rewrite map_map. f_equal. f_equal. apply map_ext. intros t. rewrite Hreq. reflexivity.
  - cbn. fold g. exact Hids'.
  - intros i (t & Ht & Hst). unfold WriteBufferFromS3.returned. cbn. fold g.
    rewrite nth_error_map, Ht. cbn. exists (g t). split; [reflexivity|].
    unfold g. destruct (Z.eqb_spec (WriteBufferFromS3.task_id t) id) as [Heq|_]; [|exact Hst].
    apply nth_error_In in Ht. apply (Hf t Ht Heq); [apply Hall; exact Ht|exact Hst].
Qed.

Lemma buffer_update_task_twice (id : Z)
    (f g : WriteBufferFromS3.UploadPartTask -> WriteBufferFromS3.UploadPartTask)
    (s : WriteBufferFromS3.State) :
  (forall t, WriteBufferFromS3.task_id (f t) = WriteBufferFromS3.task_id t) ->
  WriteBufferFromS3.update_task id g (WriteBufferFromS3.update_task id f s)
  = WriteBufferFromS3.update_task id (fun t => g (f t)) s.
Proof.
  intros Hf. unfold WriteBufferFromS3.update_task. cbn. rewrite map_map.
  rewrite (map_ext _ (fun t => if WriteBufferFromS3.task_id t =? id then g (f t) else t));
    [reflexivity|].
  intros t. destruct (Z.eqb_spec (WriteBufferFromS3.task_id t) id) as [Heq|Hne].
  - rewrite Hf. destruct (Z.eqb_spec (WriteBufferFromS3.task_id t) id); [reflexivity|contradiction].
  - destruct (Z.eqb_spec (WriteBufferFromS3.task_id t) id); [contradiction|reflexivity].
Qed.

(** The closure of a task that is on course records the tag of its part. *)
Lemma buffer_upload_task_runs_pool_step (id : Z) (s s' : WriteBufferFromS3.State) :
  WriteBufferFromS3.on_course etag_of s ->
  WriteBufferFromS3.upload_task_runs client id s = Ok tt s' ->
  WriteBufferFromS3.pool_step etag_of s s' /\
  forall i t, nth_error (WriteBufferFromS3.upload_object_tasks s) i = Some t ->
              WriteBufferFromS3.task_id t = id -> WriteBufferFromS3.returned s' i.
Proof.
  intros Hs H. pose proof Hs as (_ & Hall & Hnd & _). rewrite Forall_forall in Hall.
  unfold WriteBufferFromS3.upload_task_runs in H.
  destruct (find _ _) as [task|] eqn:Hfind.
  - apply find_some in Hfind. destruct Hfind as (Hin & Hid). apply Z.eqb_eq in Hid.
    subst id.
    destruct (Hall task Hin) as (He & Hup & Hstage).
    assert (Hsame : forall t, In t (WriteBufferFromS3.upload_object_tasks s) ->
                              WriteBufferFromS3.task_id t = WriteBufferFromS3.task_id task ->
                              t = task).
    { intros t Ht Htid.
      exact (NoDup_map_eq WriteBufferFromS3.task_id _ _ _ Hnd Ht Hin Htid). }
    destruct Hstage as [(Hq & Hnf)|(Hret & _)].
    + rewrite Hq in H.
      unfold WriteBufferFromS3.processUploadRequest, WriteBufferFromS3.send, bind in H.
      rewrite (client_accepts _ _ Hup) in H.
      cbn [ret WriteBufferFromS3.tag WriteBufferFromS3.with_tag] in H. ok_inv H.
      unfold WriteBufferFromS3.task_finish_notify.
      rewrite buffer_update_task_twice by reflexivity.
      match goal with
      | |- WriteBufferFromS3.pool_step _ _
             (WriteBufferFromS3.set_num_finished_bg_tasks _
                (WriteBufferFromS3.update_task ?i ?f ?s1)) /\ _ =>
          assert (Hstep : WriteBufferFromS3.pool_step etag_of s
                            (WriteBufferFromS3.update_task i f s1));
            [apply (buffer_pool_step_trans s s1); [apply buffer_pool_step_same; reflexivity|]|]
      end.
      { apply buffer_pool_step_update_task; [intros t; split; reflexivity|].
        intros t Ht Htid _. cbn in Ht. rewrite (Hsame t Ht Htid). split; [|reflexivity].
        split; [exact He|]. split; [exact Hup|]. right. repeat split; reflexivity. }
      split.
      * eapply buffer_pool_step_trans; [exact Hstep|].
        apply buffer_pool_step_same. reflexivity.
      * intros i t Ht Htid. unfold WriteBufferFromS3.returned. cbn.
        rewrite nth_error_map, Ht. cbn. eexists. split; [reflexivity|].
        destruct (Z.eqb_spec (WriteBufferFromS3.task_id t) (WriteBufferFromS3.task_id task));
          [reflexivity|contradiction].
    + rewrite Hret in H. ok_inv H. split; [apply buffer_pool_step_refl|].
      intros i t Ht Htid. exists t. split; [exact Ht|].
      rewrite (Hsame t (nth_error_In _ _ Ht) Htid). exact Hret.
  - ok_inv H. split; [apply buffer_pool_step_refl|].
    intros i t Ht Htid. exfalso.
    pose proof (find_none _ _ Hfind t (nth_error_In _ _ Ht)) as Hno. cbn in Hno.
    apply Z.eqb_neq in Hno. contradiction.
Qed.

Lemma buffer_put_task_runs_pool_step :
  returning (WriteBufferFromS3.pool_step etag_of) (WriteBufferFromS3.put_task_runs client).
Proof.
  intros s u s' H. apply buffer_pool_step_same.
  pose proof (buffer_put_task_runs_queue_state client s) as K. rewrite H in K. exact K.
Qed.

Lemma buffer_pool_events_pool_step (evs : list WriteBufferFromS3.PoolEvent) :
  returning (WriteBufferFromS3.pool_step etag_of) (WriteBufferFromS3.pool_events client evs).
Proof.
  induction evs as [|ev evs IH]; cbn [WriteBufferFromS3.pool_events];
    return_with buffer_pool_step_refl buffer_pool_step_trans; [|exact IH].
  destruct ev; cbn [WriteBufferFromS3.pool_event]; [|apply buffer_put_task_runs_pool_step].
  intros s [] s' H Hs. exact (proj1 (buffer_upload_task_runs_pool_step _ _ _ Hs H) Hs).
Qed.

Lemma buffer_pool_turn_pool_step :
  returning (WriteBufferFromS3.pool_step etag_of) (WriteBufferFromS3.pool_turn client).
Proof.
  unfold WriteBufferFromS3.pool_turn.
  return_with buffer_pool_step_refl buffer_pool_step_trans;
    [apply buffer_pool_step_same; reflexivity|apply buffer_pool_events_pool_step].
Qed.

Lemma buffer_pool_finish_returned (ids : list Z) :
  forall s s',
  WriteBufferFromS3.on_course etag_of s ->
  WriteBufferFromS3.pool_finish client ids s = Ok tt s' ->
  WriteBufferFromS3.pool_step etag_of s s' /\
  forall i t, nth_error (WriteBufferFromS3.upload_object_tasks s) i = Some t ->
              In (WriteBufferFromS3.task_id t) ids -> WriteBufferFromS3.returned s' i.
Proof.
  induction ids as [|id ids IH]; intros s s' Hs H; cbn [WriteBufferFromS3.pool_finish] in H.
  - ok_inv H. split; [apply buffer_pool_step_refl|]. intros i t _ [].
  - apply bind_ok in H. destruct H as ([] & s1 & H1 & H2).
    destruct (buffer_upload_task_runs_pool_step _ _ _ Hs H1) as (P1 & Hret1).
    destruct (P1 Hs) as (Hs1 & _ & Hids1 & _).
    destruct (IH _ _ Hs1 H2) as (P2 & Hret2).
    split; [exact (buffer_pool_step_trans _ _ _ P1 P2)|].
    intros i t Ht [Hid|Hin].
    + destruct (P2 Hs1) as (_ & _ & _ & Hkeep). apply Hkeep, (Hret1 i t Ht). congruence.
    + assert (Ht1 : exists t1, nth_error (WriteBufferFromS3.upload_object_tasks s1) i = Some t1 /\
                               WriteBufferFromS3.task_id t1 = WriteBufferFromS3.task_id t).
      { pose proof (f_equal (fun l => nth_error l i) Hids1) as Hnth. cbn in Hnth.
        rewrite !nth_error_map, Ht in Hnth. cbn in Hnth.
        destruct (nth_error (WriteBufferFromS3.upload_object_tasks s1) i) as [t1|];
          [|discriminate].
        exists t1. split; [reflexivity|]. cbn in Hnth. congruence. }
      destruct Ht1 as (t1 & Ht1 & Hid1). apply (Hret2 i t1 Ht1). rewrite Hid1. exact Hin.
Qed.

(** When the wait is over every task of the queue has returned. *)
Lemma buffer_condvar_wait_tasks_returned (s s' : WriteBufferFromS3.State) :
  WriteBufferFromS3.on_course etag_of s ->
  WriteBufferFromS3.condvar_wait_tasks client s = Ok tt s' ->
  WriteBufferFromS3.on_course etag_of s' /\
  WriteBufferFromS3.plan etag_of s' = WriteBufferFromS3.plan etag_of s /\
  Forall (fun t => WriteBufferFromS3.stage t = WriteBufferFromS3.Returned)
    (WriteBufferFromS3.upload_object_tasks s').
Proof.
  intros Hs H. unfold WriteBufferFromS3.condvar_wait_tasks in H.
  apply bind_ok in H. destruct H as ([] & s1 & H1 & H). cbn [bind gets] in H.
  apply bind_ok in H. destruct H as ([] & s2 & H2 & H). cbn [bind gets] in H.
  assert (Hs' : s' = s2) by (destruct (_ =? _); [ok_inv H; reflexivity|discriminate]).
  subst s'. clear H.
  destruct (buffer_pool_turn_pool_step _ _ _ H1 Hs) as (Hs1 & Hp1 & _).
  destruct (buffer_pool_finish_returned _ _ _ Hs1 H2) as (P2 & Hret).
  destruct (P2 Hs1) as (Hs2 & Hp2 & Hids2 & _).
  split; [exact Hs2|]. split; [congruence|].
  apply Forall_forall. intros t Hin. apply In_nth_error in Hin. destruct Hin as [i Hi].
  pose proof (f_equal (fun l => nth_error l i) Hids2) as Hnth. cbn in Hnth.
  rewrite !nth_error_map, Hi in Hnth. cbn in Hnth.
  destruct (nth_error (WriteBufferFromS3.upload_object_tasks s1) i) as [t1|] eqn:Ht1;
    [|discriminate].
  destruct (Hret i t1 Ht1) as (t' & Ht' & Hst).
  - apply in_map. exact (nth_error_In _ _ Ht1).
  - congruence.
Qed.

Lemma buffer_wait_step_refl (s : WriteBufferFromS3.State) :
  WriteBufferFromS3.wait_step etag_of s s.
Proof. intros H. split; [exact H|reflexivity]. Qed.

Lemma buffer_wait_step_trans (s1 s2 s3 : WriteBufferFromS3.State) :
  WriteBufferFromS3.wait_step etag_of s1 s2 -> WriteBufferFromS3.wait_step etag_of s2 s3 ->
  WriteBufferFromS3.wait_step etag_of s1 s3.
Proof.
  intros H12 H23 H1. destruct (H12 H1) as (H2 & Hp12). destruct (H23 H2) as (H3 & Hp23).
  split; [exact H3|congruence].
Qed.

Lemma buffer_wait_step_of_pool_step (s s' : WriteBufferFromS3.State) :
  WriteBufferFromS3.pool_step etag_of s s' -> WriteBufferFromS3.wait_step etag_of s s'.
Proof. intros H Hs. destruct (H Hs) as (Hs' & Hp & _). split; assumption. Qed.

Lemma buffer_wait_step_same (s s' : WriteBufferFromS3.State) :
  keeps WriteBufferFromS3.queue_state s s' -> WriteBufferFromS3.wait_step etag_of s s'.
Proof. intros H. apply buffer_wait_step_of_pool_step, buffer_pool_step_same, H. Qed.

(** The tags of tasks that have returned are collected in the order of the
    queue. *)
Lemma buffer_collect_all_wait_step (tasks : list WriteBufferFromS3.UploadPartTask) :
  forall s s',
  WriteBufferFromS3.upload_object_tasks s = tasks ->
  Forall (fun t => WriteBufferFromS3.stage t = WriteBufferFromS3.Returned) tasks ->
  WriteBufferFromS3.collect_all tasks s = Ok tt s' ->
  WriteBufferFromS3.wait_step etag_of s s' /\ WriteBufferFromS3.upload_object_tasks s' = [].
Proof.
  induction tasks as [|t tasks IH]; intros s s' Htasks Hret H;
    cbn [WriteBufferFromS3.collect_all] in H.
  - ok_inv H. split; [apply buffer_wait_step_refl|exact Htasks].
  - inversion Hret as [|? ? Hst Hret']; subst.
    destruct (WriteBufferFromS3.exception t) eqn:He; [discriminate|].
    cbn [bind modify] in H.
    apply IH in H; [|reflexivity|exact Hret'].
    destruct H as (Hstep & Hnil). split; [|exact Hnil].
    eapply buffer_wait_step_trans; [|exact Hstep].
    intros (Hsched & Hall & Hnd & Hids). rewrite Htasks in Hall, Hnd, Hids.
    inversion Hall as [|? ? (_ & _ & Ht) Hall']; subst.
    cbn [map] in Hnd. inversion Hnd as [|? ? _ Hnd']; subst.
    inversion Hids as [|? ? _ Hids']; subst.
    split.
    + split; [exact Hsched|]. cbn. split; [exact Hall'|]. split; [exact Hnd'|exact Hids'].
    + unfold WriteBufferFromS3.plan, WriteBufferFromS3.eventual_tags. cbn. rewrite Htasks.
      cbn [map]. rewrite <- app_assoc. cbn [app].
      destruct Ht as [(Hq & _)|(_ & _ & Htag)]; [congruence|]. rewrite Htag. reflexivity.
Qed.

(** The tags of the tasks at the head of the queue that have finished are
    collected in the order of the queue. *)
Lemma buffer_collect_ready_wait_step (tasks : list WriteBufferFromS3.UploadPartTask) :
  forall s s',
  WriteBufferFromS3.upload_object_tasks s = tasks ->
  WriteBufferFromS3.collect_ready client tasks s = Ok tt s' ->
  WriteBufferFromS3.wait_step etag_of s s'.
Proof.
  induction tasks as [|t tasks IH]; intros s s' Htasks H;
    cbn [WriteBufferFromS3.collect_ready] in H.
  - ok_inv H. apply buffer_wait_step_refl.
  - destruct (WriteBufferFromS3.is_finished t) eqn:Hfin; [|ok_inv H; apply buffer_wait_step_refl].
    cbn [bind modify] in H.
    intros Hs. pose proof Hs as (Hsched & Hall & Hnd & Hids). rewrite Htasks in Hall, Hnd, Hids.
    inversion Hall as [|? ? (He & _ & Ht) Hall']; subst.
    cbn [map] in Hnd. inversion Hnd as [|? ? _ Hnd']; subst.
    inversion Hids as [|? ? _ Hids']; subst.
    rewrite He in H. cbn [bind modify] in H.
    apply IH in H; [|reflexivity].
    destruct H as (Hs' & Hp').
    + split; [exact Hsched|]. cbn. split; [exact Hall'|]. split; [exact Hnd'|exact Hids'].
    + split; [exact Hs'|]. rewrite Hp'.
      unfold WriteBufferFromS3.plan, WriteBufferFromS3.eventual_tags. cbn. rewrite Htasks.
      cbn [map]. rewrite <- app_assoc. cbn [app].
      destruct Ht as [(_ & Hnf)|(_ & _ & Htag)]; [congruence|]. rewrite Htag. reflexivity.
Qed.

Lemma buffer_waitForReadyBackGroundTasks_wait_step :
  returning (WriteBufferFromS3.wait_step etag_of)
    (WriteBufferFromS3.waitForReadyBackGroundTasks client).
Proof.
  intros s [] s' H. unfold WriteBufferFromS3.waitForReadyBackGroundTasks in H.
  cbn [bind gets] in H.
  destruct (WriteBufferFromS3.schedule (WriteBufferFromS3.config s));
    [|ok_inv H; apply buffer_wait_step_refl].
  apply bind_ok in H. destruct H as ([] & s1 & H1 & H2). cbn [bind gets] in H2.
  eapply buffer_wait_step_trans.
  - apply buffer_wait_step_of_pool_step. exact (buffer_pool_turn_pool_step _ _ _ H1).
  - exact (buffer_collect_ready_wait_step _ _ _ eq_refl H2).
Qed.

Lemma buffer_condvar_wait_put_queue_state :
  preserves (keeps WriteBufferFromS3.queue_state) (WriteBufferFromS3.condvar_wait_put client).
Proof.
  unfold WriteBufferFromS3.condvar_wait_put. keeps_tac;
    try solve [reflexivity | apply buffer_put_task_runs_queue_state].
Qed.

(** The wait at the end empties the queue into the list of tags. *)
Lemma buffer_waitForAllBackGroundTasksUnlocked_wait_step (s s' : WriteBufferFromS3.State) :
  WriteBufferFromS3.on_course etag_of s ->
  WriteBufferFromS3.waitForAllBackGroundTasksUnlocked client s = Ok tt s' ->
  WriteBufferFromS3.on_course etag_of s' /\
  WriteBufferFromS3.plan etag_of s' = WriteBufferFromS3.plan etag_of s /\
  WriteBufferFromS3.upload_object_tasks s' = [].
Proof.
  intros Hs H. unfold WriteBufferFromS3.waitForAllBackGroundTasksUnlocked in H.
  cbn [bind gets] in H. pose proof Hs as (Hsched & _). rewrite Hsched in H.
  apply bind_ok in H. destruct H as ([] & s1 & H1 & H). cbn [bind gets] in H.
  apply bind_ok in H. destruct H as ([] & s2 & H2 & H). cbn [bind gets] in H.
  destruct (buffer_condvar_wait_tasks_returned _ _ Hs H1) as (Hs1 & Hp1 & Hret).
  destruct (buffer_collect_all_wait_step _ _ _ eq_refl Hret H2) as (Hstep & Hnil).
  destruct (Hstep Hs1) as (Hs2 & Hp2).
  assert (Hkeep : keeps WriteBufferFromS3.queue_state s2 s').
  { destruct (WriteBufferFromS3.put_object_task s2); [|ok_inv H; reflexivity].
    apply bind_ok in H. destruct H as ([] & s3 & H3 & H). cbn [bind gets] in H.
    pose proof (buffer_condvar_wait_put_queue_state s2) as K. rewrite H3 in K.
    destruct (WriteBufferFromS3.put_object_task s3) as [t|]; [|discriminate].
    destruct (WriteBufferFromS3.put_exception t); [discriminate|]. ok_inv H. exact K. }
  destruct (buffer_wait_step_same _ _ Hkeep Hs2) as (Hs' & Hp').
  split; [exact Hs'|]. split; [congruence|].
  pose proof (f_equal snd Hkeep) as Htasks. cbn in Htasks. congruence.
Qed.

Lemma buffer_waitForAllBackGroundTasks_wait_step (s s' : WriteBufferFromS3.State) :
  WriteBufferFromS3.on_course etag_of s ->
  WriteBufferFromS3.waitForAllBackGroundTasks client s = Ok tt s' ->
  WriteBufferFromS3.on_course etag_of s' /\
  WriteBufferFromS3.plan etag_of s' = WriteBufferFromS3.plan etag_of s /\
  WriteBufferFromS3.upload_object_tasks s' = [].
Proof.
  intros Hs H. unfold WriteBufferFromS3.waitForAllBackGroundTasks in H.
  cbn [bind gets] in H. pose proof Hs as (Hsched & _). rewrite Hsched in H.
  exact (buffer_waitForAllBackGroundTasksUnlocked_wait_step _ _ Hs H).
Qed.

(** The request of a part is made from what the calling thread keeps. *)
Lemma buffer_fillUploadRequest_agrees (s1 s2 s1' s2' : WriteBufferFromS3.State)
    (r1 r2 : Request) :
  WriteBufferFromS3.front_end s1 = WriteBufferFromS3.front_end s2 ->
  WriteBufferFromS3.fillUploadRequest s1 = Ok r1 s1' ->
  WriteBufferFromS3.fillUploadRequest s2 = Ok r2 s2' ->
  r1 = r2 /\ is_upload r1 = true /\
  WriteBufferFromS3.front_end s1' = WriteBufferFromS3.front_end s2' /\
  (WriteBufferFromS3.part_tags s1' = WriteBufferFromS3.part_tags s1 /\
   WriteBufferFromS3.upload_object_tasks s1' = WriteBufferFromS3.upload_object_tasks s1 /\
   WriteBufferFromS3.num_added_bg_tasks s1' = WriteBufferFromS3.num_added_bg_tasks s1 /\
   WriteBufferFromS3.config s1' = WriteBufferFromS3.config s1) /\
  (WriteBufferFromS3.part_tags s2' = WriteBufferFromS3.part_tags s2 /\
   WriteBufferFromS3.upload_object_tasks s2' = WriteBufferFromS3.upload_object_tasks s2 /\
   WriteBufferFromS3.num_added_bg_tasks s2' = WriteBufferFromS3.num_added_bg_tasks s2 /\
   WriteBufferFromS3.config s2' = WriteBufferFromS3.config s2).
Proof.
  intros Hf H1 H2.
  pose proof (fillUploadRequest_cases s1) as C1. pose proof (fillUploadRequest_cases s2) as C2.
  cbv zeta in C1, C2. unfold WriteBufferFromS3.front_end in Hf.
  injection Hf as Hc Hoff Hups Htmp Hlast Hpn Hid Hpre.
  rewrite <- Hc, <- Hups, <- Htmp, <- Hpn, <- Hid in C2.
  repeat match type of C1 with
         | (if ?b then _ else _) => destruct b
         end;
    rewrite C1 in H1; rewrite C2 in H2; try discriminate;
    ok_inv H1; ok_inv H2;
    unfold WriteBufferFromS3.front_end; cbn;
    rewrite <- ?Hc, <- ?Hoff, <- ?Hups, <- ?Htmp, <- ?Hlast, <- ?Hpn, <- ?Hid, <- ?Hpre;
    repeat split; reflexivity.
Qed.

Lemma buffer_update_last_task (id : Z)
    (f : WriteBufferFromS3.UploadPartTask -> WriteBufferFromS3.UploadPartTask)
    (tasks : list WriteBufferFromS3.UploadPartTask) (x : WriteBufferFromS3.UploadPartTask) :
  Forall (fun t => WriteBufferFromS3.task_id t < id) tasks ->
  WriteBufferFromS3.task_id x = id ->
  map (fun t => if WriteBufferFromS3.task_id t =? id then f t else t) (tasks ++ [x])
  = tasks ++ [f x].
Proof.
  intros Hall Hx. rewrite map_app. cbn [map]. rewrite Hx, Z.eqb_refl. f_equal.
  rewrite <- (map_id tasks) at 2. apply map_ext_in. intros t Hin.
  rewrite Forall_forall in Hall. specialize (Hall t Hin).
  destruct (Z.eqb_spec (WriteBufferFromS3.task_id t) id); [lia|reflexivity].
Qed.

(** With a thread pool [writePart] queues the part and hands over. *)
Lemma buffer_writePart_queues (s s' : WriteBufferFromS3.State) :
  WriteBufferFromS3.on_course etag_of s ->
  0 < WriteBufferFromS3.temporary_buffer s ->
  WriteBufferFromS3.writePart client s = Ok tt s' ->
  exists r sf sq,
    WriteBufferFromS3.fillUploadRequest
      (WriteBufferFromS3.with_new_task (WriteBufferFromS3.after_warning s)) = Ok r sf /\
    WriteBufferFromS3.pool_turn client sq = Ok tt s' /\
    WriteBufferFromS3.on_course etag_of sq /\
    WriteBufferFromS3.eventual_tags etag_of sq
    = WriteBufferFromS3.eventual_tags etag_of s ++ [etag_of r] /\
    WriteBufferFromS3.front_end sq = WriteBufferFromS3.front_end sf.
Proof.
  intros Hs Hsize H. pose proof Hs as (Hsched & Hall & Hnd & Hids).
  rewrite (writePart_scheduled client s Hsize Hsched) in H. cbv zeta in H.
  set (X := WriteBufferFromS3.with_new_task (WriteBufferFromS3.after_warning s)) in *.
  destruct (WriteBufferFromS3.fillUploadRequest X) as [r sf| | | |] eqn:Hfill; try discriminate.
  destruct (buffer_fillUploadRequest_agrees X X sf sf r r eq_refl Hfill Hfill)
    as (_ & Hup & _ & (Htags & Htasks & Hnum & Hc) & _).
  destruct (after_warning_background s) as (Hbg & _ & Htasks0).
  assert (Hnum0 : WriteBufferFromS3.num_added_bg_tasks (WriteBufferFromS3.after_warning s)
                  = WriteBufferFromS3.num_added_bg_tasks s)
    by exact (f_equal (fun x => snd (fst x)) Hbg).
  assert (Htags0 : WriteBufferFromS3.part_tags (WriteBufferFromS3.after_warning s)
                   = WriteBufferFromS3.part_tags s)
    by exact (f_equal (fun x => snd (fst (fst x))) Hbg).
  assert (Hc0 : WriteBufferFromS3.config (WriteBufferFromS3.after_warning s)
                = WriteBufferFromS3.config s).
  { unfold WriteBufferFromS3.after_warning. destruct (_ =? _); reflexivity. }
  set (id := WriteBufferFromS3.num_added_bg_tasks s) in *.
  assert (HX : WriteBufferFromS3.upload_object_tasks sf
               = WriteBufferFromS3.upload_object_tasks s ++ [WriteBufferFromS3.new_task id]).
  { rewrite Htasks. subst X. cbn. rewrite Htasks0, Hnum0. reflexivity. }
  match type of H with
  | WriteBufferFromS3.pool_turn _ ?st = _ => exists r, sf, st
  end.
  split; [reflexivity|]. split; [exact H|].
  assert (Hqueue : WriteBufferFromS3.upload_object_tasks
                     (WriteBufferFromS3.update_task id
                        (WriteBufferFromS3.with_stage WriteBufferFromS3.Queued)
                        (WriteBufferFromS3.update_task id (WriteBufferFromS3.with_req r) sf))
                   = WriteBufferFromS3.upload_object_tasks s
                     ++ [WriteBufferFromS3.mkUploadPartTask id r false "" None
                           WriteBufferFromS3.Queued]).
  { cbn. rewrite HX.
    rewrite (buffer_update_last_task id (WriteBufferFromS3.with_req r) _
               (WriteBufferFromS3.new_task id) Hids eq_refl).
    rewrite (buffer_update_last_task id (WriteBufferFromS3.with_stage WriteBufferFromS3.Queued) _
               (WriteBufferFromS3.with_req r (WriteBufferFromS3.new_task id)) Hids eq_refl).
    reflexivity. }
  split; [|split].
  - unfold WriteBufferFromS3.on_course. rewrite Hqueue. cbn.
    rewrite Hc, Hnum. subst X. cbn. rewrite Hc0, Hnum0. fold id.
    split; [exact Hsched|]. split; [|split].
    + apply Forall_app. split; [exact Hall|]. constructor; [|constructor].
      split; [reflexivity|]. split; [exact Hup|]. left. split; reflexivity.
    + rewrite map_app. cbn. apply NoDup_app; [exact Hnd|repeat constructor; intros []|].
      intros x Hx [Hx'|[]]. subst x. apply in_map_iff in Hx. destruct Hx as (t & Ht & Hin).
      rewrite Forall_forall in Hids. specialize (Hids t Hin). lia.
    + apply Forall_app. split.
      * eapply Forall_impl; [|exact Hids]. cbn. intros t Ht. lia.
      * constructor; [cbn; lia|constructor].
  - unfold WriteBufferFromS3.eventual_tags. rewrite Hqueue. cbn.
    rewrite Htags. subst X. cbn. rewrite Htags0, map_app, app_assoc. reflexivity.
  - reflexivity.
Qed.

Lemma buffer_alike_sym (s1 s2 : WriteBufferFromS3.State) :
  WriteBufferFromS3.alike etag_of s1 s2 -> WriteBufferFromS3.alike etag_of s2 s1.
Proof. intros (H1 & H2 & Hp). split; [exact H2|]. split; [exact H1|]. symmetry. exact Hp. Qed.

Lemma buffer_alike_wait_step (s1 s2 s1' : WriteBufferFromS3.State) :
  WriteBufferFromS3.alike etag_of s1 s2 -> WriteBufferFromS3.wait_step etag_of s1 s1' ->
  WriteBufferFromS3.alike etag_of s1' s2.
Proof.
  intros (H1 & H2 & Hp) Hstep. destruct (Hstep H1) as (H1' & Hp').
  split; [exact H1'|]. split; [exact H2|]. congruence.
Qed.

Lemma buffer_agrees_of_wait_step (c : M WriteBufferFromS3.State unit) :
  returning (WriteBufferFromS3.wait_step etag_of) c ->
  agrees (WriteBufferFromS3.alike etag_of) c.
Proof. apply agrees_of_returning; [exact buffer_alike_sym|exact buffer_alike_wait_step]. Qed.

Lemma buffer_pool_turn_wait_step :
  returning (WriteBufferFromS3.wait_step etag_of) (WriteBufferFromS3.pool_turn client).
Proof.
  intros s u s' H. apply buffer_wait_step_of_pool_step.
  exact (buffer_pool_turn_pool_step _ _ _ H).
Qed.

Lemma buffer_alike_front_end (s1 s2 : WriteBufferFromS3.State) :
  WriteBufferFromS3.alike etag_of s1 s2 ->
  WriteBufferFromS3.front_end s1 = WriteBufferFromS3.front_end s2.
Proof. intros (_ & _ & Hp). exact (f_equal fst Hp). Qed.

Lemma buffer_writePart_agrees :
  agrees (WriteBufferFromS3.alike etag_of) (WriteBufferFromS3.writePart client).
Proof.
  intros s1 s2 [] [] s1' s2' Hlike H1 H2.
  pose proof (buffer_alike_front_end _ _ Hlike) as Hf.
  assert (Hsize : WriteBufferFromS3.temporary_buffer s1 = WriteBufferFromS3.temporary_buffer s2).
  { unfold WriteBufferFromS3.front_end in Hf. injection Hf. auto. }
  destruct (Z.lt_ge_cases 0 (WriteBufferFromS3.temporary_buffer s1)) as [Hpos|Hneg].
  - destruct Hlike as (C1 & C2 & Hp).
    destruct (buffer_writePart_queues _ _ C1 Hpos H1)
      as (r1 & f1 & q1 & Hfill1 & Hturn1 & Hq1 & Htags1 & Hfront1).
    destruct (buffer_writePart_queues _ _ C2 ltac:(lia) H2)
      as (r2 & f2 & q2 & Hfill2 & Hturn2 & Hq2 & Htags2 & Hfront2).
    assert (HfX : WriteBufferFromS3.front_end
                    (WriteBufferFromS3.with_new_task (WriteBufferFromS3.after_warning s1))
                  = WriteBufferFromS3.front_end
                      (WriteBufferFromS3.with_new_task (WriteBufferFromS3.after_warning s2))).
    { unfold WriteBufferFromS3.after_warning.
      destruct (Z.of_nat (List.length (WriteBufferFromS3.part_tags s1)) =? _);
        destruct (Z.of_nat (List.length (WriteBufferFromS3.part_tags s2)) =? _); exact Hf. }
    destruct (buffer_fillUploadRequest_agrees _ _ _ _ _ _ HfX Hfill1 Hfill2)
      as (<- & _ & Hff & _).
    apply (buffer_agrees_of_wait_step _ buffer_pool_turn_wait_step q1 q2 tt tt s1' s2');
      [|exact Hturn1|exact Hturn2].
    split; [exact Hq1|]. split; [exact Hq2|].
    unfold WriteBufferFromS3.plan. rewrite Htags1, Htags2, Hfront1, Hfront2, Hff.
    pose proof (f_equal snd Hp) as He. cbn in He. rewrite He. reflexivity.
  - assert (Hskip : forall s s', WriteBufferFromS3.temporary_buffer s <= 0 ->
                      WriteBufferFromS3.writePart client s = Ok tt s' ->
                      keeps WriteBufferFromS3.queue_state s s').
    { intros s s' Hle H. unfold WriteBufferFromS3.writePart in H. cbn [bind gets] in H.
      destruct (Z.ltb_spec (WriteBufferFromS3.temporary_buffer s) 0);
        [ok_inv H; reflexivity|].
      destruct (Z.eqb_spec (WriteBufferFromS3.temporary_buffer s) 0);
        [ok_inv H; reflexivity|lia]. }
    split; [reflexivity|].
    apply buffer_alike_sym, (buffer_alike_wait_step s2 s1');
      [|apply buffer_wait_step_same, Hskip; [lia|exact H2]].
    apply buffer_alike_sym, (buffer_alike_wait_step s1 s2);
      [exact Hlike|apply buffer_wait_step_same, Hskip; [lia|exact H1]].
Qed.

Hypothesis create_is_stateless :
  forall history,
    client history CreateMultipartUploadRequest = client [] CreateMultipartUploadRequest.

Lemma buffer_wait_step_of_keeps {A} (c : M WriteBufferFromS3.State A) :
  preserves (keeps WriteBufferFromS3.queue_state) c ->
  returning (WriteBufferFromS3.wait_step etag_of) c.
Proof.
  intros Hc s a s' H. apply buffer_wait_step_same. exact (preserves_ok _ _ _ _ _ Hc H).
Qed.

(** A value that the calling thread keeps is the same in two buffers that
    are alike. *)
Ltac alike_gets :=
  apply agrees_gets;
  let s1 := fresh "s" in let s2 := fresh "s" in let Hl := fresh "Hl" in let Hf := fresh "Hf" in
  intros s1 s2 Hl; pose proof (buffer_alike_front_end _ _ Hl) as Hf;
  unfold WriteBufferFromS3.front_end in Hf; injection Hf; intros; congruence.

(** An assignment to members that the calling thread keeps. *)
Ltac alike_modify :=
  apply agrees_modify;
  let s1 := fresh "s" in let s2 := fresh "s" in
  let C1 := fresh "C" in let C2 := fresh "C" in let Hp := fresh "Hp" in
  intros s1 s2 (C1 & C2 & Hp);
  split; [exact C1|split; [exact C2|]];
  unfold WriteBufferFromS3.plan, WriteBufferFromS3.eventual_tags, WriteBufferFromS3.front_end
    in *;
  cbn in *; injection Hp; intros; congruence.

Ltac alike_tac :=
  agrees_tac;
  try solve [ alike_gets | alike_modify
            | apply buffer_agrees_of_wait_step, buffer_wait_step_of_keeps;
              keeps_tac; intros ?; reflexivity ].

Lemma buffer_createMultipartUpload_agrees :
  agrees (WriteBufferFromS3.alike etag_of) (WriteBufferFromS3.createMultipartUpload client).
Proof.
  intros s1 s2 [] [] s1' s2' Hlike H1 H2. split; [reflexivity|].
  unfold WriteBufferFromS3.createMultipartUpload, WriteBufferFromS3.send, bind in H1, H2.
  rewrite create_is_stateless in H1, H2.
  destruct (client [] CreateMultipartUploadRequest) as [upload_id|e]; [|discriminate].
  cbn [modify] in H1, H2. ok_inv H1. ok_inv H2.
  destruct Hlike as (C1 & C2 & Hp). split; [exact C1|]. split; [exact C2|].
  unfold WriteBufferFromS3.plan, WriteBufferFromS3.eventual_tags, WriteBufferFromS3.front_end
    in *.
  cbn in *. injection Hp. intros. congruence.
Qed.

Lemma buffer_nextImpl_agrees :
  agrees (WriteBufferFromS3.alike etag_of) (WriteBufferFromS3.nextImpl client).
Proof.
  unfold WriteBufferFromS3.nextImpl, WriteBufferFromS3.allocateBuffer. alike_tac;
    first [ apply buffer_createMultipartUpload_agrees
          | apply buffer_writePart_agrees
          | apply buffer_agrees_of_wait_step, buffer_waitForReadyBackGroundTasks_wait_step ].
Qed.

Lemma buffer_next_agrees :
  agrees (WriteBufferFromS3.alike etag_of) (WriteBufferFromS3.next client).
Proof. unfold WriteBufferFromS3.next. alike_tac. apply buffer_nextImpl_agrees. Qed.

Lemma buffer_write_all_agrees (chunks : list Z) :
  agrees (WriteBufferFromS3.alike etag_of) (WriteBufferFromS3.write_all client chunks).
Proof.
  induction chunks as [|n chunks IH]; cbn [WriteBufferFromS3.write_all];
    unfold WriteBufferFromS3.write; alike_tac;
    first [apply buffer_next_agrees|exact IH].
Qed.

Lemma buffer_makeSinglepartUpload_wait_step :
  returning (WriteBufferFromS3.wait_step etag_of) (WriteBufferFromS3.makeSinglepartUpload client).
Proof.
  unfold WriteBufferFromS3.makeSinglepartUpload, WriteBufferFromS3.fillPutRequest.
  return_with buffer_wait_step_refl buffer_wait_step_trans;
    try solve [ apply buffer_wait_step_same; reflexivity
              | apply buffer_pool_turn_wait_step
              | apply buffer_wait_step_of_keeps, buffer_processPutRequest_queue_state
              | apply buffer_wait_step_of_keeps, buffer_LOG_queue_state ].
Qed.

Lemma buffer_preFinalize_agrees :
  agrees (WriteBufferFromS3.alike etag_of) (WriteBufferFromS3.preFinalize client).
Proof.
  unfold WriteBufferFromS3.preFinalize. alike_tac;
    first [ apply buffer_next_agrees
          | apply buffer_writePart_agrees
          | apply buffer_agrees_of_wait_step, buffer_makeSinglepartUpload_wait_step ].
Qed.

Lemma buffer_finalizeImpl_agrees :
  agrees (WriteBufferFromS3.alike etag_of) (WriteBufferFromS3.finalizeImpl client).
Proof.
  unfold WriteBufferFromS3.finalizeImpl. alike_tac;
    first [ apply buffer_preFinalize_agrees
          | apply buffer_agrees_of_wait_step;
            first [ apply buffer_wait_step_of_keeps, buffer_completeMultipartUpload_queue_state
                  | apply buffer_wait_step_of_keeps, buffer_checkObjectExists_queue_state
                  | intros s [] s' H Hs;
                    destruct (buffer_waitForAllBackGroundTasks_wait_step _ _ Hs H)
                      as (Hs' & Hp & _);
                    split; assumption ] ].
Qed.

End BufferOrder.

(** ** The numbers of the parts of the streaming buffer *)

Section BufferNumbers.

Variable client : Client.
Variable etag_of : Request -> string.

Hypothesis client_accepts :
  forall history r, is_upload r = true -> client history r = Success (etag_of r).

(** Whether the parts are numbered shows in the plan. *)
Lemma buffer_numbered_plan (s s' : WriteBufferFromS3.State) :
  WriteBufferFromS3.config s' = WriteBufferFromS3.config s ->
  WriteBufferFromS3.part_number s' = WriteBufferFromS3.part_number s ->
  WriteBufferFromS3.eventual_tags etag_of s' = WriteBufferFromS3.eventual_tags etag_of s ->
  WriteBufferFromS3.numbered etag_of s -> WriteBufferFromS3.numbered etag_of s'.
Proof.
  intros Hc Hpn He (reqs & Htags & Hord & Hlen & Hmax).
  exists reqs. rewrite Hc, Hpn, He. repeat split; try assumption; apply Hord.
Qed.

Lemma buffer_numbering_step_refl (s : WriteBufferFromS3.State) :
  WriteBufferFromS3.numbering_step etag_of s s.
Proof. intros H1 H2. split; [exact H1|]. split; [exact H2|reflexivity]. Qed.

Lemma buffer_numbering_step_trans (s1 s2 s3 : WriteBufferFromS3.State) :
  WriteBufferFromS3.numbering_step etag_of s1 s2 ->
  WriteBufferFromS3.numbering_step etag_of s2 s3 ->
  WriteBufferFromS3.numbering_step etag_of s1 s3.
Proof.
  intros H12 H23 C N. destruct (H12 C N) as (C2 & N2 & Hc2).
  destruct (H23 C2 N2) as (C3 & N3 & Hc3). split; [exact C3|]. split; [exact N3|congruence].
Qed.

Lemma buffer_numbering_step_of_wait_step (s s' : WriteBufferFromS3.State) :
  WriteBufferFromS3.wait_step etag_of s s' -> WriteBufferFromS3.numbering_step etag_of s s'.
Proof.
  intros H C N. destruct (H C) as (C' & Hp). split; [exact C'|].
  pose proof (f_equal fst Hp) as Hf. pose proof (f_equal snd Hp) as He. cbn in Hf, He.
  destruct (front_end_config s s' Hf) as (Hc & Hpn & _).
  split; [exact (buffer_numbered_plan _ _ Hc Hpn He N)|exact Hc].
Qed.

(** An assignment to members that neither the queue nor the numbering
    depends on. *)
Lemma buffer_numbering_step_front (s s' : WriteBufferFromS3.State) :
  WriteBufferFromS3.config s' = WriteBufferFromS3.config s ->
  WriteBufferFromS3.part_number s' = WriteBufferFromS3.part_number s ->
  WriteBufferFromS3.part_tags s' = WriteBufferFromS3.part_tags s ->
  WriteBufferFromS3.upload_object_tasks s' = WriteBufferFromS3.upload_object_tasks s ->
  WriteBufferFromS3.num_added_bg_tasks s' = WriteBufferFromS3.num_added_bg_tasks s ->
  WriteBufferFromS3.numbering_step etag_of s s'.
Proof.
  intros Hc Hpn Htags Htasks Hnum C N. split; [|split; [|exact Hc]].
  - unfold WriteBufferFromS3.on_course in *. rewrite Hc, Htasks, Hnum. exact C.
  - apply (buffer_numbered_plan s s' Hc Hpn); [|exact N].
    unfold WriteBufferFromS3.eventual_tags. rewrite Htags, Htasks. reflexivity.
Qed.

Ltac numbering_tac :=
  return_with buffer_numbering_step_refl buffer_numbering_step_trans;
  try solve [ apply buffer_numbering_step_front; reflexivity | assumption ].

(** On an open multipart upload [writePart] gives the part the next
    number. *)
Lemma buffer_writePart_numbering (s s' : WriteBufferFromS3.State) :
  is_size_t (max_part_number (WriteBufferFromS3.settings (WriteBufferFromS3.config s)) + 1) ->
  WriteBufferFromS3.empty (WriteBufferFromS3.multipart_upload_id s) = false ->
  WriteBufferFromS3.writePart client s = Ok tt s' ->
  WriteBufferFromS3.numbering_step etag_of s s'.
Proof.
  intros Hceil Hopen H C N.
  destruct (Z.lt_ge_cases 0 (WriteBufferFromS3.temporary_buffer s)) as [Hpos|Hneg].
  - destruct (buffer_writePart_queues client etag_of s s' C Hpos H)
      as (r & sf & sq & Hfill & Hturn & Cq & Htags & Hfront).
    set (X := WriteBufferFromS3.with_new_task (WriteBufferFromS3.after_warning s)) in *.
    assert (HX : WriteBufferFromS3.multipart_upload_id X = WriteBufferFromS3.multipart_upload_id s
                 /\ WriteBufferFromS3.part_number X = WriteBufferFromS3.part_number s
                 /\ WriteBufferFromS3.config X = WriteBufferFromS3.config s).
    { subst X. unfold WriteBufferFromS3.after_warning. destruct (_ =? _); repeat split. }
    destruct HX as (HXid & HXpn & HXc).
    destruct (fillUploadRequest_within_ceiling X sf r ltac:(rewrite HXid; exact Hopen) Hfill)
      as (Hpn & Hmax & Hc & _ & _ & Hr).
    destruct (front_end_config sf sq Hfront) as (Hcq & Hpnq & _).
    assert (Nq : WriteBufferFromS3.numbered etag_of sq).
    { destruct N as (reqs & Hreqs & Hord & Hlen & Hbound).
      assert (Hnext : WriteBufferFromS3.part_number sf = Z.of_nat (List.length reqs) + 1).
      { rewrite Hpn, HXpn, Hlen. apply wrap_small. unfold is_size_t in *. lia. }
      exists (reqs ++ [r]). split; [|split; [|split]].
      + rewrite Htags, Hreqs, map_app. reflexivity.
      + apply in_part_number_order_app; [exact Hord|rewrite Hr; reflexivity|].
        rewrite Hr. cbn [part_number_of]. rewrite Hnext. reflexivity.
      + rewrite Hpnq, Hnext, length_app. cbn [List.length]. lia.
      + rewrite Hpnq, Hcq. exact Hmax. }
    destruct (buffer_numbering_step_of_wait_step sq s'
                (buffer_pool_turn_wait_step client etag_of client_accepts _ _ _ Hturn) Cq Nq)
      as (C' & N' & Hc').
    split; [exact C'|]. split; [exact N'|]. congruence.
  - revert C N. apply buffer_numbering_step_of_wait_step, buffer_wait_step_same.
    unfold WriteBufferFromS3.writePart in H. cbn [bind gets] in H.
    destruct (Z.ltb_spec (WriteBufferFromS3.temporary_buffer s) 0);
      [ok_inv H; reflexivity|].
    destruct (Z.eqb_spec (WriteBufferFromS3.temporary_buffer s) 0);
      [ok_inv H; reflexivity|lia].
Qed.

Lemma buffer_createMultipartUpload_numbering :
  returning (WriteBufferFromS3.numbering_step etag_of)
    (WriteBufferFromS3.createMultipartUpload client).
Proof.
  intros s [] s' H.
  unfold WriteBufferFromS3.createMultipartUpload, WriteBufferFromS3.send, bind in H.
  destruct (client _ _) as [upload_id|e]; [|discriminate].
  cbn [modify] in H. ok_inv H. apply buffer_numbering_step_front; reflexivity.
Qed.

Lemma buffer_nextImpl_numbering (s s' : WriteBufferFromS3.State) :
  is_size_t (max_part_number (WriteBufferFromS3.settings (WriteBufferFromS3.config s)) + 1) ->
  WriteBufferFromS3.nextImpl client s = Ok tt s' ->
  WriteBufferFromS3.numbering_step etag_of s s'.
Proof.
  intros Hceil H.
  destruct (Z.eq_dec (WriteBufferFromS3.working_offset s) 0) as [Hz|Hnz].
  - unfold WriteBufferFromS3.nextImpl in H. cbn [bind gets] in H. rewrite Hz in H.
    cbn in H. ok_inv H. apply buffer_numbering_step_refl.
  - rewrite (nextImpl_steps client s Hnz) in H. cbv zeta in H.
    match type of H with
    | bind _ _ ?st = _ => set (s2 := st) in *
    end.
    assert (S2 : WriteBufferFromS3.numbering_step etag_of s s2).
    { subst s2. destruct (WriteBufferFromS3.temporary_buffer s =? -1);
        apply buffer_numbering_step_front; reflexivity. }
    apply bind_ok in H. destruct H as ([] & s3 & H3 & H).
    assert (S3 : WriteBufferFromS3.numbering_step etag_of s2 s3).
    { match type of H3 with
      | (if ?b then _ else _) _ = _ => destruct b
      end.
      - exact (buffer_createMultipartUpload_numbering _ _ _ H3).
      - cbv [ret] in H3. ok_inv H3. apply buffer_numbering_step_refl. }
    apply bind_ok in H. destruct H as ([] & s4 & H4 & H).
    intros C N. destruct (S2 C N) as (C2 & N2 & Hc2). destruct (S3 C2 N2) as (C3 & N3 & Hc3).
    assert (S4 : WriteBufferFromS3.numbering_step etag_of s3 s4).
    { destruct (WriteBufferFromS3.empty (WriteBufferFromS3.multipart_upload_id s3)) eqn:Hopen;
        cbn [negb andb] in H4;
        [cbv [ret] in H4; ok_inv H4; apply buffer_numbering_step_refl|].
      match type of H4 with
      | (if ?b then _ else _) _ = _ =>
          destruct b; [|cbv [ret] in H4; ok_inv H4; apply buffer_numbering_step_refl]
      end.
      apply bind_ok in H4. destruct H4 as ([] & s5 & H5 & H4).
      unfold WriteBufferFromS3.allocateBuffer in H4. cbv [modify] in H4. ok_inv H4.
      eapply buffer_numbering_step_trans;
        [apply (buffer_writePart_numbering s3 s5); [rewrite Hc3, Hc2; exact Hceil|exact Hopen
                                                    |exact H5]|].
      apply buffer_numbering_step_front; reflexivity. }
    destruct (S4 C3 N3) as (C4 & N4 & Hc4).
    destruct (buffer_numbering_step_of_wait_step _ _
                (buffer_waitForReadyBackGroundTasks_wait_step client etag_of client_accepts
                   _ _ _ H) C4 N4) as (C' & N' & Hc').
    split; [exact C'|]. split; [exact N'|]. congruence.
Qed.

Lemma buffer_next_numbering (s s' : WriteBufferFromS3.State) :
  is_size_t (max_part_number (WriteBufferFromS3.settings (WriteBufferFromS3.config s)) + 1) ->
  WriteBufferFromS3.next client s = Ok tt s' ->
  WriteBufferFromS3.numbering_step etag_of s s'.
Proof.
  intros Hceil H. unfold WriteBufferFromS3.next in H. cbn [bind gets] in H.
  destruct (_ =? 0); [cbv [ret] in H; ok_inv H; apply buffer_numbering_step_refl|].
  apply bind_ok in H. destruct H as ([] & s1 & H1 & H). cbv [modify] in H. ok_inv H.
  unfold try_rethrow in H1.
  destruct (WriteBufferFromS3.nextImpl client s) as [[] s0| | | |] eqn:Hnext; try discriminate.
  ok_inv H1.
  eapply buffer_numbering_step_trans; [exact (buffer_nextImpl_numbering _ _ Hceil Hnext)|].
  apply buffer_numbering_step_front; reflexivity.
Qed.

Lemma buffer_write_all_numbering (chunks : list Z) :
  forall s s',
  is_size_t (max_part_number (WriteBufferFromS3.settings (WriteBufferFromS3.config s)) + 1) ->
  WriteBufferFromS3.write_all client chunks s = Ok tt s' ->
  WriteBufferFromS3.numbering_step etag_of s s'.
Proof.
  induction chunks as [|n chunks IH]; intros s s' Hceil H; cbn [WriteBufferFromS3.write_all] in H.
  - cbv [ret] in H. ok_inv H. apply buffer_numbering_step_refl.
  - apply bind_ok in H. destruct H as ([] & s1 & H1 & H).
    unfold WriteBufferFromS3.write in H1. cbn [bind modify] in H1.
    assert (S1 : WriteBufferFromS3.numbering_step etag_of s s1).
    { apply (buffer_numbering_step_trans s (WriteBufferFromS3.set_working_offset n s));
        [apply buffer_numbering_step_front; reflexivity|].
      exact (buffer_next_numbering (WriteBufferFromS3.set_working_offset n s) s1 Hceil H1). }
    intros C N. destruct (S1 C N) as (C1 & N1 & Hc1).
    destruct (IH s1 s' ltac:(rewrite Hc1; exact Hceil) H C1 N1) as (C' & N' & Hc').
    split; [exact C'|]. split; [exact N'|congruence].
Qed.

Lemma buffer_preFinalize_numbering (s s' : WriteBufferFromS3.State) :
  is_size_t (max_part_number (WriteBufferFromS3.settings (WriteBufferFromS3.config s)) + 1) ->
  WriteBufferFromS3.preFinalize client s = Ok tt s' ->
  WriteBufferFromS3.numbering_step etag_of s s'.
Proof.
  intros Hceil H. unfold WriteBufferFromS3.preFinalize in H.
  apply bind_ok in H. destruct H as ([] & s1 & H1 & H). cbn [bind gets] in H.
  apply bind_ok in H. destruct H as ([] & s2 & H2 & H). cbv [modify] in H. ok_inv H.
  pose proof (buffer_next_numbering _ _ Hceil H1) as S1.
  intros C N. destruct (S1 C N) as (C1 & N1 & Hc1).
  assert (S2 : WriteBufferFromS3.numbering_step etag_of s1 s2).
  { destruct (WriteBufferFromS3.empty (WriteBufferFromS3.multipart_upload_id s1)) eqn:Hopen.
    - apply buffer_numbering_step_of_wait_step.
      exact (buffer_makeSinglepartUpload_wait_step client etag_of client_accepts _ _ _ H2).
    - apply (buffer_writePart_numbering s1 s2); [rewrite Hc1; exact Hceil|exact Hopen|exact H2]. }
  destruct (S2 C1 N1) as (C2 & N2 & Hc2).
  destruct (buffer_numbering_step_front s2 (WriteBufferFromS3.set_is_prefinalized true s2)
              eq_refl eq_refl eq_refl eq_refl eq_refl C2 N2) as (C' & N' & Hc').
  split; [exact C'|]. split; [exact N'|]. cbn in *. congruence.
Qed.

(** A finalization that returns has numbered its parts and emptied its
    queue. *)
Lemma buffer_finalizeImpl_numbering (s s' : WriteBufferFromS3.State) :
  is_size_t (max_part_number (WriteBufferFromS3.settings (WriteBufferFromS3.config s)) + 1) ->
  WriteBufferFromS3.finalizeImpl client s = Ok tt s' ->
  WriteBufferFromS3.on_course etag_of s -> WriteBufferFromS3.numbered etag_of s ->
  WriteBufferFromS3.numbered etag_of s' /\ WriteBufferFromS3.upload_object_tasks s' = [].
Proof.
  intros Hceil H C N. unfold WriteBufferFromS3.finalizeImpl in H.
  cbn [bind gets] in H.
  apply bind_ok in H. destruct H as ([] & s1 & H1 & H).
  assert (S1 : WriteBufferFromS3.numbering_step etag_of s s1).
  { destruct (negb _); [exact (buffer_preFinalize_numbering _ _ Hceil H1)|].
    cbv [ret] in H1. ok_inv H1. apply buffer_numbering_step_refl. }
  destruct (S1 C N) as (C1 & N1 & Hc1). clear H1.
  apply bind_ok in H. destruct H as ([] & s2 & H2 & H). cbn [bind gets] in H.
  destruct (buffer_waitForAllBackGroundTasks_wait_step client etag_of client_accepts _ _ C1 H2)
    as (C2 & Hp2 & Hnil).
  destruct (buffer_numbering_step_of_wait_step s1 s2 ltac:(intros _; split; assumption) C1 N1)
    as (_ & N2 & _).
  apply bind_ok in H. destruct H as ([] & s3 & H3 & H). cbn [bind gets] in H.
  assert (K3 : keeps WriteBufferFromS3.queue_state s2 s3).
  { match type of H3 with
    | (if ?b then _ else _) _ = _ => destruct b; [|cbv [ret] in H3; ok_inv H3; reflexivity]
    end.
    exact (preserves_ok _ _ _ _ _ (buffer_completeMultipartUpload_queue_state client) H3). }
  assert (K4 : keeps WriteBufferFromS3.queue_state s3 s').
  { match type of H with
    | (if ?b then _ else _) _ = _ => destruct b; [|cbv [ret] in H; ok_inv H; reflexivity]
    end.
    exact (preserves_ok _ _ _ _ _ (buffer_checkObjectExists_queue_state client) H). }
  pose proof (keeps_trans _ _ _ _ K3 K4) as K.
  destruct (buffer_numbering_step_of_wait_step s2 s'
              (buffer_wait_step_same etag_of _ _ K) C2 N2) as (_ & N' & _).
  split; [exact N'|].
  pose proof (f_equal snd K) as T. cbn in T. congruence.
Qed.

(** The tags that a streaming write with a thread pool has collected when
    it returns are those of part requests numbered 1, 2, 3, ... *)
Lemma buffer_streaming_write_numbered (cfg : WriteBufferFromS3.Config)
    (script : list (list WriteBufferFromS3.PoolEvent)) (chunks : list Z)
    (s' : WriteBufferFromS3.State) :
  WriteBufferFromS3.schedule cfg = true ->
  0 <= max_part_number (WriteBufferFromS3.settings cfg) < SIZE_MODULUS - 1 ->
  WriteBufferFromS3.streaming_write client chunks (WriteBufferFromS3.construct cfg script)
  = Ok tt s' ->
  WriteBufferFromS3.upload_object_tasks s' = [] /\
  exists reqs, in_part_number_order reqs /\ WriteBufferFromS3.part_tags s' = map etag_of reqs.
Proof.
  intros Hsched Hmax H. unfold WriteBufferFromS3.streaming_write in H.
  apply bind_ok in H. destruct H as ([] & s1 & H1 & H2).
  assert (Hceil : is_size_t (max_part_number (WriteBufferFromS3.settings cfg) + 1))
    by (unfold is_size_t; lia).
  assert (C : WriteBufferFromS3.on_course etag_of (WriteBufferFromS3.construct cfg script)).
  { split; [exact Hsched|]. cbn. repeat split; constructor. }
  assert (N : WriteBufferFromS3.numbered etag_of (WriteBufferFromS3.construct cfg script)).
  { exists []. split; [reflexivity|]. split; [apply in_part_number_order_nil|].
    split; [reflexivity|]. cbn. lia. }
  destruct (buffer_write_all_numbering chunks (WriteBufferFromS3.construct cfg script) s1
              Hceil H1 C N) as (C1 & N1 & Hc1).
  destruct (buffer_finalizeImpl_numbering s1 s' ltac:(rewrite Hc1; exact Hceil) H2 C1 N1)
    as ((reqs & Htags & Hord & _) & Hnil).
  split; [exact Hnil|]. exists reqs. split; [exact Hord|].
  unfold WriteBufferFromS3.eventual_tags in Htags. rewrite Hnil in Htags. cbn in Htags.
  rewrite app_nil_r in Htags. exact Htags.
Qed.

End BufferNumbers.

(** From a result that returned to its equation. *)
Lemma returns_normally_ok {S : Type} (r : Result S unit) :
  returns_normally r = true -> r = Ok tt (final_state r).
Proof. destruct r as [[] s| | | |]; try discriminate. reflexivity. Qed.

(** C7. The server tags every part it is sent, in the same way whatever it
    was sent before, and opens the upload in the same way. Then two runs of
    a multipart upload with a thread pool that differ only in what the
    thread pool does when, and that both return, have collected the same
    list of tags; and it is the list of the tags of part requests that are
    numbered 1, 2, 3, ... in this order. This holds for the multipart upload
    of [copyDataToS3File] and [copyS3File] and for the streaming buffer. *)
Theorem tag_list_ignores_completion_order (client : Client) (etag_of : Request -> string) :
  (forall history r, is_upload r = true -> client history r = Success (etag_of r)) ->
  (forall history,
     client history CreateMultipartUploadRequest = client [] CreateMultipartUploadRequest) ->
  (forall cfg start_offset size script1 script2,
     UploadHelper.schedule cfg = true ->
     is_size_t start_offset -> is_size_t size ->
     settings_in_range (UploadHelper.settings cfg) ->
     let r1 := UploadHelper.performMultipartUpload client start_offset size
                 (UploadHelper.construct cfg script1) in
     let r2 := UploadHelper.performMultipartUpload client start_offset size
                 (UploadHelper.construct cfg script2) in
     returns_normally r1 = true -> returns_normally r2 = true ->
     UploadHelper.part_tags (final_state r1) = UploadHelper.part_tags (final_state r2) /\
     exists reqs,
       in_part_number_order reqs /\
       UploadHelper.part_tags (final_state r1) = map etag_of reqs) /\
  (forall cfg chunks script1 script2,
     WriteBufferFromS3.schedule cfg = true ->
     0 <= max_part_number (WriteBufferFromS3.settings cfg) < SIZE_MODULUS - 1 ->
     let r1 := WriteBufferFromS3.streaming_write client chunks
                 (WriteBufferFromS3.construct cfg script1) in
     let r2 := WriteBufferFromS3.streaming_write client chunks
                 (WriteBufferFromS3.construct cfg script2) in
     returns_normally r1 = true -> returns_normally r2 = true ->
     WriteBufferFromS3.part_tags (final_state r1) = WriteBufferFromS3.part_tags (final_state r2) /\
     exists reqs,
       in_part_number_order reqs /\
       WriteBufferFromS3.part_tags (final_state r1) = map etag_of reqs).
Proof.
  intros Haccepts Hcreate. split.
  - intros cfg start_offset size script1 script2 Hsched Hstart Hsize Hrange r1 r2 Hr1 Hr2.
    apply returns_normally_ok in Hr1, Hr2.
    assert (Hlike : UploadHelper.alike etag_of (UploadHelper.construct cfg script1)
                      (UploadHelper.construct cfg script2)).
    { assert (C : forall script, UploadHelper.on_course etag_of
                                   (UploadHelper.construct cfg script)).
      { intros script. split; [exact Hsched|]. repeat split. constructor. }
      split; [apply C|]. split; [apply C|reflexivity]. }
    split.
    + exact (proj1 (copy_performMultipartUpload_alike client etag_of Haccepts Hcreate
                      _ _ _ _ _ _ Hlike Hr1 Hr2)).
    + exact (copy_performMultipartUpload_numbered client etag_of Haccepts
               cfg script1 start_offset size _ Hsched Hstart Hsize Hrange Hr1).
  - intros cfg chunks script1 script2 Hsched Hmax r1 r2 Hr1 Hr2.
    apply returns_normally_ok in Hr1, Hr2.
    assert (Hlike : WriteBufferFromS3.alike etag_of (WriteBufferFromS3.construct cfg script1)
                      (WriteBufferFromS3.construct cfg script2)).
    { assert (C : forall script, WriteBufferFromS3.on_course etag_of
                                   (WriteBufferFromS3.construct cfg script)).
      { intros script. split; [exact Hsched|]. cbn. repeat split; constructor. }
      split; [apply C|]. split; [apply C|reflexivity]. }
    destruct (buffer_streaming_write_numbered client etag_of Haccepts cfg script1 chunks _
                Hsched Hmax Hr1) as (Hnil1 & Hreqs).
    destruct (buffer_streaming_write_numbered client etag_of Haccepts cfg script2 chunks _
                Hsched Hmax Hr2) as (Hnil2 & _).
    split; [|exact Hreqs].
    assert (Hagrees : agrees (WriteBufferFromS3.alike etag_of)
                        (WriteBufferFromS3.streaming_write client chunks)).
    { unfold WriteBufferFromS3.streaming_write. apply agrees_bind.
      - apply (buffer_write_all_agrees client etag_of Haccepts Hcreate).
      - intros _. apply (buffer_finalizeImpl_agrees client etag_of Haccepts Hcreate). }
    destruct (Hagrees _ _ _ _ _ _ Hlike Hr1 Hr2) as (_ & _ & _ & Hp).
    pose proof (f_equal snd Hp) as He. cbn in He.
    unfold WriteBufferFromS3.eventual_tags in He. rewrite Hnil1, Hnil2 in He.
    cbn in He. rewrite !app_nil_r in He. exact He.
Qed.

Lemma tag_list_ignores_completion_order_witness :
  (let r1 := UploadHelper.performMultipartUpload Samples.labelling_client 0 30
               (UploadHelper.construct Samples.scheduled_copy []) in
   let r2 := UploadHelper.performMultipartUpload Samples.labelling_client 0 30
               (UploadHelper.construct Samples.scheduled_copy Samples.last_part_first) in
   UploadHelper.part_tags (final_state r1) = UploadHelper.part_tags (final_state r2) /\
   UploadHelper.part_tags (final_state r1) = ["1"; "2"; "3"]) /\
  (let r1 := WriteBufferFromS3.streaming_write Samples.labelling_client [15; 15; 15; 15; 15]
               (WriteBufferFromS3.construct Samples.scheduled_buffer []) in
   let r2 := WriteBufferFromS3.streaming_write Samples.labelling_client [15; 15; 15; 15; 15]
               (WriteBufferFromS3.construct Samples.scheduled_buffer Samples.last_task_first) in
   WriteBufferFromS3.part_tags (final_state r1) = WriteBufferFromS3.part_tags (final_state r2) /\
   WriteBufferFromS3.part_tags (final_state r1) = ["1"; "2"; "3"]).
Proof.
  assert (Haccepts : forall history r,
             is_upload r = true ->
             Samples.labelling_client history r = Success (Samples.part_etag r)).
  { intros history r Hr. unfold Samples.labelling_client. rewrite Hr. reflexivity. }
  assert (Hcreate : forall history,
             Samples.labelling_client history CreateMultipartUploadRequest
             = Samples.labelling_client [] CreateMultipartUploadRequest).
  { intros history. reflexivity. }
  destruct (tag_list_ignores_completion_order Samples.labelling_client Samples.part_etag
              Haccepts Hcreate) as (Hcopy & Hbuffer).
  split.
  - split; [|vm_compute; reflexivity].
    apply (Hcopy Samples.scheduled_copy 0 30 [] Samples.last_part_first).
    + reflexivity.
    + unfold is_size_t, SIZE_MODULUS. lia.
    + unfold is_size_t, SIZE_MODULUS. lia.
    + unfold settings_in_range, is_size_t, SIZE_MODULUS. cbn. lia.
    + vm_compute. reflexivity.
    + vm_compute. reflexivity.
  - split; [|vm_compute; reflexivity].
    apply (Hbuffer Samples.scheduled_buffer [15; 15; 15; 15; 15] [] Samples.last_task_first).
    + reflexivity.
    + unfold SIZE_MODULUS. cbn. lia.
    + vm_compute. reflexivity.
    + vm_compute. reflexivity.
Defined.

(** ** The part size the planner chooses

    X1. For a total size [T > 0] and a policy with [min_upload_part_size > 0],
    [max_part_number > 0] and [min_upload_part_size <= max_upload_part_size],
    when neither [T + max_upload_part_size] nor [T + max_part_number] wraps
    around, [calculatePartSize] returns exactly when [max_part_number] parts
    of [max_upload_part_size] bytes hold [T]; the part size it stores is
    then the larger of [min_upload_part_size] and
    [ceil(T / max_part_number)]. A larger [T] is refused with an exception
    of the code [INVALID_CONFIG_PARAMETER] and the helper is left as it
    was. *)
Theorem calculatePartSize_closed_form (s : UploadHelper.State) (T : Z) :
  let P := UploadHelper.settings (UploadHelper.config s) in
  0 < T -> 0 < min_upload_part_size P -> 0 < max_part_number P ->
  min_upload_part_size P <= max_upload_part_size P ->
  T + max_upload_part_size P < SIZE_MODULUS ->
  T + max_part_number P < SIZE_MODULUS ->
  (T <= max_part_number P * max_upload_part_size P ->
   UploadHelper.calculatePartSize T s =
     Ok tt (UploadHelper.set_normal_part_size
              (std_max (min_upload_part_size P) (ceil_div T (max_part_number P))) s)) /\
  (max_part_number P * max_upload_part_size P < T ->
   exists message,
     UploadHelper.calculatePartSize T s =
       Throw (DBException INVALID_CONFIG_PARAMETER message) s).
Proof.
  intros p Ht Hmin Hmpn Hle Hov1 Hov2.
  unfold UploadHelper.calculatePartSize. fold p. unfold SIZE_MODULUS in *.
  destruct (Z.eqb_spec T 0) as [|_]; [lia|].
  destruct (Z.eqb_spec (max_part_number p) 0) as [|_]; [lia|].
  destruct (Z.eqb_spec (min_upload_part_size p) 0) as [|_]; [lia|].
  destruct (Z.ltb_spec (max_upload_part_size p) (min_upload_part_size p)) as [|_]; [lia|].
  assert (Hw : forall q, 0 < q -> T + q < 2 ^ 64 ->
                 wrap (T + q - 1) / q = ceil_div T q).
  { intros q Hq Hs. unfold wrap, ceil_div, SIZE_MODULUS. rewrite Z.mod_small by lia. reflexivity. }
  rewrite (Hw (min_upload_part_size p)) by lia.
  rewrite (Hw (max_part_number p)) by lia.
  set (np := ceil_div T (min_upload_part_size p)).
  set (c := ceil_div T (max_part_number p)).
  pose proof (ceil_div_bounds T (min_upload_part_size p) Hmin) as Bnp. fold np in Bnp.
  pose proof (ceil_div_bounds T (max_part_number p) Hmpn) as Bc. fold c in Bc.
  assert (Hc : 0 < c) by nia.
  assert (Hcle : c <= T).
  { assert ((c - 1) * 1 <= (c - 1) * max_part_number p)
      by (apply Z.mul_le_mono_nonneg_l; lia).
    lia. }
  assert (Hnp : 1 <= np) by nia.
  unfold std_max.
  destruct (Z.ltb_spec (max_part_number p) np) as [Hbig | Hsmall].
  - assert (Hcmin : min_upload_part_size p < c).
    { destruct (Z_lt_ge_dec (min_upload_part_size p) c) as [|Hge]; [assumption|].
      assert (c * max_part_number p <= min_upload_part_size p * max_part_number p)
        by (apply Z.mul_le_mono_nonneg_r; lia).
      assert (max_part_number p * min_upload_part_size p <= (np - 1) * min_upload_part_size p)
        by (apply Z.mul_le_mono_nonneg_r; lia).
      lia. }
    destruct (Z.eqb_spec c 0) as [|_]; [lia|].
    destruct (Z.ltb_spec (min_upload_part_size p) c) as [_|]; [|lia].
    destruct (Z.ltb_spec (max_upload_part_size p) c) as [Hclamp | Hnoclamp].
    + rewrite (Hw (max_upload_part_size p)) by lia.
      pose proof (ceil_div_bounds T (max_upload_part_size p) ltac:(lia)) as Bn2.
      set (parts := ceil_div T (max_upload_part_size p)) in *.
      assert (Hover : max_part_number p * max_upload_part_size p < T).
      { assert (max_part_number p * (max_upload_part_size p + 1) <= max_part_number p * c)
          by (apply Z.mul_le_mono_nonneg_l; lia).
        lia. }
      assert (H1 : 1 <= parts) by nia.
      assert (H2 : max_part_number p < parts).
      { destruct (Z_lt_ge_dec (max_part_number p) parts) as [|Hge]; [assumption|].
        assert (parts * max_upload_part_size p <= max_part_number p * max_upload_part_size p)
          by (apply Z.mul_le_mono_nonneg_r; lia).
        lia. }
      split; [lia|intros _].
      destruct (Z.ltb_spec parts 1); [lia|].
      destruct (Z.ltb_spec (max_part_number p) parts); [|lia].
      eexists. reflexivity.
    + rewrite (Hw c) by lia.
      pose proof (ceil_div_bounds T c Hc) as Bn1.
      set (parts := ceil_div T c) in *.
      assert (H1 : 1 <= parts) by nia.
      assert (H2 : parts <= max_part_number p) by nia.
      assert (Hfit : T <= max_part_number p * max_upload_part_size p).
      { assert (max_part_number p * c <= max_part_number p * max_upload_part_size p)
          by (apply Z.mul_le_mono_nonneg_l; lia).
        lia. }
      split; [intros _|lia].
      repeat match goal with
             | |- context [Z.ltb ?a ?b] => destruct (Z.ltb_spec a b); try lia
             end.
      reflexivity.
  - assert (Hcmin : c <= min_upload_part_size p).
    { destruct (Z_lt_ge_dec (min_upload_part_size p) c) as [Hlt|]; [|lia].
      assert (np * min_upload_part_size p <= max_part_number p * min_upload_part_size p)
        by (apply Z.mul_le_mono_nonneg_r; lia).
      assert (min_upload_part_size p * max_part_number p <= (c - 1) * max_part_number p)
        by (apply Z.mul_le_mono_nonneg_r; lia).
      lia. }
    assert (Hfit : T <= max_part_number p * max_upload_part_size p).
    { assert (np * min_upload_part_size p <= max_part_number p * min_upload_part_size p)
        by (apply Z.mul_le_mono_nonneg_r; lia).
      assert (max_part_number p * min_upload_part_size p <= max_part_number p * max_upload_part_size p)
        by (apply Z.mul_le_mono_nonneg_l; lia).
      lia. }
    destruct (Z.eqb_spec (min_upload_part_size p) 0) as [|_]; [lia|].
    destruct (Z.ltb_spec (min_upload_part_size p) c) as [|_]; [lia|].
    split; [intros _|lia].
    repeat match goal with
           | |- context [Z.ltb ?a ?b] => destruct (Z.ltb_spec a b); try lia
           end.
    reflexivity.
Qed.

Lemma calculatePartSize_closed_form_witness :
  let s := UploadHelper.construct
             (Samples.copy_config UploadHelper.CopyDataToFileHelper 1 false 0 100) [] in
  UploadHelper.calculatePartSize 100 s = Ok tt (UploadHelper.set_normal_part_size 20 s) /\
  exists message,
    UploadHelper.calculatePartSize 251 s =
      Throw (DBException INVALID_CONFIG_PARAMETER message) s.
Proof.
  intros s. split.
  - apply (calculatePartSize_closed_form s 100); simpl; unfold SIZE_MODULUS; lia.
  - apply (calculatePartSize_closed_form s 251); simpl; unfold SIZE_MODULUS; lia.
Defined.

(** ** The parts of a multipart upload *)

Lemma tiles_length (normal : Z) (reqs : list Request) :
  0 < normal ->
  forall position end_position,
  tiles normal position end_position reqs ->
  Z.of_nat (List.length reqs) = ceil_div (end_position - position) normal.
Proof.
  intros Hn. induction reqs as [|r rest IH]; intros position end_position H; cbn [tiles] in H.
  - subst. rewrite Z.sub_diag. unfold ceil_div. cbn [List.length].
    rewrite Z.div_small by lia. reflexivity.
  - destruct H as (Hlt & _ & Hrest). apply IH in Hrest.
    cbn [List.length]. rewrite Nat2Z.inj_succ, Hrest. unfold std_min.
    destruct (Z.ltb_spec (end_position - position) normal) as [Hlast|Hfull].
    + replace (end_position - (position + (end_position - position))) with 0 by lia.
      symmetry. apply ceil_div_unique; [exact Hn|].
      unfold ceil_div. rewrite Z.div_small by lia. lia.
    + symmetry. apply ceil_div_unique; [exact Hn|].
      pose proof (ceil_div_bounds (end_position - (position + normal)) normal Hn). lia.
Qed.

Lemma copy_fillUploadPartRequest_range (part_number position size : Z) (s : UploadHelper.State) :
  0 < size -> 0 <= position -> position + size <= SIZE_MODULUS ->
  exists r,
    UploadHelper.fillUploadPartRequest part_number position size s = Ok r s /\
    is_upload r = true /\
    part_number_of r = static_cast_int part_number /\
    part_range r = Some (position, size).
Proof.
  intros Hsize Hpos Hfit. unfold UploadHelper.fillUploadPartRequest. cbn [bind gets].
  destruct (UploadHelper.helper_class (UploadHelper.config s)); eexists;
    (split; [reflexivity|]); (split; [reflexivity|]); (split; [reflexivity|]).
  - reflexivity.
  - cbn [part_range]. rewrite wrap_small by (unfold is_size_t; lia).
    f_equal. f_equal. lia.
Qed.

(** Without a thread pool [uploadPart] sends the part itself: it returns
    only when the server accepted the part, with the tag recorded. *)
Lemma copy_uploadPart_inline (client : Client) (part_number position size : Z) (r : Request)
    (s s' : UploadHelper.State) :
  UploadHelper.schedule (UploadHelper.config s) = false ->
  UploadHelper.multipart_upload_aborted s = false ->
  size <> 0 ->
  UploadHelper.fillUploadPartRequest part_number position size s = Ok r s ->
  UploadHelper.uploadPart client part_number position size s = Ok tt s' ->
  exists etag,
    client (UploadHelper.trace s) r = Success etag /\
    s' = UploadHelper.set_part_tags (UploadHelper.part_tags s ++ [etag])
           (UploadHelper.set_trace (UploadHelper.trace s ++ [(r, Success etag)]) s).
Proof.
  intros Hsched Hab Hsize Hfill H. unfold UploadHelper.uploadPart in H.
  destruct (Z.eqb_spec size 0) as [|_]; [contradiction|].
  cbn [bind gets] in H. rewrite Hsched in H.
  unfold bind at 1 in H. rewrite Hfill in H.
  apply bind_ok in H. destruct H as (task & s1 & H1 & H2).
  unfold UploadHelper.processUploadTask, bind, gets in H1. rewrite Hab in H1.
  unfold UploadHelper.processUploadTask_request in H1.
  cbn [UploadHelper.req UploadHelper.with_req UploadHelper.new_task] in H1.
  unfold UploadHelper.processUploadPartRequest, bind, gets, UploadHelper.send in H1.
  cbv zeta in H1.
  destruct (client (UploadHelper.trace s) r) as [etag|e].
  - cbn [ret] in H1. ok_inv H1. cbn [modify] in H2. ok_inv H2.
    exists etag. split; reflexivity.
  - cbn [UploadHelper.abortMultipartUpload bind gets modify UploadHelper.send] in H1.
    destruct (UploadHelper.helper_class _); discriminate.
Qed.

(** The loop of [performMultipartUpload] without a thread pool: when it
    returns, it has sent one part after the other, each accepted by the
    server, and recorded their tags. *)
Lemma copy_upload_parts_loop_inline (client : Client) (fuel : nat) :
  forall part_number position end_position s s' reqs,
  UploadHelper.schedule (UploadHelper.config s) = false ->
  UploadHelper.multipart_upload_aborted s = false ->
  in_part_number_order reqs ->
  part_number = wrap (Z.of_nat (List.length reqs) + 1) ->
  Z.of_nat (List.length reqs) + Z.of_nat fuel < SIZE_MODULUS ->
  0 < UploadHelper.normal_part_size s ->
  0 <= position <= end_position ->
  end_position + UploadHelper.normal_part_size s <= SIZE_MODULUS ->
  UploadHelper.upload_parts_loop client fuel part_number position end_position s = Ok tt s' ->
  exists added tags,
    s' = UploadHelper.set_part_tags (UploadHelper.part_tags s ++ tags)
           (UploadHelper.set_trace
              (UploadHelper.trace s ++ combine added (map Success tags)) s) /\
    List.length tags = List.length added /\
    tiles (UploadHelper.normal_part_size s) position end_position added /\
    in_part_number_order (reqs ++ added).
Proof.
  induction fuel as [|fuel IH];
    intros part_number position end_position s s' reqs Hsched Hab Hord Hpn Hfuel Hnormal Hpos
      Hend H;
    cbn [UploadHelper.upload_parts_loop] in H;
    destruct (Z.ltb_spec position end_position) as [Hlt|Hge];
    cbv beta iota in H;
    try discriminate;
    try (ok_inv H; exists [], []; rewrite !app_nil_r; cbn [combine map tiles];
         split; [destruct s'; reflexivity|]; split; [reflexivity|]; split; [lia|assumption]).
  cbn [bind gets] in H. rewrite Hab in H. cbn [bind gets] in H.
  apply bind_ok in H. destruct H as ([] & s1 & H1 & H2).
  set (normal := UploadHelper.normal_part_size s) in *.
  assert (Hnext : std_min (wrap (position + normal)) end_position
                  = position + std_min normal (end_position - position)).
  { rewrite wrap_small by (unfold is_size_t; lia). unfold std_min.
    destruct (Z.ltb_spec end_position (position + normal));
      destruct (Z.ltb_spec (end_position - position) normal); lia. }
  rewrite Hnext in H1, H2.
  set (len := std_min normal (end_position - position)) in *.
  assert (Hlen : 0 < len <= normal /\ position + len <= end_position).
  { unfold len, std_min. destruct (Z.ltb_spec (end_position - position) normal); lia. }
  replace (wrap (position + len - position)) with len in H1
    by (replace (position + len - position) with len by lia;
        symmetry; apply wrap_small; unfold is_size_t; lia).
  destruct (copy_fillUploadPartRequest_range part_number position len s)
    as (r & Hfill & Hup & Hnum & Hrange); try lia.
  destruct (copy_uploadPart_inline client part_number position len r s s1 Hsched Hab
              ltac:(lia) Hfill H1)
    as (etag & Hanswer & Hs1).
  apply (IH _ _ _ s1 s' (reqs ++ [r])) in H2.
  - destruct H2 as (added & tags & Hs' & Hlens & Htiles & Hord').
    exists (r :: added), (etag :: tags).
    split; [|split; [cbn [List.length]; congruence|split]].
    + rewrite Hs', Hs1. cbn. rewrite <- !app_assoc. reflexivity.
    + cbn [tiles]. fold len. split; [exact Hlt|]. split; [exact Hrange|].
      rewrite Hs1 in Htiles. exact Htiles.
    + rewrite <- app_assoc in Hord'. exact Hord'.
  - rewrite Hs1. exact Hsched.
  - rewrite Hs1. exact Hab.
  - apply in_part_number_order_app; [exact Hord|exact Hup|]. rewrite Hnum, Hpn.
    rewrite wrap_small by (unfold is_size_t; lia). reflexivity.
  - rewrite length_app, Hpn. cbn [List.length].
    rewrite (wrap_small (Z.of_nat (List.length reqs) + 1)) by (unfold is_size_t; lia).
    f_equal. lia.
  - rewrite length_app. cbn [List.length]. lia.
  - rewrite Hs1. exact Hnormal.
  - lia.
  - rewrite Hs1. exact Hend.
Qed.

Section CopyTiles.

Variable client : Client.
Variable etag_of : Request -> string.

Hypothesis client_accepts :
  forall history r, is_upload r = true -> client history r = Success (etag_of r).

(** The loop of [performMultipartUpload] with a thread pool: the tasks it
    has queued when it returns hold one part after the other. *)
Lemma copy_upload_parts_loop_scheduled (fuel : nat) :
  forall part_number position end_position s s',
  UploadHelper.on_course etag_of s ->
  0 < UploadHelper.normal_part_size s ->
  0 <= position <= end_position ->
  end_position + UploadHelper.normal_part_size s <= SIZE_MODULUS ->
  UploadHelper.upload_parts_loop client fuel part_number position end_position s = Ok tt s' ->
  exists added,
    UploadHelper.on_course etag_of s' /\
    map UploadHelper.req (UploadHelper.bg_tasks s')
    = map UploadHelper.req (UploadHelper.bg_tasks s) ++ map Some added /\
    tiles (UploadHelper.normal_part_size s) position end_position added /\
    UploadHelper.normal_part_size s' = UploadHelper.normal_part_size s.
Proof.
  induction fuel as [|fuel IH];
    intros part_number position end_position s s' Hs Hnormal Hpos Hend H;
    cbn [UploadHelper.upload_parts_loop] in H;
    destruct (Z.ltb_spec position end_position) as [Hlt|Hge];
    cbv beta iota in H;
    try discriminate;
    try (ok_inv H; exists []; rewrite app_nil_r; cbn [tiles];
         split; [assumption|]; split; [reflexivity|]; split; [lia|reflexivity]).
  cbn [bind gets] in H. pose proof Hs as (Hsched & Hab & _). rewrite Hab in H.
  cbn [bind gets] in H.
  apply bind_ok in H. destruct H as ([] & s1 & H1 & H2).
  set (normal := UploadHelper.normal_part_size s) in *.
  assert (Hnext : std_min (wrap (position + normal)) end_position
                  = position + std_min normal (end_position - position)).
  { rewrite wrap_small by (unfold is_size_t; lia). unfold std_min.
    destruct (Z.ltb_spec end_position (position + normal));
      destruct (Z.ltb_spec (end_position - position) normal); lia. }
  rewrite Hnext in H1, H2.
  set (len := std_min normal (end_position - position)) in *.
  assert (Hlen : 0 < len <= normal /\ position + len <= end_position).
  { unfold len, std_min. destruct (Z.ltb_spec (end_position - position) normal); lia. }
  replace (wrap (position + len - position)) with len in H1
    by (replace (position + len - position) with len by lia;
        symmetry; apply wrap_small; unfold is_size_t; lia).
  destruct (copy_fillUploadPartRequest_range part_number position len s)
    as (r & Hfill & Hup & Hnum & Hrange); try lia.
  assert (Hfill' : forall s2,
             UploadHelper.config s2 = UploadHelper.config s ->
             UploadHelper.multipart_upload_id s2 = UploadHelper.multipart_upload_id s ->
             UploadHelper.fillUploadPartRequest part_number position len s2 = Ok r s2).
  { intros s2 Hc Hid. unfold UploadHelper.fillUploadPartRequest in Hfill |- *.
    cbn [bind gets] in Hfill |- *. rewrite Hc, Hid.
    destruct (UploadHelper.helper_class (UploadHelper.config s));
      cbn [ret] in Hfill |- *; ok_inv Hfill; reflexivity. }
  assert (Hnz : len <> 0) by lia.
  rewrite (copy_uploadPart_scheduled client _ _ _ r s Hsched Hnz Hfill') in H1.
  assert (Hqueue : UploadHelper.alike etag_of (UploadHelper.enqueue r s)
                     (UploadHelper.enqueue r s)).
  { apply alike_enqueue; [exact Hup|]. split; [exact Hs|]. split; [exact Hs|reflexivity]. }
  destruct Hqueue as (Hq & _).
  destruct (copy_pool_turn_pool_step client etag_of client_accepts _ _ _ H1 Hq)
    as (Hs1 & Hp1 & _).
  unfold UploadHelper.plan in Hp1. cbn in Hp1. injection Hp1 as _ Hn1 _ Hm1.
  apply (IH _ _ _ s1 s') in H2; try assumption.
  - destruct H2 as (added & Hs' & Hm & Htiles & Hn').
    exists (r :: added). split; [exact Hs'|]. split; [|split].
    + rewrite Hm, Hm1, map_app, <- app_assoc. reflexivity.
    + cbn [tiles]. fold normal len. split; [exact Hlt|]. split; [exact Hrange|].
      rewrite Hn1 in Htiles. exact Htiles.
    + rewrite Hn', Hn1. reflexivity.
  - rewrite Hn1. exact Hnormal.
  - lia.
  - rewrite Hn1. exact Hend.
Qed.

End CopyTiles.

Lemma copy_completeMultipartUpload_sends (client : Client) (s : UploadHelper.State) :
  exists sent lg,
    final_state (UploadHelper.completeMultipartUpload client s)
    = UploadHelper.set_log lg (UploadHelper.set_trace (UploadHelper.trace s ++ sent) s) /\
    Forall (fun entry => is_complete (fst entry) = true) sent.
Proof.
  assert (Hnone : exists sent lg,
             s = UploadHelper.set_log lg
                   (UploadHelper.set_trace (UploadHelper.trace s ++ sent) s) /\
             Forall (fun entry => is_complete (fst entry) = true) sent).
  { exists [], (UploadHelper.log s). rewrite app_nil_r.
    split; [destruct s; reflexivity|constructor]. }
  unfold UploadHelper.completeMultipartUpload. cbn [bind gets].
  destruct (UploadHelper.multipart_upload_aborted s); [exact Hnone|].
  cbn [bind gets]. destruct (UploadHelper.part_tags s) as [|t tags]; [exact Hnone|].
  cbn [bind gets].
  match goal with
  | |- context [UploadHelper.complete_retry_loop client ?fuel ?k ?m ?request s] =>
      destruct (copy_complete_retry_loop_sends client request m fuel k s)
        as (sent & lg & Hfin & Hall & _)
  end.
  exists sent, lg. split; [exact Hfin|].
  revert Hall. apply Forall_impl. intros entry ->. reflexivity.
Qed.

Lemma filter_upload_combine (reqs : list Request) (outcomes : list Outcome) :
  Forall (fun r => is_upload r = true) reqs ->
  filter (fun entry : Request * Outcome => is_upload (fst entry)) (combine reqs outcomes)
  = combine reqs outcomes.
Proof.
  intros Hall. revert outcomes. induction Hall as [|r reqs Hr Hall IH]; intros outcomes.
  - reflexivity.
  - destruct outcomes as [|o outcomes]; [reflexivity|].
    cbn [combine filter fst]. rewrite Hr, IH. reflexivity.
Qed.

Lemma filter_upload_none (sent : Trace) :
  Forall (fun entry => is_complete (fst entry) = true) sent ->
  filter (fun entry : Request * Outcome => is_upload (fst entry)) sent = [].
Proof.
  induction 1 as [|[r o] sent Hr Hall IH]; [reflexivity|].
  cbn [filter fst] in *. destruct r; try discriminate. exact IH.
Qed.

Lemma map_Some_inj {A} (l1 l2 : list A) : map Some l1 = map Some l2 -> l1 = l2.
Proof.
  revert l2. induction l1 as [|x l1 IH]; intros [|y l2] H; try discriminate; [reflexivity|].
  cbn [map] in H. injection H as -> H. rewrite (IH _ H). reflexivity.
Qed.

(** X2. When [start_offset + size + max_upload_part_size] does not
    exceed 2^64, so that no position of the loop wraps around (the numbers
    of the policy being [size_t] values), a multipart upload of
    [copyDataToS3File] or [copyS3File] that returns has cut the bytes from
    [start_offset] up to [start_offset + size] into parts that follow one another with no gap and no overlap: every
    part has [normal_part_size] bytes, the last one what is left; the parts
    are numbered 1, 2, 3, ... and there are [ceil(size / normal_part_size)]
    of them. Without a thread pool these are the part requests in the order
    in which they were sent, each accepted by the server, and the tags
    recorded are the ones the server returned; with a thread pool and a
    server that accepts every part they are the requests of the queued
    tasks, and the tags recorded are theirs, in the order of the parts. *)
Theorem multipart_parts_tile_the_range (client : Client) (etag_of : Request -> string)
    (cfg : UploadHelper.Config) (script : list (list UploadHelper.PoolEvent))
    (start_offset size : Z) (s' : UploadHelper.State) :
  is_size_t start_offset -> is_size_t size ->
  settings_in_range (UploadHelper.settings cfg) ->
  start_offset + size + max_upload_part_size (UploadHelper.settings cfg) <= SIZE_MODULUS ->
  UploadHelper.performMultipartUpload client start_offset size
    (UploadHelper.construct cfg script) = Ok tt s' ->
  let normal := UploadHelper.normal_part_size s' in
  (UploadHelper.schedule cfg = false ->
   let sent := filter (fun entry => is_upload (fst entry)) (UploadHelper.trace s') in
   tiles normal start_offset (start_offset + size) (map fst sent) /\
   in_part_number_order (map fst sent) /\
   Z.of_nat (List.length sent) = ceil_div size normal /\
   map snd sent = map Success (UploadHelper.part_tags s')) /\
  (UploadHelper.schedule cfg = true ->
   (forall history r, is_upload r = true -> client history r = Success (etag_of r)) ->
   exists reqs,
     map UploadHelper.req (UploadHelper.bg_tasks s') = map Some reqs /\
     tiles normal start_offset (start_offset + size) reqs /\
     in_part_number_order reqs /\
     Z.of_nat (List.length reqs) = ceil_div size normal /\
     UploadHelper.part_tags s' = map etag_of reqs).
Proof.
  intros Hstart Hsize Hrange Hfit H normal.
  unfold UploadHelper.performMultipartUpload in H.
  apply bind_ok in H. destruct H as ([] & a & Ha & H).
  destruct (calculatePartSize_returns (UploadHelper.construct cfg script) a size Hsize Hrange Ha)
    as (Hah & Hpos & Hlo & Hhi & Hparts).
  apply bind_ok in H. destruct H as ([] & b & Hb & H).
  assert (Hta : UploadHelper.trace a = []) by (rewrite Hah; reflexivity).
  assert (Hbh : exists upload_id,
             b = UploadHelper.set_multipart_upload_id upload_id
                   (UploadHelper.set_trace
                      [(CreateMultipartUploadRequest, Success upload_id)] a)).
  { unfold UploadHelper.createMultipartUpload, UploadHelper.send, bind in Hb.
    rewrite Hta in Hb. cbn [app] in Hb.
    destruct (client _ _) as [upload_id|e]; [|discriminate].
    cbn [modify] in Hb. ok_inv Hb. eexists. reflexivity. }
  destruct Hbh as (upload_id & Hbh).
  cbn [bind gets] in H.
  apply bind_ok in H. destruct H as ([] & c & Hc & H).
  apply bind_ok in H. destruct H as ([] & d & Hd & H).
  assert (Hn : UploadHelper.normal_part_size b = UploadHelper.normal_part_size a)
    by (rewrite Hbh; reflexivity).
  destruct (copy_completeMultipartUpload_sends client d) as (last & lg & Hfin & Hlast).
  rewrite H in Hfin. cbn [final_state] in Hfin.
  destruct Hrange as (_ & Hmax & _ & _ & Hmpn & _).
  cbn [UploadHelper.config UploadHelper.construct] in Hlo, Hhi, Hparts.
  unfold is_size_t in *.
  assert (Hwrap : wrap (start_offset + size) = start_offset + size)
    by (apply wrap_small; unfold is_size_t; lia).
  rewrite Hwrap in Hc.
  assert (Hfuel : Z.of_nat (Z.to_nat (ceil_div size (UploadHelper.normal_part_size b)))
                  < SIZE_MODULUS).
  { rewrite Hn, Z2Nat.id by lia. lia. }
  assert (Hs' : UploadHelper.normal_part_size s' = UploadHelper.normal_part_size d /\
                UploadHelper.part_tags s' = UploadHelper.part_tags d /\
                UploadHelper.bg_tasks s' = UploadHelper.bg_tasks d /\
                UploadHelper.trace s' = UploadHelper.trace d ++ last).
  { rewrite Hfin. repeat split. }
  destruct Hs' as (Hnormal' & Htags' & Htasks' & Htrace').
  clear Hfin.
  assert (Hcb : UploadHelper.config b = cfg) by (rewrite Hbh, Hah; reflexivity).
  split.
  - intros Hsched.
    apply (copy_upload_parts_loop_inline client _ 1 _ _ b c []) in Hc;
      [ | rewrite Hcb; exact Hsched | rewrite Hbh, Hah; reflexivity
        | exact in_part_number_order_nil | reflexivity | cbn [List.length]; lia
        | rewrite Hn; lia | lia | rewrite Hn; lia ].
    destruct Hc as (added & tags & Hch & Hlens & Htiles & Hord).
    assert (Hdc : d = c).
    { unfold UploadHelper.waitForAllBackGroundTasks in Hd. cbn [bind gets] in Hd.
      assert (Hcs : UploadHelper.schedule (UploadHelper.config c) = false)
        by (rewrite Hch; cbn; rewrite Hcb; exact Hsched).
      rewrite Hcs in Hd. cbn [negb ret] in Hd. ok_inv Hd. reflexivity. }
    subst d.
    assert (Hsent : filter (fun entry => is_upload (fst entry)) (UploadHelper.trace s')
                    = combine added (map Success tags)).
    { rewrite Htrace', Hch, Hbh. cbn [UploadHelper.trace UploadHelper.set_part_tags
        UploadHelper.set_trace UploadHelper.set_multipart_upload_id].
      rewrite !filter_app, (filter_upload_none last Hlast), app_nil_r.
      cbn [filter fst is_upload app]. apply filter_upload_combine.
      destruct Hord as [Hup _]. exact Hup. }
    assert (Hfst : map fst (combine added (map Success tags)) = added).
    { clear - Hlens. revert tags Hlens.
      induction added as [|r added IH]; intros [|t tags] Hlens; try discriminate;
        [reflexivity|].
      cbn. rewrite IH; [reflexivity|]. cbn in Hlens. congruence. }
    assert (Hsnd : map snd (combine added (map Success tags)) = map Success tags).
    { clear - Hlens. revert tags Hlens.
      induction added as [|r added IH]; intros [|t tags] Hlens; try discriminate;
        [reflexivity|].
      cbn. rewrite IH; [reflexivity|]. cbn in Hlens. congruence. }
    assert (Hnormal : normal = UploadHelper.normal_part_size b).
    { unfold normal. rewrite Hnormal', Hch. reflexivity. }
    rewrite Hsent, Hfst, Hsnd, Hnormal. split; [exact Htiles|]. split; [exact Hord|]. split.
    + rewrite <- (length_map fst), Hfst.
      assert (Hb0 : 0 < UploadHelper.normal_part_size b) by (rewrite Hn; lia).
      rewrite (tiles_length _ added Hb0 _ _ Htiles).
      f_equal. lia.
    + rewrite Htags', Hch, Hbh, Hah. rewrite app_nil_l. reflexivity.
  - intros Hsched client_accepts.
    assert (Hcourse : UploadHelper.on_course etag_of b).
    { rewrite Hbh, Hah. repeat split; try assumption. constructor. }
    assert (Htasks : map UploadHelper.req (UploadHelper.bg_tasks b) = map Some []).
    { rewrite Hbh, Hah. reflexivity. }
    pose proof Hc as Hc2.
    apply (copy_upload_parts_loop_numbered client etag_of client_accepts _ _ _ _ _ _ []
             Hcourse Htasks in_part_number_order_nil) in Hc;
      [ | reflexivity | cbn [List.length]; lia | rewrite Hn; lia | exact Hstart
        | unfold is_size_t; lia ].
    destruct Hc as (reqs & Hcc & Hreqs & Hord).
    apply (copy_upload_parts_loop_scheduled client etag_of client_accepts) in Hc2;
      [ | exact Hcourse | rewrite Hn; lia | lia | rewrite Hn; lia ].
    destruct Hc2 as (added & _ & Hadded & Htiles & Hnc).
    rewrite Htasks, Hreqs in Hadded. cbn [map app] in Hadded.
    apply map_Some_inj in Hadded. subst added.
    destruct (copy_waitForAllBackGroundTasks_planned client etag_of client_accepts _ _ Hcc Hd)
      as (Htags & Hplan).
    unfold UploadHelper.plan in Hplan. injection Hplan as _ Hnd _ Hmd.
    exists reqs. unfold normal. rewrite Hnormal', Hnd, Hnc.
    split; [rewrite Htasks', Hmd; exact Hreqs|].
    split; [exact Htiles|]. split; [exact Hord|]. split.
    + assert (Hb0 : 0 < UploadHelper.normal_part_size b) by (rewrite Hn; lia).
      rewrite (tiles_length _ reqs Hb0 _ _ Htiles). f_equal. lia.
    + rewrite Htags', Htags, Hreqs. apply planned_tags_some.
Qed.

Lemma multipart_parts_tile_the_range_witness :
  (let s' := final_state
               (UploadHelper.performMultipartUpload Samples.labelling_client 5 25
                  (UploadHelper.construct
                     (Samples.copy_config UploadHelper.CopyFileHelper 1 false 5 25) [])) in
   let sent := filter (fun entry => is_upload (fst entry)) (UploadHelper.trace s') in
   map fst sent = [UploadPartCopyRequest "upload-1" 1 5 14;
                   UploadPartCopyRequest "upload-1" 2 15 24;
                   UploadPartCopyRequest "upload-1" 3 25 29] /\
   tiles 10 5 30 (map fst sent) /\
   in_part_number_order (map fst sent) /\
   Z.of_nat (List.length sent) = ceil_div 25 10 /\
   map snd sent = map Success (UploadHelper.part_tags s')) /\
  (let s' := final_state
               (UploadHelper.performMultipartUpload Samples.labelling_client 0 30
                  (UploadHelper.construct Samples.scheduled_copy Samples.last_part_first)) in
   exists reqs,
     map UploadHelper.req (UploadHelper.bg_tasks s') = map Some reqs /\
     tiles 10 0 30 reqs /\
     in_part_number_order reqs /\
     Z.of_nat (List.length reqs) = ceil_div 30 10 /\
     UploadHelper.part_tags s' = map Samples.part_etag reqs).
Proof.
  assert (Hrange : settings_in_range Samples.small_policy).
  { unfold settings_in_range, is_size_t, SIZE_MODULUS. cbn. lia. }
  split.
  - intros s' sent. split; [vm_compute; reflexivity|].
    apply (proj1 (multipart_parts_tile_the_range Samples.labelling_client Samples.part_etag
                    (Samples.copy_config UploadHelper.CopyFileHelper 1 false 5 25) [] 5 25 s'
                    ltac:(unfold is_size_t, SIZE_MODULUS; lia)
                    ltac:(unfold is_size_t, SIZE_MODULUS; lia)
                    Hrange
                    ltac:(unfold SIZE_MODULUS; cbn; lia)
                    ltac:(vm_compute; reflexivity))).
    reflexivity.
  - intros s'.
    apply (proj2 (multipart_parts_tile_the_range Samples.labelling_client Samples.part_etag
                    Samples.scheduled_copy Samples.last_part_first 0 30 s'
                    ltac:(unfold is_size_t, SIZE_MODULUS; lia)
                    ltac:(unfold is_size_t, SIZE_MODULUS; lia)
                    Hrange
                    ltac:(unfold SIZE_MODULUS; cbn; lia)
                    ltac:(vm_compute; reflexivity))).
    + reflexivity.
    + intros history r Hr. unfold Samples.labelling_client. rewrite Hr. reflexivity.
Defined.

(** ** An aborted upload is not completed *)

Lemma answered_app (kind : Request -> bool) (t1 t2 : Trace) :
  answered kind (t1 ++ t2) = (answered kind t1 + answered kind t2)%nat.
Proof. unfold answered. rewrite filter_app, length_app. reflexivity. Qed.

Lemma not_completed_refl (s : UploadHelper.State) : UploadHelper.keeps_not_completed s s.
Proof. intros H. exact H. Qed.

Lemma not_completed_trans (s1 s2 s3 : UploadHelper.State) :
  UploadHelper.keeps_not_completed s1 s2 -> UploadHelper.keeps_not_completed s2 s3 ->
  UploadHelper.keeps_not_completed s1 s3.
Proof. intros H1 H2 H. apply H2, H1, H. Qed.

(** A step that sends neither an abort nor a completion, does not take the
    flag back and leaves part requests in the tasks. *)
Lemma not_completed_step (s s' : UploadHelper.State) (sent : Trace) :
  UploadHelper.trace s' = UploadHelper.trace s ++ sent ->
  has_abort sent = false -> answered is_complete sent = 0%nat ->
  (UploadHelper.multipart_upload_aborted s = true ->
   UploadHelper.multipart_upload_aborted s' = true) ->
  (Forall (fun task => forall r, UploadHelper.req task = Some r -> is_upload r = true)
     (UploadHelper.bg_tasks s) ->
   Forall (fun task => forall r, UploadHelper.req task = Some r -> is_upload r = true)
     (UploadHelper.bg_tasks s')) ->
  UploadHelper.keeps_not_completed s s'.
Proof.
  intros Ht Hab Hco Hflag Htasks (Hs1 & Hs2 & Hs3).
  split; [|split].
  - rewrite Ht, has_abort_app, Hab, orb_false_r. intros H. apply Hflag, Hs1, H.
  - rewrite Ht, answered_app, Hs2, Hco. reflexivity.
  - apply Htasks, Hs3.
Qed.

Lemma not_completed_same (s s' : UploadHelper.State) :
  UploadHelper.trace s' = UploadHelper.trace s ->
  UploadHelper.multipart_upload_aborted s' = UploadHelper.multipart_upload_aborted s ->
  UploadHelper.bg_tasks s' = UploadHelper.bg_tasks s ->
  UploadHelper.keeps_not_completed s s'.
Proof.
  intros Ht Hab Htasks. apply (not_completed_step s s' []); try reflexivity.
  - rewrite app_nil_r. exact Ht.
  - rewrite Hab. auto.
  - rewrite Htasks. auto.
Qed.

(** A task is replaced by one with the same request. *)
Lemma not_completed_update_task (i : nat)
    (f : UploadHelper.UploadPartTask -> UploadHelper.UploadPartTask) (s : UploadHelper.State) :
  (forall task, UploadHelper.req (f task) = UploadHelper.req task) ->
  UploadHelper.keeps_not_completed s (UploadHelper.update_task i f s).
Proof.
  intros Hf. apply (not_completed_step _ _ []); try reflexivity.
  - cbn. rewrite app_nil_r. reflexivity.
  - auto.
  - cbn. apply Forall_update_nth. intros task _ Htask r Hr. rewrite Hf in Hr.
    exact (Htask r Hr).
Qed.

Lemma not_completed_task_finish_notify (i : nat) (s : UploadHelper.State) :
  UploadHelper.keeps_not_completed s (UploadHelper.task_finish_notify i s).
Proof.
  unfold UploadHelper.task_finish_notify.
  apply (not_completed_trans _ (UploadHelper.update_task i UploadHelper.finished s)).
  - apply not_completed_update_task. reflexivity.
  - apply not_completed_same; reflexivity.
Qed.

Create HintDb completes.

Ltac not_completed_tac :=
  preserve_with not_completed_refl not_completed_trans;
  try solve [ apply not_completed_same; reflexivity
            | apply not_completed_update_task; reflexivity
            | apply not_completed_task_finish_notify
            | auto with completes ].

Section CopyNotCompleted.

Variable client : Client.

Lemma copy_send_not_completed (r : Request) :
  is_abort r = false -> is_complete r = false ->
  preserves UploadHelper.keeps_not_completed (UploadHelper.send client r).
Proof.
  intros Hab Hco s. cbn.
  apply (not_completed_step _ _ [(r, client (UploadHelper.trace s) r)]); try reflexivity.
  - cbn. rewrite Hab. reflexivity.
  - unfold answered. cbn. rewrite Hco. reflexivity.
  - auto.
  - auto.
Qed.

Lemma copy_LOG_not_completed (m : LogMessage) :
  preserves UploadHelper.keeps_not_completed (UploadHelper.LOG m).
Proof. intros s. apply not_completed_same; reflexivity. Qed.

#[local] Hint Resolve copy_LOG_not_completed : completes.
#[local] Hint Extern 1 (preserves UploadHelper.keeps_not_completed (UploadHelper.send _ _)) =>
  apply copy_send_not_completed; reflexivity : completes.

Lemma copy_createMultipartUpload_not_completed :
  preserves UploadHelper.keeps_not_completed (UploadHelper.createMultipartUpload client).
Proof. unfold UploadHelper.createMultipartUpload. not_completed_tac. Qed.

(** The abort sets the flag. *)
Lemma copy_abortMultipartUpload_not_completed :
  preserves UploadHelper.keeps_not_completed (UploadHelper.abortMultipartUpload client).
Proof.
  intros s (_ & H2 & H3). rewrite copy_abortMultipartUpload_returns.
  unfold UploadHelper.not_completed.
  cbn [final_state UploadHelper.trace UploadHelper.set_trace
       UploadHelper.set_multipart_upload_aborted UploadHelper.multipart_upload_aborted
       UploadHelper.bg_tasks].
  split; [reflexivity|]. split; [|exact H3].
  rewrite answered_app, H2. reflexivity.
Qed.

Lemma copy_calculatePartSize_not_completed (total_size : Z) :
  preserves UploadHelper.keeps_not_completed (UploadHelper.calculatePartSize total_size).
Proof.
  intros s. apply not_completed_same; unfold UploadHelper.calculatePartSize;
    repeat match goal with
           | |- context [if ?b then _ else _] => destruct b
           end; reflexivity.
Qed.

#[local] Hint Resolve copy_createMultipartUpload_not_completed
  copy_abortMultipartUpload_not_completed copy_calculatePartSize_not_completed : completes.

Lemma copy_processUploadPartRequest_not_completed (request : Request) :
  is_upload request = true ->
  preserves UploadHelper.keeps_not_completed
    (UploadHelper.processUploadPartRequest client request).
Proof.
  intros Hup. unfold UploadHelper.processUploadPartRequest. not_completed_tac.
  apply copy_send_not_completed; destruct request; try discriminate; reflexivity.
Qed.

Lemma copy_processUploadTask_not_completed (task : UploadHelper.UploadPartTask) :
  (forall r, UploadHelper.req task = Some r -> is_upload r = true) ->
  preserves UploadHelper.keeps_not_completed (UploadHelper.processUploadTask client task).
Proof.
  intros Hup. unfold UploadHelper.processUploadTask, UploadHelper.processUploadTask_request.
  destruct (UploadHelper.req task) as [r|]; not_completed_tac.
  apply copy_processUploadPartRequest_not_completed, Hup. reflexivity.
Qed.

Lemma copy_task_begins_not_completed (i : nat) :
  preserves UploadHelper.keeps_not_completed (UploadHelper.task_begins i).
Proof.
  intros s. unfold UploadHelper.task_begins.
  destruct (nth_error _ _) as [task|]; [|apply not_completed_refl].
  destruct (UploadHelper.stage task); try apply not_completed_refl.
  destruct (UploadHelper.multipart_upload_aborted s); cbn [final_state].
  - apply not_completed_task_finish_notify.
  - apply not_completed_update_task. reflexivity.
Qed.

Lemma copy_task_ends_not_completed (i : nat) :
  preserves UploadHelper.keeps_not_completed (UploadHelper.task_ends client i).
Proof.
  intros s Hs. unfold UploadHelper.task_ends.
  destruct (nth_error _ _) as [task|] eqn:Hi; [|exact Hs].
  destruct (UploadHelper.stage task); try exact Hs.
  assert (Hup : forall r, UploadHelper.req task = Some r -> is_upload r = true).
  { destruct Hs as (_ & _ & Hall). rewrite Forall_forall in Hall.
    apply Hall. exact (nth_error_In _ _ Hi). }
  unfold UploadHelper.processUploadTask_request.
  destruct (UploadHelper.req task) as [r|]; [|exact Hs].
  pose proof (copy_processUploadPartRequest_not_completed r (Hup r eq_refl) s Hs) as H.
  unfold bind.
  destruct (UploadHelper.processUploadPartRequest client r s) as [etag s1|e s1|s1|s1|s1];
    cbn [final_state ret] in *; try exact H.
  - apply not_completed_task_finish_notify, not_completed_update_task; [reflexivity|exact H].
  - apply not_completed_task_finish_notify, not_completed_update_task; [reflexivity|exact H].
Qed.

#[local] Hint Resolve copy_task_begins_not_completed copy_task_ends_not_completed : completes.

Lemma copy_pool_events_not_completed (evs : list UploadHelper.PoolEvent) :
  preserves UploadHelper.keeps_not_completed (UploadHelper.pool_events client evs).
Proof.
  induction evs as [|ev evs IH]; cbn [UploadHelper.pool_events]; not_completed_tac.
  destruct ev; cbn [UploadHelper.pool_event]; auto with completes.
Qed.

#[local] Hint Resolve copy_pool_events_not_completed : completes.

Lemma copy_pool_turn_not_completed :
  preserves UploadHelper.keeps_not_completed (UploadHelper.pool_turn client).
Proof. unfold UploadHelper.pool_turn. not_completed_tac. Qed.

Lemma copy_pool_finish_not_completed (indices : list nat) :
  preserves UploadHelper.keeps_not_completed (UploadHelper.pool_finish client indices).
Proof.
  induction indices as [|i indices IH]; cbn [UploadHelper.pool_finish]; not_completed_tac.
Qed.

#[local] Hint Resolve copy_pool_turn_not_completed copy_pool_finish_not_completed : completes.

Lemma copy_condvar_wait_not_completed :
  preserves UploadHelper.keeps_not_completed (UploadHelper.condvar_wait client).
Proof. unfold UploadHelper.condvar_wait. not_completed_tac. Qed.

Lemma copy_collect_tags_not_completed (tasks : list UploadHelper.UploadPartTask) :
  preserves UploadHelper.keeps_not_completed (UploadHelper.collect_tags client tasks).
Proof.
  induction tasks as [|task tasks IH]; cbn [UploadHelper.collect_tags]; not_completed_tac.
Qed.

#[local] Hint Resolve copy_condvar_wait_not_completed copy_collect_tags_not_completed
  : completes.

Lemma copy_waitForAllBackGroundTasks_not_completed :
  preserves UploadHelper.keeps_not_completed (UploadHelper.waitForAllBackGroundTasks client).
Proof. unfold UploadHelper.waitForAllBackGroundTasks. not_completed_tac. Qed.

Lemma copy_bind_fill_not_completed {B} (part_number part_offset part_size : Z)
    (k : Request -> M UploadHelper.State B) :
  (forall r, is_upload r = true -> preserves UploadHelper.keeps_not_completed (k r)) ->
  preserves UploadHelper.keeps_not_completed
    (bind (UploadHelper.fillUploadPartRequest part_number part_offset part_size) k).
Proof.
  intros Hk s.
  destruct (copy_fillUploadPartRequest_returns part_number part_offset part_size s)
    as (r & Hup & _ & Hfill).
  unfold bind. rewrite (Hfill s eq_refl eq_refl). apply Hk. exact Hup.
Qed.

Lemma copy_uploadPart_not_completed (part_number part_offset part_size : Z) :
  preserves UploadHelper.keeps_not_completed
    (UploadHelper.uploadPart client part_number part_offset part_size).
Proof.
  unfold UploadHelper.uploadPart.
  destruct (part_size =? 0); [auto with completes|].
  apply (preserves_bind _ not_completed_trans); [not_completed_tac|]. intros scheduled.
  destruct scheduled.
  - apply (preserves_bind _ not_completed_trans); [not_completed_tac|]. intros i.
    apply (preserves_bind _ not_completed_trans).
    { apply preserves_modify. intros s.
      apply (not_completed_step _ _ []); try reflexivity.
      - cbn. rewrite app_nil_r. reflexivity.
      - auto.
      - cbn. intros Hall. apply Forall_app. split; [exact Hall|].
        constructor; [|constructor]. intros r Hr. discriminate. }
    intros _.
    apply (preserves_bind _ not_completed_trans); [|intros _; auto with completes].
    apply (preserves_try_rethrow _ not_completed_trans);
      [|apply not_completed_task_finish_notify].
    apply copy_bind_fill_not_completed. intros r Hup.
    apply (preserves_bind _ not_completed_trans); [|not_completed_tac].
    apply preserves_modify. intros s.
    apply (not_completed_step _ _ []); try reflexivity.
    + cbn. rewrite app_nil_r. reflexivity.
    + auto.
    + cbn. apply Forall_update_nth. intros task _ _ r' Hr'. cbn in Hr'.
      injection Hr' as <-. exact Hup.
  - apply copy_bind_fill_not_completed. intros r Hup.
    apply (preserves_bind _ not_completed_trans); [|not_completed_tac].
    apply copy_processUploadTask_not_completed. intros r' Hr'. cbn in Hr'.
    injection Hr' as <-. exact Hup.
Qed.

#[local] Hint Resolve copy_uploadPart_not_completed
  copy_waitForAllBackGroundTasks_not_completed : completes.

Lemma copy_upload_parts_loop_not_completed (fuel : nat)
    (part_number position end_position : Z) :
  preserves UploadHelper.keeps_not_completed
    (UploadHelper.upload_parts_loop client fuel part_number position end_position).
Proof.
  revert part_number position.
  induction fuel as [|fuel IH]; intros part_number position;
    cbn [UploadHelper.upload_parts_loop]; not_completed_tac.
Qed.

End CopyNotCompleted.

Lemma aborts_follow_has_abort (t : Trace) :
  aborts_follow t = true -> has_failed_upload t = true -> has_abort t = true.
Proof.
  intros Hall Hfail. apply existsb_exists in Hfail. destruct Hfail as (entry & Hin & Hfail).
  apply In_nth_error in Hin. destruct Hin as (i & Hi).
  destruct (aborts_follow_spec t i entry Hall Hi Hfail) as (j & upload_id & o & _ & Hj).
  apply existsb_exists. eexists. split; [exact (nth_error_In _ _ Hj)|reflexivity].
Qed.

Lemma final_state_bind {S A B} (c : M S A) (k : A -> M S B) (s : S) :
  final_state (bind c k s)
  = match c s with
    | Ok a s1 => final_state (k a s1)
    | _ => final_state (c s)
    end.
Proof. unfold bind. destruct (c s); reflexivity. Qed.

(** [completeMultipartUpload] sends nothing for an upload that was aborted,
    and no abort itself. *)
Lemma copy_completeMultipartUpload_not_aborted (client : Client) (s : UploadHelper.State) :
  UploadHelper.not_completed s ->
  let t := UploadHelper.trace (final_state (UploadHelper.completeMultipartUpload client s)) in
  has_abort t = true -> answered is_complete t = 0%nat.
Proof.
  intros (Hflag & Hnone & _) t. subst t.
  destruct (copy_completeMultipartUpload_sends client s) as (sent & lg & Hfin & Hsent).
  unfold UploadHelper.completeMultipartUpload in *. cbn [bind gets] in *.
  destruct (UploadHelper.multipart_upload_aborted s) eqn:Hab.
  - intros _. exact Hnone.
  - rewrite Hfin. cbn [UploadHelper.trace UploadHelper.set_log UploadHelper.set_trace].
    rewrite has_abort_app. intros H. apply orb_prop in H. destruct H as [H|H].
    + specialize (Hflag H). discriminate.
    + exfalso. clear - Hsent H. induction Hsent as [|[r o] sent Hr _ IH]; [discriminate|].
      cbn in H. cbn in Hr. destruct r; try discriminate. exact (IH H).
Qed.

(** X3. Whatever the server answers and whatever the thread pool does, a
    multipart upload of [copyDataToS3File] or [copyS3File] in which the
    server refused a part, or for which an [AbortMultipartUpload] request
    was sent, is not completed: no [CompleteMultipartUpload] request is
    sent. *)
Theorem aborted_upload_is_not_completed (client : Client) (cfg : UploadHelper.Config)
    (script : list (list UploadHelper.PoolEvent)) (start_offset size : Z) :
  let t := UploadHelper.trace
             (final_state
                (UploadHelper.performMultipartUpload client start_offset size
                   (UploadHelper.construct cfg script))) in
  has_failed_upload t = true \/ has_abort t = true ->
  answered is_complete t = 0%nat.
Proof.
  intros t Hbad.
  assert (Hab : has_abort t = true).
  { destruct Hbad as [Hfail|Hab]; [|exact Hab].
    apply aborts_follow_has_abort; [|exact Hfail].
    apply (copy_performMultipartUpload_keeps_aborts client start_offset size
             (UploadHelper.construct cfg script)).
    reflexivity. }
  clear Hbad. revert Hab. subst t.
  assert (Hstep : forall {A} (c : M UploadHelper.State A) (k : A -> M UploadHelper.State unit),
             preserves UploadHelper.keeps_not_completed c ->
             (forall a s1, UploadHelper.not_completed s1 ->
                has_abort (UploadHelper.trace (final_state (k a s1))) = true ->
                answered is_complete (UploadHelper.trace (final_state (k a s1))) = 0%nat) ->
             forall s, UploadHelper.not_completed s ->
               has_abort (UploadHelper.trace (final_state (bind c k s))) = true ->
               answered is_complete (UploadHelper.trace (final_state (bind c k s))) = 0%nat).
  { intros A c k Hc Hk s Hs. rewrite final_state_bind.
    pose proof (Hc s Hs) as H1.
    destruct (c s) as [a s1|e s1|s1|s1|s1]; cbn [final_state] in *;
      try (intros _; exact (proj1 (proj2 H1))).
    apply Hk. exact H1. }
  assert (Hstart : UploadHelper.not_completed (UploadHelper.construct cfg script)).
  { split; [discriminate|]. split; [reflexivity|constructor]. }
  revert Hstart. generalize (UploadHelper.construct cfg script).
  unfold UploadHelper.performMultipartUpload.
  apply Hstep; [apply copy_calculatePartSize_not_completed|intros _].
  apply Hstep; [apply copy_createMultipartUpload_not_completed|intros _].
  apply Hstep; [apply (preserves_gets _ not_completed_refl)|intros normal].
  apply Hstep; [apply copy_upload_parts_loop_not_completed|intros _].
  apply Hstep; [apply copy_waitForAllBackGroundTasks_not_completed|intros _].
  apply copy_completeMultipartUpload_not_aborted.
Qed.

Lemma aborted_upload_is_not_completed_witness :
  let t := UploadHelper.trace
             (final_state
                (UploadHelper.performMultipartUpload (Samples.refusing_from_client 2) 0 30
                   (UploadHelper.construct Samples.scheduled_copy Samples.last_part_first))) in
  has_failed_upload t = true /\ has_abort t = true /\ answered is_complete t = 0%nat.
Proof.
  intros t. split; [vm_compute; reflexivity|]. split; [vm_compute; reflexivity|].
  apply (aborted_upload_is_not_completed (Samples.refusing_from_client 2)
           Samples.scheduled_copy Samples.last_part_first 0 30).
  left. vm_compute. reflexivity.
Defined.

(** ** What a multipart upload sends *)

Lemma multipart_step_refl (s : UploadHelper.State) : UploadHelper.multipart_step s s.
Proof.
  intros H. split; [exact H|]. exists []. rewrite app_nil_r. split; [reflexivity|constructor].
Qed.

Lemma multipart_step_trans (s1 s2 s3 : UploadHelper.State) :
  UploadHelper.multipart_step s1 s2 -> UploadHelper.multipart_step s2 s3 ->
  UploadHelper.multipart_step s1 s3.
Proof.
  intros H1 H2 H. destruct (H1 H) as (H' & sent1 & Ht1 & Hall1).
  destruct (H2 H') as (H'' & sent2 & Ht2 & Hall2).
  split; [exact H''|]. exists (sent1 ++ sent2).
  split; [rewrite Ht2, Ht1, app_assoc; reflexivity|].
  apply Forall_app. split; assumption.
Qed.

Lemma multipart_step_same (s s' : UploadHelper.State) :
  UploadHelper.trace s' = UploadHelper.trace s ->
  UploadHelper.bg_tasks s' = UploadHelper.bg_tasks s ->
  UploadHelper.multipart_step s s'.
Proof.
  intros Ht Htasks H. split; [unfold UploadHelper.holds_part_requests; rewrite Htasks; exact H|].
  exists []. rewrite app_nil_r. split; [exact Ht|constructor].
Qed.

Lemma multipart_step_update_task (i : nat)
    (f : UploadHelper.UploadPartTask -> UploadHelper.UploadPartTask) (s : UploadHelper.State) :
  (forall task r, UploadHelper.req (f task) = Some r -> is_upload r = true \/
                                                        UploadHelper.req task = Some r) ->
  UploadHelper.multipart_step s (UploadHelper.update_task i f s).
Proof.
  intros Hf H. split.
  - unfold UploadHelper.holds_part_requests. cbn. apply Forall_update_nth; [|exact H].
    intros task _ Htask r Hr. destruct (Hf task r Hr) as [Hup|Hold]; [exact Hup|].
    exact (Htask r Hold).
  - exists []. cbn. rewrite app_nil_r. split; [reflexivity|constructor].
Qed.

Lemma multipart_step_task_finish_notify (i : nat) (s : UploadHelper.State) :
  UploadHelper.multipart_step s (UploadHelper.task_finish_notify i s).
Proof.
  unfold UploadHelper.task_finish_notify.
  apply (multipart_step_trans _ (UploadHelper.update_task i UploadHelper.finished s)).
  - apply multipart_step_update_task. intros task r Hr. right. exact Hr.
  - apply multipart_step_same; reflexivity.
Qed.

Create HintDb multipart.

Ltac multipart_tac :=
  preserve_with multipart_step_refl multipart_step_trans;
  try solve [ apply multipart_step_same; reflexivity
            | apply multipart_step_update_task; intros ? ? ?; right; assumption
            | apply multipart_step_task_finish_notify
            | auto with multipart ].

Section CopyMultipartStep.

Variable client : Client.

Lemma copy_send_multipart_step (r : Request) :
  is_multipart r = true ->
  preserves UploadHelper.multipart_step (UploadHelper.send client r).
Proof.
  intros Hr s H. split; [exact H|]. cbn.
  eexists. split; [reflexivity|]. constructor; [exact Hr|constructor].
Qed.

Lemma copy_LOG_multipart_step (m : LogMessage) :
  preserves UploadHelper.multipart_step (UploadHelper.LOG m).
Proof. intros s. apply multipart_step_same; reflexivity. Qed.

#[local] Hint Resolve copy_LOG_multipart_step : multipart.
#[local] Hint Extern 1 (preserves UploadHelper.multipart_step (UploadHelper.send _ _)) =>
  apply copy_send_multipart_step; reflexivity : multipart.

Lemma copy_createMultipartUpload_multipart_step :
  preserves UploadHelper.multipart_step (UploadHelper.createMultipartUpload client).
Proof. unfold UploadHelper.createMultipartUpload. multipart_tac. Qed.

Lemma copy_abortMultipartUpload_multipart_step :
  preserves UploadHelper.multipart_step (UploadHelper.abortMultipartUpload client).
Proof. unfold UploadHelper.abortMultipartUpload. multipart_tac. Qed.

Lemma copy_calculatePartSize_multipart_step (total_size : Z) :
  preserves UploadHelper.multipart_step (UploadHelper.calculatePartSize total_size).
Proof.
  intros s. apply multipart_step_same; unfold UploadHelper.calculatePartSize;
    repeat match goal with
           | |- context [if ?b then _ else _] => destruct b
           end; reflexivity.
Qed.

Lemma copy_complete_retry_loop_multipart_step (fuel : nat) (retries max_retries : Z)
    (upload_id : string) (parts : list CompletedPart) :
  preserves UploadHelper.multipart_step
    (UploadHelper.complete_retry_loop client fuel retries max_retries
       (CompleteMultipartUploadRequest upload_id parts)).
Proof.
  revert retries. induction fuel as [|fuel IH]; intros retries;
    cbn [UploadHelper.complete_retry_loop]; multipart_tac.
Qed.

#[local] Hint Resolve copy_createMultipartUpload_multipart_step
  copy_abortMultipartUpload_multipart_step copy_calculatePartSize_multipart_step
  copy_complete_retry_loop_multipart_step : multipart.

Lemma copy_completeMultipartUpload_multipart_step :
  preserves UploadHelper.multipart_step (UploadHelper.completeMultipartUpload client).
Proof. unfold UploadHelper.completeMultipartUpload. multipart_tac. Qed.

Lemma copy_processUploadPartRequest_multipart_step (request : Request) :
  is_upload request = true ->
  preserves UploadHelper.multipart_step
    (UploadHelper.processUploadPartRequest client request).
Proof.
  intros Hup. unfold UploadHelper.processUploadPartRequest. multipart_tac.
  apply copy_send_multipart_step; destruct request; try discriminate; reflexivity.
Qed.

Lemma copy_processUploadTask_multipart_step (task : UploadHelper.UploadPartTask) :
  (forall r, UploadHelper.req task = Some r -> is_upload r = true) ->
  preserves UploadHelper.multipart_step (UploadHelper.processUploadTask client task).
Proof.
  intros Hup. unfold UploadHelper.processUploadTask, UploadHelper.processUploadTask_request.
  destruct (UploadHelper.req task) as [r|]; multipart_tac.
  apply copy_processUploadPartRequest_multipart_step, Hup. reflexivity.
Qed.

Lemma copy_task_begins_multipart_step (i : nat) :
  preserves UploadHelper.multipart_step (UploadHelper.task_begins i).
Proof.
  intros s. unfold UploadHelper.task_begins.
  destruct (nth_error _ _) as [task|]; [|apply multipart_step_refl].
  destruct (UploadHelper.stage task); try apply multipart_step_refl.
  destruct (UploadHelper.multipart_upload_aborted s); cbn [final_state].
  - apply multipart_step_task_finish_notify.
  - apply multipart_step_update_task. intros task0 r Hr. right. exact Hr.
Qed.

Lemma copy_task_ends_multipart_step (i : nat) :
  preserves UploadHelper.multipart_step (UploadHelper.task_ends client i).
Proof.
  intros s Hs. unfold UploadHelper.task_ends.
  destruct (nth_error _ _) as [task|] eqn:Hi; [|exact (multipart_step_refl s Hs)].
  destruct (UploadHelper.stage task); try exact (multipart_step_refl s Hs).
  assert (Hup : forall r, UploadHelper.req task = Some r -> is_upload r = true).
  { unfold UploadHelper.holds_part_requests in Hs. rewrite Forall_forall in Hs.
    apply Hs. exact (nth_error_In _ _ Hi). }
  unfold UploadHelper.processUploadTask_request.
  destruct (UploadHelper.req task) as [r|]; [|exact (multipart_step_refl s Hs)].
  pose proof (copy_processUploadPartRequest_multipart_step r (Hup r eq_refl) s) as H.
  unfold bind.
  destruct (UploadHelper.processUploadPartRequest client r s) as [etag s1|e s1|s1|s1|s1];
    cbn [final_state ret] in *; try exact (H Hs).
  - refine (multipart_step_trans s s1 _ H _ Hs).
    eapply multipart_step_trans; [|apply multipart_step_task_finish_notify].
    apply multipart_step_update_task. intros task0 r0 Hr0. right. exact Hr0.
  - refine (multipart_step_trans s s1 _ H _ Hs).
    eapply multipart_step_trans; [|apply multipart_step_task_finish_notify].
    apply multipart_step_update_task. intros task0 r0 Hr0. right. exact Hr0.
Qed.

#[local] Hint Resolve copy_completeMultipartUpload_multipart_step
  copy_task_begins_multipart_step copy_task_ends_multipart_step : multipart.

Lemma copy_pool_events_multipart_step (evs : list UploadHelper.PoolEvent) :
  preserves UploadHelper.multipart_step (UploadHelper.pool_events client evs).
Proof.
  induction evs as [|ev evs IH]; cbn [UploadHelper.pool_events]; multipart_tac.
  destruct ev; cbn [UploadHelper.pool_event]; auto with multipart.
Qed.

#[local] Hint Resolve copy_pool_events_multipart_step : multipart.

Lemma copy_pool_turn_multipart_step :
  preserves UploadHelper.multipart_step (UploadHelper.pool_turn client).
Proof. unfold UploadHelper.pool_turn. multipart_tac. Qed.

Lemma copy_pool_finish_multipart_step (indices : list nat) :
  preserves UploadHelper.multipart_step (UploadHelper.pool_finish client indices).
Proof.
  induction indices as [|i indices IH]; cbn [UploadHelper.pool_finish]; multipart_tac.
Qed.

#[local] Hint Resolve copy_pool_turn_multipart_step copy_pool_finish_multipart_step
  : multipart.

Lemma copy_condvar_wait_multipart_step :
  preserves UploadHelper.multipart_step (UploadHelper.condvar_wait client).
Proof. unfold UploadHelper.condvar_wait. multipart_tac. Qed.

Lemma copy_collect_tags_multipart_step (tasks : list UploadHelper.UploadPartTask) :
  preserves UploadHelper.multipart_step (UploadHelper.collect_tags client tasks).
Proof.
  induction tasks as [|task tasks IH]; cbn [UploadHelper.collect_tags]; multipart_tac.
Qed.

#[local] Hint Resolve copy_condvar_wait_multipart_step copy_collect_tags_multipart_step
  : multipart.

Lemma copy_waitForAllBackGroundTasks_multipart_step :
  preserves UploadHelper.multipart_step (UploadHelper.waitForAllBackGroundTasks client).
Proof. unfold UploadHelper.waitForAllBackGroundTasks. multipart_tac. Qed.

Lemma copy_bind_fill_multipart_step {B} (part_number part_offset part_size : Z)
    (k : Request -> M UploadHelper.State B) :
  (forall r, is_upload r = true -> preserves UploadHelper.multipart_step (k r)) ->
  preserves UploadHelper.multipart_step
    (bind (UploadHelper.fillUploadPartRequest part_number part_offset part_size) k).
Proof.
  intros Hk s.
  destruct (copy_fillUploadPartRequest_returns part_number part_offset part_size s)
    as (r & Hup & _ & Hfill).
  unfold bind. rewrite (Hfill s eq_refl eq_refl). apply Hk. exact Hup.
Qed.

Lemma copy_uploadPart_multipart_step (part_number part_offset part_size : Z) :
  preserves UploadHelper.multipart_step
    (UploadHelper.uploadPart client part_number part_offset part_size).
Proof.
  unfold UploadHelper.uploadPart.
  destruct (part_size =? 0); [auto with multipart|].
  apply (preserves_bind _ multipart_step_trans); [multipart_tac|]. intros scheduled.
  destruct scheduled.
  - apply (preserves_bind _ multipart_step_trans); [multipart_tac|]. intros i.
    apply (preserves_bind _ multipart_step_trans).
    { apply preserves_modify. intros s Hs. split.
      - unfold UploadHelper.holds_part_requests. cbn. apply Forall_app. split; [exact Hs|].
        constructor; [|constructor]. intros r Hr. discriminate.
      - exists []. cbn. rewrite app_nil_r. split; [reflexivity|constructor]. }
    intros _.
    apply (preserves_bind _ multipart_step_trans); [|intros _; auto with multipart].
    apply (preserves_try_rethrow _ multipart_step_trans);
      [|apply multipart_step_task_finish_notify].
    apply copy_bind_fill_multipart_step. intros r Hup.
    apply (preserves_bind _ multipart_step_trans); [|multipart_tac].
    apply preserves_modify. intros s.
    apply multipart_step_update_task. intros task r' Hr'. cbn in Hr'.
    injection Hr' as <-. left. exact Hup.
  - apply copy_bind_fill_multipart_step. intros r Hup.
    apply (preserves_bind _ multipart_step_trans); [|multipart_tac].
    apply copy_processUploadTask_multipart_step. intros r' Hr'. cbn in Hr'.
    injection Hr' as <-. exact Hup.
Qed.

#[local] Hint Resolve copy_uploadPart_multipart_step
  copy_waitForAllBackGroundTasks_multipart_step : multipart.

Lemma copy_upload_parts_loop_multipart_step (fuel : nat)
    (part_number position end_position : Z) :
  preserves UploadHelper.multipart_step
    (UploadHelper.upload_parts_loop client fuel part_number position end_position).
Proof.
  revert part_number position.
  induction fuel as [|fuel IH]; intros part_number position;
    cbn [UploadHelper.upload_parts_loop]; multipart_tac.
Qed.

#[local] Hint Resolve copy_upload_parts_loop_multipart_step : multipart.

Lemma copy_performMultipartUpload_multipart_step (start_offset size : Z) :
  preserves UploadHelper.multipart_step
    (UploadHelper.performMultipartUpload client start_offset size).
Proof. unfold UploadHelper.performMultipartUpload. multipart_tac. Qed.

End CopyMultipartStep.

(** ** The single-shot operations of the copy helpers *)

(** [processCopyRequest] of [CopyFileHelper] retries with the loop of
    [processPutRequest] of [CopyDataToFileHelper]. *)
Lemma copy_retry_loop_same (client : Client) (request : Request) (max_retries : Z)
    (fuel : nat) (retries : Z) (s : UploadHelper.State) :
  UploadHelper.copy_retry_loop client fuel retries max_retries request s
  = UploadHelper.put_retry_loop client fuel retries max_retries request s.
Proof. reflexivity. Qed.

Lemma copy_put_retry_loop_step (client : Client) (request : Request) (max_retries : Z)
    (fuel : nat) (retries : Z) (s : UploadHelper.State) :
  UploadHelper.put_retry_loop client (S fuel) retries max_retries request s
  = let s1 := UploadHelper.set_trace
                (UploadHelper.trace s ++ [(request, client (UploadHelper.trace s) request)]) s in
    match client (UploadHelper.trace s) request with
    | Success _ => Ok tt s1
    | Failure e =>
        if is_too_large e
        then UploadHelper.CopyDataToFileHelper_performMultipartUpload client
               (UploadHelper.set_log (UploadHelper.log s ++ [WillRetryWithMultipart]) s1)
        else if is_no_such_key e && (retries <? max_retries)
        then UploadHelper.put_retry_loop client fuel (wrap (retries + 1)) max_retries request
               (UploadHelper.set_log (UploadHelper.log s ++ [WillRetry]) s1)
        else Throw (S3Exception (GetErrorType e) (GetMessage e)) s1
    end.
Proof.
  cbn [UploadHelper.put_retry_loop]. unfold bind at 1. unfold UploadHelper.send.
  destruct (client (UploadHelper.trace s) request) as [x|e]; [reflexivity|].
  destruct (is_too_large e); [reflexivity|].
  destruct (is_no_such_key e && (retries <? max_retries)); reflexivity.
Qed.

(** The attempts of a single-shot operation: phantom failures that are
    repeated, then the answer that ends the loop: a success, a failure that
    sends the helper to the multipart upload, or a failure that is thrown. *)
Lemma copy_put_retry_loop_spec (client : Client) (request : Request) (max_retries : Z)
    (fuel : nat) (retries : Z) (s : UploadHelper.State) :
  0 <= retries <= max_retries -> max_retries < SIZE_MODULUS ->
  max_retries - retries < Z.of_nat fuel ->
  exists es last lg,
    Forall (phantom_attempt request) es /\
    Z.of_nat (List.length es) <= max_retries - retries /\
    answers_of client (UploadHelper.trace s) (es ++ [(request, last)]) /\
    let s' := UploadHelper.set_log lg
                (UploadHelper.set_trace (UploadHelper.trace s ++ es ++ [(request, last)]) s) in
    match last with
    | Success _ =>
        UploadHelper.put_retry_loop client fuel retries max_retries request s = Ok tt s'
    | Failure e =>
        if is_too_large e
        then UploadHelper.put_retry_loop client fuel retries max_retries request s
             = UploadHelper.CopyDataToFileHelper_performMultipartUpload client
                 (UploadHelper.set_log (lg ++ [WillRetryWithMultipart]) s')
        else UploadHelper.put_retry_loop client fuel retries max_retries request s
             = Throw (S3Exception (GetErrorType e) (GetMessage e)) s' /\
             (is_no_such_key e = true -> Z.of_nat (List.length es) = max_retries - retries)
    end.
Proof.
  revert retries s. induction fuel as [|fuel IH]; intros retries s Hr Hm Hf; [lia|].
  rewrite copy_put_retry_loop_step. cbv zeta.
  destruct (client (UploadHelper.trace s) request) as [x|e] eqn:Ho.
  - exists [], (Success x), (UploadHelper.log s). split; [constructor|]. split; [simpl; lia|].
    split; [simpl; auto|]. destruct s; reflexivity.
  - destruct (is_too_large e) eqn:Hlarge.
    { exists [], (Failure e), (UploadHelper.log s). split; [constructor|].
      split; [simpl; lia|]. split; [simpl; auto|]. cbv zeta. rewrite Hlarge.
      destruct s; reflexivity. }
    destruct (is_no_such_key e) eqn:Hk; cbn [andb].
    + destruct (Z.ltb_spec retries max_retries) as [Hlt|Hge].
      * rewrite (wrap_succ retries max_retries) by lia.
        match goal with |- context [UploadHelper.put_retry_loop client fuel _ _ _ ?st] =>
          destruct (IH (retries + 1) st ltac:(lia) Hm ltac:(lia))
            as (es & last & lg & Hes & Hlen & Hans & Hres)
        end.
        exists ((request, Failure e) :: es), last, lg.
        split; [constructor; [split; [reflexivity|exists e; split;
                  [reflexivity|apply is_no_such_key_true; exact Hk]]|exact Hes]|].
        split; [simpl List.length; lia|].
        split; [split; [simpl; auto|exact Hans]|].
        cbn [UploadHelper.trace UploadHelper.set_trace UploadHelper.set_log] in Hres.
        rewrite <- app_assoc in Hres. cbn [app] in Hres.
        destruct last as [x|e']; cbv zeta in Hres |- *.
        -- exact Hres.
        -- destruct (is_too_large e'); [exact Hres|].
           destruct Hres as [Hres Hn]. split; [exact Hres|]. intros Hty. specialize (Hn Hty).
           simpl List.length. lia.
      * exists [], (Failure e), (UploadHelper.log s). split; [constructor|].
        split; [simpl; lia|]. split; [simpl; auto|]. cbv zeta. rewrite Hlarge.
        split; [destruct s; reflexivity|]. intros _. simpl. lia.
    + exists [], (Failure e), (UploadHelper.log s). split; [constructor|].
      split; [simpl; lia|]. split; [simpl; auto|]. cbv zeta. rewrite Hlarge.
      split; [destruct s; reflexivity|]. intros Hty. congruence.
Qed.

Lemma final_state_ok {S A} (r : Result S A) (a : A) (s : S) : r = Ok a s -> final_state r = s.
Proof. intros ->. reflexivity. Qed.

(** What a single-shot operation leaves in the record of the requests: its
    attempts, all with the same request and within the budget of retries,
    then, when the last attempt was refused as too large, the requests of
    the multipart upload. *)
Lemma copy_processPutRequest_record (client : Client) (request : Request)
    (s : UploadHelper.State) :
  is_size_t (UploadHelper.max_unexpected_write_error_retries (UploadHelper.config s)) ->
  UploadHelper.holds_part_requests s ->
  let r := UploadHelper.processPutRequest client request s in
  exists attempts rest,
    UploadHelper.trace (final_state r) = UploadHelper.trace s ++ attempts ++ rest /\
    attempts <> [] /\
    Forall (fun entry => fst entry = request) attempts /\
    Z.of_nat (List.length attempts)
    <= std_max (UploadHelper.max_unexpected_write_error_retries (UploadHelper.config s)) 1 /\
    answers_of client (UploadHelper.trace s) attempts /\
    Forall (fun entry => is_multipart (fst entry) = true) rest /\
    UploadHelper.holds_part_requests (final_state r).
Proof.
  intros Hr Hs r. subst r. unfold UploadHelper.processPutRequest. cbn [bind gets].
  set (max_retries := std_max _ 1).
  pose proof (std_max_1 (UploadHelper.max_unexpected_write_error_retries
                           (UploadHelper.config s))) as Hmax.
  pose proof (std_max_size_t _ Hr) as Hsz. fold max_retries in Hmax, Hsz.
  unfold is_size_t in Hsz.
  destruct (copy_put_retry_loop_spec client request max_retries (Z.to_nat max_retries) 1 s)
    as (es & last & lg & Hes & Hlen & Hans & Hres); try lia.
  assert (Hatt : Forall (fun entry => fst entry = request) (es ++ [(request, last)])).
  { apply Forall_app. split; [|repeat constructor].
    revert Hes. apply Forall_impl. intros entry [H _]. exact H. }
  assert (Hlen' : Z.of_nat (List.length (es ++ [(request, last)])) <= max_retries).
  { rewrite length_app. cbn [List.length]. lia. }
  assert (Hne : es ++ [(request, last)] <> []).
  { intros H. apply app_eq_nil in H. destruct H as [_ H]. discriminate. }
  cbv zeta in Hres.
  assert (Hdone : forall (res : Result UploadHelper.State unit) lg',
             final_state res
             = UploadHelper.set_log lg'
                 (UploadHelper.set_trace
                    (UploadHelper.trace s ++ es ++ [(request, last)]) s) ->
             exists attempts rest,
               UploadHelper.trace (final_state res) = UploadHelper.trace s ++ attempts ++ rest /\
               attempts <> [] /\
               Forall (fun entry => fst entry = request) attempts /\
               Z.of_nat (List.length attempts) <= max_retries /\
               answers_of client (UploadHelper.trace s) attempts /\
               Forall (fun entry => is_multipart (fst entry) = true) rest /\
               UploadHelper.holds_part_requests (final_state res)).
  { intros res lg' Hfin. exists (es ++ [(request, last)]), []. rewrite Hfin, app_nil_r.
    repeat split; try assumption; constructor. }
  destruct last as [x|e].
  - rewrite Hres. apply (Hdone _ lg). reflexivity.
  - destruct (is_too_large e).
    + rewrite Hres.
      unfold UploadHelper.CopyDataToFileHelper_performMultipartUpload. cbn [bind gets].
      match goal with
      | |- context [UploadHelper.performMultipartUpload client ?a ?b ?st] =>
          destruct (copy_performMultipartUpload_multipart_step client a b st Hs)
            as (Hs' & sent & Ht & Hsent)
      end.
      exists (es ++ [(request, Failure e)]), sent.
      split; [rewrite Ht; cbn; rewrite <- !app_assoc; reflexivity|].
      repeat split; assumption.
    + destruct Hres as [Hres _]. rewrite Hres. apply (Hdone _ lg). reflexivity.
Qed.

(** [performCopy] of either helper: the single-shot operation when the size
    is within the limit, else the multipart upload, then the check of the
    object. *)
Lemma copy_performCopy_record (client : Client) (request : Request) (limit : Z)
    (s : UploadHelper.State) :
  is_size_t (UploadHelper.max_unexpected_write_error_retries (UploadHelper.config s)) ->
  UploadHelper.holds_part_requests s ->
  let r := ((if UploadHelper.size (UploadHelper.config s) <=? limit
             then UploadHelper.processPutRequest client request
             else UploadHelper.CopyDataToFileHelper_performMultipartUpload client) ;;
            check <- gets (fun s => UploadHelper.check_objects_after_upload
                                      (UploadHelper.config s)) ;;
            if check then UploadHelper.checkObjectAfterUpload client else ret tt) s in
  exists attempts rest tail,
    UploadHelper.trace (final_state r) = UploadHelper.trace s ++ attempts ++ rest ++ tail /\
    Forall (fun entry => fst entry = request) attempts /\
    Z.of_nat (List.length attempts)
    <= std_max (UploadHelper.max_unexpected_write_error_retries (UploadHelper.config s)) 1 /\
    answers_of client (UploadHelper.trace s) attempts /\
    Forall (fun entry => is_multipart (fst entry) = true) rest /\
    Forall (fun entry => is_head (fst entry) = true) tail /\
    (UploadHelper.size (UploadHelper.config s) <= limit -> attempts <> []) /\
    (limit < UploadHelper.size (UploadHelper.config s) -> attempts = []).
Proof.
  intros Hr Hs r. subst r.
  pose proof (std_max_1 (UploadHelper.max_unexpected_write_error_retries
                           (UploadHelper.config s))) as Hmax.
  assert (Hbody : exists attempts rest,
             let b := (if UploadHelper.size (UploadHelper.config s) <=? limit
                       then UploadHelper.processPutRequest client request
                       else UploadHelper.CopyDataToFileHelper_performMultipartUpload client) s in
             UploadHelper.trace (final_state b) = UploadHelper.trace s ++ attempts ++ rest /\
             Forall (fun entry => fst entry = request) attempts /\
             Z.of_nat (List.length attempts)
             <= std_max (UploadHelper.max_unexpected_write_error_retries
                           (UploadHelper.config s)) 1 /\
             answers_of client (UploadHelper.trace s) attempts /\
             Forall (fun entry => is_multipart (fst entry) = true) rest /\
             (UploadHelper.size (UploadHelper.config s) <= limit -> attempts <> []) /\
             (limit < UploadHelper.size (UploadHelper.config s) -> attempts = [])).
  { destruct (Z.leb_spec (UploadHelper.size (UploadHelper.config s)) limit) as [Hle|Hgt].
    - destruct (copy_processPutRequest_record client request s Hr Hs)
        as (attempts & rest & Ht & Hne & Hall & Hlen & Hans & Hrest & _).
      exists attempts, rest. cbv zeta.
      repeat (split; [assumption|]). split; [intros _; exact Hne|lia].
    - unfold UploadHelper.CopyDataToFileHelper_performMultipartUpload. cbn [bind gets].
      match goal with
      | |- context [UploadHelper.performMultipartUpload client ?a ?b ?st] =>
          destruct (copy_performMultipartUpload_multipart_step client a b st Hs)
            as (_ & sent & Ht & Hsent)
      end.
      exists [], sent. cbv zeta. cbn [app List.length].
      split; [exact Ht|]. split; [constructor|]. split; [lia|]. split; [exact I|].
      split; [exact Hsent|]. split; [lia|reflexivity]. }
  destruct Hbody as (attempts & rest & Ht & Hall & Hlen & Hans & Hrest & Hne & Hnone).
  cbv zeta in Ht. rewrite final_state_bind.
  destruct ((if UploadHelper.size (UploadHelper.config s) <=? limit
             then UploadHelper.processPutRequest client request
             else UploadHelper.CopyDataToFileHelper_performMultipartUpload client) s)
    as [[] s1|e s1|s1|s1|s1]; cbn [final_state] in Ht |- *;
    try (exists attempts, rest, []; rewrite app_nil_r;
         repeat split; try assumption; constructor).
  cbn [bind gets]. destruct (UploadHelper.check_objects_after_upload (UploadHelper.config s1)).
  - exists attempts, rest, [(HeadObjectRequest, client (UploadHelper.trace s1) HeadObjectRequest)].
    split.
    + unfold UploadHelper.checkObjectAfterUpload, bind, UploadHelper.send. cbv zeta.
      destruct (client (UploadHelper.trace s1) HeadObjectRequest); cbn;
        rewrite Ht, <- !app_assoc; reflexivity.
    + repeat split; try assumption. repeat constructor.
  - exists attempts, rest, []. rewrite app_nil_r. cbn [final_state ret].
    repeat split; try assumption; constructor.
Qed.

Lemma answered_none (kind : Request -> bool) (t : Trace) :
  Forall (fun entry => kind (fst entry) = false) t -> answered kind t = 0%nat.
Proof.
  unfold answered. induction 1 as [|entry t He _ IH]; [reflexivity|].
  cbn [filter]. rewrite He. exact IH.
Qed.

Lemma answered_all (kind : Request -> bool) (t : Trace) :
  Forall (fun entry => kind (fst entry) = true) t -> answered kind t = List.length t.
Proof.
  unfold answered. induction 1 as [|entry t He _ IH]; [reflexivity|].
  cbn [filter]. rewrite He. cbn [List.length]. rewrite IH. reflexivity.
Qed.

(** How often the single-shot request is found in the record of a copy. *)
Lemma single_shot_count (kind : Request -> bool) (request : Request)
    (attempts rest tail : Trace) :
  kind request = true ->
  (forall r, is_multipart r = true -> kind r = false) ->
  (forall r, is_head r = true -> kind r = false) ->
  Forall (fun entry => fst entry = request) attempts ->
  Forall (fun entry => is_multipart (fst entry) = true) rest ->
  Forall (fun entry => is_head (fst entry) = true) tail ->
  answered kind (attempts ++ rest ++ tail) = List.length attempts.
Proof.
  intros Hk Hm Hh Ha Hr Ht. rewrite !answered_app.
  rewrite (answered_all kind attempts), (answered_none kind rest), (answered_none kind tail).
  - lia.
  - revert Ht. apply Forall_impl. intros entry. apply Hh.
  - revert Hr. apply Forall_impl. intros entry. apply Hm.
  - revert Ha. apply Forall_impl. intros entry ->. exact Hk.
Qed.

Lemma single_shot_first (client : Client) (request : Request) (attempts rest : Trace) :
  attempts <> [] ->
  Forall (fun entry => fst entry = request) attempts ->
  answers_of client [] attempts ->
  hd_error (attempts ++ rest) = Some (request, client [] request).
Proof.
  intros Hne Hall Hans. destruct attempts as [|[r o] attempts]; [contradiction|].
  apply Forall_inv in Hall. cbn in Hall. subst r.
  cbn in Hans. destruct Hans as [-> _]. reflexivity.
Qed.

(** [copyDataToS3File] and [copyS3File] run [performCopy] as the lemma above
    has it. *)
Lemma copyDataToS3File_unfold (client : Client) (offset size : Z) (st : PartUploadSettings)
    (check : bool) (retries : Z) (schedule : bool)
    (script : list (list UploadHelper.PoolEvent)) :
  let s := UploadHelper.construct
             (UploadHelper.mkConfig UploadHelper.CopyDataToFileHelper st check retries schedule
                offset size) script in
  copyDataToS3File client offset size st check retries schedule script
  = ((if UploadHelper.size (UploadHelper.config s) <=? max_single_part_upload_size st
      then UploadHelper.processPutRequest client (PutObjectRequest size (SourceRange offset size))
      else UploadHelper.CopyDataToFileHelper_performMultipartUpload client) ;;
     check <- gets (fun s => UploadHelper.check_objects_after_upload (UploadHelper.config s)) ;;
     if check then UploadHelper.checkObjectAfterUpload client else ret tt) s.
Proof.
  intros s. subst s. unfold copyDataToS3File, UploadHelper.CopyDataToFileHelper_performCopy.
  cbn [bind gets]. cbn [UploadHelper.size UploadHelper.config UploadHelper.construct
                         UploadHelper.settings].
  destruct (size <=? max_single_part_upload_size st); reflexivity.
Qed.

Lemma copyS3File_unfold (client : Client) (offset size : Z) (st : PartUploadSettings)
    (check : bool) (retries : Z) (schedule : bool)
    (script : list (list UploadHelper.PoolEvent)) :
  let s := UploadHelper.construct
             (UploadHelper.mkConfig UploadHelper.CopyFileHelper st check retries schedule
                offset size) script in
  copyS3File client offset size st check retries schedule script
  = ((if UploadHelper.size (UploadHelper.config s) <=? max_single_operation_copy_size st
      then UploadHelper.processPutRequest client CopyObjectRequest
      else UploadHelper.CopyDataToFileHelper_performMultipartUpload client) ;;
     check <- gets (fun s => UploadHelper.check_objects_after_upload (UploadHelper.config s)) ;;
     if check then UploadHelper.checkObjectAfterUpload client else ret tt) s.
Proof.
  intros s. subst s. unfold copyS3File, UploadHelper.CopyFileHelper_performCopy.
  cbn [bind gets]. cbn [UploadHelper.size UploadHelper.config UploadHelper.construct
                         UploadHelper.settings].
  destruct (size <=? max_single_operation_copy_size st); reflexivity.
Qed.

(** X4. The size of the source decides the operation. [copyDataToS3File]
    begins with the [PutObject] of the whole range when the size is at most
    [max_single_part_upload_size] and sends no [PutObject] at all when it is
    larger; [copyS3File] begins with the [CopyObject] when the size is at
    most [max_single_operation_copy_size] and sends no [CopyObject] at all
    when it is larger. *)
Theorem copy_operation_is_chosen_by_size (client : Client) (offset size : Z)
    (st : PartUploadSettings) (check : bool) (retries : Z) (schedule : bool)
    (script : list (list UploadHelper.PoolEvent)) :
  is_size_t retries ->
  let put := PutObjectRequest size (SourceRange offset size) in
  let data := UploadHelper.trace
                (final_state
                   (copyDataToS3File client offset size st check retries schedule script)) in
  let file := UploadHelper.trace
                (final_state (copyS3File client offset size st check retries schedule script)) in
  (size <= max_single_part_upload_size st -> hd_error data = Some (put, client [] put)) /\
  (max_single_part_upload_size st < size -> answered is_put data = 0%nat) /\
  (size <= max_single_operation_copy_size st ->
   hd_error file = Some (CopyObjectRequest, client [] CopyObjectRequest)) /\
  (max_single_operation_copy_size st < size -> answered is_copy file = 0%nat).
Proof.
  intros Hr put data file. subst put data file.
  rewrite copyDataToS3File_unfold, copyS3File_unfold. cbv zeta.
  match goal with
  | |- context [UploadHelper.construct ?cfg script] =>
      destruct (copy_performCopy_record client (PutObjectRequest size (SourceRange offset size))
                  (max_single_part_upload_size st)
                  (UploadHelper.construct cfg script) Hr (Forall_nil _))
        as (a1 & r1 & t1 & Ht1 & Ha1 & _ & Hans1 & Hr1 & Htl1 & Hne1 & Hnone1)
  end.
  match goal with
  | |- context [UploadHelper.construct
                  (UploadHelper.mkConfig UploadHelper.CopyFileHelper ?a ?b ?c ?d ?e ?f) script] =>
      destruct (copy_performCopy_record client CopyObjectRequest
                  (max_single_operation_copy_size st)
                  (UploadHelper.construct
                     (UploadHelper.mkConfig UploadHelper.CopyFileHelper a b c d e f) script)
                  Hr (Forall_nil _))
        as (a2 & r2 & t2 & Ht2 & Ha2 & _ & Hans2 & Hr2 & Htl2 & Hne2 & Hnone2)
  end.
  cbv zeta in Ht1, Ht2. rewrite Ht1, Ht2.
  cbn [UploadHelper.trace UploadHelper.construct app UploadHelper.size UploadHelper.config]
    in *.
  split; [|split; [|split]].
  - intros Hle. apply single_shot_first; auto.
  - intros Hgt. rewrite (Hnone1 Hgt). cbn [app]. rewrite answered_app.
    rewrite (answered_none is_put r1), (answered_none is_put t1); [reflexivity| |].
    + revert Htl1. apply Forall_impl. intros [[] o]; cbn; congruence.
    + revert Hr1. apply Forall_impl. intros [[] o]; cbn; congruence.
  - intros Hle. apply single_shot_first; auto.
  - intros Hgt. rewrite (Hnone2 Hgt). cbn [app]. rewrite answered_app.
    rewrite (answered_none is_copy r2), (answered_none is_copy t2); [reflexivity| |].
    + revert Htl2. apply Forall_impl. intros [[] o]; cbn; congruence.
    + revert Hr2. apply Forall_impl. intros [[] o]; cbn; congruence.
Qed.

Lemma answers_of_last (client : Client) (es : Trace) (entry : Request * Outcome) :
  forall h, answers_of client h (es ++ [entry]) -> snd entry = client (h ++ es) (fst entry).
Proof.
  induction es as [|e es IH]; intros h H; cbn [app answers_of] in H.
  - rewrite app_nil_r. exact (proj1 H).
  - destruct H as [_ H]. apply IH in H. rewrite <- app_assoc in H. exact H.
Qed.

(** A single-shot operation that is answered with the phantom [NoSuchKey]
    every time is given up when the budget is used up. *)
Lemma copy_processPutRequest_exhausted (client : Client) (request : Request)
    (s : UploadHelper.State) :
  is_size_t (UploadHelper.max_unexpected_write_error_retries (UploadHelper.config s)) ->
  (forall history, exists e,
     client history request = Failure e /\ is_no_such_key e = true /\ is_too_large e = false) ->
  exists e attempts lg,
    UploadHelper.processPutRequest client request s
    = Throw (S3Exception NO_SUCH_KEY (GetMessage e))
        (UploadHelper.set_log lg
           (UploadHelper.set_trace (UploadHelper.trace s ++ attempts) s)) /\
    Forall (fun entry => fst entry = request) attempts /\
    Z.of_nat (List.length attempts)
    = std_max (UploadHelper.max_unexpected_write_error_retries (UploadHelper.config s)) 1.
Proof.
  intros Hr Hclient. unfold UploadHelper.processPutRequest. cbn [bind gets].
  set (max_retries := std_max _ 1).
  pose proof (std_max_1 (UploadHelper.max_unexpected_write_error_retries
                           (UploadHelper.config s))) as Hmax.
  pose proof (std_max_size_t _ Hr) as Hsz. fold max_retries in Hmax, Hsz.
  unfold is_size_t in Hsz.
  destruct (copy_put_retry_loop_spec client request max_retries (Z.to_nat max_retries) 1 s)
    as (es & last & lg & Hes & Hlen & Hans & Hres); try lia.
  apply answers_of_last in Hans. cbn [fst snd] in Hans.
  destruct (Hclient (UploadHelper.trace s ++ es)) as (e & He & Hk & Hlarge).
  rewrite He in Hans. subst last. cbv zeta in Hres. rewrite Hlarge in Hres.
  destruct Hres as [Hres Hn]. specialize (Hn Hk).
  exists e, (es ++ [(request, Failure e)]), lg.
  split; [rewrite Hres, (is_no_such_key_true e Hk); reflexivity|]. split.
  - apply Forall_app. split; [|repeat constructor].
    revert Hes. apply Forall_impl. intros entry [H _]. exact H.
  - rewrite length_app. cbn [List.length]. lia.
Qed.

(** X5. A single-shot operation is attempted at most
    [max(max_unexpected_write_error_retries, 1)] times: the record of
    [copyDataToS3File] holds at most that many [PutObject] requests, the one
    of [copyS3File] at most that many [CopyObject] requests. When the server
    answers every attempt with the phantom [NoSuchKey], exactly that many
    attempts are made, all with the same request and nothing else is sent,
    and the copy ends with the [S3Exception] of the last answer. *)
Theorem single_shot_is_retried_within_budget (client : Client) (offset size : Z)
    (st : PartUploadSettings) (check : bool) (retries : Z) (schedule : bool)
    (script : list (list UploadHelper.PoolEvent)) :
  is_size_t retries ->
  let put := PutObjectRequest size (SourceRange offset size) in
  let data := copyDataToS3File client offset size st check retries schedule script in
  let file := copyS3File client offset size st check retries schedule script in
  let exhausts (request : Request) :=
    forall history, exists e,
      client history request = Failure e /\ is_no_such_key e = true /\ is_too_large e = false in
  Z.of_nat (answered is_put (UploadHelper.trace (final_state data))) <= std_max retries 1 /\
  Z.of_nat (answered is_copy (UploadHelper.trace (final_state file))) <= std_max retries 1 /\
  (size <= max_single_part_upload_size st -> exhausts put ->
   (exists e, thrown data = Some (S3Exception NO_SUCH_KEY (GetMessage e))) /\
   Forall (fun entry => fst entry = put) (UploadHelper.trace (final_state data)) /\
   Z.of_nat (List.length (UploadHelper.trace (final_state data))) = std_max retries 1) /\
  (size <= max_single_operation_copy_size st -> exhausts CopyObjectRequest ->
   (exists e, thrown file = Some (S3Exception NO_SUCH_KEY (GetMessage e))) /\
   Forall (fun entry => fst entry = CopyObjectRequest) (UploadHelper.trace (final_state file)) /\
   Z.of_nat (List.length (UploadHelper.trace (final_state file))) = std_max retries 1).
Proof.
  intros Hr put data file exhausts. subst put data file exhausts. cbv beta.
  rewrite copyDataToS3File_unfold, copyS3File_unfold. cbv zeta.
  match goal with
  | |- context [UploadHelper.construct ?cfg script] =>
      destruct (copy_performCopy_record client (PutObjectRequest size (SourceRange offset size))
                  (max_single_part_upload_size st)
                  (UploadHelper.construct cfg script) Hr (Forall_nil _))
        as (a1 & r1 & t1 & Ht1 & Ha1 & Hlen1 & _ & Hr1 & Htl1 & _ & _)
  end.
  match goal with
  | |- context [UploadHelper.construct
                  (UploadHelper.mkConfig UploadHelper.CopyFileHelper ?a ?b ?c ?d ?e ?f) script] =>
      destruct (copy_performCopy_record client CopyObjectRequest
                  (max_single_operation_copy_size st)
                  (UploadHelper.construct
                     (UploadHelper.mkConfig UploadHelper.CopyFileHelper a b c d e f) script)
                  Hr (Forall_nil _))
        as (a2 & r2 & t2 & Ht2 & Ha2 & Hlen2 & _ & Hr2 & Htl2 & _ & _)
  end.
  cbv zeta in Ht1, Ht2.
  cbn [UploadHelper.trace UploadHelper.construct app UploadHelper.size UploadHelper.config
       UploadHelper.max_unexpected_write_error_retries] in *.
  split; [|split; [|split]].
  - rewrite Ht1, (single_shot_count is_put (PutObjectRequest size (SourceRange offset size))
                     a1 r1 t1 eq_refl); try assumption.
    + intros []; cbn; congruence.
    + intros []; cbn; congruence.
  - rewrite Ht2, (single_shot_count is_copy CopyObjectRequest a2 r2 t2 eq_refl); try assumption.
    + intros []; cbn; congruence.
    + intros []; cbn; congruence.
  - intros Hle Hex. destruct (Z.leb_spec size (max_single_part_upload_size st)); [|lia].
    match goal with
    | |- context [UploadHelper.processPutRequest client ?req] =>
        match goal with
        | |- context [bind _ _ ?s0] =>
            destruct (copy_processPutRequest_exhausted client req s0 Hr Hex)
              as (e & attempts & lg & Hthrow & Hall & Hlen)
        end
    end.
    match goal with
    | |- context [bind ?c ?k ?s0] =>
        assert (Hwhole : bind c k s0
                         = Throw (S3Exception NO_SUCH_KEY (GetMessage e))
                             (UploadHelper.set_log lg (UploadHelper.set_trace attempts s0)))
          by (unfold bind at 1; rewrite Hthrow; reflexivity);
        rewrite Hwhole
    end.
    cbn [thrown final_state UploadHelper.trace UploadHelper.set_log UploadHelper.set_trace].
    split; [exists e; reflexivity|]. split; [exact Hall|exact Hlen].
  - intros Hle Hex. destruct (Z.leb_spec size (max_single_operation_copy_size st)); [|lia].
    match goal with
    | |- context [UploadHelper.processPutRequest client CopyObjectRequest ;; _] =>
        match goal with
        | |- context [bind (UploadHelper.processPutRequest client CopyObjectRequest) _ ?s0] =>
            destruct (copy_processPutRequest_exhausted client CopyObjectRequest s0 Hr Hex)
              as (e & attempts & lg & Hthrow & Hall & Hlen)
        end
    end.
    match goal with
    | |- context [bind ?c ?k ?s0] =>
        assert (Hwhole : bind c k s0
                         = Throw (S3Exception NO_SUCH_KEY (GetMessage e))
                             (UploadHelper.set_log lg (UploadHelper.set_trace attempts s0)))
          by (unfold bind at 1; rewrite Hthrow; reflexivity);
        rewrite Hwhole
    end.
    cbn [thrown final_state UploadHelper.trace UploadHelper.set_log UploadHelper.set_trace].
    split; [exists e; reflexivity|]. split; [exact Hall|exact Hlen].
Qed.

Lemma copy_operation_is_chosen_by_size_witness :
  let small (size : Z) :=
    UploadHelper.trace
      (final_state
         (copyDataToS3File Samples.accepting_client 7 size Samples.small_policy false 1 false [])) in
  let copied (size : Z) :=
    UploadHelper.trace
      (final_state
         (copyS3File Samples.accepting_client 7 size Samples.small_policy false 1 false [])) in
  hd_error (small 20) = Some (PutObjectRequest 20 (SourceRange 7 20), Success "") /\
  answered is_put (small 21) = 0%nat /\
  hd_error (copied 20) = Some (CopyObjectRequest, Success "") /\
  answered is_copy (copied 21) = 0%nat.
Proof.
  assert (Hr : is_size_t 1) by (unfold is_size_t, SIZE_MODULUS; lia).
  intros small copied. split; [|split; [|split]].
  - apply (proj1 (copy_operation_is_chosen_by_size Samples.accepting_client 7 20
                    Samples.small_policy false 1 false [] Hr)).
    cbn. lia.
  - apply (proj1 (proj2 (copy_operation_is_chosen_by_size Samples.accepting_client 7 21
                           Samples.small_policy false 1 false [] Hr))).
    cbn. lia.
  - apply (proj1 (proj2 (proj2 (copy_operation_is_chosen_by_size Samples.accepting_client 7 20
                                  Samples.small_policy false 1 false [] Hr)))).
    cbn. lia.
  - apply (proj2 (proj2 (proj2 (copy_operation_is_chosen_by_size Samples.accepting_client 7 21
                                  Samples.small_policy false 1 false [] Hr)))).
    cbn. lia.
Defined.

Lemma single_shot_is_retried_within_budget_witness :
  let data := copyDataToS3File Samples.phantom_client 7 15 Samples.small_policy false 3 false [] in
  let file := copyS3File Samples.phantom_client 7 15 Samples.small_policy false 3 false [] in
  (thrown data = Some (S3Exception NO_SUCH_KEY "The specified key does not exist.") /\
   map fst (UploadHelper.trace (final_state data))
   = repeat (PutObjectRequest 15 (SourceRange 7 15)) 3) /\
  (thrown file = Some (S3Exception NO_SUCH_KEY "The specified key does not exist.") /\
   map fst (UploadHelper.trace (final_state file)) = repeat CopyObjectRequest 3) /\
  Z.of_nat (answered is_put (UploadHelper.trace (final_state data))) <= 3 /\
  Z.of_nat (List.length (UploadHelper.trace (final_state file))) = 3.
Proof.
  assert (Hr : is_size_t 3) by (unfold is_size_t, SIZE_MODULUS; lia).
  intros data file.
  split; [vm_compute; split; reflexivity|]. split; [vm_compute; split; reflexivity|].
  destruct (single_shot_is_retried_within_budget Samples.phantom_client 7 15
              Samples.small_policy false 3 false [] Hr) as (Hput & _ & _ & Hcopy).
  split; [exact Hput|].
  apply Hcopy.
  - cbn. lia.
  - intros history. exists Samples.no_such_key. repeat split.
Defined.

(** ** Finalizing after [preFinalize] *)

Lemma buffer_preFinalize_sets_flag (client : Client) (s s' : WriteBufferFromS3.State) :
  WriteBufferFromS3.preFinalize client s = Ok tt s' ->
  WriteBufferFromS3.is_prefinalized s' = true.
Proof.
  unfold WriteBufferFromS3.preFinalize. intros H.
  apply bind_ok in H. destruct H as (u1 & s1 & _ & H).
  apply bind_ok in H. destruct H as (upload_id & s2 & _ & H).
  apply bind_ok in H. destruct H as (u3 & s3 & _ & H).
  cbn [modify] in H. ok_inv H. reflexivity.
Qed.

(** X6. [finalizeImpl] does the work of [preFinalize] only when it was not
    done before: [preFinalize] followed by [finalizeImpl] ends exactly as
    [finalizeImpl] alone, with the same result, the same state and the same
    requests sent. *)
Theorem finalize_after_preFinalize (client : Client) (s : WriteBufferFromS3.State) :
  WriteBufferFromS3.is_prefinalized s = false ->
  (WriteBufferFromS3.preFinalize client ;; WriteBufferFromS3.finalizeImpl client) s
  = WriteBufferFromS3.finalizeImpl client s.
Proof.
  intros Hpre.
  pose (rest := (WriteBufferFromS3.waitForAllBackGroundTasks client ;;
                 upload_id <- gets WriteBufferFromS3.multipart_upload_id ;;
                 (if negb (WriteBufferFromS3.empty upload_id)
                  then WriteBufferFromS3.completeMultipartUpload client else ret tt) ;;
                 check <- gets (fun s => WriteBufferFromS3.check_objects_after_upload
                                           (WriteBufferFromS3.config s)) ;;
                 if check then WriteBufferFromS3.checkObjectExists client else ret tt)).
  assert (Hfin : forall s0,
             WriteBufferFromS3.finalizeImpl client s0
             = ((if negb (WriteBufferFromS3.is_prefinalized s0)
                 then WriteBufferFromS3.preFinalize client else ret tt) ;; rest) s0)
    by reflexivity.
  rewrite (Hfin s), Hpre. cbn [negb].
  change ((WriteBufferFromS3.preFinalize client ;; WriteBufferFromS3.finalizeImpl client) s)
    with (match WriteBufferFromS3.preFinalize client s with
          | Ok _ s1 => WriteBufferFromS3.finalizeImpl client s1
          | Throw e s1 => Throw e s1
          | Undefined s1 => Undefined s1
          | OutOfFuel s1 => OutOfFuel s1
          | Blocked s1 => Blocked s1
          end).
  change ((WriteBufferFromS3.preFinalize client ;; rest) s)
    with (match WriteBufferFromS3.preFinalize client s with
          | Ok _ s1 => rest s1
          | Throw e s1 => Throw e s1
          | Undefined s1 => Undefined s1
          | OutOfFuel s1 => OutOfFuel s1
          | Blocked s1 => Blocked s1
          end).
  destruct (WriteBufferFromS3.preFinalize client s) as [[] s1|e s1|s1|s1|s1] eqn:H;
    try reflexivity.
  rewrite (Hfin s1), (buffer_preFinalize_sets_flag client s s1 H). reflexivity.
Qed.

Lemma finalize_after_preFinalize_witness :
  let s := WriteBufferFromS3.set_working_offset 15 Samples.inline_buffer in
  (WriteBufferFromS3.preFinalize Samples.accepting_client ;;
   WriteBufferFromS3.finalizeImpl Samples.accepting_client) s
  = WriteBufferFromS3.finalizeImpl Samples.accepting_client s /\
  map fst (WriteBufferFromS3.trace
             (final_state (WriteBufferFromS3.finalizeImpl Samples.accepting_client s)))
  = [PutObjectRequest 15 (TemporaryBuffer 15)].
Proof.
  intros s. split; [|vm_compute; reflexivity].
  apply (finalize_after_preFinalize Samples.accepting_client s). reflexivity.
Defined.

(** ** How the size of the parts grows *)

Lemma grown_part_size_next (p : PartUploadSettings) (n : Z) :
  WriteBufferFromS3.growth_in_range p -> 0 <= n ->
  WriteBufferFromS3.grown_part_size p (n + 1)
  = if (n + 1) mod upload_part_size_multiply_parts_count_threshold p =? 0
    then std_min (wrap (WriteBufferFromS3.grown_part_size p n
                        * upload_part_size_multiply_factor p))
                 (max_upload_part_size p)
    else WriteBufferFromS3.grown_part_size p n.
Proof.
  intros (Hmin & Hf & Hthr & Hfit & _) Hn. unfold WriteBufferFromS3.grown_part_size.
  set (thr := upload_part_size_multiply_parts_count_threshold p) in *.
  set (f := upload_part_size_multiply_factor p) in *.
  set (lo := min_upload_part_size p) in *.
  set (hi := max_upload_part_size p) in *.
  pose proof (Z.div_mod n thr ltac:(lia)) as Hdn.
  pose proof (Z.mod_pos_bound n thr Hthr) as Hrn.
  pose proof (Z.div_mod (n + 1) thr ltac:(lia)) as Hd1.
  pose proof (Z.mod_pos_bound (n + 1) thr Hthr) as Hr1.
  assert (Hq : 0 <= n / thr) by (apply Z.div_pos; lia).
  destruct (Z.eqb_spec ((n + 1) mod thr) 0) as [Hz|Hnz].
  - assert (Hq1 : (n + 1) / thr = n / thr + 1) by nia.
    rewrite Hq1, Z.pow_add_r, Z.pow_1_r by lia.
    set (a := lo * f ^ (n / thr)).
    assert (Ha : 0 <= a).
    { apply Z.mul_nonneg_nonneg; [lia|]. apply Z.pow_nonneg. lia. }
    rewrite Z.mul_assoc. fold a.
    assert (Hcap : 0 <= std_min a hi <= hi)
      by (unfold std_min; destruct (Z.ltb_spec hi a); lia).
    rewrite wrap_small by (unfold is_size_t; nia).
    unfold std_min.
    destruct (Z.ltb_spec hi a) as [Hover|Hin].
    + destruct (Z.ltb_spec hi (a * f)); [|nia]. destruct (Z.ltb_spec hi (hi * f)); nia.
    + reflexivity.
  - assert (Hq1 : (n + 1) / thr = n / thr) by nia.
    rewrite Hq1. reflexivity.
Qed.

Lemma fillUploadRequest_sized (s s' : WriteBufferFromS3.State) (request : Request) :
  WriteBufferFromS3.growth_in_range (WriteBufferFromS3.settings (WriteBufferFromS3.config s)) ->
  WriteBufferFromS3.empty (WriteBufferFromS3.multipart_upload_id s) = false ->
  WriteBufferFromS3.fillUploadRequest s = Ok request s' ->
  WriteBufferFromS3.sized s -> WriteBufferFromS3.sized s'.
Proof.
  intros Hp Hopen Hfill ((Hn0 & Hn1) & Hsize).
  pose proof (fillUploadRequest_cases s) as Hc. cbv zeta in Hc.
  rewrite Hopen in Hc. cbn [negb andb] in Hc.
  set (p := WriteBufferFromS3.settings (WriteBufferFromS3.config s)) in *.
  pose proof Hp as (_ & _ & Hthr & _ & Hmpn).
  assert (Hw : wrap (WriteBufferFromS3.part_number s + 1) = WriteBufferFromS3.part_number s + 1)
    by (apply wrap_small; unfold is_size_t; lia).
  rewrite Hw in Hc.
  pose proof (grown_part_size_next p (WriteBufferFromS3.part_number s) Hp Hn0) as Hnext.
  destruct (Z.ltb_spec (max_part_number p) (WriteBufferFromS3.part_number s + 1)) as [|Hle];
    [congruence|].
  destruct (Z.eqb_spec (upload_part_size_multiply_parts_count_threshold p) 0); [lia|].
  destruct ((WriteBufferFromS3.part_number s + 1)
            mod upload_part_size_multiply_parts_count_threshold p =? 0);
    rewrite Hc in Hfill; injection Hfill as <- <-;
    (split; [cbn; fold p; lia|]); cbn; fold p; rewrite Hnext; [rewrite Hsize|]; congruence.
Qed.

Lemma sized_front_end (s s' : WriteBufferFromS3.State) :
  WriteBufferFromS3.front_end s' = WriteBufferFromS3.front_end s ->
  WriteBufferFromS3.sized s -> WriteBufferFromS3.sized s'.
Proof.
  unfold WriteBufferFromS3.front_end, WriteBufferFromS3.sized. intros H.
  injection H as Hc _ Hu _ _ Hn _ _. rewrite Hc, Hu, Hn. auto.
Qed.

Lemma sizing_step_refl (s : WriteBufferFromS3.State) : WriteBufferFromS3.sizing_step s s.
Proof. split; auto. Qed.

Lemma sizing_step_trans (s1 s2 s3 : WriteBufferFromS3.State) :
  WriteBufferFromS3.sizing_step s1 s2 -> WriteBufferFromS3.sizing_step s2 s3 ->
  WriteBufferFromS3.sizing_step s1 s3.
Proof. intros [C1 P1] [C2 P2]. split; [congruence|auto]. Qed.

Lemma sizing_step_of_front_end (s s' : WriteBufferFromS3.State) :
  keeps WriteBufferFromS3.front_end s s' -> WriteBufferFromS3.sizing_step s s'.
Proof.
  intros H. split; [exact (proj1 (front_end_config _ _ H))|]. apply sized_front_end. exact H.
Qed.

(** The members of the calling thread after [writePart] has returned: as
    they were, or as [fillUploadRequest] has left them. *)
Lemma writePart_front_end (client : Client) (s s' : WriteBufferFromS3.State) :
  WriteBufferFromS3.writePart client s = Ok tt s' ->
  keeps WriteBufferFromS3.front_end s s' \/
  (0 < WriteBufferFromS3.temporary_buffer s /\
   exists s0 r s1,
     WriteBufferFromS3.front_end s0 = WriteBufferFromS3.front_end s /\
     WriteBufferFromS3.fillUploadRequest s0 = Ok r s1 /\
     WriteBufferFromS3.front_end s' = WriteBufferFromS3.front_end s1).
Proof.
  intros Hw.
  destruct (Z_lt_ge_dec 0 (WriteBufferFromS3.temporary_buffer s)) as [Hsize|Hsmall].
  - right. split; [exact Hsize|].
    destruct (after_warning_background s) as (Hbg & _ & _).
    apply background_view_front_end in Hbg. destruct Hbg as (Hfe & _).
    destruct (WriteBufferFromS3.schedule (WriteBufferFromS3.config s)) eqn:Hsched.
    + rewrite (writePart_scheduled client s Hsize Hsched) in Hw.
      destruct (WriteBufferFromS3.fillUploadRequest _) as [r s1| | | |] eqn:Hfill;
        try discriminate.
      eexists. exists r, s1. split; [|split; [exact Hfill|]].
      * exact Hfe.
      * pose proof (preserves_ok _ _ _ _ _ (buffer_pool_turn_front_end client) Hw) as Hp.
        exact Hp.
    + rewrite (writePart_inline client s Hsize Hsched) in Hw.
      destruct (WriteBufferFromS3.fillUploadRequest _) as [r s1| | | |] eqn:Hfill;
        try discriminate.
      destruct (WriteBufferFromS3.processUploadRequest _ _ _) as [task s2| | | |] eqn:Hproc;
        try discriminate.
      eexists. exists r, s1. split; [exact Hfe|]. split; [exact Hfill|].
      pose proof (preserves_ok _ _ _ _ _ (buffer_processUploadRequest_front_end client _) Hproc)
        as Hp.
      injection Hw as <-. exact Hp.
  - left. unfold WriteBufferFromS3.writePart in Hw. cbn [bind gets] in Hw.
    destruct (Z.ltb_spec (WriteBufferFromS3.temporary_buffer s) 0);
      [|destruct (Z.eqb_spec (WriteBufferFromS3.temporary_buffer s) 0); [|lia]];
      injection Hw as <-; reflexivity.
Qed.

Lemma writePart_sized (client : Client) (s s' : WriteBufferFromS3.State) :
  WriteBufferFromS3.growth_in_range (WriteBufferFromS3.settings (WriteBufferFromS3.config s)) ->
  WriteBufferFromS3.empty (WriteBufferFromS3.multipart_upload_id s) = false ->
  WriteBufferFromS3.writePart client s = Ok tt s' ->
  WriteBufferFromS3.sizing_step s s'.
Proof.
  intros Hp Hopen Hw.
  destruct (writePart_front_end client s s' Hw) as [Hfe|(_ & s0 & r & s1 & H0 & Hfill & H1)].
  - apply sizing_step_of_front_end. exact Hfe.
  - pose proof (front_end_config s s0 H0) as (C0 & _ & I0).
    assert (Hc1 : WriteBufferFromS3.config s1 = WriteBufferFromS3.config s0).
    { apply fillUploadRequest_within_ceiling in Hfill; [|rewrite I0; exact Hopen].
      exact (proj1 (proj2 (proj2 Hfill))). }
    split.
    + rewrite (proj1 (front_end_config s1 s' H1)), Hc1. exact C0.
    + intros Hs. apply (sized_front_end s1 s' H1).
      apply (fillUploadRequest_sized s0 s1 r); [rewrite C0; exact Hp|rewrite I0; exact Hopen
                                               |exact Hfill|].
      apply (sized_front_end s s0 H0). exact Hs.
Qed.

Section BufferSizes.

Variable client : Client.

Lemma sizing_of_front_end {A} (c : M WriteBufferFromS3.State A) :
  preserves (keeps WriteBufferFromS3.front_end) c -> returning WriteBufferFromS3.sizing_step c.
Proof.
  intros H s a s' Hc. apply sizing_step_of_front_end. exact (preserves_ok _ _ _ _ _ H Hc).
Qed.

Lemma nextImpl_sized (s s' : WriteBufferFromS3.State) :
  WriteBufferFromS3.growth_in_range (WriteBufferFromS3.settings (WriteBufferFromS3.config s)) ->
  WriteBufferFromS3.nextImpl client s = Ok tt s' ->
  WriteBufferFromS3.sizing_step s s'.
Proof.
  intros Hp.
  destruct (Z.eq_dec (WriteBufferFromS3.working_offset s) 0) as [Hz|Hnz].
  { unfold WriteBufferFromS3.nextImpl. cbn [bind gets]. rewrite Hz. cbn.
    intros H. injection H as <-. apply sizing_step_refl. }
  rewrite (nextImpl_steps client s Hnz). cbv zeta.
  set (s1 := if WriteBufferFromS3.temporary_buffer s =? -1 then _ else s).
  set (s2 := WriteBufferFromS3.set_last_part_size _ _).
  assert (F2 : WriteBufferFromS3.sizing_step s s2).
  { subst s2 s1. destruct (WriteBufferFromS3.temporary_buffer s =? -1);
      (split; [reflexivity|]); intros H; exact H. }
  clearbody s2. clear s1.
  intros H.
  apply bind_ok in H. destruct H as (u3 & s3 & H3 & H).
  apply bind_ok in H. destruct H as (u4 & s4 & H4 & H).
  assert (F3 : WriteBufferFromS3.sizing_step s2 s3).
  { match type of H3 with (if ?b then _ else _) _ = _ => destruct b end.
    - destruct u3. apply createMultipartUpload_ok in H3. destruct H3 as (x & _ & ->).
      split; [reflexivity|]. intros Hs. exact Hs.
    - injection H3 as _ <-. apply sizing_step_refl. }
  clear H3.
  pose proof (preserves_ok _ _ _ _ _ (buffer_waitForReadyBackGroundTasks_front_end client) H)
    as Hr.
  apply sizing_step_of_front_end in Hr.
  apply (sizing_step_trans _ s2); [exact F2|].
  apply (sizing_step_trans _ s3); [exact F3|].
  apply (sizing_step_trans _ s4); [|exact Hr].
  match type of H4 with (if ?b then _ else _) _ = _ => destruct b eqn:Hb end.
  - apply andb_prop in Hb. destruct Hb as [Hopen _].
    apply bind_ok in H4. destruct H4 as (u & sw & Hw & Ha).
    injection Ha as _ <-. destruct u.
    apply (sizing_step_trans _ sw).
    + apply (writePart_sized client); [|apply negb_true_iff; exact Hopen|exact Hw].
      rewrite (proj1 F3), (proj1 F2). exact Hp.
    + split; [reflexivity|]. intros Hs. exact Hs.
  - injection H4 as _ <-. apply sizing_step_refl.
Qed.

Lemma next_sized (s s' : WriteBufferFromS3.State) :
  WriteBufferFromS3.growth_in_range (WriteBufferFromS3.settings (WriteBufferFromS3.config s)) ->
  WriteBufferFromS3.next client s = Ok tt s' ->
  WriteBufferFromS3.sizing_step s s'.
Proof.
  intros Hp. unfold WriteBufferFromS3.next. cbn [bind gets].
  destruct (WriteBufferFromS3.working_offset s =? 0).
  - intros H. injection H as <-. apply sizing_step_refl.
  - intros H. apply bind_ok in H. destruct H as (u & s1 & H1 & H2).
    injection H2 as <-.
    unfold try_rethrow in H1.
    destruct (WriteBufferFromS3.nextImpl client s) as [u' s1'| | | |] eqn:Hn; try discriminate.
    injection H1 as _ <-. destruct u'.
    apply (sizing_step_trans _ s1'); [exact (nextImpl_sized s s1' Hp Hn)|].
    split; [reflexivity|]. intros Hs. exact Hs.
Qed.

Lemma write_all_sized (chunks : list Z) (s s' : WriteBufferFromS3.State) :
  WriteBufferFromS3.growth_in_range (WriteBufferFromS3.settings (WriteBufferFromS3.config s)) ->
  WriteBufferFromS3.write_all client chunks s = Ok tt s' ->
  WriteBufferFromS3.sizing_step s s'.
Proof.
  revert s. induction chunks as [|n chunks IH]; intros s Hp H;
    cbn [WriteBufferFromS3.write_all] in H.
  - injection H as <-. apply sizing_step_refl.
  - apply bind_ok in H. destruct H as ([] & s1 & H1 & H2).
    unfold WriteBufferFromS3.write in H1. cbn [bind modify] in H1.
    apply next_sized in H1; [|exact Hp].
    assert (S1 : WriteBufferFromS3.sizing_step s s1).
    { destruct H1 as [C P]. split; [exact C|]. intros Hs. apply P. exact Hs. }
    apply (sizing_step_trans _ s1); [exact S1|]. apply IH; [|exact H2].
    rewrite (proj1 S1). exact Hp.
Qed.

Lemma preFinalize_sized (s s' : WriteBufferFromS3.State) :
  WriteBufferFromS3.growth_in_range (WriteBufferFromS3.settings (WriteBufferFromS3.config s)) ->
  WriteBufferFromS3.preFinalize client s = Ok tt s' ->
  WriteBufferFromS3.sizing_step s s'.
Proof.
  intros Hp H. unfold WriteBufferFromS3.preFinalize in H.
  apply bind_ok in H. destruct H as ([] & s1 & H1 & H).
  pose proof (next_sized s s1 Hp H1) as S1.
  cbn [bind gets] in H.
  apply bind_ok in H. destruct H as (u & s2 & H2 & H3). injection H3 as <-.
  apply (sizing_step_trans _ s1); [exact S1|].
  apply (sizing_step_trans _ s2); [|split; [reflexivity|intros Hs; exact Hs]].
  destruct (WriteBufferFromS3.empty (WriteBufferFromS3.multipart_upload_id s1)) eqn:He.
  - apply sizing_step_of_front_end.
    exact (preserves_ok _ _ _ _ _ (makeSinglepartUpload_front_end client) H2).
  - destruct u. apply (writePart_sized client); [|exact He|exact H2].
    rewrite (proj1 S1). exact Hp.
Qed.

Lemma finalizeImpl_sized (s s' : WriteBufferFromS3.State) :
  WriteBufferFromS3.growth_in_range (WriteBufferFromS3.settings (WriteBufferFromS3.config s)) ->
  WriteBufferFromS3.finalizeImpl client s = Ok tt s' ->
  WriteBufferFromS3.sizing_step s s'.
Proof.
  intros Hp H. unfold WriteBufferFromS3.finalizeImpl in H. cbn [bind gets] in H.
  apply bind_ok in H. destruct H as (u1 & s1 & H1 & H).
  apply bind_ok in H. destruct H as (u2 & s2 & H2 & H).
  cbn [bind gets] in H.
  apply bind_ok in H. destruct H as (u3 & s3 & H3 & H).
  cbn [bind gets] in H.
  apply (sizing_step_trans _ s1).
  { destruct (negb (WriteBufferFromS3.is_prefinalized s)).
    - destruct u1. exact (preFinalize_sized _ _ Hp H1).
    - injection H1 as _ <-. apply sizing_step_refl. }
  apply sizing_step_of_front_end.
  apply (keeps_trans _ _ s2);
    [exact (preserves_ok _ _ _ _ _ (buffer_waitForAllBackGroundTasks_front_end client) H2)|].
  apply (keeps_trans _ _ s3).
  { destruct (negb (WriteBufferFromS3.empty (WriteBufferFromS3.multipart_upload_id s2))).
    - exact (preserves_ok _ _ _ _ _ (buffer_completeMultipartUpload_front_end client) H3).
    - injection H3 as _ <-. reflexivity. }
  destruct (WriteBufferFromS3.check_objects_after_upload (WriteBufferFromS3.config s3)).
  - exact (preserves_ok _ _ _ _ _ (buffer_checkObjectExists_front_end client) H).
  - injection H as <-. reflexivity.
Qed.

End BufferSizes.

(** X7. A streaming write that returns leaves [upload_part_size] as the
    policy makes it from the number [n] of the parts numbered so far:
    [min_upload_part_size] multiplied by [upload_part_size_multiply_factor]
    once for every [upload_part_size_multiply_parts_count_threshold] parts,
    capped at [max_upload_part_size]; so it never leaves the range from
    [min_upload_part_size] to [max_upload_part_size]. *)
Theorem upload_part_size_follows_policy (client : Client) (cfg : WriteBufferFromS3.Config)
    (script : list (list WriteBufferFromS3.PoolEvent)) (chunks : list Z)
    (s' : WriteBufferFromS3.State) :
  WriteBufferFromS3.growth_in_range (WriteBufferFromS3.settings cfg) ->
  WriteBufferFromS3.streaming_write client chunks (WriteBufferFromS3.construct cfg script)
  = Ok tt s' ->
  let p := WriteBufferFromS3.settings cfg in
  WriteBufferFromS3.upload_part_size s'
  = WriteBufferFromS3.grown_part_size p (WriteBufferFromS3.part_number s') /\
  min_upload_part_size p <= WriteBufferFromS3.upload_part_size s' <= max_upload_part_size p.
Proof.
  intros Hp H p. unfold WriteBufferFromS3.streaming_write in H.
  apply bind_ok in H. destruct H as ([] & s1 & H1 & H2).
  pose proof (write_all_sized client chunks (WriteBufferFromS3.construct cfg script) s1 Hp H1)
    as S1.
  assert (S2 : WriteBufferFromS3.sizing_step s1 s').
  { apply (finalizeImpl_sized client); [|exact H2]. rewrite (proj1 S1). exact Hp. }
  destruct (sizing_step_trans _ _ _ S1 S2) as [C P].
  destruct P as ((Hn0 & Hn1) & Hsize).
  { pose proof Hp as ((Hmin & Hle) & Hf & Hthr & _ & (Hmpn & _)).
    split; [cbn; lia|]. cbn. unfold WriteBufferFromS3.grown_part_size.
    rewrite Z.div_0_l by lia. rewrite Z.pow_0_r, Z.mul_1_r. unfold std_min.
    destruct (Z.ltb_spec (max_upload_part_size (WriteBufferFromS3.settings cfg))
                (min_upload_part_size (WriteBufferFromS3.settings cfg))); lia. }
  cbn [WriteBufferFromS3.config WriteBufferFromS3.construct] in C.
  rewrite C in Hsize. fold p in Hsize. split; [exact Hsize|].
  rewrite Hsize. unfold WriteBufferFromS3.grown_part_size, std_min.
  pose proof Hp as ((Hmin & Hle) & Hf & Hthr & _ & _). fold p in Hmin, Hle, Hf, Hthr.
  assert (Hq : 0 <= WriteBufferFromS3.part_number s'
                    / upload_part_size_multiply_parts_count_threshold p)
    by (apply Z.div_pos; lia).
  assert (Hpow : 1 <= upload_part_size_multiply_factor p
                      ^ (WriteBufferFromS3.part_number s'
                         / upload_part_size_multiply_parts_count_threshold p)).
  { apply (Z.le_trans _ (1 ^ (WriteBufferFromS3.part_number s'
                              / upload_part_size_multiply_parts_count_threshold p))).
    - rewrite Z.pow_1_l by lia. lia.
    - apply Z.pow_le_mono_l. lia. }
  destruct (Z.ltb_spec (max_upload_part_size p)
              (min_upload_part_size p
               * upload_part_size_multiply_factor p
                 ^ (WriteBufferFromS3.part_number s'
                    / upload_part_size_multiply_parts_count_threshold p))); nia.
Qed.

Lemma upload_part_size_follows_policy_witness :
  let s' := final_state
              (WriteBufferFromS3.streaming_write Samples.accepting_client [15; 15; 15; 15; 15]
                 Samples.inline_buffer) in
  WriteBufferFromS3.part_number s' = 3 /\
  WriteBufferFromS3.upload_part_size s' = 20 /\
  WriteBufferFromS3.upload_part_size s'
  = WriteBufferFromS3.grown_part_size Samples.small_policy (WriteBufferFromS3.part_number s') /\
  10 <= WriteBufferFromS3.upload_part_size s' <= 50.
Proof.
  intros s'. split; [vm_compute; reflexivity|]. split; [vm_compute; reflexivity|].
  apply (upload_part_size_follows_policy Samples.accepting_client
           (WriteBufferFromS3.mkConfig Samples.small_policy false 1 false) []
           [15; 15; 15; 15; 15] s').
  - unfold WriteBufferFromS3.growth_in_range, SIZE_MODULUS. cbn. lia.
  - vm_compute. reflexivity.
Defined.

(** ** What becomes of the bytes given to the streaming buffer *)

Lemma part_bytes_app (t1 t2 : Trace) : part_bytes (t1 ++ t2) = part_bytes t1 + part_bytes t2.
Proof.
  unfold part_bytes. induction t1 as [|e t1 IH]; cbn [app fold_right]; [reflexivity|].
  rewrite IH. lia.
Qed.

Lemma queued_bytes_app (l1 l2 : list WriteBufferFromS3.UploadPartTask) :
  WriteBufferFromS3.queued_bytes (l1 ++ l2)
  = WriteBufferFromS3.queued_bytes l1 + WriteBufferFromS3.queued_bytes l2.
Proof.
  unfold WriteBufferFromS3.queued_bytes.
  induction l1 as [|t l1 IH]; cbn [app fold_right]; [reflexivity|].
  rewrite IH. destruct (WriteBufferFromS3.stage t); lia.
Qed.

(** Settling the one task that has the number [id] takes the bytes of its
    part from the queue. *)
Lemma queued_bytes_settle (id : Z)
    (f : WriteBufferFromS3.UploadPartTask -> WriteBufferFromS3.UploadPartTask)
    (tasks : list WriteBufferFromS3.UploadPartTask) (task : WriteBufferFromS3.UploadPartTask) :
  (forall t, WriteBufferFromS3.stage (f t) = WriteBufferFromS3.Returned) ->
  NoDup (map WriteBufferFromS3.task_id tasks) ->
  In task tasks -> WriteBufferFromS3.task_id task = id ->
  WriteBufferFromS3.stage task = WriteBufferFromS3.Queued ->
  WriteBufferFromS3.queued_bytes
    (map (fun t => if WriteBufferFromS3.task_id t =? id then f t else t) tasks)
  = WriteBufferFromS3.queued_bytes tasks - part_length (WriteBufferFromS3.req task).
Proof.
  intros Hf. unfold WriteBufferFromS3.queued_bytes.
  induction tasks as [|t tasks IH]; intros Hnd Hin Hid Hst; [destruct Hin|].
  cbn [map] in Hnd. inversion Hnd as [|? ? Hnotin Hnd']; subst.
  cbn [map fold_right].
  destruct (Z.eqb_spec (WriteBufferFromS3.task_id t) (WriteBufferFromS3.task_id task)) as [He|Hne].
  - assert (Ht : t = task).
    { destruct Hin as [Ht|Hin]; [exact Ht|].
      exfalso. apply Hnotin. rewrite He. apply in_map. exact Hin. }
    subst t. rewrite Hf, Hst.
    assert (Hsame : map (fun t => if WriteBufferFromS3.task_id t
                                     =? WriteBufferFromS3.task_id task then f t else t) tasks
                    = tasks).
    { clear IH Hin Hnd Hnd'. induction tasks as [|x tasks IH]; [reflexivity|].
      cbn [map]. destruct (Z.eqb_spec (WriteBufferFromS3.task_id x)
                             (WriteBufferFromS3.task_id task)) as [Hx|Hx].
      - exfalso. apply Hnotin. left. exact Hx.
      - f_equal. apply IH. intros Hin. apply Hnotin. right. exact Hin. }
    rewrite Hsame. lia.
  - destruct Hin as [Ht|Hin]; [congruence|].
    rewrite (IH Hnd' Hin eq_refl Hst). destruct (WriteBufferFromS3.stage t); lia.
Qed.

Lemma queued_bytes_settled (tasks : list WriteBufferFromS3.UploadPartTask) :
  Forall (fun t => WriteBufferFromS3.stage t <> WriteBufferFromS3.Queued) tasks ->
  WriteBufferFromS3.queued_bytes tasks = 0.
Proof.
  unfold WriteBufferFromS3.queued_bytes.
  induction 1 as [|t tasks Ht _ IH]; cbn [fold_right]; [reflexivity|].
  rewrite IH. destruct (WriteBufferFromS3.stage t); congruence.
Qed.

(** The members that the queue in order and its bytes are read from. *)
Lemma settling_step_same (s s' : WriteBufferFromS3.State) :
  WriteBufferFromS3.upload_object_tasks s' = WriteBufferFromS3.upload_object_tasks s ->
  WriteBufferFromS3.trace s' = WriteBufferFromS3.trace s ->
  WriteBufferFromS3.num_added_bg_tasks s' = WriteBufferFromS3.num_added_bg_tasks s ->
  WriteBufferFromS3.config s' = WriteBufferFromS3.config s ->
  WriteBufferFromS3.put_object_task s' = WriteBufferFromS3.put_object_task s ->
  WriteBufferFromS3.settling_step s s'.
Proof.
  intros Ht Htr Hn Hc Hp.
  unfold WriteBufferFromS3.settling_step, WriteBufferFromS3.queue_in_order,
    WriteBufferFromS3.parted_bytes, WriteBufferFromS3.no_put, WriteBufferFromS3.settled.
  rewrite Ht, Htr, Hn, Hc, Hp. intros H. repeat split; try apply H; auto.
  all: intros; tauto.
Qed.

Lemma settling_step_refl (s : WriteBufferFromS3.State) : WriteBufferFromS3.settling_step s s.
Proof. apply settling_step_same; reflexivity. Qed.

Lemma settling_step_trans (s1 s2 s3 : WriteBufferFromS3.State) :
  WriteBufferFromS3.settling_step s1 s2 -> WriteBufferFromS3.settling_step s2 s3 ->
  WriteBufferFromS3.settling_step s1 s3.
Proof.
  intros H12 H23 H1. destruct (H12 H1) as (Q2 & B2 & P2 & I2 & S2).
  destruct (H23 Q2) as (Q3 & B3 & P3 & I3 & S3).
  split; [exact Q3|]. split; [congruence|]. split; [auto|]. split; [congruence|auto].
Qed.

Lemma parting_step_of_settling (s s' : WriteBufferFromS3.State) :
  WriteBufferFromS3.settling_step s s' -> WriteBufferFromS3.parting_step 0 s s'.
Proof.
  intros H Hq. destruct (H Hq) as (Q & B & P & _). split; [exact Q|]. split; [lia|exact P].
Qed.

Lemma parting_step_refl (s : WriteBufferFromS3.State) : WriteBufferFromS3.parting_step 0 s s.
Proof. apply parting_step_of_settling, settling_step_refl. Qed.

Lemma parting_step_add (d1 d2 : Z) (s1 s2 s3 : WriteBufferFromS3.State) :
  WriteBufferFromS3.parting_step d1 s1 s2 -> WriteBufferFromS3.parting_step d2 s2 s3 ->
  WriteBufferFromS3.parting_step (d1 + d2) s1 s3.
Proof.
  intros H12 H23 H1. destruct (H12 H1) as (Q2 & B2 & P2).
  destruct (H23 Q2) as (Q3 & B3 & P3).
  split; [exact Q3|]. split; [lia|auto].
Qed.

Lemma parting_step_trans (s1 s2 s3 : WriteBufferFromS3.State) :
  WriteBufferFromS3.parting_step 0 s1 s2 -> WriteBufferFromS3.parting_step 0 s2 s3 ->
  WriteBufferFromS3.parting_step 0 s1 s3.
Proof. exact (parting_step_add 0 0 s1 s2 s3). Qed.

Lemma part_bytes_quiet (sent : Trace) :
  Forall (fun entry => is_upload (fst entry) = false) sent -> part_bytes sent = 0.
Proof.
  unfold part_bytes. induction 1 as [|[r o] sent Hr _ IH]; cbn [fold_right fst]; [reflexivity|].
  rewrite IH. cbn [fst] in Hr. destruct r; cbn in *; try discriminate; reflexivity.
Qed.

Lemma has_failed_upload_quiet (sent : Trace) :
  Forall (fun entry => is_upload (fst entry) = false) sent -> has_failed_upload sent = false.
Proof.
  unfold has_failed_upload. induction 1 as [|e sent Hr _ IH]; cbn [existsb]; [reflexivity|].
  rewrite IH. unfold failed_upload. rewrite Hr. reflexivity.
Qed.

Lemma quiet_step_same (s s' : WriteBufferFromS3.State) :
  WriteBufferFromS3.upload_object_tasks s' = WriteBufferFromS3.upload_object_tasks s ->
  WriteBufferFromS3.trace s' = WriteBufferFromS3.trace s ->
  WriteBufferFromS3.num_added_bg_tasks s' = WriteBufferFromS3.num_added_bg_tasks s ->
  WriteBufferFromS3.config s' = WriteBufferFromS3.config s ->
  option_map WriteBufferFromS3.put_req (WriteBufferFromS3.put_object_task s')
  = option_map WriteBufferFromS3.put_req (WriteBufferFromS3.put_object_task s) ->
  WriteBufferFromS3.quiet_step s s'.
Proof.
  intros Ht Htr Hn Hc Hp. repeat split; try assumption.
  exists []. split; [rewrite app_nil_r; exact Htr|constructor].
Qed.

Lemma quiet_step_refl (s : WriteBufferFromS3.State) : WriteBufferFromS3.quiet_step s s.
Proof. apply quiet_step_same; reflexivity. Qed.

Lemma quiet_step_trans (s1 s2 s3 : WriteBufferFromS3.State) :
  WriteBufferFromS3.quiet_step s1 s2 -> WriteBufferFromS3.quiet_step s2 s3 ->
  WriteBufferFromS3.quiet_step s1 s3.
Proof.
  intros (T1 & N1 & C1 & P1 & sent1 & E1 & F1) (T2 & N2 & C2 & P2 & sent2 & E2 & F2).
  repeat split; try congruence.
  exists (sent1 ++ sent2). split; [rewrite E2, E1, app_assoc; reflexivity|].
  apply Forall_app. split; assumption.
Qed.

(** A quiet step keeps the queue in order and its bytes. *)
Lemma quiet_step_in_order (s s' : WriteBufferFromS3.State) :
  WriteBufferFromS3.quiet_step s s' ->
  WriteBufferFromS3.queue_in_order s ->
  WriteBufferFromS3.queue_in_order s' /\
  WriteBufferFromS3.parted_bytes s' = WriteBufferFromS3.parted_bytes s /\
  WriteBufferFromS3.upload_object_tasks s' = WriteBufferFromS3.upload_object_tasks s.
Proof.
  intros (T & N & C & P & sent & E & F) (Q1 & Q2 & Q3 & Q4 & Q5).
  unfold WriteBufferFromS3.queue_in_order, WriteBufferFromS3.parted_bytes.
  rewrite T, N, C, E, part_bytes_app, has_failed_upload_app, (part_bytes_quiet sent F),
    (has_failed_upload_quiet sent F), orb_false_r.
  repeat split; auto; try lia.
  intros t' Ht'. rewrite Ht' in P. cbn [option_map] in P.
  destruct (WriteBufferFromS3.put_object_task s) as [t|] eqn:Hput; [|discriminate].
  cbn [option_map] in P. injection P as ->. apply (Q4 t). reflexivity.
Qed.

Lemma settling_step_of_quiet (s s' : WriteBufferFromS3.State) :
  WriteBufferFromS3.quiet_step s s' ->
  (WriteBufferFromS3.no_put s -> WriteBufferFromS3.no_put s') ->
  WriteBufferFromS3.settling_step s s'.
Proof.
  intros Hq Hp Hin. destruct (quiet_step_in_order s s' Hq Hin) as (Q & B & T).
  split; [exact Q|]. split; [exact B|]. split; [exact Hp|].
  unfold WriteBufferFromS3.settled. rewrite T. split; [reflexivity|auto].
Qed.

Lemma fillUploadRequest_parting (s s1 : WriteBufferFromS3.State) (r : Request) :
  WriteBufferFromS3.fillUploadRequest s = Ok r s1 ->
  part_length r = WriteBufferFromS3.temporary_buffer s /\ is_upload r = true /\
  WriteBufferFromS3.upload_object_tasks s1 = WriteBufferFromS3.upload_object_tasks s /\
  WriteBufferFromS3.trace s1 = WriteBufferFromS3.trace s /\
  WriteBufferFromS3.num_added_bg_tasks s1 = WriteBufferFromS3.num_added_bg_tasks s /\
  WriteBufferFromS3.config s1 = WriteBufferFromS3.config s /\
  WriteBufferFromS3.put_object_task s1 = WriteBufferFromS3.put_object_task s /\
  WriteBufferFromS3.working_offset s1 = WriteBufferFromS3.working_offset s /\
  WriteBufferFromS3.is_prefinalized s1 = WriteBufferFromS3.is_prefinalized s /\
  WriteBufferFromS3.multipart_upload_id s1 = WriteBufferFromS3.multipart_upload_id s.
Proof.
  intros H. pose proof (fillUploadRequest_cases s) as Hc. cbv zeta in Hc.
  repeat match type of Hc with
         | if ?b then _ else _ => destruct b
         end;
    rewrite Hc in H; try discriminate; injection H as <- <-; repeat split.
Qed.

Lemma after_warning_parting (s : WriteBufferFromS3.State) :
  WriteBufferFromS3.upload_object_tasks (WriteBufferFromS3.after_warning s)
  = WriteBufferFromS3.upload_object_tasks s /\
  WriteBufferFromS3.trace (WriteBufferFromS3.after_warning s) = WriteBufferFromS3.trace s /\
  WriteBufferFromS3.num_added_bg_tasks (WriteBufferFromS3.after_warning s)
  = WriteBufferFromS3.num_added_bg_tasks s /\
  WriteBufferFromS3.config (WriteBufferFromS3.after_warning s) = WriteBufferFromS3.config s /\
  WriteBufferFromS3.put_object_task (WriteBufferFromS3.after_warning s)
  = WriteBufferFromS3.put_object_task s /\
  WriteBufferFromS3.temporary_buffer (WriteBufferFromS3.after_warning s)
  = WriteBufferFromS3.temporary_buffer s.
Proof.
  unfold WriteBufferFromS3.after_warning. destruct (_ =? _); repeat split.
Qed.

(** A part that is put in the queue. *)
Lemma parting_step_enqueue (r : Request) (s s2 : WriteBufferFromS3.State) :
  is_upload r = true ->
  WriteBufferFromS3.upload_object_tasks s2
  = WriteBufferFromS3.upload_object_tasks s
    ++ [WriteBufferFromS3.with_stage WriteBufferFromS3.Queued
          (WriteBufferFromS3.with_req r
             (WriteBufferFromS3.new_task (WriteBufferFromS3.num_added_bg_tasks s)))] ->
  WriteBufferFromS3.num_added_bg_tasks s2 = WriteBufferFromS3.num_added_bg_tasks s + 1 ->
  WriteBufferFromS3.trace s2 = WriteBufferFromS3.trace s ->
  WriteBufferFromS3.config s2 = WriteBufferFromS3.config s ->
  WriteBufferFromS3.put_object_task s2 = WriteBufferFromS3.put_object_task s ->
  WriteBufferFromS3.schedule (WriteBufferFromS3.config s) = true ->
  WriteBufferFromS3.parting_step (part_length r) s s2.
Proof.
  intros Hr Ht Hn Htr Hc Hp Hsched.
  unfold WriteBufferFromS3.parting_step, WriteBufferFromS3.queue_in_order,
    WriteBufferFromS3.parted_bytes, WriteBufferFromS3.no_put.
  rewrite Ht, Hn, Htr, Hc, Hp, Hsched, queued_bytes_app, map_app.
  intros (Q1 & Q2 & Q3 & Q4 & Q5).
  split; [|split; [cbn; lia|tauto]].
  split; [|split; [|split; [discriminate|split; [exact Q4|]]]].
  - cbn [map WriteBufferFromS3.task_id WriteBufferFromS3.with_stage WriteBufferFromS3.with_req
         WriteBufferFromS3.new_task].
    apply NoDup_app; [exact Q1|repeat constructor; intros []|].
    intros x Hx [<-|[]]. apply in_map_iff in Hx. destruct Hx as (t & Hid & Hin).
    rewrite Forall_forall in Q2. specialize (Q2 t Hin). lia.
  - apply Forall_app. split.
    + revert Q2. apply Forall_impl. intros t (A & B & C). split; [lia|auto].
    + repeat constructor; cbn; [lia|exact Hr|discriminate].
  - intros Hf. apply Exists_app. left. exact (Q5 Hf).
Qed.

(** A part that is sent by the calling thread and accepted. *)
Lemma parting_step_sent (r : Request) (etag : string) (s s2 : WriteBufferFromS3.State) :
  is_upload r = true ->
  WriteBufferFromS3.upload_object_tasks s2 = WriteBufferFromS3.upload_object_tasks s ->
  WriteBufferFromS3.num_added_bg_tasks s2 = WriteBufferFromS3.num_added_bg_tasks s ->
  WriteBufferFromS3.trace s2 = WriteBufferFromS3.trace s ++ [(r, Success etag)] ->
  WriteBufferFromS3.config s2 = WriteBufferFromS3.config s ->
  WriteBufferFromS3.put_object_task s2 = WriteBufferFromS3.put_object_task s ->
  WriteBufferFromS3.parting_step (part_length r) s s2.
Proof.
  intros Hr Ht Hn Htr Hc Hp.
  unfold WriteBufferFromS3.parting_step, WriteBufferFromS3.queue_in_order,
    WriteBufferFromS3.parted_bytes, WriteBufferFromS3.no_put.
  rewrite Ht, Hn, Htr, Hc, Hp, part_bytes_app, has_failed_upload_app, answered_app.
  intros (Q1 & Q2 & Q3 & Q4 & Q5).
  split; [|split; [cbn; lia|]].
  - repeat (split; [assumption|]).
    intros Hf. apply Q5. apply orb_prop in Hf. destruct Hf as [Hf|Hf]; [exact Hf|].
    cbn in Hf. unfold failed_upload in Hf. cbn in Hf. rewrite andb_false_r in Hf. discriminate.
  - intros [P1 P2]. split; [exact P1|]. rewrite P2. unfold answered. cbn.
    destruct r; cbn in *; try discriminate; reflexivity.
Qed.

Lemma front_end_flags (s s' : WriteBufferFromS3.State) :
  WriteBufferFromS3.front_end s' = WriteBufferFromS3.front_end s ->
  WriteBufferFromS3.working_offset s' = WriteBufferFromS3.working_offset s /\
  WriteBufferFromS3.temporary_buffer s' = WriteBufferFromS3.temporary_buffer s /\
  WriteBufferFromS3.is_prefinalized s' = WriteBufferFromS3.is_prefinalized s /\
  WriteBufferFromS3.multipart_upload_id s' = WriteBufferFromS3.multipart_upload_id s.
Proof. unfold WriteBufferFromS3.front_end. intros H. injection H. auto. Qed.

Lemma accounted_intro (written : Z) (s : WriteBufferFromS3.State) :
  WriteBufferFromS3.queue_in_order s ->
  WriteBufferFromS3.working_offset s = 0 ->
  WriteBufferFromS3.is_prefinalized s = false ->
  0 <= WriteBufferFromS3.temporary_buffer s ->
  WriteBufferFromS3.parted_bytes s + WriteBufferFromS3.temporary_buffer s = written ->
  WriteBufferFromS3.accounted written s.
Proof. unfold WriteBufferFromS3.accounted. auto. Qed.

Section BufferBytes.

Variable client : Client.

Lemma buffer_send_quiet (r : Request) :
  is_upload r = false ->
  preserves WriteBufferFromS3.quiet_step (WriteBufferFromS3.send client r).
Proof.
  intros Hr s. cbn. repeat split.
  eexists. split; [reflexivity|]. constructor; [exact Hr|constructor].
Qed.

Lemma buffer_LOG_quiet (m : LogMessage) :
  preserves WriteBufferFromS3.quiet_step (WriteBufferFromS3.LOG m).
Proof. intros s. apply quiet_step_same; reflexivity. Qed.

Lemma buffer_complete_retry_loop_quiet (fuel : nat) (i max_retry : Z) (request : Request) :
  is_upload request = false ->
  preserves WriteBufferFromS3.quiet_step
    (WriteBufferFromS3.complete_retry_loop client fuel i max_retry request).
Proof.
  intros Hr. revert i. induction fuel as [|fuel IH]; intros i;
    cbn [WriteBufferFromS3.complete_retry_loop];
    destruct (i <? max_retry); try (intros s; apply quiet_step_refl).
  apply (preserves_bind _ quiet_step_trans); [apply buffer_send_quiet; exact Hr|].
  intros [x|e]; [intros s; apply quiet_step_refl|].
  destruct (GetErrorType e); try (intros s; apply quiet_step_refl).
  apply (preserves_bind _ quiet_step_trans); [apply buffer_LOG_quiet|intros _; apply IH].
Qed.

Lemma buffer_processPutRequest_quiet (task : WriteBufferFromS3.PutObjectTask) :
  is_upload (WriteBufferFromS3.put_req task) = false ->
  preserves WriteBufferFromS3.quiet_step (WriteBufferFromS3.processPutRequest client task).
Proof.
  intros Hr. unfold WriteBufferFromS3.processPutRequest.
  apply (preserves_bind _ quiet_step_trans); [intros s; apply quiet_step_refl|].
  intros max_retry s. rewrite buffer_put_retry_loop_same.
  apply buffer_complete_retry_loop_quiet. exact Hr.
Qed.

Lemma buffer_put_task_runs_settling :
  returning WriteBufferFromS3.settling_step (WriteBufferFromS3.put_task_runs client).
Proof.
  intros s [] s' H. unfold WriteBufferFromS3.put_task_runs in H.
  destruct (WriteBufferFromS3.put_object_task s) as [task|] eqn:Hput;
    [|injection H as <-; apply settling_step_refl].
  destruct (WriteBufferFromS3.put_stage task);
    try (injection H as <-; apply settling_step_refl).
  intros Hq. pose proof Hq as (_ & _ & _ & Q4 & _).
  pose proof (buffer_processPutRequest_quiet task (Q4 task Hput) s) as Hstep.
  revert Hq. apply settling_step_of_quiet.
  - destruct (WriteBufferFromS3.processPutRequest client task s) as [u s1|e s1| | |];
      try discriminate; cbn [final_state] in Hstep; injection H as <-;
      (eapply quiet_step_trans; [exact Hstep|]);
      apply quiet_step_same; try reflexivity; cbn;
      destruct (WriteBufferFromS3.put_object_task s1); reflexivity.
  - intros [Hnone _]. congruence.
Qed.

(** A closure of the thread pool sends the part of its task and settles
    the task. *)
Lemma buffer_settle_task (id : Z)
    (g : WriteBufferFromS3.UploadPartTask -> WriteBufferFromS3.UploadPartTask)
    (task : WriteBufferFromS3.UploadPartTask) (o : Outcome) (s : WriteBufferFromS3.State) :
  In task (WriteBufferFromS3.upload_object_tasks s) ->
  WriteBufferFromS3.task_id task = id ->
  WriteBufferFromS3.stage task = WriteBufferFromS3.Queued ->
  (forall t, WriteBufferFromS3.task_id (g t) = WriteBufferFromS3.task_id t /\
             WriteBufferFromS3.req (g t) = WriteBufferFromS3.req t) ->
  (forall t, WriteBufferFromS3.exception t <> None -> WriteBufferFromS3.exception (g t) <> None) ->
  (IsSuccess o = false -> forall t, WriteBufferFromS3.exception (g t) <> None) ->
  let s' := WriteBufferFromS3.task_finish_notify id
              (WriteBufferFromS3.update_task id g
                 (WriteBufferFromS3.set_trace
                    (WriteBufferFromS3.trace s ++ [(WriteBufferFromS3.req task, o)]) s)) in
  WriteBufferFromS3.settling_step s s' /\
  (WriteBufferFromS3.queue_in_order s -> WriteBufferFromS3.settled s' id).
Proof.
  intros Hin Hid Hst Hg Hkeep Hfail s'.
  set (f := fun t => WriteBufferFromS3.finished (g t)).
  assert (Htasks : WriteBufferFromS3.upload_object_tasks s'
                   = map (fun t => if WriteBufferFromS3.task_id t =? id then f t else t)
                       (WriteBufferFromS3.upload_object_tasks s)).
  { subst s'. cbn. rewrite map_map. apply map_ext. intros t.
    destruct (Z.eqb_spec (WriteBufferFromS3.task_id t) id) as [He|Hne].
    - rewrite (proj1 (Hg t)). destruct (Z.eqb_spec (WriteBufferFromS3.task_id t) id); [|tauto].
      reflexivity.
    - destruct (Z.eqb_spec (WriteBufferFromS3.task_id t) id); [tauto|reflexivity]. }
  assert (Htrace : WriteBufferFromS3.trace s'
                   = WriteBufferFromS3.trace s ++ [(WriteBufferFromS3.req task, o)])
    by reflexivity.
  assert (Hadded : WriteBufferFromS3.num_added_bg_tasks s'
                   = WriteBufferFromS3.num_added_bg_tasks s) by reflexivity.
  assert (Hcfg : WriteBufferFromS3.config s' = WriteBufferFromS3.config s) by reflexivity.
  assert (Hput : WriteBufferFromS3.put_object_task s' = WriteBufferFromS3.put_object_task s)
    by reflexivity.
  clearbody s'.
  assert (Hids : map WriteBufferFromS3.task_id (WriteBufferFromS3.upload_object_tasks s')
                 = map WriteBufferFromS3.task_id (WriteBufferFromS3.upload_object_tasks s)).
  { rewrite Htasks, map_map. apply map_ext. intros t.
    destruct (WriteBufferFromS3.task_id t =? id); [|reflexivity]. exact (proj1 (Hg t)). }
  assert (Hsettled : WriteBufferFromS3.settled s' id).
  { intros t' Hin' Hid'. rewrite Htasks in Hin'. apply in_map_iff in Hin'.
    destruct Hin' as (t & <- & _).
    destruct (Z.eqb_spec (WriteBufferFromS3.task_id t) id) as [He|Hne]; [discriminate|].
    exfalso. apply Hne. exact Hid'. }
  split; [|intros _; exact Hsettled].
  intros (Q1 & Q2 & Q3 & Q4 & Q5).
  assert (Hup : is_upload (WriteBufferFromS3.req task) = true).
  { rewrite Forall_forall in Q2. exact (proj1 (proj2 (Q2 task Hin))). }
  split; [|split; [|split; [|split]]].
  - unfold WriteBufferFromS3.queue_in_order. rewrite Hids, Hadded, Hcfg, Hput, Htrace.
    split; [exact Q1|]. split; [|split; [|split; [exact Q4|]]].
    + rewrite Htasks. apply Forall_map. revert Q2. apply Forall_impl.
      intros t (A & B & C). destruct (WriteBufferFromS3.task_id t =? id).
      * unfold f. cbn. rewrite (proj1 (Hg t)), (proj2 (Hg t)).
        split; [exact A|]. split; [exact B|]. discriminate.
      * auto.
    + intros Hs. rewrite Htasks, (Q3 Hs). reflexivity.
    + rewrite has_failed_upload_app. intros Hf. apply orb_prop in Hf.
      rewrite Htasks. apply Exists_exists. destruct Hf as [Hf|Hf].
      * apply Q5 in Hf. apply Exists_exists in Hf. destruct Hf as (t & Ht & He).
        exists (if WriteBufferFromS3.task_id t =? id then f t else t).
        split; [apply in_map_iff; exists t; split; [reflexivity|exact Ht]|].
        destruct (WriteBufferFromS3.task_id t =? id); [|exact He].
        unfold f. cbn. apply Hkeep. exact He.
      * exists (f task). split.
        -- apply in_map_iff. exists task. split; [|exact Hin].
           rewrite Hid, Z.eqb_refl. reflexivity.
        -- unfold f. cbn. apply Hfail. cbn in Hf. unfold failed_upload in Hf. cbn in Hf.
           rewrite orb_false_r in Hf. apply andb_prop in Hf.
           apply negb_true_iff. exact (proj2 Hf).
  - unfold WriteBufferFromS3.parted_bytes.
    rewrite Htrace, Htasks, part_bytes_app,
      (queued_bytes_settle id f _ task (fun t => eq_refl) Q1 Hin Hid Hst).
    cbn. lia.
  - unfold WriteBufferFromS3.no_put. rewrite Hput, Htrace, answered_app.
    intros [P1 P2]. split; [exact P1|]. rewrite P2. cbn.
    destruct (WriteBufferFromS3.req task); cbn in *; try discriminate; reflexivity.
  - exact Hids.
  - intros id0 Hs0 t' Hin' Hid'. rewrite Htasks in Hin'. apply in_map_iff in Hin'.
    destruct Hin' as (t & <- & Ht).
    destruct (WriteBufferFromS3.task_id t =? id); [discriminate|].
    apply (Hs0 t Ht). exact Hid'.
Qed.

Lemma buffer_upload_task_runs_settles (id : Z) (s s' : WriteBufferFromS3.State) :
  WriteBufferFromS3.upload_task_runs client id s = Ok tt s' ->
  WriteBufferFromS3.settling_step s s' /\
  (WriteBufferFromS3.queue_in_order s -> WriteBufferFromS3.settled s' id).
Proof.
  unfold WriteBufferFromS3.upload_task_runs.
  destruct (find _ _) as [task|] eqn:Hfind.
  - pose proof (find_some _ _ Hfind) as [Hin Hid]. apply Z.eqb_eq in Hid.
    destruct (WriteBufferFromS3.stage task) eqn:Hst.
    + intros H. injection H as <-. split; [apply settling_step_refl|].
      intros (Q1 & _) t Ht Htid. rewrite <- Hid in Htid.
      rewrite (NoDup_map_eq WriteBufferFromS3.task_id _ t task Q1 Ht Hin Htid). congruence.
    + unfold WriteBufferFromS3.processUploadRequest, bind, WriteBufferFromS3.send.
      destruct (client (WriteBufferFromS3.trace s) (WriteBufferFromS3.req task)) as [etag|e]
        eqn:Ho; cbn [ret throw]; intros H; injection H as <-.
      * apply (buffer_settle_task id (WriteBufferFromS3.with_tag _) task (Success etag) s
                 Hin Hid Hst); [intros t; split; reflexivity|intros t Ht; exact Ht|].
        discriminate.
      * apply (buffer_settle_task id (WriteBufferFromS3.with_exception _) task (Failure e) s
                 Hin Hid Hst); [intros t; split; reflexivity|discriminate|].
        intros _ t. discriminate.
    + intros H. injection H as <-. split; [apply settling_step_refl|].
      intros (Q1 & _) t Ht Htid. rewrite <- Hid in Htid.
      rewrite (NoDup_map_eq WriteBufferFromS3.task_id _ t task Q1 Ht Hin Htid). congruence.
  - intros H. injection H as <-. split; [apply settling_step_refl|].
    intros _ t Ht Htid. exfalso.
    pose proof (find_none _ _ Hfind t Ht) as Hn. cbn in Hn. apply Z.eqb_neq in Hn. tauto.
Qed.

Lemma buffer_pool_events_settling (evs : list WriteBufferFromS3.PoolEvent) :
  returning WriteBufferFromS3.settling_step (WriteBufferFromS3.pool_events client evs).
Proof.
  induction evs as [|ev evs IH]; cbn [WriteBufferFromS3.pool_events].
  - apply (returning_ret _ settling_step_refl).
  - apply (returning_bind _ settling_step_trans); [|intros _; exact IH].
    destruct ev as [id|]; cbn [WriteBufferFromS3.pool_event].
    + intros s [] s' H. exact (proj1 (buffer_upload_task_runs_settles id s s' H)).
    + apply buffer_put_task_runs_settling.
Qed.

Lemma buffer_pool_turn_settling :
  returning WriteBufferFromS3.settling_step (WriteBufferFromS3.pool_turn client).
Proof.
  unfold WriteBufferFromS3.pool_turn.
  apply (returning_bind _ settling_step_trans);
    [apply (returning_gets _ settling_step_refl)|intros script].
  destruct script as [|evs rest]; [apply (returning_ret _ settling_step_refl)|].
  apply (returning_bind _ settling_step_trans); [|intros _; apply buffer_pool_events_settling].
  apply returning_modify. intros s. apply settling_step_same; reflexivity.
Qed.

(** When the calling thread has waited for them, no task is with the
    thread pool. *)
Lemma buffer_pool_finish_settles (ids : list Z) (s s' : WriteBufferFromS3.State) :
  WriteBufferFromS3.pool_finish client ids s = Ok tt s' ->
  WriteBufferFromS3.settling_step s s' /\
  (WriteBufferFromS3.queue_in_order s ->
   forall id, In id ids -> WriteBufferFromS3.settled s' id).
Proof.
  revert s. induction ids as [|id ids IH]; intros s H; cbn [WriteBufferFromS3.pool_finish] in H.
  - injection H as <-. split; [apply settling_step_refl|]. intros _ id [].
  - apply bind_ok in H. destruct H as ([] & s1 & H1 & H2).
    destruct (buffer_upload_task_runs_settles id s s1 H1) as [S1 D1].
    destruct (IH s1 H2) as [S2 D2].
    split; [exact (settling_step_trans _ _ _ S1 S2)|].
    intros Hq id0 [<-|Hin].
    + destruct (S1 Hq) as (Q1 & _). destruct (S2 Q1) as (_ & _ & _ & _ & Hmono).
      apply Hmono. exact (D1 Hq).
    + apply D2; [exact (proj1 (S1 Hq))|exact Hin].
Qed.

Lemma buffer_condvar_wait_tasks_settles (s s' : WriteBufferFromS3.State) :
  WriteBufferFromS3.condvar_wait_tasks client s = Ok tt s' ->
  WriteBufferFromS3.settling_step s s' /\
  (WriteBufferFromS3.queue_in_order s ->
   Forall (fun t => WriteBufferFromS3.stage t <> WriteBufferFromS3.Queued)
     (WriteBufferFromS3.upload_object_tasks s')).
Proof.
  unfold WriteBufferFromS3.condvar_wait_tasks. intros H.
  apply bind_ok in H. destruct H as ([] & s1 & H1 & H).
  cbn [bind gets] in H.
  apply bind_ok in H. destruct H as ([] & s2 & H2 & H).
  cbn [bind gets] in H.
  destruct (_ =? _); [|discriminate]. injection H as <-.
  pose proof (buffer_pool_turn_settling s tt s1 H1) as S1. clear H1.
  destruct (buffer_pool_finish_settles _ _ _ H2) as [S2 D2].
  split; [exact (settling_step_trans _ _ _ S1 S2)|].
  intros Hq. destruct (S1 Hq) as (Q1 & _). destruct (S2 Q1) as (_ & _ & _ & Hids & _).
  apply Forall_forall. intros t Ht. apply (D2 Q1 (WriteBufferFromS3.task_id t)); [|exact Ht|reflexivity].
  rewrite <- Hids. apply in_map. exact Ht.
Qed.

(** Taking a task that has returned without an exception from the head of
    the queue. *)
Lemma buffer_drop_head_parting (task : WriteBufferFromS3.UploadPartTask)
    (rest : list WriteBufferFromS3.UploadPartTask) (s s1 : WriteBufferFromS3.State) :
  WriteBufferFromS3.upload_object_tasks s = task :: rest ->
  WriteBufferFromS3.upload_object_tasks s1 = rest ->
  WriteBufferFromS3.trace s1 = WriteBufferFromS3.trace s ->
  WriteBufferFromS3.num_added_bg_tasks s1 = WriteBufferFromS3.num_added_bg_tasks s ->
  WriteBufferFromS3.config s1 = WriteBufferFromS3.config s ->
  WriteBufferFromS3.put_object_task s1 = WriteBufferFromS3.put_object_task s ->
  WriteBufferFromS3.exception task = None ->
  (WriteBufferFromS3.is_finished task = true
   \/ WriteBufferFromS3.stage task <> WriteBufferFromS3.Queued) ->
  WriteBufferFromS3.parting_step 0 s s1.
Proof.
  intros Ht Ht1 Htr Hn Hc Hp He Hdone.
  unfold WriteBufferFromS3.parting_step, WriteBufferFromS3.queue_in_order,
    WriteBufferFromS3.parted_bytes, WriteBufferFromS3.no_put.
  rewrite Ht, Ht1, Htr, Hn, Hc, Hp. cbn [map].
  intros (Q1 & Q2 & Q3 & Q4 & Q5).
  apply NoDup_cons_iff in Q1. destruct Q1 as [_ Q1'].
  apply Forall_cons_iff in Q2. destruct Q2 as [(_ & _ & Hfin) Q2'].
  assert (Hst : WriteBufferFromS3.stage task <> WriteBufferFromS3.Queued)
    by (destruct Hdone as [Hd|Hd]; [exact (Hfin Hd)|exact Hd]).
  split; [|split; [|tauto]].
  - split; [exact Q1'|]. split; [exact Q2'|]. split; [|split; [exact Q4|]].
    + intros Hs. specialize (Q3 Hs). discriminate.
    + intros Hf. specialize (Q5 Hf). apply Exists_cons in Q5.
      destruct Q5 as [Hx|Hx]; [congruence|exact Hx].
  - cbn [WriteBufferFromS3.queued_bytes fold_right].
    fold (WriteBufferFromS3.queued_bytes rest).
    destruct (WriteBufferFromS3.stage task); [lia|congruence|lia].
Qed.

Lemma buffer_collect_all_parting (tasks : list WriteBufferFromS3.UploadPartTask) :
  forall s s',
    WriteBufferFromS3.upload_object_tasks s = tasks ->
    Forall (fun t => WriteBufferFromS3.stage t <> WriteBufferFromS3.Queued) tasks ->
    WriteBufferFromS3.collect_all tasks s = Ok tt s' ->
    WriteBufferFromS3.parting_step 0 s s' /\ WriteBufferFromS3.upload_object_tasks s' = [].
Proof.
  induction tasks as [|task rest IH]; intros s s' Ht Hst H; cbn [WriteBufferFromS3.collect_all] in H.
  - injection H as <-. split; [apply parting_step_refl|exact Ht].
  - destruct (WriteBufferFromS3.exception task) eqn:He; [discriminate|].
    cbn [bind modify] in H. apply Forall_cons_iff in Hst. destruct Hst as [Hhead Hrest].
    apply IH in H; [|reflexivity|exact Hrest]. destruct H as [H Hempty].
    split; [|exact Hempty].
    refine (parting_step_trans _ _ _ _ H).
    apply (buffer_drop_head_parting task rest); try reflexivity; try assumption.
    right. exact Hhead.
Qed.

Lemma buffer_collect_ready_parting (tasks : list WriteBufferFromS3.UploadPartTask) :
  forall s s',
    WriteBufferFromS3.upload_object_tasks s = tasks ->
    WriteBufferFromS3.collect_ready client tasks s = Ok tt s' ->
    WriteBufferFromS3.parting_step 0 s s'.
Proof.
  induction tasks as [|task rest IH]; intros s s' Ht H;
    cbn [WriteBufferFromS3.collect_ready] in H.
  - injection H as <-. apply parting_step_refl.
  - destruct (WriteBufferFromS3.is_finished task) eqn:Hfin;
      [|injection H as <-; apply parting_step_refl].
    cbn [bind modify] in H.
    destruct (WriteBufferFromS3.exception task) eqn:He.
    { apply bind_ok in H. destruct H as (u & s1 & _ & H). discriminate. }
    cbn [bind modify] in H. apply IH in H; [|reflexivity].
    refine (parting_step_trans _ _ _ _ H).
    apply (buffer_drop_head_parting task rest); try reflexivity; try assumption.
    left. exact Hfin.
Qed.

Lemma buffer_waitForReadyBackGroundTasks_parting (s s' : WriteBufferFromS3.State) :
  WriteBufferFromS3.waitForReadyBackGroundTasks client s = Ok tt s' ->
  WriteBufferFromS3.parting_step 0 s s'.
Proof.
  unfold WriteBufferFromS3.waitForReadyBackGroundTasks. cbn [bind gets].
  destruct (WriteBufferFromS3.schedule (WriteBufferFromS3.config s));
    [|intros H; injection H as <-; apply parting_step_refl].
  intros H. apply bind_ok in H. destruct H as ([] & s1 & H1 & H).
  cbn [bind gets] in H.
  apply (parting_step_trans _ s1).
  - apply parting_step_of_settling. exact (buffer_pool_turn_settling s tt s1 H1).
  - exact (buffer_collect_ready_parting _ s1 s' eq_refl H).
Qed.

(** When the calling thread has waited for all of them, every part that
    was in the queue has been sent and the queue is empty. *)
Lemma buffer_waitForAllBackGroundTasksUnlocked_parting (s s' : WriteBufferFromS3.State) :
  WriteBufferFromS3.waitForAllBackGroundTasksUnlocked client s = Ok tt s' ->
  WriteBufferFromS3.parting_step 0 s s' /\
  (WriteBufferFromS3.queue_in_order s -> WriteBufferFromS3.upload_object_tasks s' = []).
Proof.
  unfold WriteBufferFromS3.waitForAllBackGroundTasksUnlocked. cbn [bind gets].
  destruct (WriteBufferFromS3.schedule (WriteBufferFromS3.config s)) eqn:Hsched.
  2:{ intros H. injection H as <-. split; [apply parting_step_refl|].
      intros (_ & _ & Q3 & _). exact (Q3 Hsched). }
  intros H. apply bind_ok in H. destruct H as ([] & s1 & H1 & H).
  cbn [bind gets] in H.
  apply bind_ok in H. destruct H as ([] & s2 & H2 & H).
  cbn [bind gets] in H.
  destruct (buffer_condvar_wait_tasks_settles s s1 H1) as [S1 D1].
  assert (Hrest : WriteBufferFromS3.parting_step 0 s2 s' /\
                  (WriteBufferFromS3.upload_object_tasks s2 = [] ->
                   WriteBufferFromS3.queue_in_order s2 ->
                   WriteBufferFromS3.upload_object_tasks s' = [])).
  { destruct (WriteBufferFromS3.put_object_task s2) as [put|];
      [|injection H as <-; split; [apply parting_step_refl|auto]].
    apply bind_ok in H. destruct H as ([] & s3 & H3 & H).
    assert (Hs3 : s' = s3).
    { cbn [bind gets] in H. destruct (WriteBufferFromS3.put_object_task s3) as [t|];
        [|discriminate].
      destruct (WriteBufferFromS3.put_exception t); [discriminate|].
      injection H as <-. reflexivity. }
    subst s3. clear H.
    unfold WriteBufferFromS3.condvar_wait_put in H3.
    apply bind_ok in H3. destruct H3 as ([] & s3 & H3 & H).
    assert (Hs3 : s' = s3).
    { cbn [bind gets] in H. destruct (WriteBufferFromS3.put_object_task s3) as [t|];
        [|discriminate].
      destruct (WriteBufferFromS3.put_is_finished t); [|discriminate].
      injection H as <-. reflexivity. }
    subst s3. clear H.
    pose proof (buffer_put_task_runs_settling s2 tt s' H3) as S3.
    split; [apply parting_step_of_settling; exact S3|].
    intros Hempty Hq. destruct (S3 Hq) as (_ & _ & _ & Hids & _).
    rewrite Hempty in Hids. cbn [map] in Hids.
    destruct (WriteBufferFromS3.upload_object_tasks s'); [reflexivity|discriminate]. }
  destruct Hrest as [S3 D3].
  assert (Hq1 : WriteBufferFromS3.queue_in_order s ->
                WriteBufferFromS3.parting_step 0 s1 s2 /\
                WriteBufferFromS3.upload_object_tasks s2 = []).
  { intros Hq. exact (buffer_collect_all_parting _ s1 s2 eq_refl (D1 Hq) H2). }
  split.
  - intros Hq. destruct (Hq1 Hq) as [S2 _].
    revert Hq. apply (parting_step_trans _ s1); [apply parting_step_of_settling; exact S1|].
    apply (parting_step_trans _ s2); [exact S2|exact S3].
  - intros Hq. destruct (Hq1 Hq) as [S2 E2]. apply (D3 E2).
    apply S2. apply S1. exact Hq.
Qed.

Lemma buffer_waitForAllBackGroundTasks_parting (s s' : WriteBufferFromS3.State) :
  WriteBufferFromS3.waitForAllBackGroundTasks client s = Ok tt s' ->
  WriteBufferFromS3.parting_step 0 s s' /\
  (WriteBufferFromS3.queue_in_order s -> WriteBufferFromS3.upload_object_tasks s' = []).
Proof.
  unfold WriteBufferFromS3.waitForAllBackGroundTasks. cbn [bind gets].
  destruct (WriteBufferFromS3.schedule (WriteBufferFromS3.config s)) eqn:Hsched.
  - apply buffer_waitForAllBackGroundTasksUnlocked_parting.
  - intros H. injection H as <-. split; [apply parting_step_refl|].
    intros (_ & _ & Q3 & _). exact (Q3 Hsched).
Qed.

Lemma buffer_send_settling (r : Request) :
  is_upload r = false -> is_put r = false ->
  preserves WriteBufferFromS3.settling_step (WriteBufferFromS3.send client r).
Proof.
  intros Hu Hp s. cbn [final_state WriteBufferFromS3.send].
  apply settling_step_of_quiet.
  - repeat split. eexists. split; [reflexivity|]. constructor; [exact Hu|constructor].
  - unfold WriteBufferFromS3.no_put.
    cbn [WriteBufferFromS3.put_object_task WriteBufferFromS3.trace WriteBufferFromS3.set_trace].
    rewrite answered_app. intros [P1 P2]. split; [exact P1|]. rewrite P2.
    unfold answered. cbn. rewrite Hp. reflexivity.
Qed.

Lemma buffer_complete_retry_loop_settling (fuel : nat) (i max_retry : Z) (request : Request) :
  is_upload request = false -> is_put request = false ->
  preserves WriteBufferFromS3.settling_step
    (WriteBufferFromS3.complete_retry_loop client fuel i max_retry request).
Proof.
  intros Hu Hp. revert i. induction fuel as [|fuel IH]; intros i;
    cbn [WriteBufferFromS3.complete_retry_loop];
    destruct (i <? max_retry); try (intros s; apply settling_step_refl).
  apply (preserves_bind _ settling_step_trans); [apply buffer_send_settling; assumption|].
  intros [x|e]; [intros s; apply settling_step_refl|].
  destruct (GetErrorType e); try (intros s; apply settling_step_refl).
  apply (preserves_bind _ settling_step_trans); [|intros _; apply IH].
  intros s. apply settling_step_same; reflexivity.
Qed.

Lemma buffer_completeMultipartUpload_settling :
  preserves WriteBufferFromS3.settling_step (WriteBufferFromS3.completeMultipartUpload client).
Proof.
  unfold WriteBufferFromS3.completeMultipartUpload.
  preserve_with settling_step_refl settling_step_trans.
  apply buffer_complete_retry_loop_settling; reflexivity.
Qed.

Lemma buffer_checkObjectExists_settling :
  preserves WriteBufferFromS3.settling_step (WriteBufferFromS3.checkObjectExists client).
Proof.
  unfold WriteBufferFromS3.checkObjectExists.
  apply (preserves_bind _ settling_step_trans); [apply buffer_send_settling; reflexivity|].
  intros [x|e] s; apply settling_step_refl.
Qed.

Lemma buffer_createMultipartUpload_settling :
  preserves WriteBufferFromS3.settling_step (WriteBufferFromS3.createMultipartUpload client).
Proof.
  unfold WriteBufferFromS3.createMultipartUpload.
  apply (preserves_bind _ settling_step_trans); [apply buffer_send_settling; reflexivity|].
  intros [x|e] s; [apply settling_step_same; reflexivity|apply settling_step_refl].
Qed.

(** [writePart] turns the bytes of the temporary buffer into a part. *)
Lemma buffer_writePart_parting (s s' : WriteBufferFromS3.State) :
  WriteBufferFromS3.writePart client s = Ok tt s' ->
  0 <= WriteBufferFromS3.temporary_buffer s ->
  WriteBufferFromS3.parting_step (WriteBufferFromS3.temporary_buffer s) s s'.
Proof.
  intros Hw Hsize.
  destruct (Z.eq_dec (WriteBufferFromS3.temporary_buffer s) 0) as [Hz|Hnz].
  { unfold WriteBufferFromS3.writePart in Hw. cbn [bind gets] in Hw. rewrite Hz in *.
    cbn in Hw. injection Hw as <-. apply parting_step_of_settling.
    apply settling_step_same; reflexivity. }
  assert (Hpos : 0 < WriteBufferFromS3.temporary_buffer s) by lia.
  destruct (after_warning_parting s) as (T0 & R0 & N0 & C0 & P0 & B0).
  destruct (WriteBufferFromS3.schedule (WriteBufferFromS3.config s)) eqn:Hsched.
  - rewrite (writePart_scheduled client s Hpos Hsched) in Hw. cbv zeta in Hw.
    destruct (WriteBufferFromS3.fillUploadRequest _) as [r s1| | | |] eqn:Hfill;
      try discriminate.
    apply fillUploadRequest_parting in Hfill.
    destruct Hfill as (Hlen & Hup & T1 & R1 & N1 & C1 & P1 & _).
    cbn [WriteBufferFromS3.with_new_task WriteBufferFromS3.temporary_buffer
         WriteBufferFromS3.upload_object_tasks WriteBufferFromS3.trace
         WriteBufferFromS3.num_added_bg_tasks WriteBufferFromS3.config
         WriteBufferFromS3.put_object_task WriteBufferFromS3.set_num_added_bg_tasks
         WriteBufferFromS3.set_upload_object_tasks] in Hlen, T1, R1, N1, C1, P1.
    rewrite ?T0, ?R0, ?N0, ?C0, ?P0, ?B0 in *.
    intros Hq. pose proof Hq as (_ & Q2 & _).
    assert (Hlt : Forall (fun t => WriteBufferFromS3.task_id t
                                   < WriteBufferFromS3.num_added_bg_tasks s)
                    (WriteBufferFromS3.upload_object_tasks s)).
    { revert Q2. apply Forall_impl. intros t (A & _). exact A. }
    revert Hq. rewrite <- Hlen, <- (Z.add_0_r (part_length r)).
    eapply parting_step_add;
      [|apply parting_step_of_settling; exact (buffer_pool_turn_settling _ tt s' Hw)].
    apply parting_step_enqueue; try assumption; cbn; try congruence.
    rewrite T1,
      (buffer_update_last_task (WriteBufferFromS3.num_added_bg_tasks s)
         (WriteBufferFromS3.with_req r) _
         (WriteBufferFromS3.new_task (WriteBufferFromS3.num_added_bg_tasks s)) Hlt eq_refl),
      (buffer_update_last_task (WriteBufferFromS3.num_added_bg_tasks s)
         (WriteBufferFromS3.with_stage WriteBufferFromS3.Queued) _
         (WriteBufferFromS3.with_req r
            (WriteBufferFromS3.new_task (WriteBufferFromS3.num_added_bg_tasks s))) Hlt eq_refl).
    reflexivity.
  - rewrite (writePart_inline client s Hpos Hsched) in Hw.
    destruct (WriteBufferFromS3.fillUploadRequest _) as [r s1| | | |] eqn:Hfill;
      try discriminate.
    apply fillUploadRequest_parting in Hfill.
    destruct Hfill as (Hlen & Hup & T1 & R1 & N1 & C1 & P1 & _).
    rewrite ?T0, ?R0, ?N0, ?C0, ?P0, ?B0 in *.
    unfold WriteBufferFromS3.processUploadRequest, bind, WriteBufferFromS3.send in Hw.
    cbn [WriteBufferFromS3.req WriteBufferFromS3.with_req] in Hw.
    destruct (client (WriteBufferFromS3.trace s1) r) as [etag|e]; cbn [ret throw] in Hw;
      [|discriminate].
    injection Hw as <-. rewrite <- Hlen.
    apply (parting_step_sent r etag); cbn; congruence.
Qed.

Lemma buffer_writePart_flags (s s' : WriteBufferFromS3.State) :
  WriteBufferFromS3.writePart client s = Ok tt s' ->
  WriteBufferFromS3.working_offset s' = WriteBufferFromS3.working_offset s /\
  WriteBufferFromS3.is_prefinalized s' = WriteBufferFromS3.is_prefinalized s /\
  WriteBufferFromS3.multipart_upload_id s' = WriteBufferFromS3.multipart_upload_id s.
Proof.
  intros Hw.
  destruct (writePart_front_end client s s' Hw) as [Hfe|(_ & s0 & r & s1 & H0 & Hfill & H1)].
  - apply front_end_flags in Hfe. tauto.
  - apply front_end_flags in H0, H1. apply fillUploadRequest_parting in Hfill.
    destruct Hfill as (_ & _ & _ & _ & _ & _ & _ & W & F & I).
    destruct H0 as (W0 & _ & F0 & I0), H1 as (W1 & _ & F1 & I1).
    repeat split; congruence.
Qed.

(** [nextImpl] moves the bytes of the working buffer to the temporary
    buffer and, when it sends them on, turns all of them into a part. *)
Lemma buffer_nextImpl_accounted (s s' : WriteBufferFromS3.State) :
  WriteBufferFromS3.nextImpl client s = Ok tt s' ->
  0 <= WriteBufferFromS3.working_offset s ->
  0 <= WriteBufferFromS3.temporary_buffer s ->
  WriteBufferFromS3.queue_in_order s ->
  WriteBufferFromS3.queue_in_order s' /\
  WriteBufferFromS3.is_prefinalized s' = WriteBufferFromS3.is_prefinalized s /\
  0 <= WriteBufferFromS3.temporary_buffer s' /\
  WriteBufferFromS3.parted_bytes s' + WriteBufferFromS3.temporary_buffer s'
  = WriteBufferFromS3.parted_bytes s + WriteBufferFromS3.temporary_buffer s
    + WriteBufferFromS3.working_offset s /\
  (WriteBufferFromS3.no_put s -> WriteBufferFromS3.no_put s').
Proof.
  intros H Hoff Hsize Hq.
  destruct (Z.eq_dec (WriteBufferFromS3.working_offset s) 0) as [Hz|Hnz].
  { unfold WriteBufferFromS3.nextImpl in H. cbn [bind gets] in H. rewrite Hz in *.
    cbn in H. injection H as <-.
    split; [exact Hq|]. split; [reflexivity|]. split; [exact Hsize|]. split; [lia|auto]. }
  rewrite (nextImpl_steps client s Hnz) in H. cbv zeta in H.
  destruct (Z.eqb_spec (WriteBufferFromS3.temporary_buffer s) (-1)) as [Hbad|_]; [lia|].
  set (s2 := WriteBufferFromS3.set_last_part_size _ _) in H.
  assert (S2 : WriteBufferFromS3.parting_step 0 s s2)
    by (apply parting_step_of_settling, settling_step_same; reflexivity).
  assert (B2 : WriteBufferFromS3.temporary_buffer s2
               = WriteBufferFromS3.temporary_buffer s + WriteBufferFromS3.working_offset s)
    by reflexivity.
  assert (F2 : WriteBufferFromS3.is_prefinalized s2 = WriteBufferFromS3.is_prefinalized s)
    by reflexivity.
  set (last := WriteBufferFromS3.last_part_size s2) in H.
  clearbody s2 last.
  apply bind_ok in H. destruct H as (u3 & s3 & H3 & H).
  apply bind_ok in H. destruct H as (u4 & s4 & H4 & H).
  assert (S3 : WriteBufferFromS3.parting_step 0 s2 s3 /\
               WriteBufferFromS3.temporary_buffer s3 = WriteBufferFromS3.temporary_buffer s2 /\
               WriteBufferFromS3.is_prefinalized s3 = WriteBufferFromS3.is_prefinalized s2).
  { match type of H3 with (if ?b then _ else _) _ = _ => destruct b end.
    - split; [apply parting_step_of_settling;
              exact (preserves_ok _ _ _ _ _ (buffer_createMultipartUpload_settling) H3)|].
      destruct u3. apply createMultipartUpload_ok in H3. destruct H3 as (x & _ & ->).
      split; reflexivity.
    - injection H3 as _ <-. split; [apply parting_step_refl|split; reflexivity]. }
  destruct S3 as (S3 & B3 & F3). clear H3.
  assert (S4 : WriteBufferFromS3.parting_step
                 (WriteBufferFromS3.temporary_buffer s3 - WriteBufferFromS3.temporary_buffer s4)
                 s3 s4 /\
               0 <= WriteBufferFromS3.temporary_buffer s4 /\
               WriteBufferFromS3.is_prefinalized s4 = WriteBufferFromS3.is_prefinalized s3).
  { match type of H4 with (if ?b then _ else _) _ = _ => destruct b end.
    - apply bind_ok in H4. destruct H4 as ([] & sw & Hw & Ha).
      injection Ha as _ <-.
      pose proof (buffer_writePart_flags s3 sw Hw) as (_ & Fw & _).
      apply buffer_writePart_parting in Hw; [|lia].
      cbn [WriteBufferFromS3.temporary_buffer WriteBufferFromS3.set_last_part_size
           WriteBufferFromS3.set_temporary_buffer WriteBufferFromS3.is_prefinalized].
      split; [|split; [lia|exact Fw]].
      rewrite Z.sub_0_r, <- (Z.add_0_r (WriteBufferFromS3.temporary_buffer s3)).
      apply (parting_step_add _ _ _ sw); [exact Hw|].
      apply parting_step_of_settling, settling_step_same; reflexivity.
    - injection H4 as _ <-. rewrite Z.sub_diag.
      split; [apply parting_step_refl|split; [lia|reflexivity]]. }
  destruct S4 as (S4 & B4 & F4). clear H4.
  pose proof (preserves_ok _ _ _ _ _ (buffer_waitForReadyBackGroundTasks_front_end client) H)
    as Hfe.
  apply front_end_flags in Hfe. destruct Hfe as (_ & B5 & F5 & _).
  apply buffer_waitForReadyBackGroundTasks_parting in H.
  destruct (S2 Hq) as (Q2 & P2 & N2). destruct (S3 Q2) as (Q3 & P3 & N3).
  destruct (S4 Q3) as (Q4 & P4 & N4). destruct (H Q4) as (Q5 & P5 & N5).
  split; [exact Q5|]. split; [congruence|]. split; [lia|]. split; [lia|auto].
Qed.

Lemma buffer_write_accounted (written n : Z) (s s' : WriteBufferFromS3.State) :
  0 <= n ->
  WriteBufferFromS3.write client n s = Ok tt s' ->
  WriteBufferFromS3.accounted written s ->
  WriteBufferFromS3.accounted (written + n) s' /\
  (WriteBufferFromS3.no_put s -> WriteBufferFromS3.no_put s').
Proof.
  intros Hn H (Hq & Hoff & Hpre & Hsize & Hsum).
  unfold WriteBufferFromS3.write in H. cbn [bind modify] in H.
  unfold WriteBufferFromS3.next in H. cbn [bind gets] in H.
  cbn [WriteBufferFromS3.working_offset WriteBufferFromS3.set_working_offset] in H.
  destruct (Z.eqb_spec n 0) as [->|Hnz].
  { injection H as <-. split; [|intros Hp; exact Hp]. rewrite Z.add_0_r.
    apply accounted_intro; [exact Hq|reflexivity|exact Hpre|exact Hsize|exact Hsum]. }
  apply bind_ok in H. destruct H as (u & s1 & H1 & H2). injection H2 as <-.
  unfold try_rethrow in H1.
  destruct (WriteBufferFromS3.nextImpl client _) as [u' s1'| | | |] eqn:Hnext; try discriminate.
  injection H1 as _ <-. destruct u'.
  apply buffer_nextImpl_accounted in Hnext; [|cbn; lia|cbn; lia|exact Hq].
  destruct Hnext as (Q & F & B & P & N).
  split; [|exact N].
  apply accounted_intro; [exact Q|reflexivity|rewrite <- Hpre; exact F|exact B|].
  rewrite <- Hsum. exact P.
Qed.

Lemma buffer_write_all_accounted (chunks : list Z) :
  Forall (fun n => 0 <= n) chunks ->
  forall written s s',
    WriteBufferFromS3.write_all client chunks s = Ok tt s' ->
    WriteBufferFromS3.accounted written s ->
    WriteBufferFromS3.accounted (written + fold_right Z.add 0 chunks) s' /\
    (WriteBufferFromS3.no_put s -> WriteBufferFromS3.no_put s').
Proof.
  induction 1 as [|n chunks Hn _ IH]; intros written s s' H Ha;
    cbn [WriteBufferFromS3.write_all fold_right] in *.
  - injection H as <-. rewrite Z.add_0_r. auto.
  - apply bind_ok in H. destruct H as ([] & s1 & H1 & H2).
    destruct (buffer_write_accounted written n s s1 Hn H1 Ha) as [A1 N1].
    destruct (IH _ _ _ H2 A1) as [A2 N2].
    rewrite Z.add_assoc. auto.
Qed.

Lemma buffer_makeSinglepartUpload_in_order (s s' : WriteBufferFromS3.State) :
  WriteBufferFromS3.makeSinglepartUpload client s = Ok tt s' ->
  WriteBufferFromS3.queue_in_order s -> WriteBufferFromS3.queue_in_order s'.
Proof.
  unfold WriteBufferFromS3.makeSinglepartUpload. cbn [bind gets]. intros H Hq.
  destruct (WriteBufferFromS3.temporary_buffer s <? 0).
  { cbn in H. injection H as <-. exact Hq. }
  cbn [bind gets] in H.
  destruct (WriteBufferFromS3.schedule (WriteBufferFromS3.config s)).
  - cbn [bind modify] in H. apply bind_ok in H. destruct H as (u & s1 & H1 & H2).
    unfold try_rethrow, WriteBufferFromS3.fillPutRequest in H1. cbn [bind gets ret modify] in H1.
    injection H1 as _ <-.
    apply (buffer_pool_turn_settling _ tt s' H2).
    destruct Hq as (Q1 & Q2 & Q3 & Q4 & Q5).
    split; [exact Q1|]. split; [exact Q2|]. split; [exact Q3|]. split; [|exact Q5].
    intros t Ht. cbn in Ht. injection Ht as <-. reflexivity.
  - unfold WriteBufferFromS3.fillPutRequest in H. cbn [bind gets ret] in H.
    match type of H with
    | WriteBufferFromS3.processPutRequest _ ?task _ = _ =>
        pose proof (preserves_ok _ _ _ _ _ (buffer_processPutRequest_quiet task eq_refl) H)
          as Hstep
    end.
    exact (proj1 (quiet_step_in_order _ _ Hstep Hq)).
Qed.

(** [preFinalize] on a buffer with a multipart upload turns what is left
    in the temporary buffer into the last part. *)
Lemma buffer_preFinalize_parted (written : Z) (s s' : WriteBufferFromS3.State) :
  WriteBufferFromS3.preFinalize client s = Ok tt s' ->
  WriteBufferFromS3.accounted written s ->
  WriteBufferFromS3.queue_in_order s' /\
  WriteBufferFromS3.multipart_upload_id s' = WriteBufferFromS3.multipart_upload_id s /\
  (WriteBufferFromS3.empty (WriteBufferFromS3.multipart_upload_id s) = false ->
   WriteBufferFromS3.parted_bytes s' = written /\
   (WriteBufferFromS3.no_put s -> WriteBufferFromS3.no_put s')).
Proof.
  intros H (Hq & Hoff & Hpre & Hsize & Hsum).
  unfold WriteBufferFromS3.preFinalize in H.
  apply bind_ok in H. destruct H as ([] & s1 & H1 & H).
  unfold WriteBufferFromS3.next in H1. cbn [bind gets] in H1. rewrite Hoff in H1.
  cbn in H1. injection H1 as <-.
  cbn [bind gets] in H.
  apply bind_ok in H. destruct H as ([] & s2 & H2 & H3). injection H3 as <-.
  destruct (WriteBufferFromS3.empty (WriteBufferFromS3.multipart_upload_id s)) eqn:He.
  - split; [exact (buffer_makeSinglepartUpload_in_order s s2 H2 Hq)|].
    split; [|discriminate].
    pose proof (preserves_ok _ _ _ _ _ (makeSinglepartUpload_front_end client) H2) as Hfe.
    apply front_end_flags in Hfe. exact (proj2 (proj2 (proj2 Hfe))).
  - pose proof (buffer_writePart_flags s s2 H2) as (_ & _ & Hid).
    apply buffer_writePart_parting in H2; [|exact Hsize].
    destruct (H2 Hq) as (Q & P & N).
    split; [exact Q|]. split; [exact Hid|]. intros _. split; [|exact N].
    rewrite <- Hsum. exact P.
Qed.

Lemma settling_step_empty (s s' : WriteBufferFromS3.State) :
  WriteBufferFromS3.settling_step s s' ->
  WriteBufferFromS3.queue_in_order s ->
  WriteBufferFromS3.upload_object_tasks s = [] ->
  WriteBufferFromS3.upload_object_tasks s' = [].
Proof.
  intros H Hq He. destruct (H Hq) as (_ & _ & _ & Hids & _). rewrite He in Hids.
  destruct (WriteBufferFromS3.upload_object_tasks s'); [reflexivity|discriminate].
Qed.

(** [finalizeImpl] leaves no part in the queue. *)
Lemma buffer_finalizeImpl_parted (written : Z) (s s' : WriteBufferFromS3.State) :
  WriteBufferFromS3.finalizeImpl client s = Ok tt s' ->
  WriteBufferFromS3.accounted written s ->
  WriteBufferFromS3.queue_in_order s' /\
  WriteBufferFromS3.upload_object_tasks s' = [] /\
  WriteBufferFromS3.multipart_upload_id s' = WriteBufferFromS3.multipart_upload_id s /\
  (WriteBufferFromS3.empty (WriteBufferFromS3.multipart_upload_id s) = false ->
   WriteBufferFromS3.parted_bytes s' = written /\
   (WriteBufferFromS3.no_put s -> WriteBufferFromS3.no_put s')).
Proof.
  intros H Ha. pose proof Ha as (_ & _ & Hpre & _).
  unfold WriteBufferFromS3.finalizeImpl in H. cbn [bind gets] in H.
  rewrite Hpre in H. cbn [negb] in H.
  apply bind_ok in H. destruct H as ([] & s1 & H1 & H).
  apply bind_ok in H. destruct H as ([] & s2 & H2 & H).
  cbn [bind gets] in H.
  apply bind_ok in H. destruct H as (u3 & s3 & H3 & H).
  cbn [bind gets] in H.
  destruct (buffer_preFinalize_parted written s s1 H1 Ha) as (Q1 & I1 & P1).
  pose proof (preserves_ok _ _ _ _ _ (buffer_waitForAllBackGroundTasks_front_end client) H2)
    as F2.
  apply front_end_flags in F2. destruct F2 as (_ & _ & _ & I2).
  destruct (buffer_waitForAllBackGroundTasks_parting s1 s2 H2) as [S2 E2].
  destruct (S2 Q1) as (Q2 & B2 & N2). specialize (E2 Q1).
  assert (S3 : WriteBufferFromS3.settling_step s2 s3 /\
               WriteBufferFromS3.multipart_upload_id s3
               = WriteBufferFromS3.multipart_upload_id s2).
  { destruct (negb (WriteBufferFromS3.empty (WriteBufferFromS3.multipart_upload_id s2))).
    - split; [exact (preserves_ok _ _ _ _ _ buffer_completeMultipartUpload_settling H3)|].
      pose proof (preserves_ok _ _ _ _ _ (buffer_completeMultipartUpload_front_end client) H3)
        as F3.
      apply front_end_flags in F3. exact (proj2 (proj2 (proj2 F3))).
    - injection H3 as _ <-. split; [apply settling_step_refl|reflexivity]. }
  destruct S3 as [S3 I3].
  assert (S4 : WriteBufferFromS3.settling_step s3 s' /\
               WriteBufferFromS3.multipart_upload_id s'
               = WriteBufferFromS3.multipart_upload_id s3).
  { destruct (WriteBufferFromS3.check_objects_after_upload (WriteBufferFromS3.config s3)).
    - split; [exact (preserves_ok _ _ _ _ _ buffer_checkObjectExists_settling H)|].
      pose proof (preserves_ok _ _ _ _ _ (buffer_checkObjectExists_front_end client) H) as F4.
      apply front_end_flags in F4. exact (proj2 (proj2 (proj2 F4))).
    - injection H as <-. split; [apply settling_step_refl|reflexivity]. }
  destruct S4 as [S4 I4].
  pose proof (settling_step_empty _ _ S3 Q2 E2) as E3.
  destruct (S3 Q2) as (Q3 & B3 & N3 & _).
  pose proof (settling_step_empty _ _ S4 Q3 E3) as E4.
  destruct (S4 Q3) as (Q4 & B4 & N4 & _).
  split; [exact Q4|]. split; [exact E4|]. split; [congruence|].
  intros Hopen. destruct (P1 Hopen) as [B1 N1]. split; [lia|auto].
Qed.

(** A streaming write that returns leaves the queue in order and empty. *)
Lemma buffer_streaming_write_parted (cfg : WriteBufferFromS3.Config)
    (script : list (list WriteBufferFromS3.PoolEvent)) (chunks : list Z)
    (s' : WriteBufferFromS3.State) :
  Forall (fun n => 0 <= n) chunks ->
  WriteBufferFromS3.streaming_write client chunks (WriteBufferFromS3.construct cfg script)
  = Ok tt s' ->
  WriteBufferFromS3.queue_in_order s' /\
  WriteBufferFromS3.upload_object_tasks s' = [] /\
  (WriteBufferFromS3.empty (WriteBufferFromS3.multipart_upload_id s') = false ->
   WriteBufferFromS3.parted_bytes s' = fold_right Z.add 0 chunks /\
   WriteBufferFromS3.no_put s').
Proof.
  intros Hchunks H. unfold WriteBufferFromS3.streaming_write in H.
  apply bind_ok in H. destruct H as ([] & s1 & H1 & H2).
  assert (A0 : WriteBufferFromS3.accounted 0 (WriteBufferFromS3.construct cfg script)).
  { apply accounted_intro; [|reflexivity|reflexivity|cbn; lia|reflexivity].
    split; [constructor|]. split; [constructor|]. split; [reflexivity|].
    split; [discriminate|discriminate]. }
  destruct (buffer_write_all_accounted chunks Hchunks 0 _ s1 H1 A0) as [A1 N1].
  destruct (buffer_finalizeImpl_parted _ s1 s' H2 A1) as (Q & E & I & P).
  split; [exact Q|]. split; [exact E|]. rewrite I. intros Hopen.
  destruct (P Hopen) as [B N]. split; [exact B|]. apply N, N1. split; reflexivity.
Qed.

End BufferBytes.

(** X8. The bytes given to a streaming write that ends with a multipart
    upload are the bytes of its parts: when the write returns, the
    [UploadPart] requests that were sent, by the calling thread or by the
    thread pool, carry together exactly the bytes of the chunks written,
    and no [PutObject] was sent. *)
Theorem streamed_bytes_are_the_bytes_of_the_parts (client : Client)
    (cfg : WriteBufferFromS3.Config) (script : list (list WriteBufferFromS3.PoolEvent))
    (chunks : list Z) (s' : WriteBufferFromS3.State) :
  Forall (fun n => 0 <= n) chunks ->
  WriteBufferFromS3.streaming_write client chunks (WriteBufferFromS3.construct cfg script)
  = Ok tt s' ->
  WriteBufferFromS3.multipart_upload_id s' <> "" ->
  part_bytes (WriteBufferFromS3.trace s') = fold_right Z.add 0 chunks /\
  answered is_put (WriteBufferFromS3.trace s') = 0%nat.
Proof.
  intros Hchunks H Hid.
  destruct (buffer_streaming_write_parted client cfg script chunks s' Hchunks H)
    as (_ & E & P).
  destruct P as [B N]; [apply String.eqb_neq; exact Hid|].
  unfold WriteBufferFromS3.parted_bytes in B. rewrite E in B. cbn in B.
  split; [lia|exact (proj2 N)].
Qed.

Lemma streamed_bytes_are_the_bytes_of_the_parts_witness :
  let s' := final_state
              (WriteBufferFromS3.streaming_write Samples.accepting_client [15; 15; 15; 15; 15]
                 (WriteBufferFromS3.construct Samples.scheduled_buffer
                    Samples.last_task_first)) in
  answered is_upload (WriteBufferFromS3.trace s') = 3%nat /\
  part_bytes (WriteBufferFromS3.trace s') = 75 /\
  answered is_put (WriteBufferFromS3.trace s') = 0%nat.
Proof.
  intros s'. split; [vm_compute; reflexivity|].
  apply (streamed_bytes_are_the_bytes_of_the_parts Samples.accepting_client
           Samples.scheduled_buffer Samples.last_task_first [15; 15; 15; 15; 15] s').
  - repeat constructor; lia.
  - vm_compute. reflexivity.
  - vm_compute. discriminate.
Defined.

(** X9. A streaming write does not return normally when the server has
    refused one of its parts, whether the calling thread sent the part or
    a thread of the pool did and only left the exception in the task. *)
Theorem refused_part_fails_the_streaming_write (client : Client)
    (cfg : WriteBufferFromS3.Config) (script : list (list WriteBufferFromS3.PoolEvent))
    (chunks : list Z) :
  Forall (fun n => 0 <= n) chunks ->
  let run := WriteBufferFromS3.streaming_write client chunks
               (WriteBufferFromS3.construct cfg script) in
  has_failed_upload (WriteBufferFromS3.trace (final_state run)) = true ->
  returns_normally run = false.
Proof.
  intros Hchunks run Hfailed.
  destruct run as [[] s'| | | |] eqn:Hrun; try reflexivity.
  exfalso. cbn [final_state] in Hfailed.
  destruct (buffer_streaming_write_parted client cfg script chunks s' Hchunks Hrun)
    as ((_ & _ & _ & _ & Q5) & E & _).
  specialize (Q5 Hfailed). rewrite E in Q5. inversion Q5.
Qed.

Lemma refused_part_fails_the_streaming_write_witness :
  let run := WriteBufferFromS3.streaming_write (Samples.refusing_client 2)
               [15; 15; 15; 15; 15]
               (WriteBufferFromS3.construct Samples.scheduled_buffer
                  Samples.last_task_first) in
  has_failed_upload (WriteBufferFromS3.trace (final_state run)) = true /\
  returns_normally run = false.
Proof.
  intros run. split; [vm_compute; reflexivity|].
  apply (refused_part_fails_the_streaming_write (Samples.refusing_client 2)
           Samples.scheduled_buffer Samples.last_task_first [15; 15; 15; 15; 15]).
  - repeat constructor; lia.
  - vm_compute. reflexivity.
Defined.

(** ** The requests of the streaming buffer stay in the trace *)

Lemma trace_grows_same (s s' : WriteBufferFromS3.State) :
  WriteBufferFromS3.trace s' = WriteBufferFromS3.trace s -> WriteBufferFromS3.trace_grows s s'.
Proof. intros H. exists []. rewrite app_nil_r. exact H. Qed.

Lemma trace_grows_refl (s : WriteBufferFromS3.State) : WriteBufferFromS3.trace_grows s s.
Proof. apply trace_grows_same. reflexivity. Qed.

Lemma trace_grows_trans (s1 s2 s3 : WriteBufferFromS3.State) :
  WriteBufferFromS3.trace_grows s1 s2 -> WriteBufferFromS3.trace_grows s2 s3 ->
  WriteBufferFromS3.trace_grows s1 s3.
Proof.
  intros [sent1 H1] [sent2 H2]. exists (sent1 ++ sent2). rewrite H2, H1, app_assoc. reflexivity.
Qed.

Create HintDb grows.

Ltac grows_tac :=
  preserve_with trace_grows_refl trace_grows_trans;
  try solve [apply trace_grows_same; reflexivity | auto with grows].

Section BufferTrace.

Variable client : Client.

Lemma buffer_send_grows (r : Request) :
  preserves WriteBufferFromS3.trace_grows (WriteBufferFromS3.send client r).
Proof. intros s. eexists. reflexivity. Qed.

Lemma buffer_LOG_grows (m : LogMessage) :
  preserves WriteBufferFromS3.trace_grows (WriteBufferFromS3.LOG m).
Proof. intros s. apply trace_grows_same. reflexivity. Qed.

Lemma buffer_allocateBuffer_grows :
  preserves WriteBufferFromS3.trace_grows WriteBufferFromS3.allocateBuffer.
Proof. intros s. apply trace_grows_same. reflexivity. Qed.

#[local] Hint Resolve buffer_send_grows buffer_LOG_grows buffer_allocateBuffer_grows : grows.

Lemma buffer_complete_retry_loop_grows (fuel : nat) (i max_retry : Z) (request : Request) :
  preserves WriteBufferFromS3.trace_grows
    (WriteBufferFromS3.complete_retry_loop client fuel i max_retry request).
Proof.
  revert i. induction fuel as [|fuel IH]; intros i; cbn [WriteBufferFromS3.complete_retry_loop];
    grows_tac.
Qed.

Lemma buffer_put_retry_loop_grows (fuel : nat) (i max_retry : Z) (request : Request) :
  preserves WriteBufferFromS3.trace_grows
    (WriteBufferFromS3.put_retry_loop client fuel i max_retry request).
Proof. exact (buffer_complete_retry_loop_grows fuel i max_retry request). Qed.

#[local] Hint Resolve buffer_complete_retry_loop_grows buffer_put_retry_loop_grows : grows.

Lemma buffer_processPutRequest_grows (task : WriteBufferFromS3.PutObjectTask) :
  preserves WriteBufferFromS3.trace_grows (WriteBufferFromS3.processPutRequest client task).
Proof. unfold WriteBufferFromS3.processPutRequest. grows_tac. Qed.

Lemma buffer_processUploadRequest_grows (task : WriteBufferFromS3.UploadPartTask) :
  preserves WriteBufferFromS3.trace_grows (WriteBufferFromS3.processUploadRequest client task).
Proof. unfold WriteBufferFromS3.processUploadRequest. grows_tac. Qed.

Lemma buffer_createMultipartUpload_grows :
  preserves WriteBufferFromS3.trace_grows (WriteBufferFromS3.createMultipartUpload client).
Proof. unfold WriteBufferFromS3.createMultipartUpload. grows_tac. Qed.

Lemma buffer_fillUploadRequest_grows :
  preserves WriteBufferFromS3.trace_grows WriteBufferFromS3.fillUploadRequest.
Proof. unfold WriteBufferFromS3.fillUploadRequest. grows_tac. Qed.

#[local] Hint Resolve buffer_processPutRequest_grows buffer_processUploadRequest_grows
  buffer_createMultipartUpload_grows buffer_fillUploadRequest_grows : grows.

Lemma buffer_upload_task_runs_grows (id : Z) :
  preserves WriteBufferFromS3.trace_grows (WriteBufferFromS3.upload_task_runs client id).
Proof.
  intros s. unfold WriteBufferFromS3.upload_task_runs.
  destruct (find _ _) as [task|]; [|apply trace_grows_refl].
  destruct (WriteBufferFromS3.stage task); try apply trace_grows_refl.
  pose proof (buffer_processUploadRequest_grows task s) as H.
  destruct (WriteBufferFromS3.processUploadRequest client task s); exact H.
Qed.

Lemma buffer_put_task_runs_grows :
  preserves WriteBufferFromS3.trace_grows (WriteBufferFromS3.put_task_runs client).
Proof.
  intros s. unfold WriteBufferFromS3.put_task_runs.
  destruct (WriteBufferFromS3.put_object_task s) as [task|]; [|apply trace_grows_refl].
  destruct (WriteBufferFromS3.put_stage task); try apply trace_grows_refl.
  pose proof (buffer_processPutRequest_grows task s) as H.
  destruct (WriteBufferFromS3.processPutRequest client task s); exact H.
Qed.

#[local] Hint Resolve buffer_upload_task_runs_grows buffer_put_task_runs_grows : grows.

Lemma buffer_pool_events_grows (evs : list WriteBufferFromS3.PoolEvent) :
  preserves WriteBufferFromS3.trace_grows (WriteBufferFromS3.pool_events client evs).
Proof.
  induction evs as [|ev evs IH]; cbn [WriteBufferFromS3.pool_events]; grows_tac.
  destruct ev; cbn [WriteBufferFromS3.pool_event]; auto with grows.
Qed.

#[local] Hint Resolve buffer_pool_events_grows : grows.

Lemma buffer_pool_turn_grows :
  preserves WriteBufferFromS3.trace_grows (WriteBufferFromS3.pool_turn client).
Proof. unfold WriteBufferFromS3.pool_turn. grows_tac. Qed.

Lemma buffer_pool_finish_grows (ids : list Z) :
  preserves WriteBufferFromS3.trace_grows (WriteBufferFromS3.pool_finish client ids).
Proof. induction ids as [|id ids IH]; cbn [WriteBufferFromS3.pool_finish]; grows_tac. Qed.

#[local] Hint Resolve buffer_pool_turn_grows buffer_pool_finish_grows : grows.

Lemma buffer_condvar_wait_tasks_grows :
  preserves WriteBufferFromS3.trace_grows (WriteBufferFromS3.condvar_wait_tasks client).
Proof. unfold WriteBufferFromS3.condvar_wait_tasks. grows_tac. Qed.

Lemma buffer_condvar_wait_put_grows :
  preserves WriteBufferFromS3.trace_grows (WriteBufferFromS3.condvar_wait_put client).
Proof. unfold WriteBufferFromS3.condvar_wait_put. grows_tac. Qed.

Lemma buffer_collect_all_grows (tasks : list WriteBufferFromS3.UploadPartTask) :
  preserves WriteBufferFromS3.trace_grows (WriteBufferFromS3.collect_all tasks).
Proof. induction tasks as [|task tasks IH]; cbn [WriteBufferFromS3.collect_all]; grows_tac. Qed.

#[local] Hint Resolve buffer_condvar_wait_tasks_grows buffer_condvar_wait_put_grows
  buffer_collect_all_grows : grows.

Lemma buffer_waitForAllBackGroundTasksUnlocked_grows :
  preserves WriteBufferFromS3.trace_grows
    (WriteBufferFromS3.waitForAllBackGroundTasksUnlocked client).
Proof. unfold WriteBufferFromS3.waitForAllBackGroundTasksUnlocked. grows_tac. Qed.

#[local] Hint Resolve buffer_waitForAllBackGroundTasksUnlocked_grows : grows.

Lemma buffer_waitForAllBackGroundTasks_grows :
  preserves WriteBufferFromS3.trace_grows (WriteBufferFromS3.waitForAllBackGroundTasks client).
Proof. unfold WriteBufferFromS3.waitForAllBackGroundTasks. grows_tac. Qed.

Lemma buffer_collect_ready_grows (tasks : list WriteBufferFromS3.UploadPartTask) :
  preserves WriteBufferFromS3.trace_grows (WriteBufferFromS3.collect_ready client tasks).
Proof. induction tasks as [|task tasks IH]; cbn [WriteBufferFromS3.collect_ready]; grows_tac. Qed.

#[local] Hint Resolve buffer_waitForAllBackGroundTasks_grows buffer_collect_ready_grows : grows.

Lemma buffer_waitForReadyBackGroundTasks_grows :
  preserves WriteBufferFromS3.trace_grows
    (WriteBufferFromS3.waitForReadyBackGroundTasks client).
Proof. unfold WriteBufferFromS3.waitForReadyBackGroundTasks. grows_tac. Qed.

Lemma buffer_completeMultipartUpload_grows :
  preserves WriteBufferFromS3.trace_grows (WriteBufferFromS3.completeMultipartUpload client).
Proof. unfold WriteBufferFromS3.completeMultipartUpload. grows_tac. Qed.

Lemma buffer_checkObjectExists_grows :
  preserves WriteBufferFromS3.trace_grows (WriteBufferFromS3.checkObjectExists client).
Proof. unfold WriteBufferFromS3.checkObjectExists. grows_tac. Qed.

#[local] Hint Resolve buffer_waitForReadyBackGroundTasks_grows
  buffer_completeMultipartUpload_grows buffer_checkObjectExists_grows : grows.

Lemma buffer_writePart_grows :
  preserves WriteBufferFromS3.trace_grows (WriteBufferFromS3.writePart client).
Proof. unfold WriteBufferFromS3.writePart. grows_tac. Qed.

Lemma buffer_makeSinglepartUpload_grows :
  preserves WriteBufferFromS3.trace_grows (WriteBufferFromS3.makeSinglepartUpload client).
Proof.
  unfold WriteBufferFromS3.makeSinglepartUpload, WriteBufferFromS3.fillPutRequest. grows_tac.
Qed.

#[local] Hint Resolve buffer_writePart_grows buffer_makeSinglepartUpload_grows : grows.

Lemma buffer_nextImpl_grows :
  preserves WriteBufferFromS3.trace_grows (WriteBufferFromS3.nextImpl client).
Proof. unfold WriteBufferFromS3.nextImpl. grows_tac. Qed.

#[local] Hint Resolve buffer_nextImpl_grows : grows.

Lemma buffer_next_grows :
  preserves WriteBufferFromS3.trace_grows (WriteBufferFromS3.next client).
Proof. unfold WriteBufferFromS3.next. grows_tac. Qed.

#[local] Hint Resolve buffer_next_grows : grows.

Lemma buffer_preFinalize_grows :
  preserves WriteBufferFromS3.trace_grows (WriteBufferFromS3.preFinalize client).
Proof. unfold WriteBufferFromS3.preFinalize. grows_tac. Qed.

#[local] Hint Resolve buffer_preFinalize_grows : grows.

Lemma buffer_finalizeImpl_grows :
  preserves WriteBufferFromS3.trace_grows (WriteBufferFromS3.finalizeImpl client).
Proof. unfold WriteBufferFromS3.finalizeImpl. grows_tac. Qed.

Lemma buffer_write_grows (n : Z) :
  preserves WriteBufferFromS3.trace_grows (WriteBufferFromS3.write client n).
Proof. unfold WriteBufferFromS3.write. grows_tac. Qed.

#[local] Hint Resolve buffer_finalizeImpl_grows buffer_write_grows : grows.

Lemma buffer_write_all_grows (chunks : list Z) :
  preserves WriteBufferFromS3.trace_grows (WriteBufferFromS3.write_all client chunks).
Proof. induction chunks as [|n chunks IH]; cbn [WriteBufferFromS3.write_all]; grows_tac. Qed.

End BufferTrace.

Lemma final_state_try_rethrow {S A} (c : M S A) (h : S -> S) (s : S) :
  final_state (try_rethrow c h s)
  = match c s with
    | Throw _ s' => h s'
    | r => final_state r
    end.
Proof. unfold try_rethrow. destruct (c s); reflexivity. Qed.

(** What follows a request leaves it at its place in the trace. *)
Lemma buffer_first_request_stays {A B} (c : M WriteBufferFromS3.State A)
    (k : A -> M WriteBufferFromS3.State B) (s : WriteBufferFromS3.State)
    (entry : Request * Outcome) :
  (exists rest, WriteBufferFromS3.trace (final_state (c s)) = entry :: rest) ->
  (forall a, preserves WriteBufferFromS3.trace_grows (k a)) ->
  exists rest, WriteBufferFromS3.trace (final_state (bind c k s)) = entry :: rest.
Proof.
  intros [rest Hc] Hk. rewrite final_state_bind.
  destruct (c s) as [a s1| | | |]; try (exists rest; exact Hc).
  destruct (Hk a s1) as [sent Hsent]. cbn [final_state] in Hc.
  exists (rest ++ sent). rewrite Hsent, Hc. reflexivity.
Qed.

Section BufferThreshold.

Variable client : Client.

(** The write that takes the buffer over [max_single_part_upload_size]
    begins with [CreateMultipartUpload]. *)
Lemma buffer_write_crosses (c : WriteBufferFromS3.Config) (written n : Z)
    (s : WriteBufferFromS3.State) :
  WriteBufferFromS3.buffering c written s ->
  0 <= written <= max_single_part_upload_size (WriteBufferFromS3.settings c) ->
  max_single_part_upload_size (WriteBufferFromS3.settings c) < written + n ->
  written + n < SIZE_MODULUS ->
  exists rest,
    WriteBufferFromS3.trace (final_state (WriteBufferFromS3.write client n s))
    = (CreateMultipartUploadRequest, client [] CreateMultipartUploadRequest) :: rest.
Proof.
  intros (Hc & Hoff & Htb & Hlast & Hid & _ & _ & _ & _ & Htrace) Hw Hcross Hsmall.
  unfold WriteBufferFromS3.write.
  change ((modify (WriteBufferFromS3.set_working_offset n) ;; WriteBufferFromS3.next client) s)
    with (WriteBufferFromS3.next client (WriteBufferFromS3.set_working_offset n s)).
  set (s0 := WriteBufferFromS3.set_working_offset n s).
  assert (Hn : WriteBufferFromS3.working_offset s0 <> 0) by (cbn; lia).
  unfold WriteBufferFromS3.next.
  change ((off <- gets WriteBufferFromS3.working_offset ;;
           (if off =? 0 then ret tt
            else try_rethrow (WriteBufferFromS3.nextImpl client)
                   (WriteBufferFromS3.set_working_offset 0) ;;
                 modify (WriteBufferFromS3.set_working_offset 0))) s0)
    with ((if WriteBufferFromS3.working_offset s0 =? 0 then ret tt
           else try_rethrow (WriteBufferFromS3.nextImpl client)
                  (WriteBufferFromS3.set_working_offset 0) ;;
                modify (WriteBufferFromS3.set_working_offset 0)) s0).
  destruct (Z.eqb_spec (WriteBufferFromS3.working_offset s0) 0) as [|_]; [tauto|].
  apply buffer_first_request_stays;
    [|intros _ s1; apply trace_grows_same; reflexivity].
  assert (Hnext : exists rest,
             WriteBufferFromS3.trace (final_state (WriteBufferFromS3.nextImpl client s0))
             = (CreateMultipartUploadRequest, client [] CreateMultipartUploadRequest) :: rest).
  { assert (F0 : WriteBufferFromS3.temporary_buffer s0 = written
                 /\ WriteBufferFromS3.last_part_size s0 = written
                 /\ WriteBufferFromS3.working_offset s0 = n
                 /\ WriteBufferFromS3.multipart_upload_id s0 = ""
                 /\ WriteBufferFromS3.config s0 = c
                 /\ WriteBufferFromS3.trace s0 = []) by (repeat split; assumption).
    destruct F0 as (T0 & L0 & W0 & I0 & C0 & R0). clearbody s0.
    rewrite (nextImpl_steps client s0 Hn). cbv zeta.
    rewrite T0. destruct (Z.eqb_spec written (-1)) as [|_]; [lia|].
    cbn [WriteBufferFromS3.last_part_size WriteBufferFromS3.set_last_part_size
         WriteBufferFromS3.set_temporary_buffer WriteBufferFromS3.multipart_upload_id
         WriteBufferFromS3.config].
    rewrite L0, W0, I0, C0, (wrap_small (written + n)) by (unfold is_size_t; lia).
    cbn [WriteBufferFromS3.empty String.eqb andb].
    destruct (Z.ltb_spec (max_single_part_upload_size (WriteBufferFromS3.settings c))
                (written + n)) as [_|]; [|lia].
    apply buffer_first_request_stays.
    - unfold WriteBufferFromS3.createMultipartUpload, bind, WriteBufferFromS3.send.
      cbn [WriteBufferFromS3.trace WriteBufferFromS3.set_last_part_size
           WriteBufferFromS3.set_temporary_buffer].
      rewrite R0.
      destruct (client [] CreateMultipartUploadRequest); exists []; reflexivity.
    - intros _. apply (preserves_bind _ trace_grows_trans);
        [|intros _; apply buffer_waitForReadyBackGroundTasks_grows].
      intros s3. destruct (_ && _); [|apply trace_grows_refl].
      apply (preserves_bind _ trace_grows_trans);
        [apply buffer_writePart_grows|intros _; apply buffer_allocateBuffer_grows]. }
  destruct Hnext as [rest Hnext]. exists rest.
  rewrite final_state_try_rethrow.
  destruct (WriteBufferFromS3.nextImpl client s0); exact Hnext.
Qed.

Lemma buffer_write_all_crosses (c : WriteBufferFromS3.Config) (chunks : list Z)
    (K : M WriteBufferFromS3.State unit) :
  preserves WriteBufferFromS3.trace_grows K ->
  Forall (fun n => 0 <= n) chunks ->
  forall (written : Z) (s : WriteBufferFromS3.State),
    WriteBufferFromS3.buffering c written s ->
    0 <= written <= max_single_part_upload_size (WriteBufferFromS3.settings c) ->
    max_single_part_upload_size (WriteBufferFromS3.settings c)
    < written + fold_right Z.add 0 chunks ->
    written + fold_right Z.add 0 chunks < SIZE_MODULUS ->
    exists rest,
      WriteBufferFromS3.trace
        (final_state ((WriteBufferFromS3.write_all client chunks ;; K) s))
      = (CreateMultipartUploadRequest, client [] CreateMultipartUploadRequest) :: rest.
Proof.
  intros HK. induction 1 as [|n chunks Hn Hrest IH]; intros written s Hs Hw Hcross Hsmall;
    cbn [WriteBufferFromS3.write_all fold_right] in *; [lia|].
  assert (Hsum : 0 <= fold_right Z.add 0 chunks).
  { clear -Hrest. induction Hrest; cbn [fold_right]; lia. }
  destruct (Z_le_gt_dec (written + n)
              (max_single_part_upload_size (WriteBufferFromS3.settings c))) as [Hle|Hgt].
  - destruct (buffer_write_buffering client c written n s Hs ltac:(lia) Hn Hle ltac:(lia))
      as (s1 & H1 & Hs1).
    assert (Hrun : ((WriteBufferFromS3.write client n ;; WriteBufferFromS3.write_all client chunks)
                    ;; K) s
                   = (WriteBufferFromS3.write_all client chunks ;; K) s1)
      by (unfold bind; rewrite H1; reflexivity).
    rewrite Hrun. apply (IH (written + n) s1 Hs1); lia.
  - apply buffer_first_request_stays; [|intros _; exact HK].
    apply buffer_first_request_stays; [|intros _; apply buffer_write_all_grows].
    apply (buffer_write_crosses c written n s Hs); lia.
Qed.

End BufferThreshold.

(** X10. The bytes of a streaming write decide its path at
    [max_single_part_upload_size]: up to that size the first request is the
    [PutObject] of all the bytes and no request of a multipart upload is
    sent; from one byte more the first request is [CreateMultipartUpload]. *)
Theorem streaming_path_is_chosen_by_size (client : Client) (cfg : WriteBufferFromS3.Config)
    (script : list (list WriteBufferFromS3.PoolEvent)) (chunks : list Z) :
  Forall (fun n => 0 <= n) chunks ->
  is_size_t (fold_right Z.add 0 chunks) ->
  is_size_t (max_single_part_upload_size (WriteBufferFromS3.settings cfg)) ->
  is_size_t (WriteBufferFromS3.max_unexpected_write_error_retries cfg) ->
  let total := fold_right Z.add 0 chunks in
  let put := PutObjectRequest total (TemporaryBuffer total) in
  let t := WriteBufferFromS3.trace
             (final_state
                (WriteBufferFromS3.streaming_write client chunks
                   (WriteBufferFromS3.construct cfg script))) in
  (total <= max_single_part_upload_size (WriteBufferFromS3.settings cfg) ->
   hd_error t = Some (put, client [] put) /\ answered is_multipart t = 0%nat) /\
  (max_single_part_upload_size (WriteBufferFromS3.settings cfg) < total ->
   hd_error t
   = Some (CreateMultipartUploadRequest, client [] CreateMultipartUploadRequest)).
Proof.
  intros Hchunks Htotal Hsize Hretries total put t.
  assert (Hstart : WriteBufferFromS3.buffering cfg 0 (WriteBufferFromS3.construct cfg script)).
  { repeat split; reflexivity. }
  split.
  - intros Hle.
    destruct (buffer_write_all_buffering client cfg chunks 0 _ Hstart ltac:(lia) Hchunks
                ltac:(exact Hle) ltac:(apply Hsize))
      as (s1 & Hwrite & Hs1).
    cbn [Z.add] in Hs1. fold total in Hs1.
    assert (Hrecord : exists t1 heads,
               t = t1 ++ heads /\
               single_shot_attempts put
                 (std_max (WriteBufferFromS3.max_unexpected_write_error_retries cfg) 1)
                 (client [] put) t1 /\
               (heads = [] \/ exists o, heads = [(HeadObjectRequest, o)])).
    { subst t. unfold WriteBufferFromS3.streaming_write, bind. rewrite Hwrite.
      destruct (WriteBufferFromS3.schedule cfg) eqn:Hsched.
      - apply buffer_finalizeImpl_scheduled;
          [exact Hs1|apply Htotal|exact Hretries|exact Hsched].
      - apply buffer_finalizeImpl_inline;
          [exact Hs1|apply Htotal|exact Hretries|exact Hsched]. }
    destruct Hrecord as (t1 & heads & Ht & Hshot & Hheads).
    destruct (single_shot_record put _ _ t1 heads eq_refl Hshot Hheads) as [Hmulti _].
    rewrite Ht. split; [|exact Hmulti].
    destruct Hshot as (phantoms & last & Ht1 & _ & _ & Hhd).
    rewrite Ht1 in *. destruct phantoms; exact Hhd.
  - intros Hgt.
    destruct (buffer_write_all_crosses client cfg chunks (WriteBufferFromS3.finalizeImpl client)
                (buffer_finalizeImpl_grows client) Hchunks 0 _ Hstart
                ltac:(destruct Hsize; lia) ltac:(exact Hgt) ltac:(apply Htotal))
      as [rest Hrest].
    subst t. unfold WriteBufferFromS3.streaming_write. rewrite Hrest. reflexivity.
Qed.

Lemma streaming_path_is_chosen_by_size_witness :
  let t chunks := WriteBufferFromS3.trace
                    (final_state
                       (WriteBufferFromS3.streaming_write Samples.accepting_client chunks
                          Samples.inline_buffer)) in
  (hd_error (t [5; 15]) = Some (PutObjectRequest 20 (TemporaryBuffer 20), Success "") /\
   answered is_multipart (t [5; 15]) = 0%nat) /\
  hd_error (t [5; 16]) = Some (CreateMultipartUploadRequest, Success "upload-1").
Proof.
  intros t. split.
  - apply (streaming_path_is_chosen_by_size Samples.accepting_client
             (WriteBufferFromS3.mkConfig Samples.small_policy false 1 false) [] [5; 15]);
      try (unfold is_size_t, SIZE_MODULUS; cbn; lia).
    repeat constructor; lia.
  - apply (streaming_path_is_chosen_by_size Samples.accepting_client
             (WriteBufferFromS3.mkConfig Samples.small_policy false 1 false) [] [5; 16]);
      try (unfold is_size_t, SIZE_MODULUS; cbn; lia).
    repeat constructor; lia.
Defined.

(** ** The kinds of the requests of the streaming buffer *)

Lemma keeps_requests_same (P : Request -> Prop) (s s' : WriteBufferFromS3.State) :
  WriteBufferFromS3.upload_object_tasks s' = WriteBufferFromS3.upload_object_tasks s ->
  WriteBufferFromS3.trace s' = WriteBufferFromS3.trace s ->
  WriteBufferFromS3.put_object_task s' = WriteBufferFromS3.put_object_task s ->
  WriteBufferFromS3.keeps_requests P s s'.
Proof.
  intros Ht Htr Hp. unfold WriteBufferFromS3.keeps_requests, WriteBufferFromS3.requests_are.
  rewrite Ht, Htr, Hp. auto.
Qed.

Lemma keeps_requests_refl (P : Request -> Prop) (s : WriteBufferFromS3.State) :
  WriteBufferFromS3.keeps_requests P s s.
Proof. intros H. exact H. Qed.

Lemma keeps_requests_trans (P : Request -> Prop) (s1 s2 s3 : WriteBufferFromS3.State) :
  WriteBufferFromS3.keeps_requests P s1 s2 -> WriteBufferFromS3.keeps_requests P s2 s3 ->
  WriteBufferFromS3.keeps_requests P s1 s3.
Proof. unfold WriteBufferFromS3.keeps_requests. auto. Qed.

Lemma keeps_requests_update_task (P : Request -> Prop) (id : Z)
    (f : WriteBufferFromS3.UploadPartTask -> WriteBufferFromS3.UploadPartTask)
    (s : WriteBufferFromS3.State) :
  (forall t, WriteBufferFromS3.req (f t) = WriteBufferFromS3.req t /\
             (WriteBufferFromS3.stage (f t) = WriteBufferFromS3.Queued ->
              WriteBufferFromS3.stage t = WriteBufferFromS3.Queued)) ->
  WriteBufferFromS3.keeps_requests P s (WriteBufferFromS3.update_task id f s).
Proof.
  intros Hf (T & Q & U). split; [exact T|]. split; [|exact U].
  cbn. apply Forall_map. revert Q. apply Forall_impl. intros t Ht.
  destruct (WriteBufferFromS3.task_id t =? id); [|exact Ht].
  destruct (Hf t) as [-> Hst]. intros H. apply Ht, Hst, H.
Qed.

Lemma keeps_requests_update_put_task (P : Request -> Prop)
    (f : WriteBufferFromS3.PutObjectTask -> WriteBufferFromS3.PutObjectTask)
    (s : WriteBufferFromS3.State) :
  (forall t, WriteBufferFromS3.put_req (f t) = WriteBufferFromS3.put_req t /\
             (WriteBufferFromS3.put_stage (f t) = WriteBufferFromS3.Queued ->
              WriteBufferFromS3.put_stage t = WriteBufferFromS3.Queued)) ->
  WriteBufferFromS3.keeps_requests P s (WriteBufferFromS3.update_put_task f s).
Proof.
  intros Hf (T & Q & U). split; [exact T|]. split; [exact Q|].
  cbn. intros t' Ht'. destruct (WriteBufferFromS3.put_object_task s) as [t|]; [|discriminate].
  cbn in Ht'. injection Ht' as <-. destruct (Hf t) as [-> Hst].
  intros H. apply (U t eq_refl), Hst, H.
Qed.

(** Taking tasks from the queue. *)
Lemma keeps_requests_fewer_tasks (P : Request -> Prop) (s s1 : WriteBufferFromS3.State) :
  (forall t, In t (WriteBufferFromS3.upload_object_tasks s1) ->
             In t (WriteBufferFromS3.upload_object_tasks s)) ->
  WriteBufferFromS3.trace s1 = WriteBufferFromS3.trace s ->
  WriteBufferFromS3.put_object_task s1 = WriteBufferFromS3.put_object_task s ->
  WriteBufferFromS3.keeps_requests P s s1.
Proof.
  intros Hincl Htr Hp (T & Q & U). unfold WriteBufferFromS3.requests_are.
  rewrite Htr, Hp. split; [exact T|]. split; [|exact U].
  rewrite Forall_forall in *. intros t Ht. apply Q, Hincl, Ht.
Qed.

Lemma preserves_gets_bind {S A B} (R : S -> S -> Prop) (f : S -> A) (k : A -> M S B) :
  (forall s, R s (final_state (k (f s) s))) -> preserves R (bind (gets f) k).
Proof. intros H s. exact (H s). Qed.

Create HintDb requests.

Ltac requests_tac :=
  preserve_with uconstr:(keeps_requests_refl _) uconstr:(keeps_requests_trans _);
  try solve [apply keeps_requests_same; reflexivity | auto with requests].

Section BufferRequests.

Variable client : Client.
Variable P : Request -> Prop.

Lemma buffer_send_requests (r : Request) :
  P r -> preserves (WriteBufferFromS3.keeps_requests P) (WriteBufferFromS3.send client r).
Proof.
  intros Hr s (T & Q & U). split; [|split; assumption].
  cbn. apply Forall_app. split; [exact T|]. constructor; [exact Hr|constructor].
Qed.

Lemma buffer_LOG_requests (m : LogMessage) :
  preserves (WriteBufferFromS3.keeps_requests P) (WriteBufferFromS3.LOG m).
Proof. intros s. apply keeps_requests_same; reflexivity. Qed.

Lemma buffer_allocateBuffer_requests :
  preserves (WriteBufferFromS3.keeps_requests P) WriteBufferFromS3.allocateBuffer.
Proof. intros s. apply keeps_requests_same; reflexivity. Qed.

#[local] Hint Resolve buffer_send_requests buffer_LOG_requests buffer_allocateBuffer_requests
  : requests.

Lemma buffer_complete_retry_loop_requests (fuel : nat) (i max_retry : Z) (request : Request) :
  P request ->
  preserves (WriteBufferFromS3.keeps_requests P)
    (WriteBufferFromS3.complete_retry_loop client fuel i max_retry request).
Proof.
  intros Hr. revert i. induction fuel as [|fuel IH]; intros i;
    cbn [WriteBufferFromS3.complete_retry_loop]; requests_tac.
Qed.

Lemma buffer_processPutRequest_requests (task : WriteBufferFromS3.PutObjectTask) :
  P (WriteBufferFromS3.put_req task) ->
  preserves (WriteBufferFromS3.keeps_requests P)
    (WriteBufferFromS3.processPutRequest client task).
Proof.
  intros Hr. unfold WriteBufferFromS3.processPutRequest. requests_tac.
  intros s. rewrite buffer_put_retry_loop_same.
  apply buffer_complete_retry_loop_requests. exact Hr.
Qed.

Lemma buffer_processUploadRequest_requests (task : WriteBufferFromS3.UploadPartTask) :
  P (WriteBufferFromS3.req task) ->
  preserves (WriteBufferFromS3.keeps_requests P)
    (WriteBufferFromS3.processUploadRequest client task).
Proof. intros Hr. unfold WriteBufferFromS3.processUploadRequest. requests_tac. Qed.

Lemma buffer_upload_task_runs_requests (id : Z) :
  preserves (WriteBufferFromS3.keeps_requests P) (WriteBufferFromS3.upload_task_runs client id).
Proof.
  intros s Hs. unfold WriteBufferFromS3.upload_task_runs.
  destruct (find _ _) as [task|] eqn:Hfind; [|exact Hs].
  destruct (WriteBufferFromS3.stage task) eqn:Hst; try exact Hs.
  apply find_some in Hfind. destruct Hfind as [Hin _].
  assert (Hr : P (WriteBufferFromS3.req task)).
  { destruct Hs as (_ & Q & _). rewrite Forall_forall in Q. exact (Q task Hin Hst). }
  pose proof (buffer_processUploadRequest_requests task Hr s Hs) as H1.
  destruct (WriteBufferFromS3.processUploadRequest client task s) as [task' s1|e s1|s1|s1|s1];
    cbn [final_state] in *; try exact H1;
    unfold WriteBufferFromS3.task_finish_notify;
    match goal with
    | |- WriteBufferFromS3.requests_are _ (WriteBufferFromS3.set_num_finished_bg_tasks _ ?s0) =>
        apply (keeps_requests_same P s0); [reflexivity|reflexivity|reflexivity|]
    end;
    (apply keeps_requests_update_task; [intros t; split; [reflexivity|discriminate]|]);
    (apply keeps_requests_update_task; [intros t; split; [reflexivity|intros H; exact H]|]);
    exact H1.
Qed.

Lemma buffer_put_task_runs_requests :
  preserves (WriteBufferFromS3.keeps_requests P) (WriteBufferFromS3.put_task_runs client).
Proof.
  intros s Hs. unfold WriteBufferFromS3.put_task_runs.
  destruct (WriteBufferFromS3.put_object_task s) as [task|] eqn:Hput; [|exact Hs].
  destruct (WriteBufferFromS3.put_stage task) eqn:Hst; try exact Hs.
  assert (Hr : P (WriteBufferFromS3.put_req task)).
  { destruct Hs as (_ & _ & U). exact (U task Hput Hst). }
  pose proof (buffer_processPutRequest_requests task Hr s Hs) as H1.
  destruct (WriteBufferFromS3.processPutRequest client task s) as [u s1|e s1|s1|s1|s1];
    cbn [final_state] in *; try exact H1;
    unfold WriteBufferFromS3.task_notify_finish;
    (apply keeps_requests_update_put_task; [intros t; split; [reflexivity|discriminate]|]);
    try (apply keeps_requests_update_put_task;
         [intros t; split; [reflexivity|intros H; exact H]|]);
    exact H1.
Qed.

#[local] Hint Resolve buffer_upload_task_runs_requests buffer_put_task_runs_requests : requests.

Lemma buffer_pool_events_requests (evs : list WriteBufferFromS3.PoolEvent) :
  preserves (WriteBufferFromS3.keeps_requests P) (WriteBufferFromS3.pool_events client evs).
Proof.
  induction evs as [|ev evs IH]; cbn [WriteBufferFromS3.pool_events]; requests_tac.
  destruct ev; cbn [WriteBufferFromS3.pool_event]; auto with requests.
Qed.

#[local] Hint Resolve buffer_pool_events_requests : requests.

Lemma buffer_pool_turn_requests :
  preserves (WriteBufferFromS3.keeps_requests P) (WriteBufferFromS3.pool_turn client).
Proof. unfold WriteBufferFromS3.pool_turn. requests_tac. Qed.

Lemma buffer_pool_finish_requests (ids : list Z) :
  preserves (WriteBufferFromS3.keeps_requests P) (WriteBufferFromS3.pool_finish client ids).
Proof. induction ids as [|id ids IH]; cbn [WriteBufferFromS3.pool_finish]; requests_tac. Qed.

#[local] Hint Resolve buffer_pool_turn_requests buffer_pool_finish_requests : requests.

Lemma buffer_condvar_wait_tasks_requests :
  preserves (WriteBufferFromS3.keeps_requests P) (WriteBufferFromS3.condvar_wait_tasks client).
Proof. unfold WriteBufferFromS3.condvar_wait_tasks. requests_tac. Qed.

Lemma buffer_condvar_wait_put_requests :
  preserves (WriteBufferFromS3.keeps_requests P) (WriteBufferFromS3.condvar_wait_put client).
Proof. unfold WriteBufferFromS3.condvar_wait_put. requests_tac. Qed.

#[local] Hint Resolve buffer_condvar_wait_tasks_requests buffer_condvar_wait_put_requests
  : requests.

Lemma buffer_collect_all_requests (tasks : list WriteBufferFromS3.UploadPartTask) :
  forall s,
    (forall t, In t tasks -> In t (WriteBufferFromS3.upload_object_tasks s)) ->
    WriteBufferFromS3.keeps_requests P s (final_state (WriteBufferFromS3.collect_all tasks s)).
Proof.
  induction tasks as [|task rest IH]; intros s Hincl; cbn [WriteBufferFromS3.collect_all].
  - apply keeps_requests_refl.
  - destruct (WriteBufferFromS3.exception task); [apply keeps_requests_refl|].
    cbn [bind modify].
    match goal with
    | |- WriteBufferFromS3.keeps_requests _ _
           (final_state (WriteBufferFromS3.collect_all rest ?s1)) =>
        apply (keeps_requests_trans P s s1); [|apply IH; intros t Ht; exact Ht]
    end.
    apply keeps_requests_fewer_tasks; [|reflexivity|reflexivity].
    intros t Ht. apply Hincl. right. exact Ht.
Qed.

Lemma buffer_waitForAllBackGroundTasksUnlocked_requests :
  preserves (WriteBufferFromS3.keeps_requests P)
    (WriteBufferFromS3.waitForAllBackGroundTasksUnlocked client).
Proof.
  unfold WriteBufferFromS3.waitForAllBackGroundTasksUnlocked.
  apply (preserves_bind _ (keeps_requests_trans P));
    [apply (preserves_gets _ (keeps_requests_refl P))|intros scheduled].
  destruct scheduled; [|apply (preserves_ret _ (keeps_requests_refl P))].
  apply (preserves_bind _ (keeps_requests_trans P));
    [apply buffer_condvar_wait_tasks_requests|intros _].
  apply preserves_gets_bind. intros s. rewrite final_state_bind.
  pose proof (buffer_collect_all_requests (WriteBufferFromS3.upload_object_tasks s) s
                (fun t Ht => Ht)) as H1.
  destruct (WriteBufferFromS3.collect_all _ s) as [u s1| | | |]; try exact H1.
  cbn [final_state] in H1. eapply keeps_requests_trans; [exact H1|].
  revert s1 H1. intros s1 _. revert s1.
  change (preserves (WriteBufferFromS3.keeps_requests P)
            (put <- gets WriteBufferFromS3.put_object_task ;;
             match put with
             | Some _ =>
                 WriteBufferFromS3.condvar_wait_put client ;;
                 put' <- gets WriteBufferFromS3.put_object_task ;;
                 match put' with
                 | Some t => match WriteBufferFromS3.put_exception t with
                             | Some e => throw e
                             | None => ret tt
                             end
                 | None => undefined
                 end
             | None => ret tt
             end)).
  requests_tac.
Qed.

#[local] Hint Resolve buffer_waitForAllBackGroundTasksUnlocked_requests : requests.

Lemma buffer_waitForAllBackGroundTasks_requests :
  preserves (WriteBufferFromS3.keeps_requests P)
    (WriteBufferFromS3.waitForAllBackGroundTasks client).
Proof. unfold WriteBufferFromS3.waitForAllBackGroundTasks. requests_tac. Qed.

Lemma buffer_collect_ready_requests (tasks : list WriteBufferFromS3.UploadPartTask) :
  forall s,
    (forall t, In t tasks -> In t (WriteBufferFromS3.upload_object_tasks s)) ->
    WriteBufferFromS3.keeps_requests P s
      (final_state (WriteBufferFromS3.collect_ready client tasks s)).
Proof.
  induction tasks as [|task rest IH]; intros s Hincl; cbn [WriteBufferFromS3.collect_ready].
  - apply keeps_requests_refl.
  - destruct (WriteBufferFromS3.is_finished task); [|apply keeps_requests_refl].
    cbn [bind modify].
    apply (keeps_requests_trans _ _ (WriteBufferFromS3.set_upload_object_tasks rest s)).
    { apply keeps_requests_fewer_tasks; [|reflexivity|reflexivity].
      intros t Ht. apply Hincl. right. exact Ht. }
    destruct (WriteBufferFromS3.exception task).
    + apply (preserves_bind _ (keeps_requests_trans P));
        [apply buffer_waitForAllBackGroundTasksUnlocked_requests|].
      intros _ s1. apply keeps_requests_refl.
    + cbn [bind modify].
      match goal with
      | |- WriteBufferFromS3.keeps_requests _ ?s0
             (final_state (WriteBufferFromS3.collect_ready _ rest ?s1)) =>
          apply (keeps_requests_trans P s0 s1); [|apply IH; intros t Ht; exact Ht]
      end.
      apply keeps_requests_same; reflexivity.
Qed.

Lemma buffer_waitForReadyBackGroundTasks_requests :
  preserves (WriteBufferFromS3.keeps_requests P)
    (WriteBufferFromS3.waitForReadyBackGroundTasks client).
Proof.
  unfold WriteBufferFromS3.waitForReadyBackGroundTasks.
  apply (preserves_bind _ (keeps_requests_trans P));
    [apply (preserves_gets _ (keeps_requests_refl P))|intros scheduled].
  destruct scheduled; [|apply (preserves_ret _ (keeps_requests_refl P))].
  apply (preserves_bind _ (keeps_requests_trans P));
    [apply buffer_pool_turn_requests|intros _].
  apply preserves_gets_bind. intros s.
  apply buffer_collect_ready_requests. intros t Ht. exact Ht.
Qed.

End BufferRequests.

Lemma fillUploadRequest_queue :
  preserves (keeps (fun s => (WriteBufferFromS3.upload_object_tasks s, WriteBufferFromS3.trace s,
                              WriteBufferFromS3.put_object_task s)))
    WriteBufferFromS3.fillUploadRequest.
Proof. unfold WriteBufferFromS3.fillUploadRequest. keeps_tac; reflexivity. Qed.

Lemma fillUploadRequest_request (s s1 : WriteBufferFromS3.State) (r : Request) :
  WriteBufferFromS3.fillUploadRequest s = Ok r s1 ->
  r = UploadPartRequest (WriteBufferFromS3.multipart_upload_id s)
        (static_cast_int (wrap (WriteBufferFromS3.part_number s + 1)))
        (WriteBufferFromS3.temporary_buffer s)
        (TemporaryBuffer (WriteBufferFromS3.temporary_buffer s)).
Proof.
  intros H. pose proof (fillUploadRequest_cases s) as Hc. cbv zeta in Hc.
  repeat match type of Hc with
         | if ?b then _ else _ => destruct b
         end;
    rewrite Hc in H; try discriminate; injection H as <- _; reflexivity.
Qed.

Section BufferRequestsSent.

Variable client : Client.
Variable P : Request -> Prop.

(** [writePart] sends, or puts in the queue, one request: a part request
    for the bytes of the temporary buffer. *)
Lemma buffer_writePart_requests (s : WriteBufferFromS3.State) :
  (0 < WriteBufferFromS3.temporary_buffer s ->
   P (UploadPartRequest (WriteBufferFromS3.multipart_upload_id s)
        (static_cast_int (wrap (WriteBufferFromS3.part_number s + 1)))
        (WriteBufferFromS3.temporary_buffer s)
        (TemporaryBuffer (WriteBufferFromS3.temporary_buffer s)))) ->
  WriteBufferFromS3.keeps_requests P s (final_state (WriteBufferFromS3.writePart client s)).
Proof.
  intros Hpart.
  destruct (Z_lt_ge_dec 0 (WriteBufferFromS3.temporary_buffer s)) as [Hpos|Hsmall].
  2:{ unfold WriteBufferFromS3.writePart. cbn [bind gets].
      destruct (Z.ltb_spec (WriteBufferFromS3.temporary_buffer s) 0);
        [|destruct (Z.eqb_spec (WriteBufferFromS3.temporary_buffer s) 0); [|lia]];
        apply keeps_requests_same; reflexivity. }
  specialize (Hpart Hpos).
  destruct (after_warning_parting s) as (T0 & R0 & N0 & _ & P0 & B0).
  destruct (after_warning_background s) as (Hbg & _ & _).
  apply background_view_front_end in Hbg. destruct Hbg as (Hfe & _).
  pose proof (front_end_config _ _ Hfe) as (_ & M0 & I0). clear Hfe.
  destruct (WriteBufferFromS3.schedule (WriteBufferFromS3.config s)) eqn:Hsched.
  - rewrite (writePart_scheduled client s Hpos Hsched). cbv zeta.
    pose proof (fillUploadRequest_queue
                  (WriteBufferFromS3.with_new_task (WriteBufferFromS3.after_warning s))) as Hq.
    unfold keeps in Hq.
    destruct (WriteBufferFromS3.fillUploadRequest _) as [r s1|e s1|s1|s1|s1] eqn:Hfill;
      cbn [final_state] in Hq; injection Hq as T1 R1 P1;
      cbn [WriteBufferFromS3.with_new_task WriteBufferFromS3.upload_object_tasks
           WriteBufferFromS3.trace WriteBufferFromS3.put_object_task
           WriteBufferFromS3.set_num_added_bg_tasks WriteBufferFromS3.set_upload_object_tasks]
        in T1, R1, P1;
      rewrite T0, N0 in T1; rewrite R0 in R1; rewrite P0 in P1.
    + apply fillUploadRequest_request in Hfill.
      cbn [WriteBufferFromS3.with_new_task WriteBufferFromS3.temporary_buffer
           WriteBufferFromS3.multipart_upload_id WriteBufferFromS3.part_number
           WriteBufferFromS3.set_num_added_bg_tasks WriteBufferFromS3.set_upload_object_tasks]
        in Hfill.
      rewrite B0, M0, I0 in Hfill. rewrite <- Hfill in Hpart.
      eapply keeps_requests_trans; [|apply buffer_pool_turn_requests].
      intros (T & Q & U). unfold WriteBufferFromS3.requests_are. cbn. rewrite R1, P1, T1.
      split; [exact T|]. split; [|exact U].
      apply Forall_map, Forall_map, Forall_app. split.
      * revert Q. apply Forall_impl. intros t Ht.
        destruct (WriteBufferFromS3.task_id t =? WriteBufferFromS3.num_added_bg_tasks s) eqn:He;
          cbn [WriteBufferFromS3.task_id WriteBufferFromS3.with_req]; rewrite He;
          [intros _; exact Hpart|exact Ht].
      * constructor; [|constructor]. cbn. rewrite Z.eqb_refl. cbn. rewrite Z.eqb_refl.
        intros _. exact Hpart.
    + cbn [final_state]. intros (T & Q & U). unfold WriteBufferFromS3.requests_are.
      cbn. rewrite R1, P1, T1. split; [exact T|]. split; [|exact U].
      apply Forall_map, Forall_app. split.
      * revert Q. apply Forall_impl. intros t Ht.
        destruct (WriteBufferFromS3.task_id t =? WriteBufferFromS3.num_added_bg_tasks s);
          [discriminate|exact Ht].
      * constructor; [|constructor]. cbn. rewrite Z.eqb_refl. discriminate.
    + cbn [final_state]. intros (T & Q & U). unfold WriteBufferFromS3.requests_are.
      rewrite R1, P1, T1. split; [exact T|]. split; [|exact U].
      apply Forall_app. split; [exact Q|]. constructor; [discriminate|constructor].
    + cbn [final_state]. intros (T & Q & U). unfold WriteBufferFromS3.requests_are.
      rewrite R1, P1, T1. split; [exact T|]. split; [|exact U].
      apply Forall_app. split; [exact Q|]. constructor; [discriminate|constructor].
    + cbn [final_state]. intros (T & Q & U). unfold WriteBufferFromS3.requests_are.
      rewrite R1, P1, T1. split; [exact T|]. split; [|exact U].
      apply Forall_app. split; [exact Q|]. constructor; [discriminate|constructor].
  - rewrite (writePart_inline client s Hpos Hsched).
    pose proof (fillUploadRequest_queue (WriteBufferFromS3.after_warning s)) as Hq.
    unfold keeps in Hq.
    destruct (WriteBufferFromS3.fillUploadRequest _) as [r s1|e s1|s1|s1|s1] eqn:Hfill;
      cbn [final_state] in Hq; injection Hq as T1 R1 P1;
      rewrite T0 in T1; rewrite R0 in R1; rewrite P0 in P1;
      try (apply keeps_requests_same; assumption).
    apply fillUploadRequest_request in Hfill.
    rewrite B0, M0, I0 in Hfill. rewrite <- Hfill in Hpart.
    apply (keeps_requests_trans _ _ s1); [apply keeps_requests_same; assumption|].
    pose proof (buffer_processUploadRequest_requests client P
                  (WriteBufferFromS3.with_req r (WriteBufferFromS3.new_task 0)) Hpart s1) as H1.
    destruct (WriteBufferFromS3.processUploadRequest _ _ s1) as [task s2| | | |]; exact H1.
Qed.

Hypothesis P_create : P CreateMultipartUploadRequest.
Hypothesis P_upload : forall r, is_upload r = true -> P r.
Hypothesis P_put : forall r, is_put r = true -> P r.

Lemma buffer_createMultipartUpload_requests :
  preserves (WriteBufferFromS3.keeps_requests P) (WriteBufferFromS3.createMultipartUpload client).
Proof.
  unfold WriteBufferFromS3.createMultipartUpload.
  apply (preserves_bind _ (keeps_requests_trans P));
    [apply buffer_send_requests; exact P_create|].
  intros [x|e] s; [apply keeps_requests_same; reflexivity|apply keeps_requests_refl].
Qed.

Lemma buffer_writePart_requests_sent :
  preserves (WriteBufferFromS3.keeps_requests P) (WriteBufferFromS3.writePart client).
Proof. intros s. apply buffer_writePart_requests. intros _. apply P_upload. reflexivity. Qed.

Lemma buffer_makeSinglepartUpload_requests :
  preserves (WriteBufferFromS3.keeps_requests P) (WriteBufferFromS3.makeSinglepartUpload client).
Proof.
  intros s. unfold WriteBufferFromS3.makeSinglepartUpload. cbn [bind gets].
  destruct (WriteBufferFromS3.temporary_buffer s <? 0);
    [apply keeps_requests_same; reflexivity|].
  cbn [bind gets].
  destruct (WriteBufferFromS3.schedule (WriteBufferFromS3.config s)).
  - cbn [bind modify]. unfold try_rethrow, WriteBufferFromS3.fillPutRequest.
    cbn [bind gets ret modify].
    eapply keeps_requests_trans; [|apply buffer_pool_turn_requests].
    intros (T & Q & U). split; [exact T|]. split; [exact Q|].
    cbn. intros t Ht _. injection Ht as <-. apply P_put. reflexivity.
  - unfold WriteBufferFromS3.fillPutRequest. cbn [bind gets ret].
    apply buffer_processPutRequest_requests. apply P_put. reflexivity.
Qed.

Lemma buffer_nextImpl_requests :
  preserves (WriteBufferFromS3.keeps_requests P) (WriteBufferFromS3.nextImpl client).
Proof.
  pose proof buffer_createMultipartUpload_requests.
  pose proof buffer_writePart_requests_sent.
  pose proof (buffer_waitForReadyBackGroundTasks_requests client P).
  pose proof (buffer_allocateBuffer_requests P).
  unfold WriteBufferFromS3.nextImpl. requests_tac; assumption.
Qed.

Lemma buffer_next_requests :
  preserves (WriteBufferFromS3.keeps_requests P) (WriteBufferFromS3.next client).
Proof.
  pose proof buffer_nextImpl_requests.
  unfold WriteBufferFromS3.next. requests_tac; assumption.
Qed.

Lemma buffer_preFinalize_requests :
  preserves (WriteBufferFromS3.keeps_requests P) (WriteBufferFromS3.preFinalize client).
Proof.
  pose proof buffer_next_requests.
  pose proof buffer_writePart_requests_sent.
  pose proof buffer_makeSinglepartUpload_requests.
  unfold WriteBufferFromS3.preFinalize. requests_tac; assumption.
Qed.

Lemma buffer_write_all_requests (chunks : list Z) :
  preserves (WriteBufferFromS3.keeps_requests P) (WriteBufferFromS3.write_all client chunks).
Proof.
  pose proof buffer_next_requests.
  induction chunks as [|n chunks IH]; cbn [WriteBufferFromS3.write_all];
    unfold WriteBufferFromS3.write; requests_tac; assumption.
Qed.

End BufferRequestsSent.

(** ** Parts and completion *)

Lemma parts_precede_completion_open (t : Trace) :
  answered is_complete t = 0%nat -> parts_precede_completion t.
Proof. intros H. exists t, []. rewrite app_nil_r. repeat split; [exact H|constructor]. Qed.

Lemma parts_precede_completion_app (t sent : Trace) :
  parts_precede_completion t ->
  Forall (fun entry => is_upload (fst entry) = false) sent ->
  parts_precede_completion (t ++ sent).
Proof.
  intros (before & after & -> & Hb & Ha) Hsent. exists before, (after ++ sent).
  rewrite app_assoc. split; [reflexivity|]. split; [exact Hb|].
  apply Forall_app. split; assumption.
Qed.

Section CopyCompletion.

Variable client : Client.

Lemma copy_not_completed_precede {A} (c : M UploadHelper.State A)
    (k : A -> M UploadHelper.State unit) :
  preserves UploadHelper.keeps_not_completed c ->
  (forall a s1, UploadHelper.not_completed s1 ->
     parts_precede_completion (UploadHelper.trace (final_state (k a s1)))) ->
  forall s, UploadHelper.not_completed s ->
    parts_precede_completion (UploadHelper.trace (final_state (bind c k s))).
Proof.
  intros Hc Hk s Hs. rewrite final_state_bind. pose proof (Hc s Hs) as H1.
  destruct (c s) as [a s1|e s1|s1|s1|s1]; cbn [final_state] in *;
    try (apply parts_precede_completion_open; exact (proj1 (proj2 H1))).
  apply Hk. exact H1.
Qed.

Lemma copy_performMultipartUpload_precede (start_offset size : Z) (s : UploadHelper.State) :
  UploadHelper.not_completed s ->
  parts_precede_completion
    (UploadHelper.trace
       (final_state (UploadHelper.performMultipartUpload client start_offset size s))).
Proof.
  revert s. unfold UploadHelper.performMultipartUpload.
  apply copy_not_completed_precede; [apply copy_calculatePartSize_not_completed|intros _].
  apply copy_not_completed_precede; [apply copy_createMultipartUpload_not_completed|intros _].
  apply copy_not_completed_precede; [apply (preserves_gets _ not_completed_refl)|intros normal].
  apply copy_not_completed_precede; [apply copy_upload_parts_loop_not_completed|intros _].
  apply copy_not_completed_precede;
    [apply copy_waitForAllBackGroundTasks_not_completed|intros _].
  intros s (_ & Hnone & _).
  destruct (copy_completeMultipartUpload_sends client s) as (sent & lg & -> & Hsent).
  cbn [UploadHelper.trace UploadHelper.set_log UploadHelper.set_trace].
  apply parts_precede_completion_app; [apply parts_precede_completion_open; exact Hnone|].
  revert Hsent. apply Forall_impl. intros [r o] Hr. cbn in *.
  destruct r; try discriminate; reflexivity.
Qed.

Lemma copy_put_retry_loop_precede (request : Request) (max_retries : Z) (fuel : nat) :
  is_abort request = false -> is_complete request = false ->
  forall (retries : Z) (s : UploadHelper.State),
    UploadHelper.not_completed s ->
    parts_precede_completion
      (UploadHelper.trace
         (final_state (UploadHelper.put_retry_loop client fuel retries max_retries request s))).
Proof.
  intros Hab Hco. induction fuel as [|fuel IH]; intros retries s Hs.
  - apply parts_precede_completion_open. exact (proj1 (proj2 Hs)).
  - rewrite copy_put_retry_loop_step. cbv zeta.
    pose proof (copy_send_not_completed client request Hab Hco s Hs) as H1.
    cbn [final_state UploadHelper.send] in H1.
    destruct (client (UploadHelper.trace s) request) as [x|e].
    + apply parts_precede_completion_open. exact (proj1 (proj2 H1)).
    + assert (H2 : forall m, UploadHelper.not_completed
                               (UploadHelper.set_log (UploadHelper.log s ++ [m])
                                  (UploadHelper.set_trace
                                     (UploadHelper.trace s ++ [(request, Failure e)]) s))).
      { intros m. revert H1. apply not_completed_same; reflexivity. }
      destruct (is_too_large e).
      * unfold UploadHelper.CopyDataToFileHelper_performMultipartUpload. cbn [bind gets].
        apply copy_performMultipartUpload_precede. apply H2.
      * destruct (is_no_such_key e && (retries <? max_retries)).
        -- apply IH. apply H2.
        -- apply parts_precede_completion_open. exact (proj1 (proj2 H1)).
Qed.

(** The check of the object after the upload sends no part request. *)
Lemma copy_check_precede (c : M UploadHelper.State unit) (s : UploadHelper.State) :
  parts_precede_completion (UploadHelper.trace (final_state (c s))) ->
  parts_precede_completion
    (UploadHelper.trace
       (final_state
          ((c ;;
            check <- gets (fun s => UploadHelper.check_objects_after_upload
                                      (UploadHelper.config s)) ;;
            if check then UploadHelper.checkObjectAfterUpload client else ret tt) s))).
Proof.
  intros Hc. rewrite final_state_bind.
  destruct (c s) as [[] s1| | | |]; try exact Hc.
  cbn [final_state] in Hc. cbn [bind gets].
  destruct (UploadHelper.check_objects_after_upload (UploadHelper.config s1)); [|exact Hc].
  unfold UploadHelper.checkObjectAfterUpload, bind, UploadHelper.send.
  destruct (client (UploadHelper.trace s1) HeadObjectRequest);
    cbn [ret throw final_state UploadHelper.trace UploadHelper.set_trace];
    (apply parts_precede_completion_app; [exact Hc|repeat constructor]).
Qed.

End CopyCompletion.

Section BufferCompletion.

Variable client : Client.

Lemma buffer_completeMultipartUpload_quiet :
  preserves WriteBufferFromS3.quiet_step (WriteBufferFromS3.completeMultipartUpload client).
Proof.
  unfold WriteBufferFromS3.completeMultipartUpload.
  preserve_with quiet_step_refl quiet_step_trans.
  apply buffer_complete_retry_loop_quiet. reflexivity.
Qed.

Lemma buffer_checkObjectExists_quiet :
  preserves WriteBufferFromS3.quiet_step (WriteBufferFromS3.checkObjectExists client).
Proof.
  unfold WriteBufferFromS3.checkObjectExists.
  apply (preserves_bind _ quiet_step_trans); [apply buffer_send_quiet; reflexivity|].
  intros [x|e] s; apply quiet_step_refl.
Qed.

Lemma buffer_not_completed_precede {A} (c : M WriteBufferFromS3.State A)
    (k : A -> M WriteBufferFromS3.State unit) :
  preserves (WriteBufferFromS3.keeps_requests (fun r => is_complete r = false)) c ->
  (forall a s1, WriteBufferFromS3.requests_are (fun r => is_complete r = false) s1 ->
     parts_precede_completion (WriteBufferFromS3.trace (final_state (k a s1)))) ->
  forall s, WriteBufferFromS3.requests_are (fun r => is_complete r = false) s ->
    parts_precede_completion (WriteBufferFromS3.trace (final_state (bind c k s))).
Proof.
  assert (Hopen : forall s, WriteBufferFromS3.requests_are (fun r => is_complete r = false) s ->
                    parts_precede_completion (WriteBufferFromS3.trace s)).
  { intros s (T & _). apply parts_precede_completion_open. unfold answered.
    induction T as [|entry t He _ IH]; [reflexivity|]. cbn [filter]. rewrite He. exact IH. }
  intros Hc Hk s Hs. rewrite final_state_bind. pose proof (Hc s Hs) as H1.
  destruct (c s) as [a s1|e s1|s1|s1|s1]; cbn [final_state] in *;
    try (apply Hopen; exact H1).
  apply Hk. exact H1.
Qed.

Lemma buffer_streaming_write_precede (chunks : list Z) (s : WriteBufferFromS3.State) :
  WriteBufferFromS3.requests_are (fun r => is_complete r = false) s ->
  parts_precede_completion
    (WriteBufferFromS3.trace (final_state (WriteBufferFromS3.streaming_write client chunks s))).
Proof.
  assert (Hc : is_complete CreateMultipartUploadRequest = false) by reflexivity.
  assert (Hu : forall r, is_upload r = true -> is_complete r = false)
    by (intros r; destruct r; intros H; try discriminate; reflexivity).
  assert (Hp : forall r, is_put r = true -> is_complete r = false)
    by (intros r; destruct r; intros H; try discriminate; reflexivity).
  revert s. unfold WriteBufferFromS3.streaming_write.
  apply buffer_not_completed_precede;
    [apply buffer_write_all_requests; assumption|intros _].
  unfold WriteBufferFromS3.finalizeImpl.
  apply buffer_not_completed_precede;
    [apply (preserves_gets _ (keeps_requests_refl _))|intros pre].
  apply buffer_not_completed_precede.
  { destruct (negb pre); [apply buffer_preFinalize_requests; assumption|].
    apply (preserves_ret _ (keeps_requests_refl _)). }
  intros _. apply buffer_not_completed_precede;
    [apply buffer_waitForAllBackGroundTasks_requests|intros _].
  intros s (T & _).
  assert (Hquiet : preserves WriteBufferFromS3.quiet_step
                     (upload_id <- gets WriteBufferFromS3.multipart_upload_id ;;
                      (if negb (WriteBufferFromS3.empty upload_id)
                       then WriteBufferFromS3.completeMultipartUpload client else ret tt) ;;
                      check <- gets (fun s => WriteBufferFromS3.check_objects_after_upload
                                                (WriteBufferFromS3.config s)) ;;
                      if check then WriteBufferFromS3.checkObjectExists client else ret tt)).
  { pose proof buffer_completeMultipartUpload_quiet.
    pose proof buffer_checkObjectExists_quiet.
    preserve_with quiet_step_refl quiet_step_trans; assumption. }
  destruct (Hquiet s) as (_ & _ & _ & _ & sent & -> & Hsent).
  apply parts_precede_completion_app; [|exact Hsent].
  apply parts_precede_completion_open. unfold answered.
  induction T as [|entry t He _ IH]; [reflexivity|]. cbn [filter]. rewrite He. exact IH.
Qed.

End BufferCompletion.

(** X11. No part follows the completion: in the record of the requests of
    [copyDataToS3File], of [copyS3File] and of a streaming write, however
    they end and whatever the server and the thread pool do, no
    [UploadPart] or [UploadPartCopy] request comes after a
    [CompleteMultipartUpload] request. *)
Theorem no_part_after_completion (client : Client) :
  (forall offset size st check retries schedule script,
     parts_precede_completion
       (UploadHelper.trace
          (final_state
             (copyDataToS3File client offset size st check retries schedule script)))) /\
  (forall offset size st check retries schedule script,
     parts_precede_completion
       (UploadHelper.trace
          (final_state (copyS3File client offset size st check retries schedule script)))) /\
  (forall cfg script chunks,
     parts_precede_completion
       (WriteBufferFromS3.trace
          (final_state
             (WriteBufferFromS3.streaming_write client chunks
                (WriteBufferFromS3.construct cfg script))))).
Proof.
  assert (Hfresh : forall cfg script,
             UploadHelper.not_completed (UploadHelper.construct cfg script)).
  { intros cfg script. split; [discriminate|]. split; [reflexivity|constructor]. }
  split; [|split].
  - intros offset size st check retries schedule script.
    rewrite copyDataToS3File_unfold. cbv zeta.
    apply copy_check_precede.
    destruct (_ <=? _).
    + unfold UploadHelper.processPutRequest. cbn [bind gets].
      apply copy_put_retry_loop_precede; [reflexivity|reflexivity|apply Hfresh].
    + unfold UploadHelper.CopyDataToFileHelper_performMultipartUpload. cbn [bind gets].
      apply copy_performMultipartUpload_precede. apply Hfresh.
  - intros offset size st check retries schedule script.
    rewrite copyS3File_unfold. cbv zeta.
    apply copy_check_precede.
    destruct (_ <=? _).
    + unfold UploadHelper.processPutRequest. cbn [bind gets].
      apply copy_put_retry_loop_precede; [reflexivity|reflexivity|apply Hfresh].
    + unfold UploadHelper.CopyDataToFileHelper_performMultipartUpload. cbn [bind gets].
      apply copy_performMultipartUpload_precede. apply Hfresh.
  - intros cfg script chunks. apply buffer_streaming_write_precede.
    split; [constructor|]. split; [constructor|discriminate].
Qed.

(** ** The sizes of the parts of a streaming write *)

Lemma sized_in_range (s : WriteBufferFromS3.State) :
  WriteBufferFromS3.growth_in_range (WriteBufferFromS3.settings (WriteBufferFromS3.config s)) ->
  WriteBufferFromS3.sized s ->
  min_upload_part_size (WriteBufferFromS3.settings (WriteBufferFromS3.config s))
  <= WriteBufferFromS3.upload_part_size s
  <= max_upload_part_size (WriteBufferFromS3.settings (WriteBufferFromS3.config s)).
Proof.
  set (p := WriteBufferFromS3.settings (WriteBufferFromS3.config s)).
  intros ((Hmin & Hle) & Hf & Hthr & _ & _) ((Hn0 & _) & ->).
  fold p. unfold WriteBufferFromS3.grown_part_size, std_min.
  assert (Hq : 0 <= WriteBufferFromS3.part_number s
                    / upload_part_size_multiply_parts_count_threshold p)
    by (apply Z.div_pos; lia).
  assert (Hpow : 1 <= upload_part_size_multiply_factor p
                      ^ (WriteBufferFromS3.part_number s
                         / upload_part_size_multiply_parts_count_threshold p)).
  { apply (Z.le_trans _ (1 ^ (WriteBufferFromS3.part_number s
                              / upload_part_size_multiply_parts_count_threshold p))).
    - rewrite Z.pow_1_l by lia. lia.
    - apply Z.pow_le_mono_l. lia. }
  destruct (Z.ltb_spec (max_upload_part_size p)
              (min_upload_part_size p
               * upload_part_size_multiply_factor p
                 ^ (WriteBufferFromS3.part_number s
                    / upload_part_size_multiply_parts_count_threshold p))); nia.
Qed.

Lemma front_end_sizes (s s' : WriteBufferFromS3.State) :
  WriteBufferFromS3.front_end s' = WriteBufferFromS3.front_end s ->
  WriteBufferFromS3.config s' = WriteBufferFromS3.config s /\
  WriteBufferFromS3.last_part_size s' = WriteBufferFromS3.last_part_size s /\
  WriteBufferFromS3.temporary_buffer s' = WriteBufferFromS3.temporary_buffer s /\
  WriteBufferFromS3.part_number s' = WriteBufferFromS3.part_number s /\
  WriteBufferFromS3.is_prefinalized s' = WriteBufferFromS3.is_prefinalized s.
Proof. unfold WriteBufferFromS3.front_end. intros H. injection H. auto. Qed.

Lemma full_part_other (size : Z) (r : Request) : is_upload r = false -> full_part size r.
Proof. intros H H'. congruence. Qed.

Lemma full_or_last_other (size last : Z) (r : Request) :
  is_upload r = false -> full_or_last size last r.
Proof. intros H H'. congruence. Qed.

Lemma requests_are_impl (P Q : Request -> Prop) (s : WriteBufferFromS3.State) :
  (forall r, P r -> Q r) ->
  WriteBufferFromS3.requests_are P s -> WriteBufferFromS3.requests_are Q s.
Proof.
  intros H (T & Qu & U). split; [|split].
  - revert T. apply Forall_impl. intros e. apply H.
  - revert Qu. apply Forall_impl. intros t Ht Hst. apply H, Ht, Hst.
  - intros t Ht Hst. apply H, (U t Ht Hst).
Qed.

Lemma writePart_numbers_part (client : Client) (s s' : WriteBufferFromS3.State) :
  WriteBufferFromS3.writePart client s = Ok tt s' ->
  0 < WriteBufferFromS3.temporary_buffer s ->
  WriteBufferFromS3.empty (WriteBufferFromS3.multipart_upload_id s) = false ->
  WriteBufferFromS3.part_number s' = wrap (WriteBufferFromS3.part_number s + 1).
Proof.
  intros Hw Hsize Hopen.
  destruct (after_warning_background s) as (Hbg & _ & _).
  apply background_view_front_end in Hbg. destruct Hbg as (Hfe & _).
  pose proof (front_end_config _ _ Hfe) as (_ & N0 & I0).
  destruct (WriteBufferFromS3.schedule (WriteBufferFromS3.config s)) eqn:Hsched.
  - rewrite (writePart_scheduled client s Hsize Hsched) in Hw.
    destruct (WriteBufferFromS3.fillUploadRequest _) as [r s1| | | |] eqn:Hfill;
      try discriminate.
    apply fillUploadRequest_within_ceiling in Hfill; [|cbn; rewrite I0; exact Hopen].
    destruct Hfill as (Nfill & _).
    pose proof (preserves_ok _ _ _ _ _ (buffer_pool_turn_front_end client) Hw) as Hp.
    apply front_end_sizes in Hp. destruct Hp as (_ & _ & _ & Np & _).
    rewrite Np. cbn. cbn in Nfill. rewrite Nfill, N0. reflexivity.
  - rewrite (writePart_inline client s Hsize Hsched) in Hw.
    destruct (WriteBufferFromS3.fillUploadRequest _) as [r s1| | | |] eqn:Hfill;
      try discriminate.
    destruct (WriteBufferFromS3.processUploadRequest _ _ _) as [task s2| | | |] eqn:Hproc;
      try discriminate.
    apply fillUploadRequest_within_ceiling in Hfill; [|rewrite I0; exact Hopen].
    destruct Hfill as (Nfill & _).
    pose proof (preserves_ok _ _ _ _ _ (buffer_processUploadRequest_front_end client _) Hproc)
      as Hp.
    apply front_end_sizes in Hp. destruct Hp as (_ & _ & _ & Np & _).
    injection Hw as <-. cbn. rewrite Np, Nfill, N0. reflexivity.
Qed.

Section BufferPartSizes.

Variable client : Client.

Lemma buffer_completeMultipartUpload_requests (P : Request -> Prop) :
  (forall r, is_upload r = false -> P r) ->
  preserves (WriteBufferFromS3.keeps_requests P)
    (WriteBufferFromS3.completeMultipartUpload client).
Proof.
  intros HP. unfold WriteBufferFromS3.completeMultipartUpload. requests_tac.
  apply buffer_complete_retry_loop_requests. apply HP. reflexivity.
Qed.

Lemma buffer_checkObjectExists_requests (P : Request -> Prop) :
  (forall r, is_upload r = false -> P r) ->
  preserves (WriteBufferFromS3.keeps_requests P) (WriteBufferFromS3.checkObjectExists client).
Proof.
  intros HP. unfold WriteBufferFromS3.checkObjectExists.
  apply (preserves_bind _ (keeps_requests_trans P));
    [apply buffer_send_requests; apply HP; reflexivity|].
  intros [x|e] s; apply keeps_requests_refl.
Qed.

(** [nextImpl] cuts a part only when the temporary buffer holds more than
    [upload_part_size] bytes. *)
Lemma buffer_nextImpl_cuts (s s' : WriteBufferFromS3.State) :
  let size := min_upload_part_size (WriteBufferFromS3.settings (WriteBufferFromS3.config s)) in
  WriteBufferFromS3.nextImpl client s = Ok tt s' ->
  WriteBufferFromS3.growth_in_range (WriteBufferFromS3.settings (WriteBufferFromS3.config s)) ->
  WriteBufferFromS3.requests_are (full_part size) s ->
  WriteBufferFromS3.sized s ->
  WriteBufferFromS3.last_part_size s = WriteBufferFromS3.temporary_buffer s ->
  0 <= WriteBufferFromS3.temporary_buffer s ->
  0 <= WriteBufferFromS3.working_offset s ->
  WriteBufferFromS3.temporary_buffer s + WriteBufferFromS3.working_offset s < SIZE_MODULUS ->
  WriteBufferFromS3.config s' = WriteBufferFromS3.config s /\
  WriteBufferFromS3.requests_are (full_part size) s' /\
  WriteBufferFromS3.sized s' /\
  WriteBufferFromS3.last_part_size s' = WriteBufferFromS3.temporary_buffer s' /\
  0 <= WriteBufferFromS3.temporary_buffer s'
  <= WriteBufferFromS3.temporary_buffer s + WriteBufferFromS3.working_offset s /\
  WriteBufferFromS3.is_prefinalized s' = WriteBufferFromS3.is_prefinalized s.
Proof.
  intros size H Hp Hreq Hsized Hlast Htb Hoff Hsmall.
  destruct (Z.eq_dec (WriteBufferFromS3.working_offset s) 0) as [Hz|Hnz].
  { unfold WriteBufferFromS3.nextImpl in H. cbn [bind gets] in H. rewrite Hz in *.
    cbn in H. injection H as <-. repeat (split; [assumption || reflexivity|]).
    split; [lia|reflexivity]. }
  rewrite (nextImpl_steps client s Hnz) in H. cbv zeta in H.
  destruct (Z.eqb_spec (WriteBufferFromS3.temporary_buffer s) (-1)) as [Hbad|_]; [lia|].
  cbn [WriteBufferFromS3.last_part_size WriteBufferFromS3.set_last_part_size
       WriteBufferFromS3.set_temporary_buffer] in H.
  rewrite Hlast, (wrap_small (WriteBufferFromS3.temporary_buffer s
                              + WriteBufferFromS3.working_offset s))
    in H by (unfold is_size_t; lia).
  set (total := WriteBufferFromS3.temporary_buffer s + WriteBufferFromS3.working_offset s) in *.
  set (s2 := WriteBufferFromS3.set_last_part_size total
               (WriteBufferFromS3.set_temporary_buffer total s)) in H.
  assert (F2 : WriteBufferFromS3.config s2 = WriteBufferFromS3.config s /\
               WriteBufferFromS3.requests_are (full_part size) s2 /\
               WriteBufferFromS3.sized s2 /\
               WriteBufferFromS3.last_part_size s2 = total /\
               WriteBufferFromS3.temporary_buffer s2 = total /\
               WriteBufferFromS3.is_prefinalized s2 = WriteBufferFromS3.is_prefinalized s).
  { repeat split; try reflexivity; try apply Hreq; apply Hsized. }
  clearbody s2. destruct F2 as (C2 & R2 & S2 & L2 & B2 & I2).
  apply bind_ok in H. destruct H as (u3 & s3 & H3 & H).
  apply bind_ok in H. destruct H as (u4 & s4 & H4 & H).
  assert (F3 : WriteBufferFromS3.config s3 = WriteBufferFromS3.config s /\
               WriteBufferFromS3.requests_are (full_part size) s3 /\
               WriteBufferFromS3.sized s3 /\
               WriteBufferFromS3.last_part_size s3 = total /\
               WriteBufferFromS3.temporary_buffer s3 = total /\
               WriteBufferFromS3.is_prefinalized s3 = WriteBufferFromS3.is_prefinalized s).
  { match type of H3 with (if ?b then _ else _) _ = _ => destruct b end.
    - pose proof (preserves_ok _ _ _ _ _
                    (buffer_createMultipartUpload_requests client (full_part size)
                       (full_part_other size CreateMultipartUploadRequest eq_refl)) H3 R2) as R3.
      destruct u3. apply createMultipartUpload_ok in H3. destruct H3 as (x & _ & ->).
      repeat split; try assumption; try apply R3; apply S2.
    - injection H3 as _ <-. repeat split; try assumption; try apply R2; apply S2. }
  clear H3 C2 R2 S2 L2 B2 I2. destruct F3 as (C3 & R3 & S3 & L3 & B3 & I3).
  assert (F4 : WriteBufferFromS3.config s4 = WriteBufferFromS3.config s /\
               WriteBufferFromS3.requests_are (full_part size) s4 /\
               WriteBufferFromS3.sized s4 /\
               WriteBufferFromS3.last_part_size s4 = WriteBufferFromS3.temporary_buffer s4 /\
               0 <= WriteBufferFromS3.temporary_buffer s4 <= total /\
               WriteBufferFromS3.is_prefinalized s4 = WriteBufferFromS3.is_prefinalized s).
  { match type of H4 with (if ?b then _ else _) _ = _ => destruct b eqn:Hb end.
    - apply andb_prop in Hb. destruct Hb as [Hopen Hcut].
      apply negb_true_iff in Hopen. apply Z.ltb_lt in Hcut.
      apply bind_ok in H4. destruct H4 as ([] & sw & Hw & Ha). injection Ha as _ <-.
      assert (Hp3 : WriteBufferFromS3.growth_in_range
                      (WriteBufferFromS3.settings (WriteBufferFromS3.config s3)))
        by (rewrite C3; exact Hp).
      pose proof (sized_in_range s3 Hp3 S3) as [Hmin _]. rewrite C3 in Hmin. fold size in Hmin.
      pose proof (buffer_writePart_requests client (full_part size) s3) as Hreq3.
      rewrite Hw in Hreq3. cbn [final_state] in Hreq3.
      assert (Rw : WriteBufferFromS3.requests_are (full_part size) sw).
      { apply Hreq3; [|exact R3]. intros _ _. cbn [part_length]. lia. }
      pose proof (buffer_writePart_flags client s3 sw Hw) as (_ & Iw & _).
      destruct (writePart_sized client s3 sw Hp3 Hopen Hw) as [Cw Sw].
      cbn [WriteBufferFromS3.config WriteBufferFromS3.set_last_part_size
           WriteBufferFromS3.set_temporary_buffer WriteBufferFromS3.last_part_size
           WriteBufferFromS3.temporary_buffer WriteBufferFromS3.is_prefinalized].
      split; [congruence|]. split; [exact Rw|]. split; [exact (Sw S3)|].
      split; [reflexivity|]. split; [lia|congruence].
    - injection H4 as _ <-. repeat (split; [assumption || congruence|]).
      split; [lia|exact I3]. }
  clear H4 C3 R3 S3 L3 B3 I3. destruct F4 as (C4 & R4 & S4 & L4 & B4 & I4).
  pose proof (preserves_ok _ _ _ _ _ (buffer_waitForReadyBackGroundTasks_front_end client) H)
    as Hfe.
  pose proof (preserves_ok _ _ _ _ _
                (buffer_waitForReadyBackGroundTasks_requests client (full_part size)) H R4)
    as R5.
  pose proof (sized_front_end _ _ Hfe S4) as S5.
  apply front_end_sizes in Hfe. destruct Hfe as (C5 & L5 & B5 & _ & I5).
  split; [congruence|]. split; [exact R5|]. split; [exact S5|].
  split; [congruence|]. split; [rewrite B5; exact B4|congruence].
Qed.

Lemma buffer_write_cuts (written n : Z) (s s' : WriteBufferFromS3.State) :
  0 <= n -> written + n < SIZE_MODULUS ->
  WriteBufferFromS3.growth_in_range (WriteBufferFromS3.settings (WriteBufferFromS3.config s)) ->
  WriteBufferFromS3.write client n s = Ok tt s' ->
  WriteBufferFromS3.cut_in_full written s ->
  WriteBufferFromS3.cut_in_full (written + n) s' /\
  WriteBufferFromS3.config s' = WriteBufferFromS3.config s.
Proof.
  intros Hn Hsmall Hp H (Hreq & Hsized & Hlast & Htb & Hoff & Hpre).
  unfold WriteBufferFromS3.write in H. cbn [bind modify] in H.
  unfold WriteBufferFromS3.next in H. cbn [bind gets] in H.
  cbn [WriteBufferFromS3.working_offset WriteBufferFromS3.set_working_offset] in H.
  destruct (Z.eqb_spec n 0) as [->|Hnz].
  { injection H as <-. split; [|reflexivity].
    split; [exact Hreq|]. split; [exact Hsized|]. split; [exact Hlast|].
    split; [cbn; lia|]. split; [reflexivity|exact Hpre]. }
  apply bind_ok in H. destruct H as (u & s1 & H1 & H2). injection H2 as <-.
  unfold try_rethrow in H1.
  destruct (WriteBufferFromS3.nextImpl client _) as [u' s1'| | | |] eqn:Hnext; try discriminate.
  injection H1 as _ <-. destruct u'.
  apply buffer_nextImpl_cuts in Hnext;
    [|exact Hp|exact Hreq|exact Hsized|exact Hlast|cbn; lia|cbn; lia
     |cbn [WriteBufferFromS3.temporary_buffer WriteBufferFromS3.working_offset
           WriteBufferFromS3.set_working_offset]; lia].
  cbv zeta in Hnext.
  cbn [WriteBufferFromS3.config WriteBufferFromS3.set_working_offset
       WriteBufferFromS3.temporary_buffer WriteBufferFromS3.working_offset
       WriteBufferFromS3.is_prefinalized] in Hnext.
  destruct Hnext as (C & R & S & L & B & I).
  split; [|exact C].
  unfold WriteBufferFromS3.cut_in_full.
  cbn [WriteBufferFromS3.config WriteBufferFromS3.set_working_offset
       WriteBufferFromS3.temporary_buffer WriteBufferFromS3.working_offset
       WriteBufferFromS3.is_prefinalized WriteBufferFromS3.last_part_size].
  rewrite C. split; [exact R|]. split; [exact S|]. split; [exact L|].
  split; [lia|]. split; [reflexivity|congruence].
Qed.

Lemma buffer_write_all_cuts (chunks : list Z) :
  Forall (fun n => 0 <= n) chunks ->
  forall written s s',
    written + fold_right Z.add 0 chunks < SIZE_MODULUS ->
    WriteBufferFromS3.growth_in_range
      (WriteBufferFromS3.settings (WriteBufferFromS3.config s)) ->
    WriteBufferFromS3.write_all client chunks s = Ok tt s' ->
    WriteBufferFromS3.cut_in_full written s ->
    WriteBufferFromS3.cut_in_full (written + fold_right Z.add 0 chunks) s' /\
    WriteBufferFromS3.config s' = WriteBufferFromS3.config s.
Proof.
  induction 1 as [|n chunks Hn Hrest IH]; intros written s s' Hsmall Hp H Hs;
    cbn [WriteBufferFromS3.write_all fold_right] in *.
  - injection H as <-. rewrite Z.add_0_r. auto.
  - assert (Hsum : 0 <= fold_right Z.add 0 chunks).
    { clear -Hrest. induction Hrest; cbn [fold_right]; lia. }
    apply bind_ok in H. destruct H as ([] & s1 & H1 & H2).
    destruct (buffer_write_cuts written n s s1 Hn ltac:(lia) Hp H1 Hs) as [A1 C1].
    destruct (IH (written + n) s1 s' ltac:(lia) ltac:(rewrite C1; exact Hp) H2 A1) as [A2 C2].
    rewrite Z.add_assoc. split; [exact A2|congruence].
Qed.

(** [preFinalize] cuts the last part, of whatever is left. *)
Lemma buffer_preFinalize_cuts (written : Z) (s s' : WriteBufferFromS3.State) :
  let size := min_upload_part_size (WriteBufferFromS3.settings (WriteBufferFromS3.config s)) in
  WriteBufferFromS3.growth_in_range (WriteBufferFromS3.settings (WriteBufferFromS3.config s)) ->
  WriteBufferFromS3.preFinalize client s = Ok tt s' ->
  WriteBufferFromS3.cut_in_full written s ->
  WriteBufferFromS3.requests_are
    (full_or_last size (static_cast_int (WriteBufferFromS3.part_number s'))) s'.
Proof.
  intros size Hp H (Hreq & Hsized & Hlast & Htb & Hoff & Hpre).
  assert (Hweak : forall last r, full_part size r -> full_or_last size last r).
  { intros last r Hr Hup. specialize (Hr Hup).
    pose proof Hp as ((Hmin & _) & _). fold size in Hmin. split; [lia|intros _; exact Hr]. }
  unfold WriteBufferFromS3.preFinalize in H.
  apply bind_ok in H. destruct H as ([] & s1 & H1 & H).
  unfold WriteBufferFromS3.next in H1. cbn [bind gets] in H1. rewrite Hoff in H1.
  cbn in H1. injection H1 as <-.
  cbn [bind gets] in H.
  apply bind_ok in H. destruct H as ([] & s2 & H2 & H3). injection H3 as <-.
  cbn [WriteBufferFromS3.part_number WriteBufferFromS3.set_is_prefinalized].
  apply (keeps_requests_same _ s2); try reflexivity.
  destruct (WriteBufferFromS3.empty (WriteBufferFromS3.multipart_upload_id s)) eqn:He.
  - apply (requests_are_impl (full_part size)); [apply Hweak|].
    apply (preserves_ok _ _ _ _ _
             (buffer_makeSinglepartUpload_requests client (full_part size)
                (fun r Hr => full_part_other size r
                               ltac:(destruct r; try discriminate; reflexivity))) H2 Hreq).
  - pose proof (buffer_writePart_requests client
                  (full_or_last size (static_cast_int (WriteBufferFromS3.part_number s2))) s)
      as Hstep.
    rewrite H2 in Hstep. cbn [final_state] in Hstep.
    apply Hstep; [|apply (requests_are_impl (full_part size)); [apply Hweak|exact Hreq]].
    intros Hpos _. cbn [part_length part_number_of]. split; [exact Hpos|].
    intros Hne. exfalso. apply Hne. f_equal.
    symmetry. exact (writePart_numbers_part client s s2 H2 Hpos He).
Qed.

(** The parts of a streaming write that has returned. *)
Lemma buffer_streaming_write_cuts (cfg : WriteBufferFromS3.Config)
    (script : list (list WriteBufferFromS3.PoolEvent)) (chunks : list Z)
    (s' : WriteBufferFromS3.State) :
  WriteBufferFromS3.growth_in_range (WriteBufferFromS3.settings cfg) ->
  Forall (fun n => 0 <= n) chunks ->
  fold_right Z.add 0 chunks < SIZE_MODULUS ->
  WriteBufferFromS3.streaming_write client chunks (WriteBufferFromS3.construct cfg script)
  = Ok tt s' ->
  WriteBufferFromS3.requests_are
    (full_or_last (min_upload_part_size (WriteBufferFromS3.settings cfg))
       (static_cast_int (WriteBufferFromS3.part_number s'))) s'.
Proof.
  intros Hp Hchunks Hsmall H. unfold WriteBufferFromS3.streaming_write in H.
  apply bind_ok in H. destruct H as ([] & s1 & H1 & H2).
  assert (A0 : WriteBufferFromS3.cut_in_full 0 (WriteBufferFromS3.construct cfg script)).
  { split; [split; [constructor|split; [constructor|discriminate]]|].
    split; [|split; [reflexivity|split; [cbn; lia|split; reflexivity]]].
    pose proof Hp as ((Hmin & Hle) & Hf & Hthr & _ & (Hmpn & _)).
    split; [cbn; lia|]. cbn. unfold WriteBufferFromS3.grown_part_size.
    rewrite Z.div_0_l by lia. rewrite Z.pow_0_r, Z.mul_1_r. unfold std_min.
    destruct (Z.ltb_spec (max_upload_part_size (WriteBufferFromS3.settings cfg))
                (min_upload_part_size (WriteBufferFromS3.settings cfg))); lia. }
  destruct (buffer_write_all_cuts chunks Hchunks 0 (WriteBufferFromS3.construct cfg script) s1
              Hsmall Hp H1 A0) as [A1 C1].
  cbn [WriteBufferFromS3.config WriteBufferFromS3.construct] in C1.
  pose proof A1 as (_ & _ & _ & _ & _ & Hpre).
  unfold WriteBufferFromS3.finalizeImpl in H2. cbn [bind gets] in H2.
  rewrite Hpre in H2. cbn [negb] in H2.
  apply bind_ok in H2. destruct H2 as ([] & s2 & H2 & H).
  apply bind_ok in H. destruct H as ([] & s3 & H3 & H).
  cbn [bind gets] in H.
  apply bind_ok in H. destruct H as (u4 & s4 & H4 & H).
  cbn [bind gets] in H.
  pose proof (buffer_preFinalize_cuts _ s1 s2 ltac:(rewrite C1; exact Hp) H2 A1) as R2.
  cbv zeta in R2. rewrite C1 in R2.
  set (size := min_upload_part_size (WriteBufferFromS3.settings cfg)) in *.
  assert (Hother : forall last r, is_upload r = false -> full_or_last size last r)
    by (intros last r; apply full_or_last_other).
  pose proof (preserves_ok _ _ _ _ _ (buffer_waitForAllBackGroundTasks_front_end client) H3)
    as F3.
  apply front_end_sizes in F3. destruct F3 as (_ & _ & _ & N3 & _).
  pose proof (preserves_ok _ _ _ _ _
                (buffer_waitForAllBackGroundTasks_requests client _) H3 R2) as R3.
  rewrite <- N3 in R3.
  assert (F4 : WriteBufferFromS3.part_number s4 = WriteBufferFromS3.part_number s3 /\
               WriteBufferFromS3.requests_are
                 (full_or_last size (static_cast_int (WriteBufferFromS3.part_number s3))) s4).
  { destruct (negb (WriteBufferFromS3.empty (WriteBufferFromS3.multipart_upload_id s3))).
    - pose proof (preserves_ok _ _ _ _ _
                    (buffer_completeMultipartUpload_front_end client) H4) as F4.
      apply front_end_sizes in F4. split; [exact (proj1 (proj2 (proj2 (proj2 F4))))|].
      exact (preserves_ok _ _ _ _ _
               (buffer_completeMultipartUpload_requests _ (Hother _)) H4 R3).
    - injection H4 as _ <-. split; [reflexivity|exact R3]. }
  destruct F4 as [N4 R4]. rewrite <- N4 in R4.
  destruct (WriteBufferFromS3.check_objects_after_upload (WriteBufferFromS3.config s4)).
  - pose proof (preserves_ok _ _ _ _ _ (buffer_checkObjectExists_front_end client) H) as F5.
    apply front_end_sizes in F5. destruct F5 as (_ & _ & _ & N5 & _). rewrite N5.
    exact (preserves_ok _ _ _ _ _ (buffer_checkObjectExists_requests _ (Hother _)) H R4).
  - injection H as <-. exact R4.
Qed.

End BufferPartSizes.

(** X12. In a streaming write that has returned, every part is a full
    part but the last: every [UploadPart] request carries at least one
    byte, and every one but the part with the last number, which finalize
    cuts from what is left, carries more than [min_upload_part_size]
    bytes. *)
Theorem parts_exceed_min_upload_part_size (client : Client) (cfg : WriteBufferFromS3.Config)
    (script : list (list WriteBufferFromS3.PoolEvent)) (chunks : list Z)
    (s' : WriteBufferFromS3.State) :
  WriteBufferFromS3.growth_in_range (WriteBufferFromS3.settings cfg) ->
  Forall (fun n => 0 <= n) chunks ->
  fold_right Z.add 0 chunks < SIZE_MODULUS ->
  WriteBufferFromS3.streaming_write client chunks (WriteBufferFromS3.construct cfg script)
  = Ok tt s' ->
  Forall (fun entry =>
            is_upload (fst entry) = true ->
            0 < part_length (fst entry) /\
            (part_number_of (fst entry) <> static_cast_int (WriteBufferFromS3.part_number s') ->
             min_upload_part_size (WriteBufferFromS3.settings cfg) < part_length (fst entry)))
    (WriteBufferFromS3.trace s').
Proof.
  intros Hp Hchunks Hsmall H.
  exact (proj1 (buffer_streaming_write_cuts client cfg script chunks s' Hp Hchunks Hsmall H)).
Qed.

Lemma parts_exceed_min_upload_part_size_witness :
  let s' := final_state
              (WriteBufferFromS3.streaming_write Samples.accepting_client [15; 15; 15; 5]
                 (WriteBufferFromS3.construct Samples.scheduled_buffer
                    Samples.last_task_first)) in
  map (fun entry => (part_number_of (fst entry), part_length (fst entry)))
    (filter (fun entry => is_upload (fst entry)) (WriteBufferFromS3.trace s'))
  = [(3, 5); (2, 15); (1, 30)] /\
  Forall (fun entry =>
            is_upload (fst entry) = true ->
            0 < part_length (fst entry) /\
            (part_number_of (fst entry) <> static_cast_int (WriteBufferFromS3.part_number s') ->
             10 < part_length (fst entry)))
    (WriteBufferFromS3.trace s').
Proof.
  intros s'. split; [vm_compute; reflexivity|].
  apply (parts_exceed_min_upload_part_size Samples.accepting_client Samples.scheduled_buffer
           Samples.last_task_first [15; 15; 15; 5] s').
  - unfold WriteBufferFromS3.growth_in_range, SIZE_MODULUS. cbn. lia.
  - repeat constructor; lia.
  - unfold SIZE_MODULUS. cbn. lia.
  - vm_compute. reflexivity.
Defined.

(** ** Settings that admit no multipart upload *)

Lemma copy_calculatePartSize_refuses (total_size : Z) (s : UploadHelper.State) :
  let st := UploadHelper.settings (UploadHelper.config s) in
  (total_size = 0 ->
   UploadHelper.calculatePartSize total_size s
   = Throw (DBException LOGICAL_ERROR
              "Chosen multipart upload for an empty file. This must not happen") s) /\
  (total_size <> 0 ->
   max_part_number st = 0 \/ min_upload_part_size st = 0
   \/ max_upload_part_size st < min_upload_part_size st ->
   exists message,
     UploadHelper.calculatePartSize total_size s
     = Throw (DBException INVALID_CONFIG_PARAMETER message) s).
Proof.
  intros st. unfold UploadHelper.calculatePartSize. fold st. split.
  - intros ->. reflexivity.
  - intros Hne Hbad. destruct (Z.eqb_spec total_size 0) as [|_]; [contradiction|].
    destruct (Z.eqb_spec (max_part_number st) 0) as [|Hn]; [eexists; reflexivity|].
    destruct (Z.eqb_spec (min_upload_part_size st) 0) as [|Hm]; [eexists; reflexivity|].
    destruct (Z.ltb_spec (max_upload_part_size st) (min_upload_part_size st)) as [|Hle];
      [eexists; reflexivity|].
    exfalso. lia.
Qed.

Lemma copy_performMultipartUpload_refused (client : Client) (start_offset size : Z)
    (s : UploadHelper.State) (e : Exception) :
  UploadHelper.calculatePartSize size s = Throw e s ->
  UploadHelper.performMultipartUpload client start_offset size s = Throw e s.
Proof. intros H. unfold UploadHelper.performMultipartUpload, bind. rewrite H. reflexivity. Qed.

(** X13. The settings are checked before the multipart upload is opened:
    with a source larger than the limit of the single operation and with
    [max_part_number] or [min_upload_part_size] zero, or
    [max_upload_part_size] below [min_upload_part_size],
    [copyDataToS3File] and [copyS3File] raise [INVALID_CONFIG_PARAMETER]
    and have sent no request.  An empty source is uploaded by the single
    operation; when the server refuses that as too large, the multipart
    upload refuses the empty source with [LOGICAL_ERROR], after that one
    request. *)
Theorem multipart_upload_is_refused_first (client : Client) (offset size : Z)
    (st : PartUploadSettings) (check : bool) (retries : Z) (schedule : bool)
    (script : list (list UploadHelper.PoolEvent)) :
  let bad := max_part_number st = 0 \/ min_upload_part_size st = 0
             \/ max_upload_part_size st < min_upload_part_size st in
  let put := PutObjectRequest size (SourceRange offset size) in
  let data := copyDataToS3File client offset size st check retries schedule script in
  let file := copyS3File client offset size st check retries schedule script in
  let empty_file :=
    DBException LOGICAL_ERROR
      "Chosen multipart upload for an empty file. This must not happen" in
  (max_single_part_upload_size st < size -> size <> 0 -> bad ->
   exists message,
     thrown data = Some (DBException INVALID_CONFIG_PARAMETER message) /\
     UploadHelper.trace (final_state data) = []) /\
  (max_single_operation_copy_size st < size -> size <> 0 -> bad ->
   exists message,
     thrown file = Some (DBException INVALID_CONFIG_PARAMETER message) /\
     UploadHelper.trace (final_state file) = []) /\
  (size = 0 -> 0 <= max_single_part_upload_size st ->
   forall e, client [] put = Failure e -> is_too_large e = true ->
     thrown data = Some empty_file /\
     UploadHelper.trace (final_state data) = [(put, Failure e)]) /\
  (size = 0 -> 0 <= max_single_operation_copy_size st ->
   forall e, client [] CopyObjectRequest = Failure e -> is_too_large e = true ->
     thrown file = Some empty_file /\
     UploadHelper.trace (final_state file) = [(CopyObjectRequest, Failure e)]).
Proof.
  intros bad put data file empty_file. subst data file put.
  rewrite copyDataToS3File_unfold, copyS3File_unfold. cbv zeta.
  cbn [UploadHelper.size UploadHelper.config UploadHelper.construct].
  assert (Hmulti : forall s, UploadHelper.size (UploadHelper.config s) = size ->
             UploadHelper.settings (UploadHelper.config s) = st ->
             size <> 0 -> bad ->
             exists message,
               UploadHelper.CopyDataToFileHelper_performMultipartUpload client s
               = Throw (DBException INVALID_CONFIG_PARAMETER message) s).
  { intros s Hsize Hst Hne Hbad.
    destruct (copy_calculatePartSize_refuses size s) as [_ Hrefuse]. cbv zeta in Hrefuse.
    rewrite Hst in Hrefuse. destruct (Hrefuse Hne Hbad) as [message Hm].
    exists message. unfold UploadHelper.CopyDataToFileHelper_performMultipartUpload.
    cbn [bind gets]. rewrite Hsize.
    apply copy_performMultipartUpload_refused. exact Hm. }
  assert (Hempty : forall s request e,
             UploadHelper.size (UploadHelper.config s) = 0 ->
             UploadHelper.trace s = [] ->
             client [] request = Failure e -> is_too_large e = true ->
             UploadHelper.processPutRequest client request s
             = Throw empty_file
                 (UploadHelper.set_log (UploadHelper.log s ++ [WillRetryWithMultipart])
                    (UploadHelper.set_trace [(request, Failure e)] s))).
  { intros s request e Hsize Htrace He Hlarge.
    unfold UploadHelper.processPutRequest. cbn [bind gets].
    destruct (retry_fuel_positive
                (UploadHelper.max_unexpected_write_error_retries (UploadHelper.config s)))
      as [fuel ->].
    rewrite copy_put_retry_loop_step. cbv zeta. rewrite Htrace, He, Hlarge. cbn [app].
    unfold UploadHelper.CopyDataToFileHelper_performMultipartUpload. cbn [bind gets].
    cbn [UploadHelper.config UploadHelper.set_log UploadHelper.set_trace].
    rewrite Hsize. apply copy_performMultipartUpload_refused.
    exact (proj1 (copy_calculatePartSize_refuses 0 _) eq_refl). }
  split; [|split; [|split]].
  - intros Hgt Hne Hbad.
    destruct (Z.leb_spec size (max_single_part_upload_size st)) as [|_]; [lia|].
    match goal with
    | |- context [UploadHelper.construct ?cfg script] =>
        destruct (Hmulti (UploadHelper.construct cfg script) eq_refl eq_refl Hne Hbad)
          as [message Hm]
    end.
    exists message. unfold bind. rewrite Hm. split; reflexivity.
  - intros Hgt Hne Hbad.
    destruct (Z.leb_spec size (max_single_operation_copy_size st)) as [|_]; [lia|].
    match goal with
    | |- context [UploadHelper.construct ?cfg script] =>
        destruct (Hmulti (UploadHelper.construct cfg script) eq_refl eq_refl Hne Hbad)
          as [message Hm]
    end.
    exists message. unfold bind. rewrite Hm. split; reflexivity.
  - intros -> Hlimit e He Hlarge.
    destruct (Z.leb_spec 0 (max_single_part_upload_size st)) as [_|]; [|lia].
    match goal with
    | |- context [bind (UploadHelper.processPutRequest client ?request) _ ?s] =>
        unfold bind; rewrite (Hempty s request e eq_refl eq_refl He Hlarge)
    end.
    split; reflexivity.
  - intros -> Hlimit e He Hlarge.
    destruct (Z.leb_spec 0 (max_single_operation_copy_size st)) as [_|]; [|lia].
    match goal with
    | |- context [bind (UploadHelper.processPutRequest client ?request) _ ?s] =>
        unfold bind; rewrite (Hempty s request e eq_refl eq_refl He Hlarge)
    end.
    split; reflexivity.
Qed.

Lemma multipart_upload_is_refused_first_witness :
  let no_parts := mkPartUploadSettings 10 50 2 2 0 20 20 "" in
  (exists message,
     thrown (copyDataToS3File Samples.accepting_client 0 100 no_parts false 1 false [])
     = Some (DBException INVALID_CONFIG_PARAMETER message) /\
     UploadHelper.trace
       (final_state (copyDataToS3File Samples.accepting_client 0 100 no_parts false 1 false []))
     = []) /\
  thrown (copyS3File Samples.too_large_client 0 0 Samples.small_policy false 1 false [])
  = Some (DBException LOGICAL_ERROR
            "Chosen multipart upload for an empty file. This must not happen").
Proof.
  intros no_parts. split.
  - apply (multipart_upload_is_refused_first Samples.accepting_client 0 100 no_parts false 1
             false []); [cbn; lia|lia|left; reflexivity].
  - destruct (multipart_upload_is_refused_first Samples.too_large_client 0 0
                Samples.small_policy false 1 false []) as (_ & _ & _ & Hfile).
    apply (Hfile eq_refl ltac:(cbn; lia) Samples.entity_too_large eq_refl eq_refl).
Defined.

(** ** The attempts of the completion *)

(** X14. The completion is attempted at most
    max(max_unexpected_write_error_retries, 1) times, with the same request,
    and is repeated only after the phantom [NoSuchKey].  The copy helper
    returns only when the last attempt was accepted and throws the
    exception of the last answer otherwise, also when that answer is the
    last [NoSuchKey] of the budget.  The streaming buffer returns when an
    attempt was accepted, throws on an answer other than [NoSuchKey], and
    also returns, without an exception, when the budget ends in
    [NoSuchKey]. *)
Theorem completion_is_attempted_within_budget (client : Client) :
  (forall s : UploadHelper.State,
     is_size_t (UploadHelper.max_unexpected_write_error_retries (UploadHelper.config s)) ->
     UploadHelper.multipart_upload_aborted s = false ->
     UploadHelper.part_tags s <> [] ->
     let budget :=
       std_max (UploadHelper.max_unexpected_write_error_retries (UploadHelper.config s)) 1 in
     let request :=
       CompleteMultipartUploadRequest (UploadHelper.multipart_upload_id s)
         (UploadHelper.completed_parts (UploadHelper.part_tags s)) in
     let r := UploadHelper.completeMultipartUpload client s in
     exists phantoms last,
       UploadHelper.trace (final_state r)
       = UploadHelper.trace s ++ phantoms ++ [(request, last)] /\
       Forall (phantom_attempt request) phantoms /\
       Z.of_nat (List.length phantoms) < budget /\
       match last with
       | Success _ => returns_normally r = true
       | Failure e =>
           thrown r = Some (S3Exception (GetErrorType e) (GetMessage e)) /\
           (GetErrorType e = NO_SUCH_KEY -> Z.of_nat (List.length phantoms) = budget - 1)
       end) /\
  (forall s : WriteBufferFromS3.State,
     is_size_t (WriteBufferFromS3.max_unexpected_write_error_retries
                  (WriteBufferFromS3.config s)) ->
     WriteBufferFromS3.part_tags s <> [] ->
     let budget :=
       std_max (WriteBufferFromS3.max_unexpected_write_error_retries
                  (WriteBufferFromS3.config s)) 1 in
     let request :=
       CompleteMultipartUploadRequest (WriteBufferFromS3.multipart_upload_id s)
         (WriteBufferFromS3.completed_parts (WriteBufferFromS3.part_tags s)) in
     let r := WriteBufferFromS3.completeMultipartUpload client s in
     exists phantoms,
       Forall (phantom_attempt request) phantoms /\
       ((Z.of_nat (List.length phantoms) = budget /\
         WriteBufferFromS3.trace (final_state r) = WriteBufferFromS3.trace s ++ phantoms /\
         returns_normally r = true)
        \/
        (exists last,
           Z.of_nat (List.length phantoms) < budget /\
           WriteBufferFromS3.trace (final_state r)
           = WriteBufferFromS3.trace s ++ phantoms ++ [(request, last)] /\
           match last with
           | Success _ => returns_normally r = true
           | Failure e =>
               is_no_such_key e = false /\
               thrown r = Some (S3Exception (GetErrorType e) (GetMessage e))
           end))).
Proof.
  split.
  - intros s Hr Hab Htags budget request r. subst r.
    unfold UploadHelper.completeMultipartUpload, bind, gets. rewrite Hab.
    subst request. destruct (UploadHelper.part_tags s) as [|t tags] eqn:Ht; [congruence|].
    set (request := CompleteMultipartUploadRequest _ _).
    pose proof (std_max_1 (UploadHelper.max_unexpected_write_error_retries
                             (UploadHelper.config s))) as Hmax.
    pose proof (std_max_size_t _ Hr) as Hsz. fold budget in Hmax, Hsz |- *.
    unfold is_size_t in Hsz.
    destruct (copy_complete_retry_loop_spec client request budget (Z.to_nat budget) 1 s)
      as (es & last & lg & Hes & Hlen & Hans & Hres); try lia.
    exists es, last. destruct last as [x|e]; cbv zeta in Hres.
    + rewrite Hres. cbn. repeat split; [exact Hes|lia].
    + destruct Hres as [Hres Hkey]. rewrite Hres. cbn.
      repeat split; [exact Hes|lia|]. intros Hk. specialize (Hkey Hk). lia.
  - intros s Hr Htags budget request r. subst r.
    unfold WriteBufferFromS3.completeMultipartUpload, bind, gets.
    subst request. destruct (WriteBufferFromS3.part_tags s) as [|t tags] eqn:Ht; [congruence|].
    set (request := CompleteMultipartUploadRequest _ _).
    pose proof (std_max_1 (WriteBufferFromS3.max_unexpected_write_error_retries
                             (WriteBufferFromS3.config s))) as Hmax.
    pose proof (std_max_size_t _ Hr) as Hsz. fold budget in Hmax, Hsz |- *.
    unfold is_size_t in Hsz.
    destruct (buffer_complete_retry_loop_spec client request budget (Z.to_nat budget) 0 s)
      as (es & lg & Hes & Hlen & Hans & [[Hall Hres] | [last [Hlast Hres]]]); try lia.
    + exists es. split; [exact Hes|]. left. rewrite Hres. cbn. repeat split. lia.
    + exists es. split; [exact Hes|]. right. exists last. cbv zeta in Hres.
      pose proof (buffer_complete_retry_loop_count client request budget (Z.to_nat budget) 0 s
                    ltac:(lia) ltac:(lia)) as Hcount.
      destruct last as [x|e].
      * rewrite Hres in *. cbn in *. rewrite !length_app in Hcount. cbn in Hcount.
        repeat split. lia.
      * destruct Hres as [Hk Hres]. rewrite Hres in *. cbn in *.
        rewrite !length_app in Hcount. cbn in Hcount.
        repeat split; [lia|exact Hk].
Qed.

Lemma completion_is_attempted_within_budget_witness :
  let client := Samples.phantom_complete_client 2 in
  let helper := UploadHelper.completeMultipartUpload client (Samples.helper_with_one_part 2) in
  let buffer :=
    WriteBufferFromS3.completeMultipartUpload client (Samples.buffer_with_one_part 2) in
  (exists (phantoms : Trace) e,
     map snd (UploadHelper.trace (final_state helper)) = map snd phantoms ++ [Failure e] /\
     Z.of_nat (List.length phantoms) < 2 /\
     thrown helper = Some (S3Exception (GetErrorType e) (GetMessage e))) /\
  returns_normally buffer = true /\
  map snd (WriteBufferFromS3.trace (final_state buffer))
  = [Failure Samples.no_such_key; Failure Samples.no_such_key].
Proof.
  intros client helper buffer.
  split; [|split; vm_compute; reflexivity].
  destruct (completion_is_attempted_within_budget client) as [Hcopy _].
  destruct (Hcopy (Samples.helper_with_one_part 2)) as (phantoms & last & Ht & _ & Hlen & Hend).
  - unfold is_size_t, SIZE_MODULUS. cbn. lia.
  - reflexivity.
  - discriminate.
  - assert (Hlast : exists e, last = Failure e).
    { destruct last as [x|e]; [|exists e; reflexivity]. vm_compute in Hend. discriminate. }
    destruct Hlast as [e ->]. exists phantoms, e. destruct Hend as [Hthrown _].
    fold helper in Ht, Hthrown. rewrite Ht. cbn [Samples.helper_with_one_part UploadHelper.trace].
    split; [|split; [exact Hlen|exact Hthrown]].
    cbn. rewrite map_app. reflexivity.
Defined.

(** ** A [PutObject] that is never accepted *)

Section PutExhausted.

Variable client : Client.
Variable request : Request.

Hypothesis always_phantom :
  forall history, exists e, client history request = Failure e /\ is_no_such_key e = true.

Lemma buffer_put_retry_loop_exhausted (budget : Z) (s : WriteBufferFromS3.State) :
  1 <= budget < SIZE_MODULUS ->
  WriteBufferFromS3.trace s = [] ->
  exists t lg,
    WriteBufferFromS3.put_retry_loop client (Z.to_nat budget) 0 budget request s
    = Ok tt (WriteBufferFromS3.set_log lg (WriteBufferFromS3.set_trace t s)) /\
    Forall (phantom_attempt request) t /\
    Z.of_nat (List.length t) = budget.
Proof.
  intros Hb Htrace. rewrite buffer_put_retry_loop_same.
  destruct (buffer_complete_retry_loop_spec client request budget (Z.to_nat budget) 0 s)
    as (es & lg & Hes & Hlen & Hans & [[Hall Hres] | [last [Hlast Hres]]]); try lia.
  - exists es, lg. rewrite Hres, Htrace. cbn [app]. split; [reflexivity|].
    split; [exact Hes|lia].
  - exfalso. cbv zeta in Hres.
    destruct (always_phantom (WriteBufferFromS3.trace s ++ es)) as (e & He & Hk).
    rewrite He in Hlast. subst last. destruct Hres as [Hk' _]. congruence.
Qed.

Variable c : WriteBufferFromS3.Config.

Hypothesis retries_fit : is_size_t (WriteBufferFromS3.max_unexpected_write_error_retries c).

Local Abbreviation budget := (std_max (WriteBufferFromS3.max_unexpected_write_error_retries c) 1).

Lemma put_budget_fits : 1 <= budget < SIZE_MODULUS.
Proof.
  pose proof (std_max_1 (WriteBufferFromS3.max_unexpected_write_error_retries c)) as [H _].
  pose proof (std_max_size_t _ retries_fit) as Hmax. unfold is_size_t in Hmax.
  lia.
Qed.

Lemma buffer_put_task_runs_exhausts (s : WriteBufferFromS3.State) :
  WriteBufferFromS3.put_pending c request s ->
  exists s',
    WriteBufferFromS3.put_task_runs client s = Ok tt s' /\
    WriteBufferFromS3.put_exhausted c request budget s'.
Proof.
  intros (Hc & Hid & Htasks & Hnum & Htrace & Hput).
  destruct s. cbn in Hc, Hid, Htasks, Hnum, Htrace, Hput.
  subst config multipart_upload_id upload_object_tasks trace put_object_task.
  unfold WriteBufferFromS3.put_task_runs, WriteBufferFromS3.processPutRequest.
  buffer_run.
  match goal with
  | |- context [WriteBufferFromS3.put_retry_loop client ?f ?i ?m ?q ?st] =>
      destruct (buffer_put_retry_loop_exhausted m st put_budget_fits eq_refl)
        as (t & lg & -> & Ht & Hlen)
  end.
  buffer_run. eexists. split; [reflexivity|].
  unfold WriteBufferFromS3.put_exhausted. cbn.
  repeat (split; [reflexivity || assumption|]).
  eexists. repeat split; reflexivity.
Qed.

Lemma buffer_put_task_runs_exhausted (s : WriteBufferFromS3.State) :
  WriteBufferFromS3.put_exhausted c request budget s ->
  WriteBufferFromS3.put_task_runs client s = Ok tt s.
Proof.
  intros (_ & _ & _ & _ & _ & _ & t & Hput & Hstage & _).
  unfold WriteBufferFromS3.put_task_runs. rewrite Hput, Hstage. reflexivity.
Qed.

Lemma buffer_pool_events_exhausts (evs : list WriteBufferFromS3.PoolEvent) :
  forall s,
    WriteBufferFromS3.put_pending c request s
    \/ WriteBufferFromS3.put_exhausted c request budget s ->
    exists s',
      WriteBufferFromS3.pool_events client evs s = Ok tt s' /\
      (WriteBufferFromS3.put_pending c request s'
       \/ WriteBufferFromS3.put_exhausted c request budget s').
Proof.
  induction evs as [|ev evs IH]; intros s Hs; cbn [WriteBufferFromS3.pool_events].
  - exists s. split; [reflexivity|exact Hs].
  - unfold bind. destruct ev; cbn [WriteBufferFromS3.pool_event].
    + rewrite buffer_upload_task_runs_none; [apply IH; exact Hs|].
      destruct Hs as [Hs|Hs]; apply Hs.
    + destruct Hs as [Hs|Hs].
      * destruct (buffer_put_task_runs_exhausts s Hs) as (s1 & -> & Hs1).
        apply IH. right. exact Hs1.
      * rewrite (buffer_put_task_runs_exhausted _ Hs). apply IH. right. exact Hs.
Qed.

Lemma buffer_pool_turn_exhausts (s : WriteBufferFromS3.State) :
  WriteBufferFromS3.put_pending c request s
  \/ WriteBufferFromS3.put_exhausted c request budget s ->
  exists s',
    WriteBufferFromS3.pool_turn client s = Ok tt s' /\
    (WriteBufferFromS3.put_pending c request s'
     \/ WriteBufferFromS3.put_exhausted c request budget s').
Proof.
  intros Hs. unfold WriteBufferFromS3.pool_turn. cbn [bind gets].
  destruct (WriteBufferFromS3.pool_script s) as [|evs rest];
    [exists s; split; [reflexivity|exact Hs]|].
  cbn [bind modify]. apply buffer_pool_events_exhausts.
  destruct Hs as [Hs|Hs]; [left|right]; exact Hs.
Qed.

(** The wait at the end lets the task run, if it has not yet, and finds no
    exception in it. *)
Lemma buffer_waitForAllBackGroundTasks_exhausts (s : WriteBufferFromS3.State) :
  WriteBufferFromS3.schedule c = true ->
  WriteBufferFromS3.put_pending c request s
  \/ WriteBufferFromS3.put_exhausted c request budget s ->
  exists s',
    WriteBufferFromS3.waitForAllBackGroundTasks client s = Ok tt s' /\
    WriteBufferFromS3.put_exhausted c request budget s'.
Proof.
  intros Hsched Hs.
  assert (Hc : WriteBufferFromS3.config s = c) by (destruct Hs as [Hs|Hs]; apply Hs).
  unfold WriteBufferFromS3.waitForAllBackGroundTasks,
    WriteBufferFromS3.waitForAllBackGroundTasksUnlocked, WriteBufferFromS3.condvar_wait_tasks,
    WriteBufferFromS3.condvar_wait_put.
  unfold bind, gets. rewrite Hc, Hsched. cbv beta iota. rewrite ?Hc, ?Hsched.
  destruct (buffer_pool_turn_exhausts s Hs) as (s1 & H1 & Hs1).
  rewrite H1.
  assert (Htasks : WriteBufferFromS3.upload_object_tasks s1 = [])
    by (destruct Hs1 as [Hs1|Hs1]; apply Hs1).
  assert (Hnum : WriteBufferFromS3.num_added_bg_tasks s1
                 = WriteBufferFromS3.num_finished_bg_tasks s1)
    by (destruct Hs1 as [Hs1|Hs1]; apply Hs1).
  assert (Hrun : exists s2, WriteBufferFromS3.put_task_runs client s1 = Ok tt s2 /\
                            WriteBufferFromS3.put_exhausted c request budget s2).
  { destruct Hs1 as [Hs1|Hs1].
    - apply buffer_put_task_runs_exhausts; assumption.
    - exists s1. split; [apply (buffer_put_task_runs_exhausted _ Hs1)|exact Hs1]. }
  assert (Hsome : exists t, WriteBufferFromS3.put_object_task s1 = Some t).
  { destruct Hs1 as [Hs1|Hs1].
    - eexists. apply Hs1.
    - destruct Hs1 as (_ & _ & _ & _ & _ & _ & t & Ht & _). exists t. exact Ht. }
  destruct Hsome as (t1 & Ht1). destruct Hrun as (s2 & H2 & Hs2).
  pose proof Hs2 as (_ & _ & _ & _ & _ & _ & t2 & Ht2 & _ & Hfin & Hnone).
  repeat (progress (rewrite ?Htasks, ?Ht1, ?H2, ?Ht2, ?Hfin, ?Hnone;
                    try rewrite Hnum, Z.eqb_refl;
                    cbn [map WriteBufferFromS3.pool_finish WriteBufferFromS3.collect_all];
                    unfold ret; cbv beta iota)).
  exists s2. split; [reflexivity|exact Hs2].
Qed.

(** How [finalizeImpl] ends when every [PutObject] was answered with
    [NoSuchKey]. *)
Lemma buffer_finalizeImpl_exhausted (total : Z) (s : WriteBufferFromS3.State) :
  request = PutObjectRequest total (TemporaryBuffer total) ->
  WriteBufferFromS3.buffering c total s ->
  0 <= total ->
  let r := WriteBufferFromS3.finalizeImpl client s in
  exists phantoms heads,
    WriteBufferFromS3.trace (final_state r) = phantoms ++ heads /\
    Forall (phantom_attempt request) phantoms /\
    Z.of_nat (List.length phantoms) = budget /\
    ((WriteBufferFromS3.check_objects_after_upload c = false /\ heads = [] /\
      returns_normally r = true)
     \/
     (WriteBufferFromS3.check_objects_after_upload c = true /\
      exists o, heads = [(HeadObjectRequest, o)] /\ returns_normally r = IsSuccess o)).
Proof.
  intros Hrequest (Hc & Hoff & Htmp & Hlast & Hid & Hpre & Hput & Htasks & Hnum & Htrace)
    Htotal r. subst r.
  destruct s. cbn in Hc, Hoff, Htmp, Hlast, Hid, Hpre, Hput, Htasks, Hnum, Htrace.
  subst config working_offset temporary_buffer last_part_size multipart_upload_id is_prefinalized
    put_object_task upload_object_tasks trace.
  destruct (WriteBufferFromS3.schedule c) eqn:Hsched.
  - unfold WriteBufferFromS3.finalizeImpl, WriteBufferFromS3.preFinalize,
      WriteBufferFromS3.next, WriteBufferFromS3.makeSinglepartUpload,
      WriteBufferFromS3.checkObjectExists.
    buffer_run.
    destruct (Z.ltb_spec total 0) as [|_]; [lia|].
    rewrite Hsched. buffer_run. rewrite <- Hrequest.
    match goal with
    | |- context [WriteBufferFromS3.pool_turn client ?st] =>
        destruct (buffer_pool_turn_exhausts st) as (s1 & -> & Hs1);
          [left; repeat split; try reflexivity; exact Hnum|]
    end.
    buffer_run.
    match goal with
    | |- context [WriteBufferFromS3.waitForAllBackGroundTasks client ?st] =>
        destruct (buffer_waitForAllBackGroundTasks_exhausts st Hsched) as (s2 & -> & Hs2);
          [destruct s1; destruct Hs1 as [Hs1|Hs1]; [left|right]; exact Hs1|]
    end.
    destruct Hs2 as (Hc2 & Hid2 & _ & _ & Ht & Hlen & _).
    destruct s2; cbn in Hc2, Hid2, Ht, Hlen; subst config multipart_upload_id; buffer_run.
    destruct (WriteBufferFromS3.check_objects_after_upload c).
    + match goal with
      | |- context [client ?h HeadObjectRequest] => destruct (client h HeadObjectRequest)
      end;
        (eexists; eexists; split; [reflexivity|]; split; [exact Ht|]; split; [exact Hlen|];
         right; split; [reflexivity|]; eexists; split; reflexivity).
    + eexists. exists []. rewrite app_nil_r.
      split; [reflexivity|]. split; [exact Ht|]. split; [exact Hlen|].
      left. repeat split; reflexivity.
  - unfold WriteBufferFromS3.finalizeImpl, WriteBufferFromS3.preFinalize,
      WriteBufferFromS3.next, WriteBufferFromS3.makeSinglepartUpload,
      WriteBufferFromS3.processPutRequest, WriteBufferFromS3.waitForAllBackGroundTasks,
      WriteBufferFromS3.checkObjectExists.
    buffer_run.
    destruct (Z.ltb_spec total 0) as [|_]; [lia|].
    rewrite Hsched. buffer_run. rewrite <- Hrequest.
    match goal with
    | |- context [WriteBufferFromS3.put_retry_loop client ?f ?i ?m ?q ?st] =>
        destruct (buffer_put_retry_loop_exhausted m st put_budget_fits eq_refl)
          as (t & lg & -> & Ht & Hlen)
    end.
    buffer_run. rewrite Hsched. buffer_run.
    destruct (WriteBufferFromS3.check_objects_after_upload c).
    + match goal with
      | |- context [client ?h HeadObjectRequest] => destruct (client h HeadObjectRequest)
      end;
        (exists t; eexists; split; [reflexivity|]; split; [exact Ht|]; split; [exact Hlen|];
         right; split; [reflexivity|]; eexists; split; reflexivity).
    + exists t, []. rewrite app_nil_r.
      split; [reflexivity|]. split; [exact Ht|]. split; [exact Hlen|].
      left. repeat split; reflexivity.
Qed.

End PutExhausted.

(** X15. A streaming write of at most [max_single_part_upload_size] bytes,
    without the check of the object after the upload, whose [PutObject]
    the server answers with [NoSuchKey] every time sends the request
    max(max_unexpected_write_error_retries, 1) times, sends nothing else,
    and returns normally, though no attempt was accepted. *)
Theorem exhausted_put_is_not_reported (client : Client) (cfg : WriteBufferFromS3.Config)
    (script : list (list WriteBufferFromS3.PoolEvent)) (chunks : list Z) :
  Forall (fun n => 0 <= n) chunks ->
  fold_right Z.add 0 chunks <= max_single_part_upload_size (WriteBufferFromS3.settings cfg) ->
  is_size_t (max_single_part_upload_size (WriteBufferFromS3.settings cfg)) ->
  is_size_t (WriteBufferFromS3.max_unexpected_write_error_retries cfg) ->
  WriteBufferFromS3.check_objects_after_upload cfg = false ->
  let total := fold_right Z.add 0 chunks in
  let put := PutObjectRequest total (TemporaryBuffer total) in
  let budget := std_max (WriteBufferFromS3.max_unexpected_write_error_retries cfg) 1 in
  let r := WriteBufferFromS3.streaming_write client chunks
             (WriteBufferFromS3.construct cfg script) in
  (forall history, exists e, client history put = Failure e /\ is_no_such_key e = true) ->
  returns_normally r = true /\
  Forall (phantom_attempt put) (WriteBufferFromS3.trace (final_state r)) /\
  Z.of_nat (List.length (WriteBufferFromS3.trace (final_state r))) = budget.
Proof.
  intros Hchunks Hle Hsize Hretries Hcheck total put budget r Hphantom. subst r.
  assert (Hstart : WriteBufferFromS3.buffering cfg 0 (WriteBufferFromS3.construct cfg script)).
  { repeat split; reflexivity. }
  assert (Htotal : 0 <= total).
  { subst total. clear - Hchunks. induction Hchunks; cbn [fold_right]; lia. }
  destruct (buffer_write_all_buffering client cfg chunks 0 _ Hstart ltac:(lia) Hchunks
              ltac:(exact Hle) ltac:(apply Hsize))
    as (s1 & Hwrite & Hs1).
  cbn [Z.add] in Hs1. fold total in Hs1.
  unfold WriteBufferFromS3.streaming_write, bind. rewrite Hwrite.
  destruct (buffer_finalizeImpl_exhausted client put Hphantom cfg Hretries total s1 eq_refl
              Hs1 Htotal)
    as (phantoms & heads & Htrace & Hall & Hlen & [(_ & -> & Hr) | (Hc & _)]);
    [|congruence].
  rewrite app_nil_r in Htrace. rewrite Htrace.
  split; [exact Hr|]. split; [exact Hall|exact Hlen].
Qed.

Lemma exhausted_put_is_not_reported_witness :
  let r := WriteBufferFromS3.streaming_write Samples.phantom_client [5; 10]
             (WriteBufferFromS3.construct
                (WriteBufferFromS3.mkConfig Samples.small_policy false 3 true) [[]]) in
  returns_normally r = true /\
  map snd (WriteBufferFromS3.trace (final_state r))
  = [Failure Samples.no_such_key; Failure Samples.no_such_key; Failure Samples.no_such_key].
Proof.
  intros r. split; [|vm_compute; reflexivity].
  apply (exhausted_put_is_not_reported Samples.phantom_client
           (WriteBufferFromS3.mkConfig Samples.small_policy false 3 true) [[]] [5; 10]).
  - repeat constructor; lia.
  - cbn. lia.
  - unfold is_size_t, SIZE_MODULUS. cbn. lia.
  - unfold is_size_t, SIZE_MODULUS. cbn. lia.
  - reflexivity.
  - intros history. exists Samples.no_such_key. split; reflexivity.
Defined.

(** ** A single-shot operation that is refused as too large *)

Section TooLarge.

Variable client : Client.

(** The loop of [processPutRequest] of the copy helpers goes to the
    multipart upload at whichever attempt the server answers that the
    object is too large. *)
Lemma copy_put_retry_loop_switches (request : Request) (max_retries : Z) (phantoms : Trace) :
  forall (fuel : nat) (retries : Z) (s : UploadHelper.State) (e : AwsError),
  0 <= retries -> retries + Z.of_nat (List.length phantoms) <= max_retries ->
  max_retries < SIZE_MODULUS ->
  (List.length phantoms < fuel)%nat ->
  Forall (repeated_attempt request) phantoms ->
  answers_of client (UploadHelper.trace s) (phantoms ++ [(request, Failure e)]) ->
  is_too_large e = true ->
  UploadHelper.put_retry_loop client fuel retries max_retries request s
  = UploadHelper.CopyDataToFileHelper_performMultipartUpload client
      (UploadHelper.set_log
         (UploadHelper.log s ++ repeat WillRetry (List.length phantoms)
          ++ [WillRetryWithMultipart])
         (UploadHelper.set_trace
            (UploadHelper.trace s ++ phantoms ++ [(request, Failure e)]) s)).
Proof.
  induction phantoms as [|p phantoms IH]; intros fuel retries s e Hr Hfit Hmax Hfuel Hall Hans
    Hlarge;
    (destruct fuel as [|fuel]; [cbn [List.length] in Hfuel; lia|]);
    rewrite copy_put_retry_loop_step; cbv zeta; cbn [app answers_of fst snd] in Hans.
  - destruct Hans as [Hans _]. rewrite <- Hans, Hlarge.
    destruct s; reflexivity.
  - apply Forall_cons_iff in Hall. destruct Hall as [(Hfst & e' & Hsnd & Hkey & Hsmall) Hrest].
    destruct Hans as [Hans Hnext]. destruct p as [r o]. cbn [fst snd] in *. subst r o.
    rewrite <- Hans, Hsmall, Hkey. cbn [List.length] in Hfit, Hfuel.
    destruct (Z.ltb_spec retries max_retries) as [_|]; [|lia]. cbn [andb].
    rewrite (wrap_succ retries max_retries) by lia.
    match goal with
    | |- context [UploadHelper.put_retry_loop client fuel _ _ _ ?st] =>
        rewrite (IH fuel (retries + 1) st e ltac:(lia) ltac:(lia) Hmax ltac:(lia) Hrest Hnext
                   Hlarge)
    end.
    f_equal. destruct s. cbn. rewrite <- !app_assoc. reflexivity.
Qed.

(** The loop of [processPutRequest] of the streaming buffer throws at
    whichever attempt the server answers with another error than
    [NoSuchKey]. *)
Lemma buffer_put_retry_loop_refused (request : Request) (max_retry : Z) (phantoms : Trace) :
  forall (fuel : nat) (i : Z) (s : WriteBufferFromS3.State) (e : AwsError),
  0 <= i -> i + Z.of_nat (List.length phantoms) < max_retry ->
  max_retry < SIZE_MODULUS ->
  (List.length phantoms < fuel)%nat ->
  Forall (phantom_attempt request) phantoms ->
  answers_of client (WriteBufferFromS3.trace s) (phantoms ++ [(request, Failure e)]) ->
  is_no_such_key e = false ->
  WriteBufferFromS3.put_retry_loop client fuel i max_retry request s
  = Throw (S3Exception (GetErrorType e) (GetMessage e))
      (WriteBufferFromS3.set_log
         (WriteBufferFromS3.log s ++ repeat WillRetry (List.length phantoms))
         (WriteBufferFromS3.set_trace
            (WriteBufferFromS3.trace s ++ phantoms ++ [(request, Failure e)]) s)).
Proof.
  induction phantoms as [|p phantoms IH]; intros fuel i s e Hi Hfit Hmax Hfuel Hall Hans Hkey;
    (destruct fuel as [|fuel]; [cbn [List.length] in Hfuel; lia|]);
    rewrite buffer_put_retry_loop_same, buffer_complete_retry_loop_step;
    cbn [List.length] in Hfit, Hfuel;
    (destruct (Z.ltb_spec i max_retry) as [_|]; [|lia]);
    cbv zeta; cbn [app answers_of fst snd] in Hans.
  - destruct Hans as [Hans _]. rewrite <- Hans, Hkey.
    destruct s; cbn; rewrite app_nil_r; reflexivity.
  - apply Forall_cons_iff in Hall. destruct Hall as [(Hfst & e' & Hsnd & Htype) Hrest].
    destruct Hans as [Hans Hnext]. destruct p as [r o]. cbn [fst snd] in *. subst r o.
    rewrite <- Hans. unfold is_no_such_key at 1. rewrite Htype.
    rewrite (wrap_succ i max_retry) by lia.
    rewrite <- buffer_put_retry_loop_same.
    match goal with
    | |- context [WriteBufferFromS3.put_retry_loop client fuel _ _ _ ?st] =>
        rewrite (IH fuel (i + 1) st e ltac:(lia) ltac:(lia) Hmax ltac:(lia) Hrest Hnext Hkey)
    end.
    f_equal. destruct s. cbn. rewrite <- !app_assoc. reflexivity.
Qed.

End TooLarge.

(** C3 (amended). Whichever attempt of a single-shot operation the server
    answers with [EntityTooLarge] or [InvalidRequest], the first one or one
    that follows attempts answered with [NoSuchKey] within the budget of
    retries: the single [PutObject] of [copyDataToS3File] and the single
    [CopyObject] of [copyS3File] go on with the multipart upload of the same
    offset and size, whose result is theirs; the single [PutObject] of the
    streaming buffer ends with the exception made from the answer, of kind
    [Remote], and sends nothing more (unless the error type of the answer is
    [NO_SUCH_KEY], which the buffer retries). *)
Theorem single_shot_too_large (client : Client) :
  (forall (s : UploadHelper.State) (phantoms : Trace) (e : AwsError),
     let cfg := UploadHelper.config s in
     let request :=
       PutObjectRequest (UploadHelper.size cfg)
         (SourceRange (UploadHelper.offset cfg) (UploadHelper.size cfg)) in
     is_size_t (UploadHelper.max_unexpected_write_error_retries cfg) ->
     Forall (repeated_attempt request) phantoms ->
     Z.of_nat (List.length phantoms)
     < std_max (UploadHelper.max_unexpected_write_error_retries cfg) 1 ->
     answers_of client (UploadHelper.trace s) (phantoms ++ [(request, Failure e)]) ->
     is_too_large e = true ->
     UploadHelper.performSinglepartUpload client s
     = UploadHelper.performMultipartUpload client (UploadHelper.offset cfg) (UploadHelper.size cfg)
         (UploadHelper.set_log
            (UploadHelper.log s ++ repeat WillRetry (List.length phantoms)
             ++ [WillRetryWithMultipart])
            (UploadHelper.set_trace
               (UploadHelper.trace s ++ phantoms ++ [(request, Failure e)]) s))) /\
  (forall (s : UploadHelper.State) (phantoms : Trace) (e : AwsError),
     let cfg := UploadHelper.config s in
     is_size_t (UploadHelper.max_unexpected_write_error_retries cfg) ->
     Forall (repeated_attempt CopyObjectRequest) phantoms ->
     Z.of_nat (List.length phantoms)
     < std_max (UploadHelper.max_unexpected_write_error_retries cfg) 1 ->
     answers_of client (UploadHelper.trace s) (phantoms ++ [(CopyObjectRequest, Failure e)]) ->
     is_too_large e = true ->
     UploadHelper.performSingleOperationCopy client s
     = UploadHelper.performMultipartUpload client (UploadHelper.offset cfg) (UploadHelper.size cfg)
         (UploadHelper.set_log
            (UploadHelper.log s ++ repeat WillRetry (List.length phantoms)
             ++ [WillRetryWithMultipart])
            (UploadHelper.set_trace
               (UploadHelper.trace s ++ phantoms ++ [(CopyObjectRequest, Failure e)]) s))) /\
  (forall (s : WriteBufferFromS3.State) (task : WriteBufferFromS3.PutObjectTask)
          (phantoms : Trace) (e : AwsError),
     let request := WriteBufferFromS3.put_req task in
     is_size_t (WriteBufferFromS3.max_unexpected_write_error_retries
                  (WriteBufferFromS3.config s)) ->
     Forall (phantom_attempt request) phantoms ->
     Z.of_nat (List.length phantoms)
     < std_max (WriteBufferFromS3.max_unexpected_write_error_retries
                  (WriteBufferFromS3.config s)) 1 ->
     answers_of client (WriteBufferFromS3.trace s) (phantoms ++ [(request, Failure e)]) ->
     is_too_large e = true ->
     is_no_such_key e = false ->
     exists x,
       WriteBufferFromS3.processPutRequest client task s
       = Throw x
           (WriteBufferFromS3.set_log
              (WriteBufferFromS3.log s ++ repeat WillRetry (List.length phantoms))
              (WriteBufferFromS3.set_trace
                 (WriteBufferFromS3.trace s ++ phantoms ++ [(request, Failure e)]) s)) /\
       kind_of x = Remote).
Proof.
  split; [|split].
  - intros s phantoms e cfg request Hsize Hall Hlen Hans Hlarge.
    unfold UploadHelper.performSinglepartUpload, UploadHelper.fillPutRequest.
    cbn [bind gets ret]. fold cfg request.
    unfold UploadHelper.processPutRequest. cbn [bind gets]. fold cfg.
    pose proof (std_max_size_t _ Hsize) as Hmax. unfold is_size_t in Hmax.
    rewrite (copy_put_retry_loop_switches client request _ phantoms _ _ s e);
      try assumption; try lia.
    reflexivity.
  - intros s phantoms e cfg Hsize Hall Hlen Hans Hlarge.
    unfold UploadHelper.performSingleOperationCopy, UploadHelper.fillCopyRequest.
    cbn [bind gets ret].
    unfold UploadHelper.processCopyRequest. cbn [bind gets]. fold cfg.
    pose proof (std_max_size_t _ Hsize) as Hmax. unfold is_size_t in Hmax.
    rewrite copy_retry_loop_same.
    rewrite (copy_put_retry_loop_switches client CopyObjectRequest _ phantoms _ _ s e);
      try assumption; try lia.
    reflexivity.
  - intros s task phantoms e request Hsize Hall Hlen Hans _ Hkey.
    unfold WriteBufferFromS3.processPutRequest. cbn [bind gets]. fold request.
    pose proof (std_max_size_t _ Hsize) as Hmax. unfold is_size_t in Hmax.
    rewrite (buffer_put_retry_loop_refused client request _ phantoms _ _ s e);
      try assumption; try lia.
    eexists. split; reflexivity.
Qed.

Lemma single_shot_too_large_witness :
  let client := Samples.phantom_then_too_large_client 1 in
  let helper := UploadHelper.construct
                  (Samples.copy_config UploadHelper.CopyDataToFileHelper 3 false 7 15) [] in
  let copier := UploadHelper.construct
                  (Samples.copy_config UploadHelper.CopyFileHelper 3 false 7 15) [] in
  let buffer := WriteBufferFromS3.set_temporary_buffer 15
                  (Samples.inline_buffer_with_retries 3) in
  (returns_normally (UploadHelper.performSinglepartUpload client helper) = true /\
   map fst (UploadHelper.trace
              (final_state (UploadHelper.performSinglepartUpload client helper)))
   = [PutObjectRequest 15 (SourceRange 7 15);
      PutObjectRequest 15 (SourceRange 7 15);
      CreateMultipartUploadRequest;
      UploadPartRequest "upload-1" 1 10 (SourceRange 7 10);
      UploadPartRequest "upload-1" 2 5 (SourceRange 17 5);
      CompleteMultipartUploadRequest "upload-1"
        [mkCompletedPart "etag" 1; mkCompletedPart "etag" 2]]) /\
  (returns_normally (UploadHelper.performSingleOperationCopy client copier) = true /\
   map fst (UploadHelper.trace
              (final_state (UploadHelper.performSingleOperationCopy client copier)))
   = [CopyObjectRequest;
      CopyObjectRequest;
      CreateMultipartUploadRequest;
      UploadPartCopyRequest "upload-1" 1 7 16;
      UploadPartCopyRequest "upload-1" 2 17 21;
      CompleteMultipartUploadRequest "upload-1"
        [mkCompletedPart "etag" 1; mkCompletedPart "etag" 2]]) /\
  (exists x,
     WriteBufferFromS3.processPutRequest client
       (WriteBufferFromS3.mkPutObjectTask (PutObjectRequest 15 (TemporaryBuffer 15)) false None
          WriteBufferFromS3.NotScheduled) buffer
     = Throw x
         (WriteBufferFromS3.set_log [WillRetry]
            (WriteBufferFromS3.set_trace
               [(PutObjectRequest 15 (TemporaryBuffer 15), Failure Samples.no_such_key);
                (PutObjectRequest 15 (TemporaryBuffer 15), Failure Samples.entity_too_large)]
               buffer)) /\
     kind_of x = Remote).
Proof.
  intros client helper copier buffer.
  assert (Hsize : is_size_t 3) by (unfold is_size_t, SIZE_MODULUS; lia).
  destruct (single_shot_too_large client) as (Hput & Hcopy & Hbuffer).
  split; [|split].
  - rewrite (Hput helper [(PutObjectRequest 15 (SourceRange 7 15), Failure Samples.no_such_key)]
               Samples.entity_too_large Hsize).
    + vm_compute. split; reflexivity.
    + constructor; [|constructor]. split; [reflexivity|].
      exists Samples.no_such_key. repeat split; reflexivity.
    + vm_compute. reflexivity.
    + cbn. repeat split; reflexivity.
    + reflexivity.
  - rewrite (Hcopy copier [(CopyObjectRequest, Failure Samples.no_such_key)]
               Samples.entity_too_large Hsize).
    + vm_compute. split; reflexivity.
    + constructor; [|constructor]. split; [reflexivity|].
      exists Samples.no_such_key. repeat split; reflexivity.
    + vm_compute. reflexivity.
    + cbn. repeat split; reflexivity.
    + reflexivity.
  - apply (Hbuffer buffer
             (WriteBufferFromS3.mkPutObjectTask (PutObjectRequest 15 (TemporaryBuffer 15)) false
                None WriteBufferFromS3.NotScheduled)
             [(PutObjectRequest 15 (TemporaryBuffer 15), Failure Samples.no_such_key)]
             Samples.entity_too_large Hsize).
    + constructor; [|constructor]. split; [reflexivity|].
      exists Samples.no_such_key. split; reflexivity.
    + vm_compute. reflexivity.
    + cbn. repeat split; reflexivity.
    + reflexivity.
    + reflexivity.
Defined.

(** ** An abort for every refused part *)

Lemma aborts_cover_clean (t : Trace) : has_failed_upload t = false -> aborts_cover t.
Proof.
  intros H. unfold aborts_cover.
  assert (Hnone : filter failed_upload t = []).
  { induction t as [|e t IH]; [reflexivity|].
    cbn [has_failed_upload existsb] in H. apply orb_false_elim in H. destruct H as [He Ht].
    cbn [filter]. rewrite He. apply IH. exact Ht. }
  rewrite Hnone. cbn [List.length]. lia.
Qed.

Lemma aborts_cover_app_clean (t : Trace) (entry : Request * Outcome) :
  failed_upload entry = false -> aborts_cover t -> aborts_cover (t ++ [entry]).
Proof.
  unfold aborts_cover. intros Hclean H.
  rewrite filter_app, length_app, answered_app. cbn [filter]. rewrite Hclean.
  cbn [List.length]. lia.
Qed.

Lemma aborts_cover_app_refused (t : Trace) (r : Request) (o : Outcome) (upload_id : string)
    (answer : Outcome) :
  aborts_cover t ->
  aborts_cover ((t ++ [(r, o)]) ++ [(AbortMultipartUploadRequest upload_id, answer)]).
Proof.
  unfold aborts_cover. intros H.
  rewrite !filter_app, !length_app, !answered_app. unfold answered in *.
  cbn [filter fst is_abort List.length].
  destruct (failed_upload (r, o)); destruct (is_abort r);
    cbn [failed_upload fst snd is_upload is_abort andb List.length]; lia.
Qed.

Lemma keeps_cover_refl (s : UploadHelper.State) : UploadHelper.keeps_cover s s.
Proof. intros H. exact H. Qed.

Lemma keeps_cover_trans (s1 s2 s3 : UploadHelper.State) :
  UploadHelper.keeps_cover s1 s2 -> UploadHelper.keeps_cover s2 s3 ->
  UploadHelper.keeps_cover s1 s3.
Proof. intros H1 H2 H. apply H2, H1, H. Qed.

Lemma keeps_cover_same_trace (s s' : UploadHelper.State) :
  UploadHelper.trace s' = UploadHelper.trace s -> UploadHelper.keeps_cover s s'.
Proof. intros Ht H. rewrite Ht. exact H. Qed.

Create HintDb covers.

Ltac cover_tac :=
  preserve_with keeps_cover_refl keeps_cover_trans;
  try solve [ apply keeps_cover_same_trace; reflexivity | auto with covers ].

Section CopyCover.

Variable client : Client.

Lemma copy_send_keeps_cover (r : Request) :
  is_upload r = false -> preserves UploadHelper.keeps_cover (UploadHelper.send client r).
Proof.
  intros Hr s H. cbn. apply aborts_cover_app_clean; [|exact H].
  unfold failed_upload. cbn [fst]. rewrite Hr. reflexivity.
Qed.

Lemma copy_LOG_keeps_cover (m : LogMessage) :
  preserves UploadHelper.keeps_cover (UploadHelper.LOG m).
Proof. intros s H. exact H. Qed.

#[local] Hint Resolve copy_LOG_keeps_cover : covers.
#[local] Hint Extern 1 (preserves UploadHelper.keeps_cover (UploadHelper.send _ _)) =>
  apply copy_send_keeps_cover; reflexivity : covers.

Lemma copy_createMultipartUpload_keeps_cover :
  preserves UploadHelper.keeps_cover (UploadHelper.createMultipartUpload client).
Proof. unfold UploadHelper.createMultipartUpload. cover_tac. Qed.

Lemma copy_abortMultipartUpload_keeps_cover :
  preserves UploadHelper.keeps_cover (UploadHelper.abortMultipartUpload client).
Proof. unfold UploadHelper.abortMultipartUpload. cover_tac. Qed.

Lemma copy_checkObjectAfterUpload_keeps_cover :
  preserves UploadHelper.keeps_cover (UploadHelper.checkObjectAfterUpload client).
Proof. unfold UploadHelper.checkObjectAfterUpload. cover_tac. Qed.

Lemma copy_complete_retry_loop_keeps_cover (fuel : nat) (retries max_retries : Z)
    (upload_id : string) (parts : list CompletedPart) :
  preserves UploadHelper.keeps_cover
    (UploadHelper.complete_retry_loop client fuel retries max_retries
       (CompleteMultipartUploadRequest upload_id parts)).
Proof.
  revert retries. induction fuel as [|fuel IH]; intros retries;
    cbn [UploadHelper.complete_retry_loop]; cover_tac.
Qed.

#[local] Hint Resolve copy_createMultipartUpload_keeps_cover
  copy_abortMultipartUpload_keeps_cover copy_checkObjectAfterUpload_keeps_cover
  copy_complete_retry_loop_keeps_cover : covers.

Lemma copy_completeMultipartUpload_keeps_cover :
  preserves UploadHelper.keeps_cover (UploadHelper.completeMultipartUpload client).
Proof. unfold UploadHelper.completeMultipartUpload. cover_tac. Qed.

Lemma copy_calculatePartSize_keeps_cover (total_size : Z) :
  preserves UploadHelper.keeps_cover (UploadHelper.calculatePartSize total_size).
Proof.
  intros s. apply keeps_cover_same_trace. unfold UploadHelper.calculatePartSize.
  repeat match goal with
         | |- context [if ?b then _ else _] => destruct b
         end; reflexivity.
Qed.

(** A refused part is followed by its abort. *)
Lemma copy_processUploadPartRequest_keeps_cover (request : Request) :
  preserves UploadHelper.keeps_cover (UploadHelper.processUploadPartRequest client request).
Proof.
  intros s H. unfold UploadHelper.processUploadPartRequest.
  cbn [bind gets]. unfold bind at 1. unfold UploadHelper.send.
  destruct (client (UploadHelper.trace s) request) as [etag|e].
  - cbn. apply aborts_cover_app_clean; [|exact H].
    unfold failed_upload. cbn. apply andb_false_r.
  - unfold bind at 1. unfold UploadHelper.abortMultipartUpload.
    cbn [bind gets modify UploadHelper.send].
    destruct (UploadHelper.helper_class (UploadHelper.config s)); cbn;
      apply aborts_cover_app_refused; exact H.
Qed.

#[local] Hint Resolve copy_completeMultipartUpload_keeps_cover
  copy_calculatePartSize_keeps_cover copy_processUploadPartRequest_keeps_cover : covers.

Lemma copy_processUploadTask_request_keeps_cover (task : UploadHelper.UploadPartTask) :
  preserves UploadHelper.keeps_cover (UploadHelper.processUploadTask_request client task).
Proof. unfold UploadHelper.processUploadTask_request. cover_tac. Qed.

#[local] Hint Resolve copy_processUploadTask_request_keeps_cover : covers.

Lemma copy_processUploadTask_keeps_cover (task : UploadHelper.UploadPartTask) :
  preserves UploadHelper.keeps_cover (UploadHelper.processUploadTask client task).
Proof. unfold UploadHelper.processUploadTask. cover_tac. Qed.

Lemma copy_task_begins_keeps_cover (i : nat) :
  preserves UploadHelper.keeps_cover (UploadHelper.task_begins i).
Proof.
  intros s. apply keeps_cover_same_trace. unfold UploadHelper.task_begins.
  destruct (nth_error _ _) as [task|]; [|reflexivity].
  destruct (UploadHelper.stage task); try reflexivity.
  destruct (UploadHelper.multipart_upload_aborted s); reflexivity.
Qed.

Lemma copy_task_ends_keeps_cover (i : nat) :
  preserves UploadHelper.keeps_cover (UploadHelper.task_ends client i).
Proof.
  intros s. unfold UploadHelper.task_ends.
  destruct (nth_error _ _) as [task|]; [|apply keeps_cover_refl].
  destruct (UploadHelper.stage task); try apply keeps_cover_refl.
  pose proof (copy_processUploadTask_request_keeps_cover task s) as H.
  destruct (UploadHelper.processUploadTask_request client task s); exact H.
Qed.

#[local] Hint Resolve copy_processUploadTask_keeps_cover copy_task_begins_keeps_cover
  copy_task_ends_keeps_cover : covers.

Lemma copy_pool_events_keeps_cover (evs : list UploadHelper.PoolEvent) :
  preserves UploadHelper.keeps_cover (UploadHelper.pool_events client evs).
Proof.
  induction evs as [|ev evs IH]; cbn [UploadHelper.pool_events]; cover_tac.
  destruct ev; cbn [UploadHelper.pool_event]; auto with covers.
Qed.

#[local] Hint Resolve copy_pool_events_keeps_cover : covers.

Lemma copy_pool_turn_keeps_cover :
  preserves UploadHelper.keeps_cover (UploadHelper.pool_turn client).
Proof. unfold UploadHelper.pool_turn. cover_tac. Qed.

Lemma copy_pool_finish_keeps_cover (indices : list nat) :
  preserves UploadHelper.keeps_cover (UploadHelper.pool_finish client indices).
Proof. induction indices as [|i indices IH]; cbn [UploadHelper.pool_finish]; cover_tac. Qed.

#[local] Hint Resolve copy_pool_turn_keeps_cover copy_pool_finish_keeps_cover : covers.

Lemma copy_condvar_wait_keeps_cover :
  preserves UploadHelper.keeps_cover (UploadHelper.condvar_wait client).
Proof. unfold UploadHelper.condvar_wait. cover_tac. Qed.

Lemma copy_fillUploadPartRequest_keeps_cover (part_number part_offset part_size : Z) :
  preserves UploadHelper.keeps_cover
    (UploadHelper.fillUploadPartRequest part_number part_offset part_size).
Proof. unfold UploadHelper.fillUploadPartRequest. cover_tac. Qed.

#[local] Hint Resolve copy_condvar_wait_keeps_cover copy_fillUploadPartRequest_keeps_cover
  : covers.

Lemma copy_uploadPart_keeps_cover (part_number part_offset part_size : Z) :
  preserves UploadHelper.keeps_cover
    (UploadHelper.uploadPart client part_number part_offset part_size).
Proof. unfold UploadHelper.uploadPart. cover_tac. Qed.

Lemma copy_collect_tags_keeps_cover (tasks : list UploadHelper.UploadPartTask) :
  preserves UploadHelper.keeps_cover (UploadHelper.collect_tags client tasks).
Proof. induction tasks as [|task tasks IH]; cbn [UploadHelper.collect_tags]; cover_tac. Qed.

#[local] Hint Resolve copy_uploadPart_keeps_cover copy_collect_tags_keeps_cover : covers.

Lemma copy_waitForAllBackGroundTasks_keeps_cover :
  preserves UploadHelper.keeps_cover (UploadHelper.waitForAllBackGroundTasks client).
Proof. unfold UploadHelper.waitForAllBackGroundTasks. cover_tac. Qed.

Lemma copy_upload_parts_loop_keeps_cover (fuel : nat) (part_number position end_position : Z) :
  preserves UploadHelper.keeps_cover
    (UploadHelper.upload_parts_loop client fuel part_number position end_position).
Proof.
  revert part_number position.
  induction fuel as [|fuel IH]; intros part_number position;
    cbn [UploadHelper.upload_parts_loop]; cover_tac.
Qed.

#[local] Hint Resolve copy_waitForAllBackGroundTasks_keeps_cover
  copy_upload_parts_loop_keeps_cover : covers.

Lemma copy_performMultipartUpload_keeps_cover (start_offset size : Z) :
  preserves UploadHelper.keeps_cover
    (UploadHelper.performMultipartUpload client start_offset size).
Proof. unfold UploadHelper.performMultipartUpload. cover_tac. Qed.

End CopyCover.

(** ** What [waitForAllBackGroundTasks] throws *)

Section CopyRethrow.

Variable client : Client.

Lemma copy_task_ends_never_throws (i : nat) (s : UploadHelper.State) :
  thrown (UploadHelper.task_ends client i s) = None.
Proof.
  unfold UploadHelper.task_ends.
  destruct (nth_error _ _) as [task|]; [|reflexivity].
  destruct (UploadHelper.stage task); try reflexivity.
  destruct (UploadHelper.processUploadTask_request client task s); reflexivity.
Qed.

Lemma copy_task_begins_returns (i : nat) (s : UploadHelper.State) :
  exists s', UploadHelper.task_begins i s = Ok tt s'.
Proof.
  unfold UploadHelper.task_begins.
  destruct (nth_error _ _) as [task|]; [|eexists; reflexivity].
  destruct (UploadHelper.stage task); try (eexists; reflexivity).
  destruct (UploadHelper.multipart_upload_aborted s); eexists; reflexivity.
Qed.

Lemma thrown_bind_none {S A B} (c : M S A) (k : A -> M S B) (s : S) :
  thrown (c s) = None -> (forall a s1, thrown (k a s1) = None) ->
  thrown (bind c k s) = None.
Proof.
  intros Hc Hk. unfold bind. destruct (c s) as [a s1|e s1|s1|s1|s1]; try reflexivity.
  - apply Hk.
  - discriminate.
Qed.

Lemma copy_pool_events_never_throw (evs : list UploadHelper.PoolEvent) :
  forall s, thrown (UploadHelper.pool_events client evs s) = None.
Proof.
  induction evs as [|ev evs IH]; intros s; [reflexivity|].
  cbn [UploadHelper.pool_events]. apply thrown_bind_none; [|intros _; exact IH].
  destruct ev as [i|i]; cbn [UploadHelper.pool_event].
  - destruct (copy_task_begins_returns i s) as [s' ->]. reflexivity.
  - apply copy_task_ends_never_throws.
Qed.

Lemma copy_pool_finish_never_throws (indices : list nat) :
  forall s, thrown (UploadHelper.pool_finish client indices s) = None.
Proof.
  induction indices as [|i indices IH]; intros s; [reflexivity|].
  cbn [UploadHelper.pool_finish]. apply thrown_bind_none.
  - destruct (copy_task_begins_returns i s) as [s' ->]. reflexivity.
  - intros _ s1. apply thrown_bind_none; [apply copy_task_ends_never_throws|intros _; exact IH].
Qed.

Lemma copy_condvar_wait_never_throws (s : UploadHelper.State) :
  thrown (UploadHelper.condvar_wait client s) = None.
Proof.
  unfold UploadHelper.condvar_wait. apply thrown_bind_none.
  - unfold UploadHelper.pool_turn. cbn [bind gets].
    destruct (UploadHelper.pool_script s) as [|evs rest]; [reflexivity|].
    cbn [bind modify]. apply copy_pool_events_never_throw.
  - intros _ s1. cbn [bind gets]. apply thrown_bind_none;
      [apply copy_pool_finish_never_throws|].
    intros _ s2. cbn [bind gets]. destruct (_ =? _); reflexivity.
Qed.

(** The loop over the tasks throws only the exception of a task, and only
    after it has sent an [AbortMultipartUpload]. *)
Lemma copy_collect_tags_throws (tasks : list UploadHelper.UploadPartTask) :
  forall (s : UploadHelper.State) (e : Exception),
  thrown (UploadHelper.collect_tags client tasks s) = Some e ->
  let s' := final_state (UploadHelper.collect_tags client tasks s) in
  UploadHelper.trace s'
  = UploadHelper.trace s
    ++ [(AbortMultipartUploadRequest (UploadHelper.multipart_upload_id s),
         client (UploadHelper.trace s)
           (AbortMultipartUploadRequest (UploadHelper.multipart_upload_id s)))] /\
  UploadHelper.bg_tasks s' = UploadHelper.bg_tasks s /\
  exists task, In task tasks /\ UploadHelper.exception task = Some e.
Proof.
  induction tasks as [|task tasks IH]; intros s e H; cbn [UploadHelper.collect_tags] in *;
    [discriminate|].
  destruct (UploadHelper.exception task) as [x|] eqn:Hx.
  - cbn in H. injection H as ->. cbn. split; [reflexivity|]. split; [reflexivity|].
    exists task. split; [left; reflexivity|exact Hx].
  - cbn [bind modify] in H |- *.
    destruct (IH _ e H) as (Ht & Hb & task' & Hin & He).
    split; [exact Ht|]. split; [exact Hb|].
    exists task'. split; [right; exact Hin|exact He].
Qed.

Lemma copy_waitForAllBackGroundTasks_throws (s : UploadHelper.State) (e : Exception) :
  let r := UploadHelper.waitForAllBackGroundTasks client s in
  thrown r = Some e ->
  exists t upload_id answer task,
    UploadHelper.trace (final_state r)
    = t ++ [(AbortMultipartUploadRequest upload_id, answer)] /\
    In task (UploadHelper.bg_tasks (final_state r)) /\
    UploadHelper.exception task = Some e.
Proof.
  intros r H. subst r. unfold UploadHelper.waitForAllBackGroundTasks in *.
  cbn [bind gets] in *.
  destruct (UploadHelper.schedule (UploadHelper.config s)); cbn [negb] in *; [|discriminate].
  pose proof (copy_condvar_wait_never_throws s) as Hwait.
  unfold bind in *.
  destruct (UploadHelper.condvar_wait client s) as [[] s1|x s1|s1|s1|s1]; try discriminate.
  cbn [gets] in *.
  destruct (copy_collect_tags_throws _ s1 e H) as (Ht & Hb & task & Hin & He).
  eexists. eexists. eexists. exists task.
  split; [exact Ht|]. split; [rewrite Hb; exact Hin|exact He].
Qed.

End CopyRethrow.

(** ** The streaming buffer never aborts *)

Lemma has_abort_none (t : Trace) :
  Forall (fun entry => is_abort (fst entry) = false) t -> has_abort t = false.
Proof.
  induction 1 as [|entry t He Hall IH]; [reflexivity|].
  cbn [has_abort existsb]. rewrite He. exact IH.
Qed.

Lemma buffer_streaming_write_never_aborts (client : Client) (cfg : WriteBufferFromS3.Config)
    (script : list (list WriteBufferFromS3.PoolEvent)) (chunks : list Z) :
  has_abort
    (WriteBufferFromS3.trace
       (final_state
          (WriteBufferFromS3.streaming_write client chunks
             (WriteBufferFromS3.construct cfg script)))) = false.
Proof.
  set (P := fun r : Request => is_abort r = false).
  assert (Hupload : forall r, is_upload r = true -> P r)
    by (intros r Hr; subst P; destruct r; try discriminate; reflexivity).
  assert (Hput : forall r, is_put r = true -> P r)
    by (intros r Hr; subst P; destruct r; try discriminate; reflexivity).
  assert (Hwrite : preserves (WriteBufferFromS3.keeps_requests P)
                     (WriteBufferFromS3.streaming_write client chunks)).
  { unfold WriteBufferFromS3.streaming_write, WriteBufferFromS3.finalizeImpl.
    pose proof (buffer_write_all_requests client P eq_refl Hupload chunks) as Hw.
    pose proof (buffer_preFinalize_requests client P eq_refl Hupload Hput) as Hp.
    pose proof (buffer_waitForAllBackGroundTasks_requests client P) as Ha.
    requests_tac; try assumption.
    - unfold WriteBufferFromS3.completeMultipartUpload. requests_tac.
      apply buffer_complete_retry_loop_requests. reflexivity.
    - unfold WriteBufferFromS3.checkObjectExists.
      apply (preserves_bind _ (keeps_requests_trans P));
        [apply buffer_send_requests; reflexivity|].
      intros [x|e] s; apply keeps_requests_refl. }
  apply has_abort_none.
  apply (Hwrite (WriteBufferFromS3.construct cfg script)).
  split; [constructor|]. split; [constructor|]. intros t Ht. discriminate.
Qed.

(** C4 (amended). In a multipart upload of [copyDataToS3File] or
    [copyS3File], started by a helper with no task and no refused part behind
    it: whenever the server refuses a part, [performMultipartUpload] does not
    return normally, and an [AbortMultipartUpload] request follows the
    refused part in the record of the requests, so the upload was aborted
    before the failure reached the caller.  Every refused part sends an
    abort of its own: the record holds at least as many
    [AbortMultipartUpload] requests as refused parts.
    [abortMultipartUpload] itself returns normally in every state and
    whatever the server answers, so every repeated abort is tolerated, and
    [waitForAllBackGroundTasks] throws only the exception kept by a task,
    after it has sent one more abort.  The streaming buffer is different: no
    streaming write ever sends an [AbortMultipartUpload]; a write in which
    a part was refused does not return normally, and [processUploadRequest]
    throws on a refused part having sent nothing but the part request. *)
Theorem failed_part_is_aborted (client : Client) (start_offset size : Z)
    (s0 : UploadHelper.State) :
  UploadHelper.bg_tasks s0 = [] ->
  has_failed_upload (UploadHelper.trace s0) = false ->
  let r := UploadHelper.performMultipartUpload client start_offset size s0 in
  (forall i entry,
     nth_error (UploadHelper.trace (final_state r)) i = Some entry ->
     failed_upload entry = true ->
     returns_normally r = false /\
     exists j upload_id outcome,
       (i < j)%nat /\
       nth_error (UploadHelper.trace (final_state r)) j
       = Some (AbortMultipartUploadRequest upload_id, outcome)) /\
  (List.length (filter failed_upload (UploadHelper.trace (final_state r)))
   <= answered is_abort (UploadHelper.trace (final_state r)))%nat /\
  (forall s, exists s',
     UploadHelper.abortMultipartUpload client s = Ok tt s' /\
     UploadHelper.multipart_upload_aborted s' = true /\
     UploadHelper.trace s'
     = UploadHelper.trace s
       ++ [(AbortMultipartUploadRequest (UploadHelper.multipart_upload_id s),
            client (UploadHelper.trace s)
              (AbortMultipartUploadRequest (UploadHelper.multipart_upload_id s)))]) /\
  (forall s e,
     let w := UploadHelper.waitForAllBackGroundTasks client s in
     thrown w = Some e ->
     exists t upload_id answer task,
       UploadHelper.trace (final_state w)
       = t ++ [(AbortMultipartUploadRequest upload_id, answer)] /\
       In task (UploadHelper.bg_tasks (final_state w)) /\
       UploadHelper.exception task = Some e) /\
  (forall cfg script chunks,
     let w := WriteBufferFromS3.streaming_write client chunks
                (WriteBufferFromS3.construct cfg script) in
     has_abort (WriteBufferFromS3.trace (final_state w)) = false /\
     (Forall (fun n => 0 <= n) chunks ->
      has_failed_upload (WriteBufferFromS3.trace (final_state w)) = true ->
      returns_normally w = false)) /\
  (forall task s e,
     client (WriteBufferFromS3.trace s) (WriteBufferFromS3.req task) = Failure e ->
     WriteBufferFromS3.processUploadRequest client task s
     = Throw (S3Exception (GetErrorType e) (GetMessage e))
         (WriteBufferFromS3.set_trace
            (WriteBufferFromS3.trace s ++ [(WriteBufferFromS3.req task, Failure e)]) s)).
Proof.
  intros Htasks Hclean r. split; [|split; [|split; [|split; [|split]]]].
  - intros i entry Hi Hfail. split.
    + destruct r as [[] s'| | | |] eqn:Hr; try reflexivity.
      cbn [final_state] in Hi.
      pose proof (copy_performMultipartUpload_ok client _ _ _ _ Htasks Hclean Hr) as Hnone.
      rewrite (has_failed_upload_nth _ _ _ Hi Hfail) in Hnone. discriminate.
    + apply (aborts_follow_spec _ i entry); [|exact Hi|exact Hfail].
      apply (copy_performMultipartUpload_keeps_aborts client start_offset size s0).
      apply aborts_follow_clean. exact Hclean.
  - apply (copy_performMultipartUpload_keeps_cover client start_offset size s0).
    apply aborts_cover_clean. exact Hclean.
  - intros s. eexists. split; [apply copy_abortMultipartUpload_returns|].
    split; reflexivity.
  - intros s e w. apply copy_waitForAllBackGroundTasks_throws.
  - intros cfg script chunks w. split; [apply buffer_streaming_write_never_aborts|].
    intros Hchunks Hfailed. subst w.
    destruct (WriteBufferFromS3.streaming_write client chunks _) as [[] s'| | | |] eqn:Hrun;
      try reflexivity.
    exfalso. cbn [final_state] in Hfailed.
    destruct (buffer_streaming_write_parted client cfg script chunks s' Hchunks Hrun)
      as ((_ & _ & _ & _ & Q5) & E & _).
    specialize (Q5 Hfailed). rewrite E in Q5. inversion Q5.
  - intros task s e He. unfold WriteBufferFromS3.processUploadRequest, bind,
      WriteBufferFromS3.send. cbv zeta. rewrite He. reflexivity.
Qed.

Lemma failed_part_is_aborted_witness :
  let r := UploadHelper.performMultipartUpload (Samples.refusing_from_client 2) 0 30
             Samples.helper_with_three_parts_in_flight in
  thrown r = Some (S3Exception UNKNOWN "We encountered an internal error.") /\
  List.length (filter failed_upload (UploadHelper.trace (final_state r))) = 2%nat /\
  answered is_abort (UploadHelper.trace (final_state r)) = 3%nat /\
  returns_normally r = false /\
  exists j upload_id outcome,
    (4 < j)%nat /\
    nth_error (UploadHelper.trace (final_state r)) j
    = Some (AbortMultipartUploadRequest upload_id, outcome).
Proof.
  split; [vm_compute; reflexivity|].
  split; [vm_compute; reflexivity|].
  split; [vm_compute; reflexivity|].
  apply (proj1 (failed_part_is_aborted (Samples.refusing_from_client 2) 0 30
                  Samples.helper_with_three_parts_in_flight eq_refl eq_refl)
           4%nat
           (UploadPartRequest "upload-1" 3 10 (SourceRange 20 10),
            Failure Samples.internal_error)).
  - vm_compute. reflexivity.
  - reflexivity.
Defined.

(** ** The part numbers of the requests stay within [max_part_number] *)

Lemma ceiling_step_refl (s : WriteBufferFromS3.State) : WriteBufferFromS3.ceiling_step s s.
Proof. split; [reflexivity|auto]. Qed.

Lemma ceiling_step_trans (s1 s2 s3 : WriteBufferFromS3.State) :
  WriteBufferFromS3.ceiling_step s1 s2 -> WriteBufferFromS3.ceiling_step s2 s3 ->
  WriteBufferFromS3.ceiling_step s1 s3.
Proof.
  unfold WriteBufferFromS3.ceiling_step, WriteBufferFromS3.within_ceiling.
  intros (C1 & H1) (C2 & H2). split; [congruence|].
  intros H. apply H2, H1, H.
Qed.

(** A step that leaves the configuration alone and keeps the requests of a
    kind keeps them within the ceiling. *)
Lemma ceiling_step_intro (s s' : WriteBufferFromS3.State) :
  WriteBufferFromS3.config s' = WriteBufferFromS3.config s ->
  WriteBufferFromS3.keeps_requests
    (numbered_within (max_part_number (WriteBufferFromS3.settings (WriteBufferFromS3.config s))))
    s s' ->
  WriteBufferFromS3.ceiling_step s s'.
Proof.
  intros C H. split; [exact C|]. unfold WriteBufferFromS3.within_ceiling. rewrite C. exact H.
Qed.

Lemma ceiling_step_of_front_end {A} (c : M WriteBufferFromS3.State A) :
  preserves (keeps WriteBufferFromS3.front_end) c ->
  (forall limit, preserves (WriteBufferFromS3.keeps_requests (numbered_within limit)) c) ->
  preserves WriteBufferFromS3.ceiling_step c.
Proof.
  intros Hf Hr s. apply ceiling_step_intro; [|apply Hr].
  exact (proj1 (front_end_config _ _ (Hf s))).
Qed.

Lemma numbered_within_other (limit : Z) (r : Request) :
  is_upload r = false -> numbered_within limit r.
Proof. intros H Hr. congruence. Qed.

(** The rule of [bind] for one start state. *)
Lemma preserves_bind_at {S A B} (R : S -> S -> Prop)
    (R_trans : forall s1 s2 s3, R s1 s2 -> R s2 s3 -> R s1 s3)
    (c : M S A) (k : A -> M S B) (s : S) :
  R s (final_state (c s)) -> (forall a, preserves R (k a)) ->
  R s (final_state (bind c k s)).
Proof.
  intros Hc Hk. unfold bind. destruct (c s) as [a s1|e s1|s1|s1|s1]; try exact Hc.
  apply (R_trans _ s1); [exact Hc|apply Hk].
Qed.

Section BufferCeiling.

Variable client : Client.

Lemma buffer_fillUploadRequest_config :
  preserves (keeps WriteBufferFromS3.config) WriteBufferFromS3.fillUploadRequest.
Proof. unfold WriteBufferFromS3.fillUploadRequest. keeps_tac; reflexivity. Qed.

Lemma keeps_config_of_front_end {A} (c : M WriteBufferFromS3.State A) :
  preserves (keeps WriteBufferFromS3.front_end) c ->
  preserves (keeps WriteBufferFromS3.config) c.
Proof. intros H s. exact (proj1 (front_end_config _ _ (H s))). Qed.

Lemma buffer_writePart_config :
  preserves (keeps WriteBufferFromS3.config) (WriteBufferFromS3.writePart client).
Proof.
  pose proof buffer_fillUploadRequest_config.
  pose proof (keeps_config_of_front_end _ (buffer_pool_turn_front_end client)).
  pose proof (fun task =>
                keeps_config_of_front_end _ (buffer_processUploadRequest_front_end client task)).
  unfold WriteBufferFromS3.writePart.
  keeps_tac; try reflexivity; auto; intros s; reflexivity.
Qed.

(** [writePart] on an open multipart upload: the part it numbers beyond
    [max_part_number] is neither sent nor left waiting in the pool. *)
Lemma buffer_writePart_ceiling (s : WriteBufferFromS3.State) :
  WriteBufferFromS3.empty (WriteBufferFromS3.multipart_upload_id s) = false ->
  WriteBufferFromS3.ceiling_step s (final_state (WriteBufferFromS3.writePart client s)).
Proof.
  intros Hopen. apply ceiling_step_intro; [apply buffer_writePart_config|].
  set (limit := max_part_number (WriteBufferFromS3.settings (WriteBufferFromS3.config s))).
  destruct (Z.ltb_spec limit (wrap (WriteBufferFromS3.part_number s + 1))) as [Hbeyond|Hwithin].
  2:{ apply buffer_writePart_requests. intros _ _.
      exists (wrap (WriteBufferFromS3.part_number s + 1)).
      split; [|reflexivity]. pose proof (wrap_range (WriteBufferFromS3.part_number s + 1)) as Hr.
      unfold is_size_t in Hr. lia. }
  destruct (Z_lt_ge_dec 0 (WriteBufferFromS3.temporary_buffer s)) as [Hpos|Hsmall].
  2:{ apply buffer_writePart_requests. intros Hpos. lia. }
  destruct (after_warning_parting s) as (T0 & R0 & N0 & _ & P0 & B0).
  destruct (after_warning_background s) as (Hbg & _ & _).
  apply background_view_front_end in Hbg. destruct Hbg as (Hfe & _).
  pose proof (front_end_config _ _ Hfe) as (C0 & M0 & I0). clear Hfe.
  destruct (WriteBufferFromS3.schedule (WriteBufferFromS3.config s)) eqn:Hsched.
  - rewrite (writePart_scheduled client s Hpos Hsched). cbv zeta.
    pose proof (fillUploadRequest_cases
                  (WriteBufferFromS3.with_new_task (WriteBufferFromS3.after_warning s))) as Hc.
    cbv zeta in Hc.
    cbn [WriteBufferFromS3.with_new_task WriteBufferFromS3.multipart_upload_id
         WriteBufferFromS3.set_num_added_bg_tasks WriteBufferFromS3.set_upload_object_tasks
         WriteBufferFromS3.config WriteBufferFromS3.part_number] in Hc.
    rewrite I0, C0, M0, Hopen in Hc. cbn [negb andb] in Hc. fold limit in Hc.
    destruct (Z.ltb_spec limit (wrap (WriteBufferFromS3.part_number s + 1))); [|lia].
    rewrite Hc. cbn [final_state].
    intros (T & Q & U). unfold WriteBufferFromS3.requests_are.
    cbn. rewrite T0, R0, P0, N0. split; [exact T|]. split; [|exact U].
    apply Forall_map, Forall_app. split.
    + revert Q. apply Forall_impl. intros t Ht.
      destruct (WriteBufferFromS3.task_id t =? WriteBufferFromS3.num_added_bg_tasks s);
        [discriminate|exact Ht].
    + constructor; [|constructor]. cbn. rewrite Z.eqb_refl. discriminate.
  - rewrite (writePart_inline client s Hpos Hsched).
    pose proof (fillUploadRequest_cases (WriteBufferFromS3.after_warning s)) as Hc.
    cbv zeta in Hc. rewrite I0, C0, M0, Hopen in Hc. cbn [negb andb] in Hc. fold limit in Hc.
    destruct (Z.ltb_spec limit (wrap (WriteBufferFromS3.part_number s + 1))); [|lia].
    rewrite Hc. cbn [final_state]. apply keeps_requests_same; cbn; assumption.
Qed.

Lemma buffer_createMultipartUpload_ceiling :
  preserves WriteBufferFromS3.ceiling_step (WriteBufferFromS3.createMultipartUpload client).
Proof.
  intros s. apply ceiling_step_intro.
  - unfold WriteBufferFromS3.createMultipartUpload, bind, WriteBufferFromS3.send.
    destruct (client _ _); reflexivity.
  - apply buffer_createMultipartUpload_requests. apply numbered_within_other. reflexivity.
Qed.

Lemma buffer_waitForReadyBackGroundTasks_ceiling :
  preserves WriteBufferFromS3.ceiling_step (WriteBufferFromS3.waitForReadyBackGroundTasks client).
Proof.
  apply ceiling_step_of_front_end;
    [apply buffer_waitForReadyBackGroundTasks_front_end|].
  intros limit. apply buffer_waitForReadyBackGroundTasks_requests.
Qed.

Lemma ceiling_step_front (s s' : WriteBufferFromS3.State) :
  WriteBufferFromS3.config s' = WriteBufferFromS3.config s ->
  WriteBufferFromS3.upload_object_tasks s' = WriteBufferFromS3.upload_object_tasks s ->
  WriteBufferFromS3.trace s' = WriteBufferFromS3.trace s ->
  WriteBufferFromS3.put_object_task s' = WriteBufferFromS3.put_object_task s ->
  WriteBufferFromS3.ceiling_step s s'.
Proof.
  intros C T R U. apply ceiling_step_intro; [exact C|].
  apply keeps_requests_same; assumption.
Qed.

Ltac ceiling_tac :=
  preserve_with ceiling_step_refl ceiling_step_trans;
  try solve [apply ceiling_step_front; reflexivity | assumption].

Lemma buffer_nextImpl_ceiling :
  preserves WriteBufferFromS3.ceiling_step (WriteBufferFromS3.nextImpl client).
Proof.
  pose proof buffer_createMultipartUpload_ceiling.
  pose proof buffer_waitForReadyBackGroundTasks_ceiling.
  unfold WriteBufferFromS3.nextImpl, WriteBufferFromS3.allocateBuffer.
  apply (preserves_bind _ ceiling_step_trans); [ceiling_tac|intros off].
  destruct (off =? 0); [ceiling_tac|].
  apply (preserves_bind _ ceiling_step_trans); [ceiling_tac|intros tellp].
  apply (preserves_bind _ ceiling_step_trans); [ceiling_tac|intros _].
  apply (preserves_bind _ ceiling_step_trans); [ceiling_tac|intros _].
  apply (preserves_bind _ ceiling_step_trans); [ceiling_tac|intros _].
  apply (preserves_bind _ ceiling_step_trans); [ceiling_tac|intros upload_id].
  apply (preserves_bind _ ceiling_step_trans); [ceiling_tac|intros last].
  apply (preserves_bind _ ceiling_step_trans); [ceiling_tac|intros single].
  apply (preserves_bind _ ceiling_step_trans); [ceiling_tac|intros _].
  intros s. cbn [bind gets].
  destruct (WriteBufferFromS3.empty (WriteBufferFromS3.multipart_upload_id s)) eqn:Hopen;
    cbn [negb andb]; [apply buffer_waitForReadyBackGroundTasks_ceiling|].
  destruct (WriteBufferFromS3.upload_part_size s <? last);
    [|apply buffer_waitForReadyBackGroundTasks_ceiling].
  apply (preserves_bind_at _ ceiling_step_trans);
    [|intros _; apply buffer_waitForReadyBackGroundTasks_ceiling].
  apply (preserves_bind_at _ ceiling_step_trans);
    [apply buffer_writePart_ceiling; exact Hopen|].
  intros _ s1. apply ceiling_step_front; reflexivity.
Qed.

Lemma buffer_next_ceiling :
  preserves WriteBufferFromS3.ceiling_step (WriteBufferFromS3.next client).
Proof.
  pose proof buffer_nextImpl_ceiling.
  unfold WriteBufferFromS3.next. ceiling_tac.
Qed.

Lemma buffer_write_all_ceiling (chunks : list Z) :
  preserves WriteBufferFromS3.ceiling_step (WriteBufferFromS3.write_all client chunks).
Proof.
  pose proof buffer_next_ceiling.
  induction chunks as [|n chunks IH]; cbn [WriteBufferFromS3.write_all];
    unfold WriteBufferFromS3.write; ceiling_tac.
Qed.

Lemma buffer_preFinalize_ceiling :
  preserves WriteBufferFromS3.ceiling_step (WriteBufferFromS3.preFinalize client).
Proof.
  unfold WriteBufferFromS3.preFinalize.
  apply (preserves_bind _ ceiling_step_trans); [apply buffer_next_ceiling|intros _].
  intros s. cbn [bind gets].
  apply (preserves_bind_at _ ceiling_step_trans);
    [|intros _ s1; apply ceiling_step_front; reflexivity].
  destruct (WriteBufferFromS3.empty (WriteBufferFromS3.multipart_upload_id s)) eqn:Hopen.
  - apply (ceiling_step_of_front_end _ (makeSinglepartUpload_front_end client)).
    intros limit. apply buffer_makeSinglepartUpload_requests.
    intros r Hr. apply numbered_within_other. destruct r; try discriminate; reflexivity.
  - apply buffer_writePart_ceiling. exact Hopen.
Qed.

Lemma buffer_finalizeImpl_ceiling :
  preserves WriteBufferFromS3.ceiling_step (WriteBufferFromS3.finalizeImpl client).
Proof.
  pose proof buffer_preFinalize_ceiling.
  assert (preserves WriteBufferFromS3.ceiling_step
            (WriteBufferFromS3.waitForAllBackGroundTasks client)).
  { apply (ceiling_step_of_front_end _ (buffer_waitForAllBackGroundTasks_front_end client)).
    intros limit. apply buffer_waitForAllBackGroundTasks_requests. }
  assert (preserves WriteBufferFromS3.ceiling_step
            (WriteBufferFromS3.completeMultipartUpload client)).
  { apply (ceiling_step_of_front_end _ (buffer_completeMultipartUpload_front_end client)).
    intros limit. apply buffer_completeMultipartUpload_requests.
    apply numbered_within_other. }
  assert (preserves WriteBufferFromS3.ceiling_step
            (WriteBufferFromS3.checkObjectExists client)).
  { apply (ceiling_step_of_front_end _ (buffer_checkObjectExists_front_end client)).
    intros limit. apply buffer_checkObjectExists_requests.
    apply numbered_within_other. }
  unfold WriteBufferFromS3.finalizeImpl. ceiling_tac.
Qed.

(** Whatever the server answers and however the write ends, no part
    request with a number beyond [max_part_number] was sent or queued. *)
Lemma buffer_streaming_write_ceiling (cfg : WriteBufferFromS3.Config)
    (script : list (list WriteBufferFromS3.PoolEvent)) (chunks : list Z) :
  let limit := max_part_number (WriteBufferFromS3.settings cfg) in
  let s' := final_state
              (WriteBufferFromS3.streaming_write client chunks
                 (WriteBufferFromS3.construct cfg script)) in
  Forall (fun entry => numbered_within limit (fst entry)) (WriteBufferFromS3.trace s') /\
  Forall (fun t => WriteBufferFromS3.stage t = WriteBufferFromS3.Queued ->
                   numbered_within limit (WriteBufferFromS3.req t))
    (WriteBufferFromS3.upload_object_tasks s').
Proof.
  intros limit s'.
  assert (Hstep : preserves WriteBufferFromS3.ceiling_step
                    (WriteBufferFromS3.streaming_write client chunks)).
  { pose proof (buffer_write_all_ceiling chunks). pose proof buffer_finalizeImpl_ceiling.
    unfold WriteBufferFromS3.streaming_write. ceiling_tac. }
  destruct (Hstep (WriteBufferFromS3.construct cfg script)) as (C & H). fold s' in C, H.
  unfold WriteBufferFromS3.within_ceiling in H. rewrite C in H.
  destruct H as (T & Q & _); [|split; assumption].
  split; [constructor|]. split; [constructor|]. intros t Ht. discriminate.
Qed.

(** The part that would take the counter beyond [max_part_number] is
    refused before anything is sent, and leaves the counter beyond it. *)
Lemma writePart_refused_at_ceiling (s : WriteBufferFromS3.State) :
  WriteBufferFromS3.empty (WriteBufferFromS3.multipart_upload_id s) = false ->
  0 < WriteBufferFromS3.temporary_buffer s ->
  max_part_number (WriteBufferFromS3.settings (WriteBufferFromS3.config s))
  < wrap (WriteBufferFromS3.part_number s + 1) ->
  exists e s',
    WriteBufferFromS3.writePart client s = Throw e s' /\
    kind_of e = ConfigInvalid /\
    WriteBufferFromS3.trace s' = WriteBufferFromS3.trace s /\
    WriteBufferFromS3.part_number s' = wrap (WriteBufferFromS3.part_number s + 1).
Proof.
  intros Hopen Hsize Hbeyond.
  destruct (after_warning_background s) as (Hbg & Htr & _).
  apply background_view_front_end in Hbg. destruct Hbg as (Hfe & _).
  pose proof (front_end_config _ _ Hfe) as (Hcfg & Hpn & Hid).
  destruct (WriteBufferFromS3.schedule (WriteBufferFromS3.config s)) eqn:Hsched.
  - rewrite (writePart_scheduled client s Hsize Hsched).
    pose proof (fillUploadRequest_cases
                  (WriteBufferFromS3.with_new_task (WriteBufferFromS3.after_warning s))) as Hc.
    cbv zeta in Hc.
    cbn [WriteBufferFromS3.with_new_task WriteBufferFromS3.multipart_upload_id
         WriteBufferFromS3.set_num_added_bg_tasks WriteBufferFromS3.set_upload_object_tasks
         WriteBufferFromS3.config WriteBufferFromS3.part_number] in Hc.
    rewrite Hid, Hcfg, Hpn, Hopen in Hc. cbn [negb andb] in Hc.
    destruct (Z.ltb_spec (max_part_number (WriteBufferFromS3.settings (WriteBufferFromS3.config s)))
                (wrap (WriteBufferFromS3.part_number s + 1))); [|lia].
    rewrite Hc. eexists. eexists. split; [reflexivity|]. split; [reflexivity|].
    cbn. rewrite Htr. split; reflexivity.
  - rewrite (writePart_inline client s Hsize Hsched).
    pose proof (fillUploadRequest_cases (WriteBufferFromS3.after_warning s)) as Hc.
    cbv zeta in Hc.
    rewrite Hid, Hcfg, Hpn, Hopen in Hc. cbn [negb andb] in Hc.
    destruct (Z.ltb_spec (max_part_number (WriteBufferFromS3.settings (WriteBufferFromS3.config s)))
                (wrap (WriteBufferFromS3.part_number s + 1))); [|lia].
    rewrite Hc. eexists. eexists. split; [reflexivity|]. split; [reflexivity|].
    cbn. rewrite Htr. split; reflexivity.
Qed.

End BufferCeiling.

(** C6 (amended). In a streaming write every part request that is sent, or
    waits in the thread pool to be sent, carries a part number within
    [max_part_number], however the write ends; the part counter is within
    [max_part_number] after every write and every finalization that
    returned; and when the next part would take the counter beyond
    [max_part_number], [writePart] raises an exception of kind
    [ConfigInvalid], has sent nothing, and leaves the counter at the number
    it refused, beyond [max_part_number]. *)
Theorem part_number_within_ceiling (client : Client) :
  (forall cfg script chunks,
     let limit := max_part_number (WriteBufferFromS3.settings cfg) in
     let s' := final_state
                 (WriteBufferFromS3.streaming_write client chunks
                    (WriteBufferFromS3.construct cfg script)) in
     Forall (fun entry => numbered_within limit (fst entry)) (WriteBufferFromS3.trace s') /\
     Forall (fun t => WriteBufferFromS3.stage t = WriteBufferFromS3.Queued ->
                      numbered_within limit (WriteBufferFromS3.req t))
       (WriteBufferFromS3.upload_object_tasks s')) /\
  (forall cfg script chunks s',
     0 <= max_part_number (WriteBufferFromS3.settings cfg) ->
     WriteBufferFromS3.write_all client chunks (WriteBufferFromS3.construct cfg script)
     = Ok tt s' ->
     WriteBufferFromS3.part_number s' <= max_part_number (WriteBufferFromS3.settings cfg)) /\
  (forall cfg script chunks s',
     0 <= max_part_number (WriteBufferFromS3.settings cfg) ->
     WriteBufferFromS3.streaming_write client chunks (WriteBufferFromS3.construct cfg script)
     = Ok tt s' ->
     WriteBufferFromS3.part_number s' <= max_part_number (WriteBufferFromS3.settings cfg)) /\
  (forall s s' request,
     WriteBufferFromS3.empty (WriteBufferFromS3.multipart_upload_id s) = false ->
     WriteBufferFromS3.fillUploadRequest s = Ok request s' ->
     WriteBufferFromS3.part_number s'
     <= max_part_number (WriteBufferFromS3.settings (WriteBufferFromS3.config s')) /\
     part_number_of request = static_cast_int (WriteBufferFromS3.part_number s')) /\
  (forall s,
     WriteBufferFromS3.empty (WriteBufferFromS3.multipart_upload_id s) = false ->
     0 < WriteBufferFromS3.temporary_buffer s ->
     max_part_number (WriteBufferFromS3.settings (WriteBufferFromS3.config s))
     < wrap (WriteBufferFromS3.part_number s + 1) ->
     exists e s',
       WriteBufferFromS3.writePart client s = Throw e s' /\
       kind_of e = ConfigInvalid /\
       WriteBufferFromS3.trace s' = WriteBufferFromS3.trace s /\
       WriteBufferFromS3.part_number s' = wrap (WriteBufferFromS3.part_number s + 1)).
Proof.
  split; [|split; [|split; [|split]]].
  - intros cfg script chunks. apply buffer_streaming_write_ceiling.
  - intros cfg script chunks s' Hmax H.
    destruct (write_all_counted client chunks _ _ _ H) as [_ [P|P]].
    + rewrite P. exact Hmax.
    + exact P.
  - intros cfg script chunks s' Hmax H.
    destruct (streaming_write_counted client chunks _ _ _ H) as [_ [P|P]].
    + rewrite P. exact Hmax.
    + exact P.
  - intros s s' request Hopen Hfill.
    destruct (fillUploadRequest_within_ceiling s s' request Hopen Hfill)
      as (_ & Hle & _ & _ & _ & ->).
    split; [exact Hle|reflexivity].
  - intros s Hopen Hsize Hbeyond.
    exact (writePart_refused_at_ceiling client s Hopen Hsize Hbeyond).
Qed.

Lemma part_number_within_ceiling_witness :
  (exists e s',
     WriteBufferFromS3.writePart Samples.accepting_client (Samples.buffer_at_ceiling true)
     = Throw e s' /\
     kind_of e = ConfigInvalid /\
     WriteBufferFromS3.trace s' = [] /\
     WriteBufferFromS3.part_number s' = 6) /\
  WriteBufferFromS3.part_number
    (final_state
       (WriteBufferFromS3.write_all Samples.accepting_client [15; 15; 15]
          (WriteBufferFromS3.construct Samples.scheduled_buffer [])))
  <= 5.
Proof.
  split.
  - apply (proj2 (proj2 (proj2 (proj2 (part_number_within_ceiling Samples.accepting_client))))
             (Samples.buffer_at_ceiling true)).
    + reflexivity.
    + simpl. lia.
    + vm_compute. reflexivity.
  - apply (proj1 (proj2 (part_number_within_ceiling Samples.accepting_client))
             Samples.scheduled_buffer [] [15; 15; 15]).
    + simpl. lia.
    + vm_compute. reflexivity.
Defined.

(** C6, as stated, fails for the counter: the write that is refused at the
    ceiling has already incremented [part_number], which is left beyond
    [max_part_number], with the multipart upload open. *)
Lemma part_number_exceeds_ceiling :
  let cfg := WriteBufferFromS3.mkConfig Samples.small_policy false 1 false in
  let r := WriteBufferFromS3.streaming_write Samples.accepting_client
             [51; 51; 51; 51; 51; 51] (WriteBufferFromS3.construct cfg []) in
  option_map kind_of (thrown r) = Some ConfigInvalid /\
  WriteBufferFromS3.empty (WriteBufferFromS3.multipart_upload_id (final_state r)) = false /\
  max_part_number (WriteBufferFromS3.settings cfg) = 5 /\
  WriteBufferFromS3.part_number (final_state r) = 6 /\
  answered is_upload (WriteBufferFromS3.trace (final_state r)) = 5%nat.
Proof. vm_compute. repeat split; reflexivity. Qed.

(** ** A part that is handed to the thread pool *)

Lemma find_first_of_number (id : Z) (pre post : list WriteBufferFromS3.UploadPartTask)
    (task : WriteBufferFromS3.UploadPartTask) :
  Forall (fun t => WriteBufferFromS3.task_id t <> id) pre ->
  WriteBufferFromS3.task_id task = id ->
  find (fun t => WriteBufferFromS3.task_id t =? id) (pre ++ task :: post) = Some task.
Proof.
  intros Hpre Hid. induction Hpre as [|t pre Ht Hpre IH]; cbn [app find].
  - rewrite Hid, Z.eqb_refl. reflexivity.
  - destruct (Z.eqb_spec (WriteBufferFromS3.task_id t) id); [contradiction|exact IH].
Qed.

(** What the closure of a task does when the thread pool runs it: it sends
    the request of the task and keeps the tag, or the exception, in the
    task. *)
Lemma buffer_upload_task_runs_sends (client : Client) (id : Z)
    (task : WriteBufferFromS3.UploadPartTask) (s : WriteBufferFromS3.State) :
  find (fun t => WriteBufferFromS3.task_id t =? id) (WriteBufferFromS3.upload_object_tasks s)
  = Some task ->
  WriteBufferFromS3.stage task = WriteBufferFromS3.Queued ->
  let answer := client (WriteBufferFromS3.trace s) (WriteBufferFromS3.req task) in
  let kept := match answer with
              | Success etag => WriteBufferFromS3.with_tag etag
              | Failure e =>
                  WriteBufferFromS3.with_exception
                    (S3Exception (GetErrorType e) (GetMessage e))
              end in
  WriteBufferFromS3.upload_task_runs client id s
  = Ok tt (WriteBufferFromS3.task_finish_notify id
             (WriteBufferFromS3.update_task id kept
                (WriteBufferFromS3.set_trace
                   (WriteBufferFromS3.trace s ++ [(WriteBufferFromS3.req task, answer)]) s))).
Proof.
  intros Hfind Hstage answer kept. unfold WriteBufferFromS3.upload_task_runs.
  rewrite Hfind, Hstage.
  unfold WriteBufferFromS3.processUploadRequest, bind, WriteBufferFromS3.send. cbv zeta.
  subst kept. fold answer. destruct answer as [etag|e]; reflexivity.
Qed.

Section BufferHandedOver.

Variable client : Client.
Variable id : Z.
Variable request : Request.
Variable before : Trace.

Lemma handed_over_grows (s s' : WriteBufferFromS3.State) :
  WriteBufferFromS3.upload_object_tasks s' = WriteBufferFromS3.upload_object_tasks s ->
  WriteBufferFromS3.trace_grows s s' ->
  WriteBufferFromS3.handed_over id request before s ->
  WriteBufferFromS3.handed_over id request before s'.
Proof.
  intros Htasks (extra & Htrace) (pre & task & post & sent & Hq & Hpre & Hid & Hreq & Ht & Hst).
  exists pre, task, post, (sent ++ extra).
  rewrite Htasks, Htrace, Ht, app_assoc. repeat (split; [assumption || reflexivity|]).
  destruct Hst as [Hst | (Hst & answer & Hin)]; [left; exact Hst|right].
  split; [exact Hst|]. exists answer. apply in_or_app. left. exact Hin.
Qed.

Lemma buffer_upload_task_runs_handed_over (id' : Z) (s : WriteBufferFromS3.State) :
  WriteBufferFromS3.handed_over id request before s ->
  WriteBufferFromS3.handed_over id request before
    (final_state (WriteBufferFromS3.upload_task_runs client id' s)).
Proof.
  intros Hs.
  destruct (find (fun t => WriteBufferFromS3.task_id t =? id')
              (WriteBufferFromS3.upload_object_tasks s)) as [found|] eqn:Hfind.
  2:{ unfold WriteBufferFromS3.upload_task_runs. rewrite Hfind. exact Hs. }
  destruct (WriteBufferFromS3.stage found) eqn:Hstage;
    try (unfold WriteBufferFromS3.upload_task_runs; rewrite Hfind, Hstage; exact Hs).
  rewrite (buffer_upload_task_runs_sends client id' found s Hfind Hstage). cbv zeta.
  cbn [final_state].
  set (answer := client (WriteBufferFromS3.trace s) (WriteBufferFromS3.req found)).
  set (kept := match answer with
               | Success etag => WriteBufferFromS3.with_tag etag
               | Failure e =>
                   WriteBufferFromS3.with_exception (S3Exception (GetErrorType e) (GetMessage e))
               end).
  assert (Hkept : forall t, WriteBufferFromS3.task_id (kept t) = WriteBufferFromS3.task_id t /\
                            WriteBufferFromS3.req (kept t) = WriteBufferFromS3.req t /\
                            WriteBufferFromS3.stage (kept t) = WriteBufferFromS3.stage t).
  { intros t. subst kept. destruct answer; repeat split. }
  set (G := fun t => if WriteBufferFromS3.task_id t =? id'
                     then WriteBufferFromS3.finished (kept t) else t).
  assert (HG : forall l,
             map (fun t => if WriteBufferFromS3.task_id t =? id'
                           then WriteBufferFromS3.finished t else t)
                 (map (fun t => if WriteBufferFromS3.task_id t =? id' then kept t else t) l)
             = map G l).
  { intros l. rewrite map_map. apply map_ext. intros t. subst G. cbv beta.
    destruct (WriteBufferFromS3.task_id t =? id') eqn:He.
    - rewrite (proj1 (Hkept t)), He. reflexivity.
    - rewrite He. reflexivity. }
  assert (HGid : forall t, WriteBufferFromS3.task_id (G t) = WriteBufferFromS3.task_id t).
  { intros t. subst G. cbv beta. destruct (_ =? _); [|reflexivity].
    cbn. apply Hkept. }
  destruct Hs as (pre & task & post & sent & Hq & Hpre & Hid & Hreq & Ht & Hst).
  exists (map G pre), (G task), (map G post),
    (sent ++ [(WriteBufferFromS3.req found, answer)]).
  unfold WriteBufferFromS3.task_finish_notify, WriteBufferFromS3.update_task.
  cbn [WriteBufferFromS3.upload_object_tasks WriteBufferFromS3.trace
       WriteBufferFromS3.set_upload_object_tasks WriteBufferFromS3.set_trace
       WriteBufferFromS3.set_num_finished_bg_tasks].
  rewrite HG, Hq, map_app, Ht, <- app_assoc. cbn [map].
  split; [reflexivity|]. split.
  { apply Forall_map. revert Hpre. apply Forall_impl. intros t Hne. rewrite HGid. exact Hne. }
  split; [rewrite HGid; exact Hid|].
  destruct (Z.eqb_spec id' id) as [->|Hother].
  - (* the closure of this very task *)
    rewrite Hq, (find_first_of_number id pre post task Hpre Hid) in Hfind.
    injection Hfind as <-.
    subst G. cbv beta. rewrite Hid, Z.eqb_refl.
    split; [cbn; rewrite (proj1 (proj2 (Hkept task))); exact Hreq|].
    split; [reflexivity|]. right. split; [reflexivity|].
    exists answer. apply in_or_app. right. left. rewrite Hreq. reflexivity.
  - subst G. cbv beta. rewrite Hid.
    destruct (Z.eqb_spec id id'); [congruence|].
    split; [exact Hreq|]. split; [reflexivity|].
    destruct Hst as [Hst | (Hst & o & Hin)]; [left; exact Hst|right].
    split; [exact Hst|]. exists o. apply in_or_app. left. exact Hin.
Qed.

Lemma buffer_pool_events_handed_over (evs : list WriteBufferFromS3.PoolEvent) :
  forall s,
    WriteBufferFromS3.handed_over id request before s ->
    WriteBufferFromS3.handed_over id request before
      (final_state (WriteBufferFromS3.pool_events client evs s)).
Proof.
  induction evs as [|ev evs IH]; intros s Hs; [exact Hs|].
  cbn [WriteBufferFromS3.pool_events]. rewrite final_state_bind.
  assert (H1 : WriteBufferFromS3.handed_over id request before
                 (final_state (WriteBufferFromS3.pool_event client ev s))).
  { destruct ev as [id'|]; cbn [WriteBufferFromS3.pool_event].
    - apply buffer_upload_task_runs_handed_over. exact Hs.
    - apply (handed_over_grows s); [|apply buffer_put_task_runs_grows|exact Hs].
      pose proof (buffer_put_task_runs_queue_state client s) as Hq.
      unfold keeps, WriteBufferFromS3.queue_state in Hq. injection Hq. auto. }
  destruct (WriteBufferFromS3.pool_event client ev s) as [[] s1|e s1|s1|s1|s1];
    cbn [final_state] in *; try exact H1.
  apply IH. exact H1.
Qed.

Lemma buffer_pool_turn_handed_over (s : WriteBufferFromS3.State) :
  WriteBufferFromS3.handed_over id request before s ->
  WriteBufferFromS3.handed_over id request before
    (final_state (WriteBufferFromS3.pool_turn client s)).
Proof.
  intros Hs. unfold WriteBufferFromS3.pool_turn. cbn [bind gets].
  destruct (WriteBufferFromS3.pool_script s) as [|evs rest]; [exact Hs|].
  cbn [bind modify]. apply buffer_pool_events_handed_over.
  apply (handed_over_grows s); [reflexivity|apply trace_grows_same; reflexivity|exact Hs].
Qed.

End BufferHandedOver.

(** The first task of the number [id] in a queue that ends with the task
    just added under that number, once [writePart] has given the request
    [r] to the tasks of the number and marked them as queued. *)
Lemma first_of_number_queued (id : Z) (r : Request)
    (tasks : list WriteBufferFromS3.UploadPartTask) :
  exists pre task post,
    map (fun t => if WriteBufferFromS3.task_id t =? id
                  then WriteBufferFromS3.with_stage WriteBufferFromS3.Queued
                         (WriteBufferFromS3.with_req r t)
                  else t)
      (tasks ++ [WriteBufferFromS3.new_task id])
    = pre ++ task :: post /\
    Forall (fun t => WriteBufferFromS3.task_id t <> id) pre /\
    WriteBufferFromS3.task_id task = id /\ WriteBufferFromS3.req task = r /\
    WriteBufferFromS3.stage task = WriteBufferFromS3.Queued.
Proof.
  induction tasks as [|t tasks IH]; cbn [app map].
  - cbn [WriteBufferFromS3.new_task WriteBufferFromS3.task_id]. rewrite Z.eqb_refl.
    eexists [], _, []. split; [reflexivity|]. split; [constructor|]. repeat split.
  - destruct (Z.eqb_spec (WriteBufferFromS3.task_id t) id) as [Heq|Hne].
    + eexists [], _, _. split; [reflexivity|]. split; [constructor|].
      split; [exact Heq|]. split; reflexivity.
    + destruct IH as (pre & task & post & Hmap & Hpre & Hid & Hreq & Hstage).
      exists (t :: pre), task, post. rewrite Hmap.
      split; [reflexivity|]. split; [constructor; assumption|]. repeat split; assumption.
Qed.

Lemma queued_task_handed_over (id : Z) (r : Request) (s : WriteBufferFromS3.State)
    (tasks : list WriteBufferFromS3.UploadPartTask) (before : Trace) :
  WriteBufferFromS3.upload_object_tasks s = tasks ++ [WriteBufferFromS3.new_task id] ->
  WriteBufferFromS3.trace s = before ->
  WriteBufferFromS3.handed_over id r before
    (WriteBufferFromS3.update_task id (WriteBufferFromS3.with_stage WriteBufferFromS3.Queued)
       (WriteBufferFromS3.update_task id (WriteBufferFromS3.with_req r) s)).
Proof.
  intros Htasks <-.
  rewrite buffer_update_task_twice by reflexivity.
  destruct (first_of_number_queued id r tasks)
    as (pre & task & post & Hmap & Hpre & Hid & Hreq & Hstage).
  exists pre, task, post, [].
  unfold WriteBufferFromS3.update_task.
  cbn [WriteBufferFromS3.upload_object_tasks WriteBufferFromS3.set_upload_object_tasks
       WriteBufferFromS3.trace].
  rewrite Htasks, Hmap, app_nil_r.
  repeat (split; [assumption || reflexivity|]). left. exact Hstage.
Qed.



(** ** The ledger of the parts: one entry of the payload for every part *)

Lemma upload_entries_app (t1 t2 : Trace) :
  upload_entries (t1 ++ t2) = upload_entries t1 ++ upload_entries t2.
Proof. apply filter_app. Qed.

Lemma upload_entries_other (t : Trace) :
  Forall (fun entry => is_upload (fst entry) = false) t -> upload_entries t = [].
Proof.
  induction 1 as [|entry t He Hall IH]; [reflexivity|].
  unfold upload_entries in *. cbn [filter]. rewrite He. exact IH.
Qed.

Lemma has_failed_upload_app_false (t1 t2 : Trace) :
  has_failed_upload (t1 ++ t2) = false ->
  has_failed_upload t1 = false /\ has_failed_upload t2 = false.
Proof. rewrite has_failed_upload_app. apply orb_false_elim. Qed.

Lemma completed_parts_from_app (tags : list string) (x : string) :
  forall i,
    UploadHelper.completed_parts_from i (tags ++ [x])
    = UploadHelper.completed_parts_from i tags
      ++ [mkCompletedPart x (static_cast_int (i + Z.of_nat (List.length tags) + 1))].
Proof.
  induction tags as [|t tags IH]; intros i; cbn [app UploadHelper.completed_parts_from List.length].
  - rewrite Z.add_0_r. reflexivity.
  - rewrite IH. cbn [app].
    replace (i + 1 + Z.of_nat (List.length tags) + 1)
      with (i + Z.of_nat (S (List.length tags)) + 1) by lia.
    reflexivity.
Qed.

Lemma completed_parts_app (tags : list string) (x : string) :
  UploadHelper.completed_parts (tags ++ [x])
  = UploadHelper.completed_parts tags
    ++ [mkCompletedPart x (static_cast_int (Z.of_nat (List.length tags) + 1))].
Proof. unfold UploadHelper.completed_parts. rewrite completed_parts_from_app. reflexivity. Qed.

Lemma completed_parts_from_numbered (tags : list string) :
  forall k i p,
    nth_error (UploadHelper.completed_parts_from k tags) i = Some p ->
    PartNumber p = static_cast_int (k + Z.of_nat i + 1).
Proof.
  induction tags as [|t tags IH]; intros k i p H; cbn [UploadHelper.completed_parts_from] in H.
  - destruct i; discriminate.
  - destruct i as [|i]; cbn [nth_error] in H.
    + injection H as <-. cbn. rewrite Z.add_0_r. reflexivity.
    + rewrite (IH _ _ _ H). f_equal. lia.
Qed.

Lemma completed_parts_numbered_from_one (tags : list string) :
  numbered_from_one (UploadHelper.completed_parts tags).
Proof. intros i p H. apply (completed_parts_from_numbered tags 0 i p H). Qed.

(** A step that changes one task. *)
Lemma flat_map_update_nth_same {A B} (g : A -> list B) (i : nat) (f : A -> A) (l : list A) :
  (forall x, nth_error l i = Some x -> g (f x) = g x) ->
  flat_map g (UploadHelper.update_nth i f l) = flat_map g l.
Proof.
  revert i. induction l as [|x l IH]; intros i Hf; [destruct i; reflexivity|].
  destruct i as [|i]; cbn [UploadHelper.update_nth flat_map].
  - rewrite (Hf x eq_refl). reflexivity.
  - rewrite IH; [reflexivity|]. intros y Hy. apply Hf. exact Hy.
Qed.

Lemma flat_map_update_nth_new {A B} (g : A -> list B) (i : nat) (f : A -> A) (l : list A)
    (x : A) (y : B) :
  nth_error l i = Some x -> g x = [] -> g (f x) = [y] ->
  Permutation (y :: flat_map g l) (flat_map g (UploadHelper.update_nth i f l)).
Proof.
  revert i. induction l as [|z l IH]; intros i Hi Hx Hfx; [destruct i; discriminate|].
  destruct i as [|i]; cbn [UploadHelper.update_nth flat_map nth_error] in *.
  - injection Hi as ->. rewrite Hx, Hfx. reflexivity.
  - apply Permutation_trans with (g z ++ y :: flat_map g l).
    + apply Permutation_middle.
    + apply Permutation_app_head. apply IH; assumption.
Qed.

Lemma update_nth_twice {A} (i : nat) (f g : A -> A) (l : list A) :
  UploadHelper.update_nth i g (UploadHelper.update_nth i f l)
  = UploadHelper.update_nth i (fun x => g (f x)) l.
Proof.
  revert i. induction l as [|x l IH]; intros i; [destruct i; reflexivity|].
  destruct i; cbn; [reflexivity|]. rewrite IH. reflexivity.
Qed.

Lemma keeps_returned_refl (s : UploadHelper.State) : UploadHelper.keeps_returned s s.
Proof. split; [lia|]. intros i t Hi Hst. exists t. split; assumption. Qed.

Lemma keeps_returned_trans (s1 s2 s3 : UploadHelper.State) :
  UploadHelper.keeps_returned s1 s2 -> UploadHelper.keeps_returned s2 s3 ->
  UploadHelper.keeps_returned s1 s3.
Proof.
  intros (L1 & H1) (L2 & H2). split; [lia|].
  intros i t Hi Hst. destruct (H1 i t Hi Hst) as (t' & Hi' & Hst'). exact (H2 i t' Hi' Hst').
Qed.

Lemma keeps_returned_same (s s' : UploadHelper.State) :
  UploadHelper.bg_tasks s' = UploadHelper.bg_tasks s -> UploadHelper.keeps_returned s s'.
Proof. intros H. unfold UploadHelper.keeps_returned. rewrite H. apply keeps_returned_refl. Qed.

Lemma keeps_returned_update_task (i : nat)
    (f : UploadHelper.UploadPartTask -> UploadHelper.UploadPartTask) (s : UploadHelper.State) :
  (forall t, nth_error (UploadHelper.bg_tasks s) i = Some t ->
             UploadHelper.stage t = UploadHelper.Returned ->
             UploadHelper.stage (f t) = UploadHelper.Returned) ->
  UploadHelper.keeps_returned s (UploadHelper.update_task i f s).
Proof.
  intros Hf. unfold UploadHelper.keeps_returned, UploadHelper.update_task.
  cbn [UploadHelper.bg_tasks UploadHelper.set_bg_tasks]. rewrite update_nth_length.
  split; [lia|]. intros j t Hj Hst.
  destruct (Nat.eq_dec i j) as [->|Hij].
  - exists (f t). rewrite update_nth_same, Hj. split; [reflexivity|apply Hf; assumption].
  - exists t. rewrite (update_nth_other i j f _ Hij). split; assumption.
Qed.

Lemma ledger_step_refl (s : UploadHelper.State) : UploadHelper.ledger_step s s.
Proof. split; [apply keeps_returned_refl|]. intros H. split; [exact H|auto]. Qed.

Lemma ledger_step_trans (s1 s2 s3 : UploadHelper.State) :
  UploadHelper.ledger_step s1 s2 -> UploadHelper.ledger_step s2 s3 ->
  UploadHelper.ledger_step s1 s3.
Proof.
  intros (K1 & H1) (K2 & H2). split; [exact (keeps_returned_trans _ _ _ K1 K2)|].
  intros H3. destruct (H2 H3) as (F2 & L2). destruct (H1 F2) as (F1 & L1).
  split; [exact F1|]. intros L. apply L2, L1, L.
Qed.

(** A step that sends no part request and leaves the tasks, the tags and
    the flag alone. *)
Lemma ledger_step_quiet (s s' : UploadHelper.State) (sent : Trace) :
  UploadHelper.trace s' = UploadHelper.trace s ++ sent ->
  Forall (fun entry => is_upload (fst entry) = false) sent ->
  UploadHelper.bg_tasks s' = UploadHelper.bg_tasks s ->
  UploadHelper.part_tags s' = UploadHelper.part_tags s ->
  UploadHelper.multipart_upload_aborted s' = UploadHelper.multipart_upload_aborted s ->
  UploadHelper.config s' = UploadHelper.config s ->
  UploadHelper.ledger_step s s'.
Proof.
  intros Ht Hsent Hb Hp Ha Hc. split; [apply keeps_returned_same; exact Hb|].
  intros Hf. rewrite Ht in Hf. apply has_failed_upload_app_false in Hf.
  split; [exact (proj1 Hf)|].
  unfold UploadHelper.ledger. rewrite Ht, Hb, Hp, Ha, Hc, upload_entries_app,
    (upload_entries_other sent Hsent), app_nil_r.
  auto.
Qed.

Ltac ledger_tac :=
  return_with ledger_step_refl ledger_step_trans;
  try solve [ apply (ledger_step_quiet _ _ []); [symmetry; apply app_nil_r|constructor| | | |];
              reflexivity
            | assumption ].

Section CopyLedger.

Variable client : Client.

Lemma copy_task_begins_ledger (i : nat) :
  returning UploadHelper.ledger_step (UploadHelper.task_begins i).
Proof.
  intros s [] s' H. unfold UploadHelper.task_begins in H.
  destruct (nth_error (UploadHelper.bg_tasks s) i) as [task|] eqn:Hi;
    [|ok_inv H; apply ledger_step_refl].
  destruct (UploadHelper.stage task) eqn:Hstage; try (ok_inv H; apply ledger_step_refl).
  destruct (UploadHelper.multipart_upload_aborted s) eqn:Hab; ok_inv H.
  - split.
    + unfold UploadHelper.task_finish_notify.
      apply (keeps_returned_trans _ (UploadHelper.update_task i UploadHelper.finished s));
        [apply keeps_returned_update_task; intros; reflexivity|apply keeps_returned_same; reflexivity].
    + intros Hf. split; [exact Hf|]. intros (Hfalse & _). congruence.
  - split; [apply keeps_returned_update_task; intros t Ht Hr; congruence|].
    intros Hf. split; [exact Hf|].
    intros (A & S & I & P & N & L). unfold UploadHelper.ledger, UploadHelper.update_task.
    cbn [UploadHelper.multipart_upload_aborted UploadHelper.bg_tasks UploadHelper.config
         UploadHelper.part_tags UploadHelper.trace UploadHelper.set_bg_tasks].
    split; [exact A|]. split.
    { apply Forall_update_nth; [|exact S]. intros t _ (E & _ & R). repeat split; try assumption.
      discriminate. }
    split.
    { intros Hs. rewrite (I Hs) in Hi. destruct i; discriminate. }
    split; [exact P|]. split.
    { intros j t r Hj Hr. destruct (Nat.eq_dec i j) as [->|Hij].
      - rewrite update_nth_same, Hi in Hj. injection Hj as <-. apply (N j task r Hi Hr).
      - rewrite (update_nth_other i j _ _ Hij) in Hj. apply (N j t r Hj Hr). }
    unfold UploadHelper.returned_parts in *.
    rewrite flat_map_update_nth_same; [exact L|].
    intros t Ht. rewrite Hi in Ht. injection Ht as <-. cbn. rewrite Hstage. reflexivity.
Qed.

Lemma copy_task_ends_ledger (i : nat) :
  returning UploadHelper.ledger_step (UploadHelper.task_ends client i).
Proof.
  intros s [] s' H. unfold UploadHelper.task_ends in H.
  destruct (nth_error (UploadHelper.bg_tasks s) i) as [task|] eqn:Hi;
    [|ok_inv H; apply ledger_step_refl].
  destruct (UploadHelper.stage task) eqn:Hstage; try (ok_inv H; apply ledger_step_refl).
  unfold UploadHelper.processUploadTask_request in H.
  destruct (UploadHelper.req task) as [r|] eqn:Hreq; [|discriminate].
  unfold UploadHelper.processUploadPartRequest, bind, gets, UploadHelper.send in H.
  cbv zeta in H.
  destruct (client (UploadHelper.trace s) r) as [etag|e] eqn:Hanswer.
  - cbn [ret] in H. ok_inv H.
    assert (Hkeeps : forall s0 t,
               nth_error (UploadHelper.bg_tasks s0) i = Some t ->
               UploadHelper.stage t = UploadHelper.Returned ->
               UploadHelper.stage (UploadHelper.with_tag etag t) = UploadHelper.Returned)
      by (intros s0 t _ Ht; exact Ht).
    split.
    { unfold UploadHelper.task_finish_notify.
      eapply keeps_returned_trans; [|apply keeps_returned_same; reflexivity].
      eapply keeps_returned_trans; [|apply keeps_returned_update_task; intros; reflexivity].
      eapply keeps_returned_trans; [|apply keeps_returned_update_task; apply Hkeeps].
      apply keeps_returned_same. reflexivity. }
    unfold UploadHelper.task_finish_notify, UploadHelper.update_task.
    cbn [UploadHelper.trace UploadHelper.bg_tasks UploadHelper.set_bg_tasks
         UploadHelper.set_trace UploadHelper.set_num_finished_bg_tasks
         UploadHelper.with_tag UploadHelper.tag].
    intros Hf. apply has_failed_upload_app_false in Hf. split; [exact (proj1 Hf)|].
    intros (A & S & I & P & N & L). unfold UploadHelper.ledger.
    cbn [UploadHelper.multipart_upload_aborted UploadHelper.bg_tasks UploadHelper.config
         UploadHelper.part_tags UploadHelper.trace UploadHelper.set_bg_tasks
         UploadHelper.set_trace UploadHelper.set_num_finished_bg_tasks].
    rewrite Forall_forall in S.
    destruct (S task (nth_error_In _ _ Hi)) as (E & _ & r' & Hr' & Hup).
    rewrite Hreq in Hr'. injection Hr' as <-.
    split; [exact A|]. split.
    { apply Forall_update_nth.
      - intros t _ (E1 & _ & R1). repeat split; try assumption. discriminate.
      - apply Forall_update_nth; [|apply Forall_forall; exact S].
        intros t _ T. exact T. }
    split.
    { intros Hs. rewrite (I Hs) in Hi. destruct i; discriminate. }
    split; [exact P|]. split.
    { intros j t r0 Hj Hr0. destruct (Nat.eq_dec i j) as [->|Hij].
      - rewrite !update_nth_same, Hi in Hj. injection Hj as <-. apply (N j task r0 Hi Hr0).
      - rewrite !(update_nth_other i j _ _ Hij) in Hj. apply (N j t r0 Hj Hr0). }
    rewrite upload_entries_app, map_app. unfold upload_entries at 2. cbn [filter fst].
    rewrite Hup. cbn [map completed_of fst snd].
    eapply Permutation_trans; [apply Permutation_app_tail; exact L|].
    rewrite <- app_assoc.
    apply Permutation_app_head.
    eapply Permutation_trans; [apply Permutation_sym, Permutation_cons_append|].
    unfold UploadHelper.returned_parts.
    rewrite update_nth_twice.
    apply (flat_map_update_nth_new _ i _ _ task); [exact Hi| |].
    + rewrite Hstage. reflexivity.
    + cbn. rewrite Hreq. reflexivity.
  - cbn [UploadHelper.abortMultipartUpload bind gets modify UploadHelper.send] in H.
    assert (Hs' : exists x f,
               s' = UploadHelper.task_finish_notify i
                      (UploadHelper.update_task i f
                         (UploadHelper.set_multipart_upload_aborted true
                            (UploadHelper.set_trace
                               ((UploadHelper.trace s ++ [(r, Failure e)]) ++ [x]) s))) /\
               forall t, UploadHelper.stage t = UploadHelper.Returned ->
                         UploadHelper.stage (f t) = UploadHelper.Returned).
    { destruct (UploadHelper.helper_class (UploadHelper.config s)); cbn in H; ok_inv H;
        eexists; eexists; (split; [reflexivity|]); intros t Ht; exact Ht. }
    destruct Hs' as (x & f & -> & Hf). split.
    { unfold UploadHelper.task_finish_notify.
      eapply keeps_returned_trans; [|apply keeps_returned_same; reflexivity].
      eapply keeps_returned_trans; [|apply keeps_returned_update_task; intros; reflexivity].
      eapply keeps_returned_trans; [|apply keeps_returned_update_task; intros t _; apply Hf].
      apply keeps_returned_same. reflexivity. }
    cbn. intros Hfail. rewrite !has_failed_upload_app in Hfail.
    apply orb_false_elim in Hfail. destruct Hfail as [Hfail _].
    apply orb_false_elim in Hfail. destruct Hfail as [Hclean Hfail].
    split; [exact Hclean|]. intros (_ & S & _). exfalso.
    rewrite Forall_forall in S.
    destruct (S task (nth_error_In _ _ Hi)) as (_ & _ & r' & Hr' & Hup).
    rewrite Hreq in Hr'. injection Hr' as <-.
    assert (Hbad : failed_upload (r, Failure e) = true).
    { unfold failed_upload. cbn [fst snd IsSuccess negb]. rewrite Hup. reflexivity. }
    unfold has_failed_upload in Hfail. cbn [existsb] in Hfail.
    rewrite Hbad in Hfail. discriminate.
Qed.

Lemma copy_pool_events_ledger (evs : list UploadHelper.PoolEvent) :
  returning UploadHelper.ledger_step (UploadHelper.pool_events client evs).
Proof.
  induction evs as [|ev evs IH]; cbn [UploadHelper.pool_events]; ledger_tac.
  destruct ev; [apply copy_task_begins_ledger|apply copy_task_ends_ledger].
Qed.

Lemma copy_pool_turn_ledger :
  returning UploadHelper.ledger_step (UploadHelper.pool_turn client).
Proof. unfold UploadHelper.pool_turn. ledger_tac. apply copy_pool_events_ledger. Qed.

Lemma copy_pool_finish_ledger (indices : list nat) :
  returning UploadHelper.ledger_step (UploadHelper.pool_finish client indices).
Proof.
  induction indices as [|i indices IH]; cbn [UploadHelper.pool_finish]; ledger_tac;
    [apply copy_task_begins_ledger|apply copy_task_ends_ledger].
Qed.

(** *** What the thread pool leaves alone *)

Lemma pool_frame_refl (s : UploadHelper.State) : UploadHelper.pool_frame s s.
Proof. repeat split. Qed.

Lemma pool_frame_trans (s1 s2 s3 : UploadHelper.State) :
  UploadHelper.pool_frame s1 s2 -> UploadHelper.pool_frame s2 s3 ->
  UploadHelper.pool_frame s1 s3.
Proof.
  intros (C1 & N1 & I1 & P1 & L1) (C2 & N2 & I2 & P2 & L2). repeat split; congruence.
Qed.

Lemma pool_frame_update_task (i : nat)
    (f : UploadHelper.UploadPartTask -> UploadHelper.UploadPartTask) (s : UploadHelper.State) :
  UploadHelper.pool_frame s (UploadHelper.update_task i f s).
Proof.
  repeat split. unfold UploadHelper.update_task.
  cbn [UploadHelper.bg_tasks UploadHelper.set_bg_tasks]. apply update_nth_length.
Qed.

Lemma pool_frame_task_finish_notify (i : nat) (s : UploadHelper.State) :
  UploadHelper.pool_frame s (UploadHelper.task_finish_notify i s).
Proof.
  unfold UploadHelper.task_finish_notify.
  apply (pool_frame_trans _ (UploadHelper.update_task i UploadHelper.finished s));
    [apply pool_frame_update_task|repeat split].
Qed.

Lemma copy_task_begins_frame (i : nat) :
  returning UploadHelper.pool_frame (UploadHelper.task_begins i).
Proof.
  intros s [] s' H. unfold UploadHelper.task_begins in H.
  destruct (nth_error (UploadHelper.bg_tasks s) i) as [task|];
    [|ok_inv H; apply pool_frame_refl].
  destruct (UploadHelper.stage task); try (ok_inv H; apply pool_frame_refl).
  destruct (UploadHelper.multipart_upload_aborted s); ok_inv H;
    [apply pool_frame_task_finish_notify|apply pool_frame_update_task].
Qed.

Lemma copy_task_ends_frame (i : nat) :
  returning UploadHelper.pool_frame (UploadHelper.task_ends client i).
Proof.
  intros s [] s' H. unfold UploadHelper.task_ends in H.
  destruct (nth_error (UploadHelper.bg_tasks s) i) as [task|];
    [|ok_inv H; apply pool_frame_refl].
  destruct (UploadHelper.stage task); try (ok_inv H; apply pool_frame_refl).
  assert (Hreq : forall r : Result UploadHelper.State UploadHelper.UploadPartTask,
             r = UploadHelper.processUploadTask_request client task s ->
             UploadHelper.pool_frame s (final_state r)).
  { intros r ->. unfold UploadHelper.processUploadTask_request.
    destruct (UploadHelper.req task) as [q|]; [|apply pool_frame_refl].
    unfold UploadHelper.processUploadPartRequest, UploadHelper.abortMultipartUpload,
      bind, gets, modify, UploadHelper.send.
    destruct (client (UploadHelper.trace s) q); [repeat split|].
    destruct (UploadHelper.helper_class (UploadHelper.config s)); repeat split. }
  specialize (Hreq _ eq_refl).
  destruct (UploadHelper.processUploadTask_request client task s) as [t1 s1|e s1| | |];
    try discriminate; ok_inv H; cbn [final_state] in Hreq;
    (eapply pool_frame_trans; [exact Hreq|]);
    (eapply pool_frame_trans; [apply pool_frame_update_task|]);
    apply pool_frame_task_finish_notify.
Qed.

Ltac frame_pool_tac :=
  return_with pool_frame_refl pool_frame_trans;
  try solve [ repeat split | assumption ].

Lemma copy_pool_events_frame (evs : list UploadHelper.PoolEvent) :
  returning UploadHelper.pool_frame (UploadHelper.pool_events client evs).
Proof.
  induction evs as [|ev evs IH]; cbn [UploadHelper.pool_events]; frame_pool_tac.
  destruct ev; [apply copy_task_begins_frame|apply copy_task_ends_frame].
Qed.

Lemma copy_pool_turn_frame :
  returning UploadHelper.pool_frame (UploadHelper.pool_turn client).
Proof. unfold UploadHelper.pool_turn. frame_pool_tac. apply copy_pool_events_frame. Qed.

Lemma copy_pool_finish_frame (indices : list nat) :
  returning UploadHelper.pool_frame (UploadHelper.pool_finish client indices).
Proof.
  induction indices as [|i indices IH]; cbn [UploadHelper.pool_finish]; frame_pool_tac;
    [apply copy_task_begins_frame|apply copy_task_ends_frame].
Qed.

(** *** Every closure runs to its end *)

Lemma copy_task_begins_started (i : nat) (s s' : UploadHelper.State)
    (t : UploadHelper.UploadPartTask) :
  nth_error (UploadHelper.bg_tasks s) i = Some t ->
  UploadHelper.stage t <> UploadHelper.NotScheduled ->
  UploadHelper.task_begins i s = Ok tt s' ->
  exists t', nth_error (UploadHelper.bg_tasks s') i = Some t' /\
             (UploadHelper.stage t' = UploadHelper.Running \/
              UploadHelper.stage t' = UploadHelper.Returned).
Proof.
  intros Hi Hst H. unfold UploadHelper.task_begins in H. rewrite Hi in H.
  destruct (UploadHelper.stage t) eqn:Hstage; try congruence.
  - destruct (UploadHelper.multipart_upload_aborted s); ok_inv H.
    + exists (UploadHelper.finished t). unfold UploadHelper.task_finish_notify.
      cbn. rewrite update_nth_same, Hi. split; [reflexivity|right; reflexivity].
    + exists (UploadHelper.with_stage UploadHelper.Running t).
      cbn. rewrite update_nth_same, Hi. split; [reflexivity|left; reflexivity].
  - ok_inv H. exists t. split; [exact Hi|left; exact Hstage].
  - ok_inv H. exists t. split; [exact Hi|right; exact Hstage].
Qed.

Lemma copy_task_ends_returned (i : nat) (s s' : UploadHelper.State)
    (t : UploadHelper.UploadPartTask) :
  nth_error (UploadHelper.bg_tasks s) i = Some t ->
  UploadHelper.stage t = UploadHelper.Running \/ UploadHelper.stage t = UploadHelper.Returned ->
  UploadHelper.task_ends client i s = Ok tt s' ->
  UploadHelper.returned s' i.
Proof.
  intros Hi Hst H. unfold UploadHelper.task_ends in H. rewrite Hi in H.
  destruct Hst as [Hst|Hst]; rewrite Hst in H.
  - pose proof (copy_processUploadTask_request_tasks client t s) as K.
    unfold keeps in K.
    destruct (UploadHelper.processUploadTask_request client t s) as [t1 s1|e s1| | |];
      try discriminate; ok_inv H; cbn [final_state] in K; injection K as _ K;
      unfold UploadHelper.returned, UploadHelper.task_finish_notify;
      cbn; rewrite !update_nth_same, K, Hi; cbn; eexists; split; reflexivity.
  - ok_inv H. exists t. split; assumption.
Qed.

(** When [pool_finish] returns in an upload in which nothing has failed,
    the ledger is kept and the closures it ran have returned. *)
Lemma copy_pool_finish_returns (indices : list nat) :
  forall s s',
  UploadHelper.pool_finish client indices s = Ok tt s' ->
  has_failed_upload (UploadHelper.trace s') = false ->
  UploadHelper.ledger s ->
  Forall (fun i => (i < List.length (UploadHelper.bg_tasks s))%nat) indices ->
  UploadHelper.ledger s' /\ Forall (UploadHelper.returned s') indices.
Proof.
  induction indices as [|i indices IH]; intros s s' H Hclean L Hlt;
    cbn [UploadHelper.pool_finish] in H.
  - ok_inv H. split; [exact L|constructor].
  - inversion Hlt as [|? ? Hi Hrest]; subst.
    apply bind_ok in H. destruct H as ([] & s0 & H0 & H).
    apply bind_ok in H. destruct H as ([] & s1 & H1 & H2).
    destruct (copy_pool_finish_ledger indices _ _ _ H2) as (K2 & S2).
    destruct (S2 Hclean) as (Hclean1 & _).
    destruct (copy_task_ends_ledger i _ _ _ H1) as (K1 & S1).
    destruct (S1 Hclean1) as (Hclean0 & L1).
    destruct (copy_task_begins_ledger i _ _ _ H0) as (K0 & S0).
    destruct (S0 Hclean0) as (_ & L0).
    pose proof (copy_task_begins_frame i _ _ _ H0) as (_ & _ & _ & _ & F0).
    pose proof (copy_task_ends_frame i _ _ _ H1) as (_ & _ & _ & _ & F1).
    destruct (IH s1 s' H2 Hclean (L1 (L0 L))) as (L' & Hall).
    { rewrite F1, F0. exact Hrest. }
    split; [exact L'|]. constructor; [|exact Hall].
    destruct (nth_error (UploadHelper.bg_tasks s) i) as [t|] eqn:Ht;
      [|apply nth_error_None in Ht; lia].
    pose proof L as (_ & Hsound & _). rewrite Forall_forall in Hsound.
    destruct (Hsound t (nth_error_In _ _ Ht)) as (_ & Hst & _).
    destruct (copy_task_begins_started i s s0 t Ht Hst H0) as (t0 & Ht0 & Hst0).
    destruct (copy_task_ends_returned i s0 s1 t0 Ht0 Hst0 H1) as (t1 & Ht1 & Hst1).
    exact (proj2 K2 i t1 Ht1 Hst1).
Qed.

(** When the wait is over in an upload in which nothing has failed, every
    task has returned. *)
Lemma copy_condvar_wait_returns (s s' : UploadHelper.State) :
  UploadHelper.condvar_wait client s = Ok tt s' ->
  has_failed_upload (UploadHelper.trace s') = false ->
  has_failed_upload (UploadHelper.trace s) = false /\
  (UploadHelper.ledger s ->
   UploadHelper.ledger s' /\ UploadHelper.pool_frame s s' /\
   Forall (fun t => UploadHelper.stage t = UploadHelper.Returned) (UploadHelper.bg_tasks s')).
Proof.
  intros H Hclean. unfold UploadHelper.condvar_wait in H.
  apply bind_ok in H. destruct H as ([] & s1 & H1 & H).
  cbn [bind gets] in H.
  apply bind_ok in H. destruct H as ([] & s2 & H2 & H).
  cbn [bind gets] in H.
  assert (Hs' : s' = s2).
  { destruct (_ =? _); [ok_inv H; reflexivity|discriminate]. }
  subst s'. clear H.
  destruct (copy_pool_finish_ledger _ _ _ _ H2) as (_ & S2).
  destruct (S2 Hclean) as (Hclean1 & _).
  destruct (copy_pool_turn_ledger _ _ _ H1) as (_ & S1).
  destruct (S1 Hclean1) as (Hclean0 & L1).
  split; [exact Hclean0|]. intros L.
  pose proof (copy_pool_turn_frame _ _ _ H1) as F1.
  pose proof (copy_pool_finish_frame _ _ _ _ H2) as F2.
  destruct (copy_pool_finish_returns _ _ _ H2 Hclean (L1 L)) as (L2 & Hret).
  { apply Forall_forall. intros i Hi. apply in_seq in Hi. lia. }
  split; [exact L2|]. split; [exact (pool_frame_trans _ _ _ F1 F2)|].
  apply Forall_forall. intros t Hin. apply In_nth_error in Hin. destruct Hin as [i Hi].
  rewrite Forall_forall in Hret.
  destruct (Hret i) as (t' & Ht' & Hst).
  - apply in_seq. split; [lia|]. cbn.
    destruct F2 as (_ & _ & _ & _ & F2). rewrite <- F2. apply nth_error_Some. congruence.
  - congruence.
Qed.

(** The entries of tasks that have all returned are the payload made from
    their tags. *)
Lemma returned_parts_all (tasks : list UploadHelper.UploadPartTask) :
  forall k,
  Forall UploadHelper.task_sound tasks ->
  Forall (fun t => UploadHelper.stage t = UploadHelper.Returned) tasks ->
  (forall j t r, nth_error tasks j = Some t -> UploadHelper.req t = Some r ->
                 part_number_of r = static_cast_int (k + Z.of_nat j + 1)) ->
  UploadHelper.returned_parts tasks
  = UploadHelper.completed_parts_from k (map UploadHelper.tag tasks).
Proof.
  induction tasks as [|t tasks IH]; intros k Hsound Hret Hnum; [reflexivity|].
  inversion Hsound as [|? ? (_ & _ & r & Hr & _) Hsound']; subst.
  inversion Hret as [|? ? Hst Hret']; subst.
  unfold UploadHelper.returned_parts in *.
  cbn [flat_map map UploadHelper.completed_parts_from]. rewrite Hst, Hr. cbn [app].
  rewrite (Hnum 0%nat t r eq_refl Hr). rewrite Z.add_0_r. f_equal.
  apply IH; [exact Hsound'|exact Hret'|].
  intros j t' r' Hj Hr'. rewrite (Hnum (S j) t' r' Hj Hr'). f_equal. lia.
Qed.

Lemma returned_parts_app (l1 l2 : list UploadHelper.UploadPartTask) :
  UploadHelper.returned_parts (l1 ++ l2)
  = UploadHelper.returned_parts l1 ++ UploadHelper.returned_parts l2.
Proof. apply flat_map_app. Qed.

(** A part that is not empty: [uploadPart] counts it, and the ledger gets
    its entry when the part is answered. *)
Lemma copy_uploadPart_ledger (part_number position size : Z) (s s' : UploadHelper.State) :
  size <> 0 ->
  UploadHelper.uploadPart client part_number position size s = Ok tt s' ->
  UploadHelper.normal_part_size s' = UploadHelper.normal_part_size s /\
  UploadHelper.parts_so_far s' = UploadHelper.parts_so_far s + 1 /\
  (has_failed_upload (UploadHelper.trace s') = false ->
   has_failed_upload (UploadHelper.trace s) = false /\
   (UploadHelper.ledger s -> part_number = UploadHelper.parts_so_far s + 1 ->
    UploadHelper.ledger s')).
Proof.
  intros Hsize H.
  destruct (copy_fillUploadPartRequest_returns part_number position size s)
    as (r & Hup & Hnum & Hfill).
  destruct (UploadHelper.schedule (UploadHelper.config s)) eqn:Hsched.
  - rewrite (copy_uploadPart_scheduled client _ _ _ r s Hsched Hsize Hfill) in H.
    pose proof (copy_pool_turn_frame _ _ _ H) as (_ & Fn & _ & Ft & Fl).
    destruct (copy_pool_turn_ledger _ _ _ H) as (_ & Hstep).
    split; [exact Fn|]. split.
    { unfold UploadHelper.parts_so_far. rewrite Ft, Fl. cbn. rewrite length_app. cbn. lia. }
    intros Hclean. destruct (Hstep Hclean) as (Hclean0 & Hl). split; [exact Hclean0|].
    intros (A & S & I & P & N & L) Hpn. apply Hl.
    unfold UploadHelper.ledger, UploadHelper.enqueue.
    cbn [UploadHelper.multipart_upload_aborted UploadHelper.bg_tasks UploadHelper.config
         UploadHelper.part_tags UploadHelper.trace UploadHelper.set_bg_tasks
         UploadHelper.set_num_added_bg_tasks].
    split; [exact A|]. split.
    { apply Forall_app. split; [exact S|]. constructor; [|constructor].
      split; [reflexivity|]. split; [discriminate|]. exists r. split; [reflexivity|exact Hup]. }
    split; [congruence|]. split; [exact P|]. split.
    { intros j t q Hj Hq.
      destruct (Nat.lt_ge_cases j (List.length (UploadHelper.bg_tasks s))) as [Hlt|Hge].
      - rewrite nth_error_app1 in Hj by exact Hlt. exact (N j t q Hj Hq).
      - rewrite nth_error_app2 in Hj by exact Hge.
        destruct (j - List.length (UploadHelper.bg_tasks s))%nat as [|k] eqn:Hk;
          [|destruct k; discriminate].
        cbn in Hj. injection Hj as <-. cbn in Hq. injection Hq as <-.
        rewrite Hnum, Hpn. unfold UploadHelper.parts_so_far. rewrite (P Hsched).
        cbn [List.length]. f_equal. lia. }
    rewrite returned_parts_app. cbn. rewrite app_nil_r. exact L.
  - unfold UploadHelper.uploadPart in H.
    destruct (Z.eqb_spec size 0) as [|_]; [contradiction|].
    cbn [bind gets] in H. rewrite Hsched in H.
    unfold bind at 1 in H. rewrite (Hfill s eq_refl eq_refl) in H.
    apply bind_ok in H. destruct H as (task & s1 & H1 & H2).
    cbn [modify] in H2. ok_inv H2.
    unfold UploadHelper.processUploadTask, bind, gets in H1.
    destruct (UploadHelper.multipart_upload_aborted s) eqn:Hab.
    + ok_inv H1. split; [reflexivity|]. split.
      { unfold UploadHelper.parts_so_far. cbn. rewrite length_app. cbn. lia. }
      intros Hclean. split; [exact Hclean|]. intros (A & _). congruence.
    + unfold UploadHelper.processUploadTask_request in H1.
      cbn [UploadHelper.req UploadHelper.with_req UploadHelper.new_task] in H1.
      unfold UploadHelper.processUploadPartRequest, bind, gets, UploadHelper.send in H1.
      cbv zeta in H1.
      destruct (client (UploadHelper.trace s) r) as [etag|e].
      * cbn [ret] in H1. ok_inv H1. split; [reflexivity|]. split.
        { unfold UploadHelper.parts_so_far. cbn. rewrite length_app. cbn. lia. }
        cbn [UploadHelper.trace UploadHelper.set_part_tags UploadHelper.set_trace].
        intros Hclean. apply has_failed_upload_app_false in Hclean.
        split; [exact (proj1 Hclean)|].
        intros (A & S & I & P & N & L) Hpn. unfold UploadHelper.ledger.
        cbn [UploadHelper.multipart_upload_aborted UploadHelper.bg_tasks UploadHelper.config
             UploadHelper.part_tags UploadHelper.trace UploadHelper.set_part_tags
             UploadHelper.set_trace UploadHelper.with_tag UploadHelper.tag].
        split; [exact A|]. split; [exact S|]. split; [exact I|].
        split; [congruence|]. split; [exact N|].
        pose proof (I Hsched) as Htasks. rewrite Htasks in L |- *.
        cbn [UploadHelper.returned_parts flat_map] in L |- *.
        rewrite app_nil_r in L |- *.
        rewrite upload_entries_app, map_app, completed_parts_app.
        apply Permutation_app; [exact L|].
        unfold upload_entries. cbn [filter fst]. rewrite Hup.
        unfold completed_of. cbn [map fst snd].
        rewrite Hnum, Hpn. unfold UploadHelper.parts_so_far. rewrite Htasks.
        cbn [List.length]. rewrite Nat.add_0_r. reflexivity.
      * cbn [UploadHelper.abortMultipartUpload bind gets modify UploadHelper.send] in H1.
        destruct (UploadHelper.helper_class (UploadHelper.config s)); discriminate.
Qed.

Lemma copy_upload_parts_loop_ledger (fuel : nat) :
  forall part_number position end_position s s',
  part_number = wrap (UploadHelper.parts_so_far s + 1) ->
  UploadHelper.parts_so_far s + Z.of_nat fuel < SIZE_MODULUS ->
  0 < UploadHelper.normal_part_size s < SIZE_MODULUS ->
  is_size_t position -> is_size_t end_position ->
  UploadHelper.upload_parts_loop client fuel part_number position end_position s = Ok tt s' ->
  has_failed_upload (UploadHelper.trace s') = false ->
  has_failed_upload (UploadHelper.trace s) = false /\
  (UploadHelper.ledger s -> UploadHelper.ledger s').
Proof.
  induction fuel as [|fuel IH];
    intros part_number position end_position s s' Hpn Hfuel Hnormal Hpos Hend H Hclean;
    cbn [UploadHelper.upload_parts_loop] in H;
    destruct (Z.ltb_spec position end_position) as [Hlt|Hge];
    cbv beta iota in H;
    try discriminate;
    try (ok_inv H; split; [assumption|auto]).
  cbn [bind gets] in H.
  destruct (UploadHelper.multipart_upload_aborted s) eqn:Hab;
    [ok_inv H; split; [assumption|auto]|].
  cbn [bind gets] in H.
  apply bind_ok in H. destruct H as ([] & s1 & H1 & H2).
  destruct (copy_uploadPart_ledger _ _ _ _ _
              (part_size_not_zero _ _ _ Hpos Hend Hnormal Hlt) H1) as (Hn1 & Hc1 & Hstep).
  assert (Hcount : 0 <= UploadHelper.parts_so_far s)
    by (unfold UploadHelper.parts_so_far; lia).
  rewrite wrap_small in Hpn by (unfold is_size_t; lia).
  apply IH in H2; try assumption.
  - destruct H2 as (Hclean1 & Hl). destruct (Hstep Hclean1) as (Hclean0 & Hl0).
    split; [exact Hclean0|]. intros L. apply Hl, Hl0; [exact L|exact Hpn].
  - rewrite Hc1, Hpn. reflexivity.
  - rewrite Hc1. lia.
  - rewrite Hn1. exact Hnormal.
  - unfold std_min. destruct (_ <? _); [exact Hend|apply wrap_range].
Qed.

(** The tags are collected in the order of the tasks. *)
Lemma copy_collect_tags_returns (tasks : list UploadHelper.UploadPartTask) :
  forall s s',
  UploadHelper.collect_tags client tasks s = Ok tt s' ->
  s' = UploadHelper.set_part_tags
         (UploadHelper.part_tags s ++ map UploadHelper.tag tasks) s.
Proof.
  induction tasks as [|t tasks IH]; intros s s' H; cbn [UploadHelper.collect_tags map] in *.
  - ok_inv H. rewrite app_nil_r. destruct s'; reflexivity.
  - destruct (UploadHelper.exception t); [apply bind_ok in H; destruct H as (? & ? & _ & H);
                                          discriminate|].
    cbn [bind modify] in H. rewrite (IH _ _ H). cbn. rewrite <- app_assoc. reflexivity.
Qed.

(** When the wait for the tasks returns in an upload in which nothing has
    failed, the payload made from the tags has one entry for every part
    request that was answered. *)
Lemma copy_waitForAllBackGroundTasks_ledger (s s' : UploadHelper.State) :
  UploadHelper.waitForAllBackGroundTasks client s = Ok tt s' ->
  has_failed_upload (UploadHelper.trace s') = false ->
  has_failed_upload (UploadHelper.trace s) = false /\
  (UploadHelper.ledger s ->
   UploadHelper.multipart_upload_aborted s' = false /\
   UploadHelper.multipart_upload_id s' = UploadHelper.multipart_upload_id s /\
   UploadHelper.config s' = UploadHelper.config s /\
   one_entry_per_part (UploadHelper.trace s')
     (UploadHelper.completed_parts (UploadHelper.part_tags s'))).
Proof.
  intros H Hclean. unfold UploadHelper.waitForAllBackGroundTasks in H.
  cbn [bind gets] in H.
  destruct (UploadHelper.schedule (UploadHelper.config s)) eqn:Hsched; cbn [negb] in H.
  - apply bind_ok in H. destruct H as ([] & s1 & H1 & H). cbn [bind gets] in H.
    apply copy_collect_tags_returns in H. subst s'.
    cbn [UploadHelper.trace UploadHelper.set_part_tags UploadHelper.multipart_upload_aborted
         UploadHelper.multipart_upload_id UploadHelper.part_tags UploadHelper.config] in *.
    destruct (copy_condvar_wait_returns _ _ H1 Hclean) as (Hclean0 & Hl).
    split; [exact Hclean0|]. intros L.
    destruct (Hl L) as ((A & S & I & P & N & E) & (Fc & _ & Fi & _) & Hret).
    split; [exact A|]. split; [exact Fi|]. split; [exact Fc|]. split; [exact Hclean|].
    rewrite P in * by congruence. cbn [app UploadHelper.completed_parts
                                       UploadHelper.completed_parts_from] in *.
    unfold UploadHelper.completed_parts.
    rewrite <- (returned_parts_all _ 0 S Hret); [exact E|].
    intros j t r Hj Hr. exact (N j t r Hj Hr).
  - ok_inv H. split; [exact Hclean|]. intros (A & S & I & P & N & E).
    split; [exact A|]. split; [reflexivity|]. split; [reflexivity|]. split; [exact Hclean|].
    rewrite (I Hsched) in E. cbn in E. rewrite app_nil_r in E. exact E.
Qed.

(** A multipart upload that returns has sent [CompleteMultipartUpload] with
    one entry for every part request that was answered, all of them with
    success. *)
Lemma copy_performMultipartUpload_ledger (start_offset size : Z)
    (s0 s' : UploadHelper.State) :
  is_size_t start_offset -> is_size_t size ->
  settings_in_range (UploadHelper.settings (UploadHelper.config s0)) ->
  UploadHelper.bg_tasks s0 = [] -> UploadHelper.part_tags s0 = [] ->
  UploadHelper.multipart_upload_aborted s0 = false ->
  Forall (fun entry => is_upload (fst entry) = false) (UploadHelper.trace s0) ->
  UploadHelper.performMultipartUpload client start_offset size s0 = Ok tt s' ->
  exists before sent,
    UploadHelper.trace s' = before ++ sent /\ sent <> [] /\
    Forall (fun entry =>
              fst entry
              = CompleteMultipartUploadRequest (UploadHelper.multipart_upload_id s')
                  (UploadHelper.completed_parts (UploadHelper.part_tags s')))
           sent /\
    UploadHelper.part_tags s' <> [] /\
    one_entry_per_part before (UploadHelper.completed_parts (UploadHelper.part_tags s')) /\
    one_entry_per_part (UploadHelper.trace s')
      (UploadHelper.completed_parts (UploadHelper.part_tags s')).
Proof.
  intros Hstart Hsize Hrange Htasks0 Htags0 Hab0 Hquiet0 H.
  assert (Hclean0 : has_failed_upload (UploadHelper.trace s0) = false).
  { unfold has_failed_upload. apply not_true_is_false. intros Hex.
    apply existsb_exists in Hex. destruct Hex as (entry & Hin & Hbad).
    rewrite Forall_forall in Hquiet0. unfold failed_upload in Hbad.
    rewrite (Hquiet0 entry Hin) in Hbad. discriminate. }
  pose proof (copy_performMultipartUpload_ok client start_offset size s0 s'
                Htasks0 Hclean0 H) as Hclean.
  unfold UploadHelper.performMultipartUpload in H.
  apply bind_ok in H. destruct H as ([] & a & Ha & H).
  destruct (calculatePartSize_returns s0 a size Hsize Hrange Ha)
    as (Hah & _ & Hlo & Hhi & Hparts).
  apply bind_ok in H. destruct H as ([] & b & Hb & H).
  assert (Hbh : exists upload_id x,
             b = UploadHelper.set_multipart_upload_id upload_id
                   (UploadHelper.set_trace
                      (UploadHelper.trace a ++ [(CreateMultipartUploadRequest, x)]) a)).
  { unfold UploadHelper.createMultipartUpload, UploadHelper.send, bind in Hb.
    destruct (client _ _) as [upload_id|e]; [|discriminate].
    cbn [modify] in Hb. ok_inv Hb. eexists. eexists. reflexivity. }
  destruct Hbh as (upload_id & x & Hbh).
  cbn [bind gets] in H.
  apply bind_ok in H. destruct H as ([] & c & Hc & H).
  apply bind_ok in H. destruct H as ([] & d & Hd & H).
  assert (Hn : UploadHelper.normal_part_size b = UploadHelper.normal_part_size a)
    by (rewrite Hbh; reflexivity).
  assert (Hb_tasks : UploadHelper.bg_tasks b = [])
    by (rewrite Hbh, Hah; exact Htasks0).
  assert (Hb_tags : UploadHelper.part_tags b = [])
    by (rewrite Hbh, Hah; exact Htags0).
  assert (Hledger : UploadHelper.ledger b).
  { rewrite Hbh, Hah. unfold UploadHelper.ledger. cbn. rewrite Htasks0, Htags0, Hab0.
    split; [reflexivity|]. split; [constructor|]. split; [reflexivity|].
    split; [reflexivity|]. split; [intros [|j] t r Hj; discriminate|].
    rewrite upload_entries_app, (upload_entries_other _ Hquiet0). cbn. constructor. }
  destruct Hrange as (_ & Hmax & _ & _ & Hmpn & _).
  (* the completion *)
  pose proof (copy_completeMultipartUpload_tags client d) as Ktags. rewrite H in Ktags.
  cbn [final_state] in Ktags. unfold keeps in Ktags.
  assert (Kid : UploadHelper.multipart_upload_id s' = UploadHelper.multipart_upload_id d /\
                exists sent, UploadHelper.trace s' = UploadHelper.trace d ++ sent /\
                  (UploadHelper.multipart_upload_aborted d = false ->
                   UploadHelper.part_tags d <> [] /\ sent <> [] /\
                   Forall (fun entry =>
                             fst entry
                             = CompleteMultipartUploadRequest (UploadHelper.multipart_upload_id d)
                                 (UploadHelper.completed_parts (UploadHelper.part_tags d)))
                          sent)).
  { unfold UploadHelper.completeMultipartUpload, bind, gets in H.
    destruct (UploadHelper.multipart_upload_aborted d).
    - ok_inv H. split; [reflexivity|]. exists []. rewrite app_nil_r.
      split; [reflexivity|discriminate].
    - destruct (UploadHelper.part_tags d) as [|t tags] eqn:Ht; [discriminate|].
      rewrite <- Ht in *.
      pose proof (std_max_1 (UploadHelper.max_unexpected_write_error_retries
                               (UploadHelper.config d))) as Hm.
      match type of H with
      | UploadHelper.complete_retry_loop client ?f ?k ?m ?q d = _ =>
          destruct (copy_complete_retry_loop_sends client q m f k d)
            as (sent & lg & Hfin & Hall & Hsent)
      end.
      rewrite H in Hfin. cbn [final_state] in Hfin. rewrite Hfin. cbn.
      split; [reflexivity|]. exists sent. split; [reflexivity|]. intros _.
      split; [rewrite Ht; discriminate|]. split; [apply Hsent; lia|exact Hall]. }
  destruct Kid as (Kid & sent & Ktrace & Ksent).
  assert (Hclean_d : has_failed_upload (UploadHelper.trace d) = false).
  { rewrite Ktrace in Hclean. apply has_failed_upload_app_false in Hclean. apply Hclean. }
  destruct (copy_waitForAllBackGroundTasks_ledger _ _ Hd Hclean_d) as (Hclean_c & Hwait).
  cbn [UploadHelper.config UploadHelper.construct] in Hlo, Hhi, Hparts.
  apply (copy_upload_parts_loop_ledger) in Hc; try assumption.
  - destruct Hc as (_ & Hl). destruct (Hwait (Hl Hledger)) as (Ad & Id & Cd & Hone).
    destruct (Ksent Ad) as (Hne & Hsent & Hall).
    exists (UploadHelper.trace d), sent. rewrite Ktags, Kid.
    split; [exact Ktrace|]. split; [exact Hsent|]. split; [exact Hall|].
    split; [exact Hne|]. split; [exact Hone|].
    destruct Hone as (Hf & Hperm). split; [exact Hclean|].
    rewrite Ktrace, upload_entries_app, (upload_entries_other sent), app_nil_r; [exact Hperm|].
    eapply Forall_impl; [|exact Hall]. intros entry ->. reflexivity.
  - unfold UploadHelper.parts_so_far. rewrite Hb_tasks, Hb_tags. reflexivity.
  - unfold UploadHelper.parts_so_far. rewrite Hb_tasks, Hb_tags.
    cbn [List.length Nat.add Z.of_nat Z.add]. rewrite Hn. unfold is_size_t in Hmpn. lia.
  - rewrite Hn. unfold is_size_t in Hmax. lia.
  - apply wrap_range.
Qed.

End CopyLedger.

(** ** The ledger of the streaming buffer *)

Lemma buffer_ledger_step_refl (s : WriteBufferFromS3.State) :
  WriteBufferFromS3.ledger_step s s.
Proof. split; [reflexivity|]. split; [exists []; symmetry; apply app_nil_r|auto]. Qed.

Lemma buffer_ledger_step_trans (s1 s2 s3 : WriteBufferFromS3.State) :
  WriteBufferFromS3.ledger_step s1 s2 -> WriteBufferFromS3.ledger_step s2 s3 ->
  WriteBufferFromS3.ledger_step s1 s3.
Proof.
  intros (C1 & (t1 & T1) & L1) (C2 & (t2 & T2) & L2).
  split; [congruence|]. split; [exists (t1 ++ t2); rewrite T2, T1, app_assoc; reflexivity|].
  intros Hclean L. apply L2; [exact Hclean|]. apply L1; [|exact L].
  rewrite T2 in Hclean. apply has_failed_upload_app_false in Hclean. apply Hclean.
Qed.

(** A step that sends no part request and leaves alone what the ledger is
    about. *)
Lemma buffer_ledger_step_other (s s' : WriteBufferFromS3.State) (sent : Trace) :
  WriteBufferFromS3.config s' = WriteBufferFromS3.config s ->
  WriteBufferFromS3.part_number s' = WriteBufferFromS3.part_number s ->
  WriteBufferFromS3.part_tags s' = WriteBufferFromS3.part_tags s ->
  WriteBufferFromS3.upload_object_tasks s' = WriteBufferFromS3.upload_object_tasks s ->
  WriteBufferFromS3.num_added_bg_tasks s' = WriteBufferFromS3.num_added_bg_tasks s ->
  option_map WriteBufferFromS3.put_req (WriteBufferFromS3.put_object_task s')
  = option_map WriteBufferFromS3.put_req (WriteBufferFromS3.put_object_task s) ->
  WriteBufferFromS3.trace s' = WriteBufferFromS3.trace s ++ sent ->
  Forall (fun entry => is_upload (fst entry) = false) sent ->
  WriteBufferFromS3.ledger_step s s'.
Proof.
  intros Hc Hpn Htags Htasks Hnum Hput Htr Hsent.
  split; [exact Hc|]. split; [exists sent; exact Htr|].
  intros _ (N & I & S & Q & U & P & C & B & E).
  unfold WriteBufferFromS3.ledger.
  rewrite Hc, Hpn, Htags, Htasks, Hnum, Htr, upload_entries_app,
    (upload_entries_other sent Hsent), app_nil_r.
  split; [exact N|]. split; [exact I|]. split; [exact S|]. split; [exact Q|].
  split; [|split; [exact P|split; [exact C|split; [exact B|exact E]]]].
  intros t' Ht'. rewrite Ht' in Hput.
  destruct (WriteBufferFromS3.put_object_task s) as [t|]; [|discriminate].
  cbn in Hput. injection Hput as Hput. rewrite Hput. apply (U t eq_refl).
Qed.

Lemma buffer_ledger_step_quiet (s s' : WriteBufferFromS3.State) :
  WriteBufferFromS3.quiet_step s s' -> keeps WriteBufferFromS3.queue_state s s' ->
  WriteBufferFromS3.ledger_step s s'.
Proof.
  intros (Ht & Hn & Hc & Hp & sent & Htr & Hsent) K.
  unfold keeps, WriteBufferFromS3.queue_state in K.
  assert (Hf : WriteBufferFromS3.front_end s' = WriteBufferFromS3.front_end s)
    by exact (f_equal (fun x => fst (fst (fst x))) K).
  assert (Htags : WriteBufferFromS3.part_tags s' = WriteBufferFromS3.part_tags s)
    by exact (f_equal (fun x => snd (fst (fst x))) K).
  destruct (front_end_config s s' Hf) as (_ & Hpn & _).
  exact (buffer_ledger_step_other s s' sent Hc Hpn Htags Ht Hn Hp Htr Hsent).
Qed.

Ltac buffer_ledger_tac :=
  return_with buffer_ledger_step_refl buffer_ledger_step_trans;
  try solve [ apply (buffer_ledger_step_other _ _ []);
              [reflexivity|reflexivity|reflexivity|reflexivity|reflexivity|reflexivity
              |symmetry; apply app_nil_r|constructor]
            | assumption ].

Lemma pool_keeps_refl (s : WriteBufferFromS3.State) : WriteBufferFromS3.pool_keeps s s.
Proof. split; [reflexivity|]. intros i t Hi Hst. exists t. split; assumption. Qed.

Lemma pool_keeps_trans (s1 s2 s3 : WriteBufferFromS3.State) :
  WriteBufferFromS3.pool_keeps s1 s2 -> WriteBufferFromS3.pool_keeps s2 s3 ->
  WriteBufferFromS3.pool_keeps s1 s3.
Proof.
  intros (Q1 & H1) (Q2 & H2). split; [congruence|].
  intros i t Hi Hst. destruct (H1 i t Hi Hst) as (t' & Hi' & Hst'). exact (H2 i t' Hi' Hst').
Qed.

Lemma pool_keeps_same (s s' : WriteBufferFromS3.State) :
  WriteBufferFromS3.upload_object_tasks s' = WriteBufferFromS3.upload_object_tasks s ->
  WriteBufferFromS3.pool_keeps s s'.
Proof. intros H. unfold WriteBufferFromS3.pool_keeps. rewrite H. apply pool_keeps_refl. Qed.

(** A change of the tasks with one identifier that keeps their requests and
    does not take a task back from [Returned]. *)
Lemma pool_keeps_update_task (id : Z)
    (f : WriteBufferFromS3.UploadPartTask -> WriteBufferFromS3.UploadPartTask)
    (s : WriteBufferFromS3.State) :
  (forall t, WriteBufferFromS3.task_id (f t) = WriteBufferFromS3.task_id t /\
             WriteBufferFromS3.req (f t) = WriteBufferFromS3.req t /\
             (WriteBufferFromS3.stage t = WriteBufferFromS3.Returned ->
              WriteBufferFromS3.stage (f t) = WriteBufferFromS3.Returned)) ->
  WriteBufferFromS3.pool_keeps s (WriteBufferFromS3.update_task id f s).
Proof.
  intros Hf. unfold WriteBufferFromS3.pool_keeps, WriteBufferFromS3.update_task.
  cbn [WriteBufferFromS3.upload_object_tasks WriteBufferFromS3.set_upload_object_tasks].
  split.
  - rewrite map_map. apply map_ext. intros t.
    destruct (WriteBufferFromS3.task_id t =? id); [|reflexivity].
    destruct (Hf t) as (-> & -> & _). reflexivity.
  - intros i t Hi Hst. rewrite nth_error_map, Hi. cbn [option_map].
    eexists. split; [reflexivity|].
    destruct (WriteBufferFromS3.task_id t =? id); [apply Hf|]; exact Hst.
Qed.

(** The one task of a number is the only one that the closure changes. *)
Lemma map_update_others {A} (key : A -> Z) (id : Z) (f : A -> A) (l : list A) :
  Forall (fun z => key z <> id) l ->
  map (fun t => if key t =? id then f t else t) l = l.
Proof.
  induction 1 as [|z l Hz Hl IH]; [reflexivity|]. cbn [map].
  destruct (Z.eqb_spec (key z) id); [contradiction|]. rewrite IH. reflexivity.
Qed.

Lemma flat_map_map_new {A B} (key : A -> Z) (h : A -> list B) (id : Z) (f : A -> A)
    (l : list A) (x : A) (y : B) :
  NoDup (map key l) -> In x l -> key x = id -> h x = [] -> h (f x) = [y] ->
  Permutation (y :: flat_map h l)
    (flat_map h (map (fun t => if key t =? id then f t else t) l)).
Proof.
  induction l as [|a l IH]; intros Hnd Hin Hk Hx Hfx; [destruct Hin|].
  cbn [map] in Hnd. inversion Hnd as [|? ? Hnotin Hnd']; subst.
  cbn [map flat_map]. destruct Hin as [->|Hin].
  - rewrite Z.eqb_refl, Hfx, Hx. cbn [app]. rewrite map_update_others; [reflexivity|].
    apply Forall_forall. intros z Hz Hzk. apply Hnotin. rewrite <- Hzk.
    apply in_map. exact Hz.
  - destruct (Z.eqb_spec (key a) (key x)) as [Heq|_].
    + exfalso. apply Hnotin. rewrite Heq. apply in_map. exact Hin.
    + apply Permutation_trans with (h a ++ y :: flat_map h l);
        [apply Permutation_middle|].
      apply Permutation_app_head. apply IH; auto.
Qed.

Lemma flat_map_map_same {A B} (h : A -> list B) (g : A -> A) (l : list A) :
  (forall x, In x l -> h (g x) = h x) -> flat_map h (map g l) = flat_map h l.
Proof.
  induction l as [|a l IH]; intros Hg; [reflexivity|]. cbn [map flat_map].
  rewrite Hg by (left; reflexivity). rewrite IH; [reflexivity|].
  intros x Hx. apply Hg. right. exact Hx.
Qed.

Section BufferLedger.

Variable client : Client.

Lemma buffer_upload_task_runs_keeps (id : Z) :
  returning WriteBufferFromS3.pool_keeps (WriteBufferFromS3.upload_task_runs client id).
Proof.
  intros s [] s' H. unfold WriteBufferFromS3.upload_task_runs in H.
  destruct (find _ _) as [task|]; [|ok_inv H; apply pool_keeps_refl].
  destruct (WriteBufferFromS3.stage task); try (ok_inv H; apply pool_keeps_refl).
  assert (Hreq : forall r : Result WriteBufferFromS3.State WriteBufferFromS3.UploadPartTask,
             r = WriteBufferFromS3.processUploadRequest client task s ->
             WriteBufferFromS3.upload_object_tasks (final_state r)
             = WriteBufferFromS3.upload_object_tasks s).
  { intros r ->. unfold WriteBufferFromS3.processUploadRequest, bind, WriteBufferFromS3.send.
    destruct (client _ _); reflexivity. }
  specialize (Hreq _ eq_refl).
  destruct (WriteBufferFromS3.processUploadRequest client task s) as [t1 s1|e s1| | |];
    try discriminate; ok_inv H; cbn [final_state] in Hreq;
    (eapply pool_keeps_trans; [apply pool_keeps_same; exact Hreq|]);
    unfold WriteBufferFromS3.task_finish_notify;
    (eapply pool_keeps_trans; [apply pool_keeps_update_task|]);
    try (eapply pool_keeps_trans; [apply pool_keeps_update_task|apply pool_keeps_same; reflexivity]);
    intros t; repeat split; auto.
Qed.

Lemma buffer_upload_task_runs_ledger (id : Z) :
  returning WriteBufferFromS3.ledger_step (WriteBufferFromS3.upload_task_runs client id).
Proof.
  intros s [] s' H.
  destruct (find (fun t => WriteBufferFromS3.task_id t =? id)
              (WriteBufferFromS3.upload_object_tasks s)) as [task|] eqn:Hfind;
    [|unfold WriteBufferFromS3.upload_task_runs in H; rewrite Hfind in H; ok_inv H;
      apply buffer_ledger_step_refl].
  destruct (WriteBufferFromS3.stage task) eqn:Hstage;
    try (unfold WriteBufferFromS3.upload_task_runs in H; rewrite Hfind, Hstage in H; ok_inv H;
         apply buffer_ledger_step_refl).
  rewrite (buffer_upload_task_runs_sends client id task s Hfind Hstage) in H.
  cbv zeta in H. ok_inv H.
  apply find_some in Hfind. destruct Hfind as (Hin & Hid). apply Z.eqb_eq in Hid.
  subst id.
  split; [reflexivity|]. split; [eexists; reflexivity|].
  unfold WriteBufferFromS3.task_finish_notify.
  rewrite buffer_update_task_twice
    by (intros t; destruct (client _ _); reflexivity).
  unfold WriteBufferFromS3.update_task, WriteBufferFromS3.ledger.
  cbn [WriteBufferFromS3.config WriteBufferFromS3.part_number WriteBufferFromS3.part_tags
       WriteBufferFromS3.upload_object_tasks WriteBufferFromS3.num_added_bg_tasks
       WriteBufferFromS3.put_object_task WriteBufferFromS3.trace
       WriteBufferFromS3.set_trace WriteBufferFromS3.set_upload_object_tasks
       WriteBufferFromS3.set_num_finished_bg_tasks].
  intros Hclean (N & I & S & Q & U & P & C & B & E).
  apply has_failed_upload_app_false in Hclean. destruct Hclean as (Hclean & Hlast).
  pose proof S as S0. rewrite Forall_forall in S0.
  destruct (S0 task Hin) as (He & Hup & _ & Hfin).
  destruct (client (WriteBufferFromS3.trace s) (WriteBufferFromS3.req task)) as [etag|e].
  2:{ exfalso. unfold has_failed_upload in Hlast. cbn [existsb] in Hlast.
      unfold failed_upload in Hlast. cbn [fst snd IsSuccess negb] in Hlast.
      rewrite Hup in Hlast. discriminate. }
  set (g := fun t => if WriteBufferFromS3.task_id t =? WriteBufferFromS3.task_id task
                     then WriteBufferFromS3.finished (WriteBufferFromS3.with_tag etag t)
                     else t).
  assert (Hkid : forall t, WriteBufferFromS3.task_id (g t) = WriteBufferFromS3.task_id t).
  { intros t. unfold g. destruct (_ =? _); reflexivity. }
  assert (Hkreq : forall t, WriteBufferFromS3.req (g t) = WriteBufferFromS3.req t).
  { intros t. unfold g. destruct (_ =? _); reflexivity. }
  assert (Hids : map WriteBufferFromS3.task_id (map g (WriteBufferFromS3.upload_object_tasks s))
                 = map WriteBufferFromS3.task_id (WriteBufferFromS3.upload_object_tasks s)).
  { rewrite map_map. apply map_ext. exact Hkid. }
  split; [rewrite Hids; exact N|]. split.
  { apply Forall_forall. intros t' Hin'. apply in_map_iff in Hin'.
    destruct Hin' as (t & <- & Hint). rewrite Hkid.
    rewrite Forall_forall in I. exact (I t Hint). }
  split.
  { apply Forall_forall. intros t' Hin'. apply in_map_iff in Hin'.
    destruct Hin' as (t & <- & Hint). unfold g.
    destruct (Z.eqb_spec (WriteBufferFromS3.task_id t) (WriteBufferFromS3.task_id task))
      as [Heq|_]; [|exact (S0 t Hint)].
    rewrite (NoDup_map_eq WriteBufferFromS3.task_id _ _ _ N Hint Hin Heq).
    split; [exact He|]. split; [exact Hup|]. split; [discriminate|reflexivity]. }
  split.
  { intros Hs. rewrite (Q Hs). reflexivity. }
  split; [exact U|]. split.
  { intros j t' Hj. rewrite nth_error_map in Hj.
    destruct (nth_error (WriteBufferFromS3.upload_object_tasks s) j) as [t|] eqn:Ht;
      [|discriminate].
    cbn in Hj. injection Hj as <-. rewrite Hkreq. exact (P j t Ht). }
  split; [rewrite length_map; exact C|]. split; [exact B|].
  rewrite upload_entries_app, map_app. unfold upload_entries at 2. cbn [filter fst].
  rewrite Hup. unfold completed_of at 2. cbn [map fst snd].
  eapply Permutation_trans; [apply Permutation_app_tail; exact E|].
  rewrite <- app_assoc. apply Permutation_app_head.
  eapply Permutation_trans; [apply Permutation_sym, Permutation_cons_append|].
  unfold WriteBufferFromS3.returned_parts.
  apply (flat_map_map_new WriteBufferFromS3.task_id _ _ _ _ task); auto.
  rewrite Hstage. reflexivity.
Qed.

Lemma buffer_put_task_runs_keeps :
  returning WriteBufferFromS3.pool_keeps (WriteBufferFromS3.put_task_runs client).
Proof.
  intros s [] s' H. apply pool_keeps_same.
  pose proof (buffer_put_task_runs_queue_state client s) as K. rewrite H in K.
  exact (f_equal snd K).
Qed.

Lemma buffer_put_task_runs_ledger :
  returning WriteBufferFromS3.ledger_step (WriteBufferFromS3.put_task_runs client).
Proof.
  intros s [] s' H.
  pose proof (buffer_put_task_runs_front_end client s) as F.
  pose proof (buffer_put_task_runs_grows client s) as G.
  rewrite H in F, G. cbn [final_state] in F, G.
  split; [exact (proj1 (front_end_config _ _ F))|]. split; [exact G|].
  intros Hclean L. pose proof L as (_ & _ & _ & _ & U & _).
  unfold WriteBufferFromS3.put_task_runs in H.
  destruct (WriteBufferFromS3.put_object_task s) as [task|] eqn:Hput; [|ok_inv H; exact L].
  destruct (WriteBufferFromS3.put_stage task); try (ok_inv H; exact L).
  pose proof (buffer_processPutRequest_quiet client task (U task eq_refl) s) as Hquiet.
  pose proof (buffer_processPutRequest_queue_state client task s) as Hkeep.
  assert (Hlast : forall s1 (f : WriteBufferFromS3.PutObjectTask -> WriteBufferFromS3.PutObjectTask),
             (forall t, WriteBufferFromS3.put_req (f t) = WriteBufferFromS3.put_req t) ->
             WriteBufferFromS3.ledger_step s1 (WriteBufferFromS3.update_put_task f s1)).
  { intros s1 f Hf. apply (buffer_ledger_step_other _ _ []); try reflexivity;
      [|symmetry; apply app_nil_r|constructor].
    cbn. destruct (WriteBufferFromS3.put_object_task s1); [cbn; rewrite Hf|]; reflexivity. }
  destruct (WriteBufferFromS3.processPutRequest client task s) as [u s1|e s1| | |];
    try discriminate; ok_inv H; cbn [final_state] in Hquiet, Hkeep;
    pose proof (buffer_ledger_step_quiet _ _ Hquiet Hkeep) as S1;
    unfold WriteBufferFromS3.task_notify_finish in *.
  - exact (proj2 (proj2 (buffer_ledger_step_trans _ _ _ S1
                           (Hlast s1 WriteBufferFromS3.put_finished
                              ltac:(intros; reflexivity)))) Hclean L).
  - refine (proj2 (proj2 (buffer_ledger_step_trans _ _ _ S1
                            (buffer_ledger_step_trans _ _ _
                               (Hlast s1
                                  (fun t => WriteBufferFromS3.mkPutObjectTask
                                              (WriteBufferFromS3.put_req t)
                                              (WriteBufferFromS3.put_is_finished t) (Some e)
                                              (WriteBufferFromS3.put_stage t))
                                  ltac:(intros; reflexivity))
                               (Hlast _ WriteBufferFromS3.put_finished
                                  ltac:(intros; reflexivity))))) Hclean L).
Qed.

Ltac pool_keeps_tac :=
  return_with pool_keeps_refl pool_keeps_trans;
  try solve [ apply pool_keeps_same; reflexivity | assumption ].

Lemma buffer_pool_events_ledger (evs : list WriteBufferFromS3.PoolEvent) :
  returning WriteBufferFromS3.ledger_step (WriteBufferFromS3.pool_events client evs).
Proof.
  induction evs as [|ev evs IH]; cbn [WriteBufferFromS3.pool_events]; buffer_ledger_tac.
  destruct ev; [apply buffer_upload_task_runs_ledger|apply buffer_put_task_runs_ledger].
Qed.

Lemma buffer_pool_events_keeps (evs : list WriteBufferFromS3.PoolEvent) :
  returning WriteBufferFromS3.pool_keeps (WriteBufferFromS3.pool_events client evs).
Proof.
  induction evs as [|ev evs IH]; cbn [WriteBufferFromS3.pool_events]; pool_keeps_tac.
  destruct ev; [apply buffer_upload_task_runs_keeps|apply buffer_put_task_runs_keeps].
Qed.

Lemma buffer_pool_turn_ledger :
  returning WriteBufferFromS3.ledger_step (WriteBufferFromS3.pool_turn client).
Proof. unfold WriteBufferFromS3.pool_turn. buffer_ledger_tac. apply buffer_pool_events_ledger. Qed.

Lemma buffer_pool_turn_keeps :
  returning WriteBufferFromS3.pool_keeps (WriteBufferFromS3.pool_turn client).
Proof. unfold WriteBufferFromS3.pool_turn. pool_keeps_tac. apply buffer_pool_events_keeps. Qed.

Lemma buffer_pool_finish_ledger (ids : list Z) :
  returning WriteBufferFromS3.ledger_step (WriteBufferFromS3.pool_finish client ids).
Proof.
  induction ids as [|id ids IH]; cbn [WriteBufferFromS3.pool_finish]; buffer_ledger_tac.
  apply buffer_upload_task_runs_ledger.
Qed.

Lemma buffer_pool_finish_keeps (ids : list Z) :
  returning WriteBufferFromS3.pool_keeps (WriteBufferFromS3.pool_finish client ids).
Proof.
  induction ids as [|id ids IH]; cbn [WriteBufferFromS3.pool_finish]; pool_keeps_tac.
  apply buffer_upload_task_runs_keeps.
Qed.

(** *** Every closure runs to its end *)

Lemma buffer_upload_task_runs_returns (id : Z) (s s' : WriteBufferFromS3.State) :
  WriteBufferFromS3.ledger s ->
  WriteBufferFromS3.upload_task_runs client id s = Ok tt s' ->
  forall i t, nth_error (WriteBufferFromS3.upload_object_tasks s) i = Some t ->
              WriteBufferFromS3.task_id t = id -> WriteBufferFromS3.returned s' i.
Proof.
  intros (N & _ & S & _) H i t Hi Hid.
  destruct (find (fun t => WriteBufferFromS3.task_id t =? id)
              (WriteBufferFromS3.upload_object_tasks s)) as [task|] eqn:Hfind.
  - pose proof Hfind as Hsome. apply find_some in Hsome. destruct Hsome as (Hin & Htid).
    apply Z.eqb_eq in Htid.
    assert (Hsame : t = task).
    { apply (NoDup_map_eq WriteBufferFromS3.task_id _ _ _ N (nth_error_In _ _ Hi) Hin).
      congruence. }
    subst t. rewrite Forall_forall in S. destruct (S task Hin) as (_ & _ & Hsched & _).
    destruct (WriteBufferFromS3.stage task) eqn:Hstage; [congruence| |].
    + rewrite (buffer_upload_task_runs_sends client id task s Hfind Hstage) in H.
      cbv zeta in H. ok_inv H. unfold WriteBufferFromS3.returned.
      unfold WriteBufferFromS3.task_finish_notify, WriteBufferFromS3.update_task.
      cbn [WriteBufferFromS3.upload_object_tasks WriteBufferFromS3.set_upload_object_tasks
           WriteBufferFromS3.set_num_finished_bg_tasks WriteBufferFromS3.set_trace].
      rewrite !nth_error_map, Hi. cbn [option_map]. eexists. split; [reflexivity|].
      rewrite Z.eqb_refl.
      destruct (client _ _); cbn [WriteBufferFromS3.task_id WriteBufferFromS3.with_tag
                                  WriteBufferFromS3.with_exception];
        rewrite Z.eqb_refl; reflexivity.
    + unfold WriteBufferFromS3.upload_task_runs in H. rewrite Hfind, Hstage in H. ok_inv H.
      exists task. split; assumption.
  - exfalso. pose proof (find_none _ _ Hfind t (nth_error_In _ _ Hi)) as Hno. cbn in Hno.
    apply Z.eqb_neq in Hno. contradiction.
Qed.

(** When [pool_finish] returns in a write in which nothing has failed, the
    ledger is kept and the closures it ran have returned. *)
Lemma buffer_pool_finish_returns (ids : list Z) :
  forall s s',
  WriteBufferFromS3.pool_finish client ids s = Ok tt s' ->
  has_failed_upload (WriteBufferFromS3.trace s') = false ->
  WriteBufferFromS3.ledger s ->
  forall i t, nth_error (WriteBufferFromS3.upload_object_tasks s) i = Some t ->
              In (WriteBufferFromS3.task_id t) ids -> WriteBufferFromS3.returned s' i.
Proof.
  induction ids as [|id ids IH]; intros s s' H Hclean L i t Hi Hin;
    cbn [WriteBufferFromS3.pool_finish] in H; [destruct Hin|].
  apply bind_ok in H. destruct H as ([] & s1 & H1 & H2).
  destruct (buffer_pool_finish_ledger ids _ _ _ H2) as (_ & (sent & Hsent) & _).
  assert (Hclean1 : has_failed_upload (WriteBufferFromS3.trace s1) = false).
  { rewrite Hsent in Hclean. apply has_failed_upload_app_false in Hclean. apply Hclean. }
  pose proof (proj2 (proj2 (buffer_upload_task_runs_ledger id _ _ _ H1)) Hclean1 L) as L1.
  destruct (buffer_upload_task_runs_keeps id _ _ _ H1) as (Q1 & _).
  destruct (buffer_pool_finish_keeps ids _ _ _ H2) as (_ & K2).
  destruct Hin as [Hid|Hin].
  - destruct (buffer_upload_task_runs_returns id s s1 L H1 i t Hi (eq_sym Hid))
      as (t1 & Ht1 & Hst1).
    exact (K2 i t1 Ht1 Hst1).
  - pose proof (f_equal (fun l => nth_error l i) Q1) as Hnth. cbn in Hnth.
    rewrite !nth_error_map, Hi in Hnth. cbn in Hnth.
    destruct (nth_error (WriteBufferFromS3.upload_object_tasks s1) i) as [t1|] eqn:Ht1;
      [|discriminate].
    cbn in Hnth. injection Hnth as Hid1 _.
    apply (IH s1 s' H2 Hclean L1 i t1 Ht1). rewrite Hid1. exact Hin.
Qed.

(** When the wait is over in a write in which nothing has failed, every
    task of the queue has returned. *)
Lemma buffer_condvar_wait_tasks_returns (s s' : WriteBufferFromS3.State) :
  WriteBufferFromS3.condvar_wait_tasks client s = Ok tt s' ->
  WriteBufferFromS3.ledger_step s s' /\
  (has_failed_upload (WriteBufferFromS3.trace s') = false ->
   WriteBufferFromS3.ledger s ->
   Forall (fun t => WriteBufferFromS3.stage t = WriteBufferFromS3.Returned)
     (WriteBufferFromS3.upload_object_tasks s')).
Proof.
  intros H. unfold WriteBufferFromS3.condvar_wait_tasks in H.
  apply bind_ok in H. destruct H as ([] & s1 & H1 & H). cbn [bind gets] in H.
  apply bind_ok in H. destruct H as ([] & s2 & H2 & H). cbn [bind gets] in H.
  assert (Hs' : s' = s2) by (destruct (_ =? _); [ok_inv H; reflexivity|discriminate]).
  subst s'. clear H.
  pose proof (buffer_pool_turn_ledger _ _ _ H1) as S1.
  pose proof (buffer_pool_finish_ledger _ _ _ _ H2) as S2.
  split; [exact (buffer_ledger_step_trans _ _ _ S1 S2)|].
  intros Hclean L.
  destruct S2 as (_ & (sent & Hsent) & _).
  assert (Hclean1 : has_failed_upload (WriteBufferFromS3.trace s1) = false).
  { rewrite Hsent in Hclean. apply has_failed_upload_app_false in Hclean. apply Hclean. }
  pose proof (proj2 (proj2 S1) Hclean1 L) as L1.
  destruct (buffer_pool_finish_keeps _ _ _ _ H2) as (Q2 & _).
  apply Forall_forall. intros t Hin. apply In_nth_error in Hin. destruct Hin as [i Hi].
  pose proof (f_equal (fun l => nth_error l i) Q2) as Hnth. cbn in Hnth.
  rewrite !nth_error_map, Hi in Hnth. cbn in Hnth.
  destruct (nth_error (WriteBufferFromS3.upload_object_tasks s1) i) as [t1|] eqn:Ht1;
    [|discriminate].
  destruct (buffer_pool_finish_returns _ _ _ H2 Hclean L1 i t1 Ht1) as (t' & Ht' & Hst).
  - apply in_map. exact (nth_error_In _ _ Ht1).
  - congruence.
Qed.

(** *** The tags are collected *)

(** The task at the head of the queue has returned and its tag is moved to
    the list of the tags. *)
Lemma buffer_ledger_collect (s s2 : WriteBufferFromS3.State)
    (t : WriteBufferFromS3.UploadPartTask) (rest : list WriteBufferFromS3.UploadPartTask) :
  WriteBufferFromS3.upload_object_tasks s = t :: rest ->
  WriteBufferFromS3.stage t = WriteBufferFromS3.Returned ->
  WriteBufferFromS3.config s2 = WriteBufferFromS3.config s ->
  WriteBufferFromS3.part_number s2 = WriteBufferFromS3.part_number s ->
  WriteBufferFromS3.part_tags s2 = WriteBufferFromS3.part_tags s ++ [WriteBufferFromS3.tag t] ->
  WriteBufferFromS3.upload_object_tasks s2 = rest ->
  WriteBufferFromS3.num_added_bg_tasks s2 = WriteBufferFromS3.num_added_bg_tasks s ->
  WriteBufferFromS3.put_object_task s2 = WriteBufferFromS3.put_object_task s ->
  WriteBufferFromS3.trace s2 = WriteBufferFromS3.trace s ->
  WriteBufferFromS3.ledger s -> WriteBufferFromS3.ledger s2.
Proof.
  intros Htasks Hst Hc Hpn Htags Hrest Hnum Hput Htr (N & I & S & Q & U & P & C & B & E).
  unfold WriteBufferFromS3.ledger. rewrite Hc, Hpn, Htags, Hrest, Hnum, Hput, Htr.
  rewrite Htasks in N, I, S, Q, P, C, E.
  cbn [map] in N. inversion N as [|? ? _ N']; subst.
  inversion I as [|? ? _ I']; subst. inversion S as [|? ? _ S']; subst.
  split; [exact N'|]. split; [exact I'|]. split; [exact S'|]. split.
  { intros Hs. specialize (Q Hs). discriminate. }
  split; [exact U|]. split.
  { intros j t' Hj. rewrite length_app. cbn [List.length].
    rewrite (P (Datatypes.S j) t' Hj). f_equal. lia. }
  split.
  { rewrite C, length_app. cbn [List.length]. f_equal. lia. }
  split; [exact B|].
  rewrite completed_parts_same in *. rewrite completed_parts_app, <- app_assoc.
  unfold WriteBufferFromS3.returned_parts in E. cbn [flat_map] in E. rewrite Hst in E.
  rewrite (P 0%nat t eq_refl) in E.
  replace (Z.of_nat (List.length (WriteBufferFromS3.part_tags s)) + Z.of_nat 0 + 1)
    with (Z.of_nat (List.length (WriteBufferFromS3.part_tags s)) + 1) in E by lia.
  exact E.
Qed.

Lemma buffer_collect_all_ledger (tasks : list WriteBufferFromS3.UploadPartTask) :
  forall s s',
  WriteBufferFromS3.upload_object_tasks s = tasks ->
  WriteBufferFromS3.collect_all tasks s = Ok tt s' ->
  WriteBufferFromS3.config s' = WriteBufferFromS3.config s /\
  WriteBufferFromS3.trace s' = WriteBufferFromS3.trace s /\
  WriteBufferFromS3.upload_object_tasks s' = [] /\
  (Forall (fun t => WriteBufferFromS3.stage t = WriteBufferFromS3.Returned) tasks ->
   WriteBufferFromS3.ledger s -> WriteBufferFromS3.ledger s').
Proof.
  induction tasks as [|t tasks IH]; intros s s' Htasks H;
    cbn [WriteBufferFromS3.collect_all] in H.
  - ok_inv H. split; [reflexivity|]. split; [reflexivity|]. split; [exact Htasks|auto].
  - destruct (WriteBufferFromS3.exception t); [discriminate|].
    cbn [bind modify] in H. apply IH in H; [|reflexivity].
    destruct H as (Hc & Htr & Hnil & Hl). cbn in Hc, Htr.
    split; [exact Hc|]. split; [exact Htr|]. split; [exact Hnil|].
    intros Hret L. inversion Hret as [|? ? Hst Hret']; subst.
    apply Hl; [exact Hret'|].
    apply (buffer_ledger_collect s _ t tasks Htasks Hst); try reflexivity. exact L.
Qed.

Lemma buffer_collect_ready_ledger (tasks : list WriteBufferFromS3.UploadPartTask) :
  forall s s',
  WriteBufferFromS3.upload_object_tasks s = tasks ->
  WriteBufferFromS3.collect_ready client tasks s = Ok tt s' ->
  WriteBufferFromS3.ledger_step s s'.
Proof.
  induction tasks as [|t tasks IH]; intros s s' Htasks H;
    cbn [WriteBufferFromS3.collect_ready] in H.
  - ok_inv H. apply buffer_ledger_step_refl.
  - destruct (WriteBufferFromS3.is_finished t) eqn:Hfin;
      [|ok_inv H; apply buffer_ledger_step_refl].
    cbn [bind modify] in H.
    destruct (WriteBufferFromS3.exception t).
    { apply bind_ok in H. destruct H as (? & ? & _ & H). discriminate. }
    cbn [bind modify] in H. apply IH in H; [|reflexivity].
    eapply buffer_ledger_step_trans; [|exact H].
    split; [reflexivity|]. split; [exists []; symmetry; apply app_nil_r|].
    intros _ L. pose proof L as (_ & _ & S & _). rewrite Htasks in S.
    inversion S as [|? ? (_ & _ & _ & Hst) _]; subst.
    apply (buffer_ledger_collect s _ t tasks Htasks (Hst Hfin)); try reflexivity. exact L.
Qed.

Lemma buffer_condvar_wait_put_ledger :
  returning WriteBufferFromS3.ledger_step (WriteBufferFromS3.condvar_wait_put client).
Proof.
  unfold WriteBufferFromS3.condvar_wait_put. buffer_ledger_tac.
  apply buffer_put_task_runs_ledger.
Qed.

Lemma buffer_condvar_wait_put_tasks (s s' : WriteBufferFromS3.State) :
  WriteBufferFromS3.condvar_wait_put client s = Ok tt s' ->
  WriteBufferFromS3.upload_object_tasks s' = WriteBufferFromS3.upload_object_tasks s.
Proof.
  intros H. pose proof (buffer_condvar_wait_put_queue_state client s) as K.
  rewrite H in K. exact (f_equal snd K).
Qed.

(** The wait at the end empties the queue into the list of the tags. *)
Lemma buffer_waitForAllBackGroundTasksUnlocked_ledger (s s' : WriteBufferFromS3.State) :
  WriteBufferFromS3.waitForAllBackGroundTasksUnlocked client s = Ok tt s' ->
  WriteBufferFromS3.ledger_step s s' /\
  (has_failed_upload (WriteBufferFromS3.trace s') = false ->
   WriteBufferFromS3.ledger s ->
   WriteBufferFromS3.upload_object_tasks s' = []).
Proof.
  intros H. unfold WriteBufferFromS3.waitForAllBackGroundTasksUnlocked in H.
  cbn [bind gets] in H.
  destruct (WriteBufferFromS3.schedule (WriteBufferFromS3.config s)) eqn:Hsched.
  2:{ ok_inv H. split; [apply buffer_ledger_step_refl|]. intros _ (_ & _ & _ & Q & _).
      exact (Q Hsched). }
  apply bind_ok in H. destruct H as ([] & s1 & H1 & H). cbn [bind gets] in H.
  apply bind_ok in H. destruct H as ([] & s2 & H2 & H). cbn [bind gets] in H.
  destruct (buffer_condvar_wait_tasks_returns _ _ H1) as (S1 & Hret).
  destruct (buffer_collect_all_ledger _ _ _ eq_refl H2) as (C2 & T2 & Hnil & L2).
  assert (S3 : WriteBufferFromS3.ledger_step s2 s' /\
               WriteBufferFromS3.upload_object_tasks s' = WriteBufferFromS3.upload_object_tasks s2).
  { destruct (WriteBufferFromS3.put_object_task s2);
      [|ok_inv H; split; [apply buffer_ledger_step_refl|reflexivity]].
    apply bind_ok in H. destruct H as ([] & s3 & H3 & H). cbn [bind gets] in H.
    destruct (WriteBufferFromS3.put_object_task s3) as [t|]; [|discriminate].
    destruct (WriteBufferFromS3.put_exception t); [discriminate|]. ok_inv H.
    split; [exact (buffer_condvar_wait_put_ledger _ _ _ H3)|].
    exact (buffer_condvar_wait_put_tasks _ _ H3). }
  destruct S3 as (S3 & Htasks3).
  pose proof S1 as (C1 & (t1 & T1) & L1). pose proof S3 as (C3 & (t3 & T3) & L3).
  assert (Hback : has_failed_upload (WriteBufferFromS3.trace s') = false ->
                  has_failed_upload (WriteBufferFromS3.trace s1) = false).
  { intros Hclean. rewrite T3, T2 in Hclean. apply has_failed_upload_app_false in Hclean.
    apply Hclean. }
  split; [|intros _ _; congruence].
  split; [congruence|]. split.
  { exists (t1 ++ t3). rewrite T3, T2, T1, app_assoc. reflexivity. }
  intros Hclean L. apply L3; [exact Hclean|].
  apply L2; [exact (Hret (Hback Hclean) L)|exact (L1 (Hback Hclean) L)].
Qed.

Lemma buffer_waitForAllBackGroundTasks_ledger (s s' : WriteBufferFromS3.State) :
  WriteBufferFromS3.waitForAllBackGroundTasks client s = Ok tt s' ->
  WriteBufferFromS3.ledger_step s s' /\
  (has_failed_upload (WriteBufferFromS3.trace s') = false ->
   WriteBufferFromS3.ledger s ->
   WriteBufferFromS3.upload_object_tasks s' = []).
Proof.
  intros H. unfold WriteBufferFromS3.waitForAllBackGroundTasks in H. cbn [bind gets] in H.
  destruct (WriteBufferFromS3.schedule (WriteBufferFromS3.config s)) eqn:Hsched.
  - exact (buffer_waitForAllBackGroundTasksUnlocked_ledger _ _ H).
  - ok_inv H. split; [apply buffer_ledger_step_refl|]. intros _ (_ & _ & _ & Q & _).
    exact (Q Hsched).
Qed.

Lemma buffer_waitForReadyBackGroundTasks_ledger :
  returning WriteBufferFromS3.ledger_step
    (WriteBufferFromS3.waitForReadyBackGroundTasks client).
Proof.
  intros s [] s' H. unfold WriteBufferFromS3.waitForReadyBackGroundTasks in H.
  cbn [bind gets] in H.
  destruct (WriteBufferFromS3.schedule (WriteBufferFromS3.config s));
    [|ok_inv H; apply buffer_ledger_step_refl].
  apply bind_ok in H. destruct H as ([] & s1 & H1 & H2). cbn [bind gets] in H2.
  eapply buffer_ledger_step_trans.
  - exact (buffer_pool_turn_ledger _ _ _ H1).
  - exact (buffer_collect_ready_ledger _ _ _ eq_refl H2).
Qed.

(** *** The calling thread *)

(** What [fillUploadRequest] leaves alone, and the number it gives to the
    part. *)
Lemma fillUploadRequest_ledger (s s1 : WriteBufferFromS3.State) (r : Request) :
  WriteBufferFromS3.fillUploadRequest s = Ok r s1 ->
  WriteBufferFromS3.config s1 = WriteBufferFromS3.config s /\
  WriteBufferFromS3.part_number s1 = wrap (WriteBufferFromS3.part_number s + 1) /\
  WriteBufferFromS3.part_tags s1 = WriteBufferFromS3.part_tags s /\
  WriteBufferFromS3.upload_object_tasks s1 = WriteBufferFromS3.upload_object_tasks s /\
  WriteBufferFromS3.num_added_bg_tasks s1 = WriteBufferFromS3.num_added_bg_tasks s /\
  WriteBufferFromS3.put_object_task s1 = WriteBufferFromS3.put_object_task s /\
  WriteBufferFromS3.trace s1 = WriteBufferFromS3.trace s /\
  is_upload r = true /\
  part_number_of r = static_cast_int (wrap (WriteBufferFromS3.part_number s + 1)).
Proof.
  intros H. pose proof (fillUploadRequest_cases s) as C. cbv zeta in C.
  repeat match type of C with
         | (if ?b then _ else _) => destruct b
         end;
    rewrite C in H; try discriminate; ok_inv H; repeat split.
Qed.

(** A part is handed to the thread pool. *)
Lemma buffer_ledger_enqueue (s sq : WriteBufferFromS3.State) (r : Request) :
  WriteBufferFromS3.ledger s ->
  WriteBufferFromS3.config sq = WriteBufferFromS3.config s ->
  WriteBufferFromS3.part_number sq = WriteBufferFromS3.part_number s + 1 ->
  WriteBufferFromS3.part_number s + 1
  <= max_part_number (WriteBufferFromS3.settings (WriteBufferFromS3.config s)) ->
  WriteBufferFromS3.part_tags sq = WriteBufferFromS3.part_tags s ->
  WriteBufferFromS3.upload_object_tasks sq
  = WriteBufferFromS3.upload_object_tasks s
    ++ [WriteBufferFromS3.mkUploadPartTask (WriteBufferFromS3.num_added_bg_tasks s) r false ""
          None WriteBufferFromS3.Queued] ->
  WriteBufferFromS3.num_added_bg_tasks sq = WriteBufferFromS3.num_added_bg_tasks s + 1 ->
  WriteBufferFromS3.put_object_task sq = WriteBufferFromS3.put_object_task s ->
  WriteBufferFromS3.trace sq = WriteBufferFromS3.trace s ->
  is_upload r = true ->
  part_number_of r = static_cast_int (WriteBufferFromS3.part_number s + 1) ->
  WriteBufferFromS3.schedule (WriteBufferFromS3.config s) = true ->
  WriteBufferFromS3.ledger sq.
Proof.
  intros (N & I & S & Q & U & P & C & B & E) Hc Hpn Hmax Htags Htasks Hnum Hput Htr Hup Hr
    Hsched.
  unfold WriteBufferFromS3.ledger. rewrite Hc, Hpn, Htags, Htasks, Hnum, Hput, Htr.
  split.
  { rewrite map_app. cbn [map WriteBufferFromS3.task_id].
    apply NoDup_app; [exact N|repeat constructor; intros []|].
    intros x Hx [Hx'|[]]. subst x. apply in_map_iff in Hx. destruct Hx as (t & Ht & Hin).
    rewrite Forall_forall in I. specialize (I t Hin). lia. }
  split.
  { apply Forall_app. split.
    - eapply Forall_impl; [|exact I]. cbn. intros t Ht. lia.
    - constructor; [cbn; lia|constructor]. }
  split.
  { apply Forall_app. split; [exact S|]. constructor; [|constructor].
    split; [reflexivity|]. split; [exact Hup|]. split; discriminate. }
  split; [congruence|]. split; [exact U|]. split.
  { intros j t Hj.
    destruct (Nat.lt_ge_cases j (List.length (WriteBufferFromS3.upload_object_tasks s)))
      as [Hlt|Hge].
    - rewrite nth_error_app1 in Hj by exact Hlt. exact (P j t Hj).
    - rewrite nth_error_app2 in Hj by exact Hge.
      destruct (j - List.length (WriteBufferFromS3.upload_object_tasks s))%nat as [|k] eqn:Hk;
        [|destruct k; discriminate].
      cbn in Hj. injection Hj as <-. cbn [WriteBufferFromS3.req]. rewrite Hr, C.
      f_equal. lia. }
  split.
  { rewrite C, length_app. cbn [List.length]. lia. }
  split; [lia|].
  unfold WriteBufferFromS3.returned_parts in *. rewrite flat_map_app. cbn [flat_map].
  cbn [WriteBufferFromS3.stage app]. rewrite app_nil_r. exact E.
Qed.

(** A part is sent by the calling thread and accepted. *)
Lemma buffer_ledger_inline (s s2 : WriteBufferFromS3.State) (r : Request) (etag : string) :
  WriteBufferFromS3.ledger s ->
  WriteBufferFromS3.config s2 = WriteBufferFromS3.config s ->
  WriteBufferFromS3.part_number s2 = WriteBufferFromS3.part_number s + 1 ->
  WriteBufferFromS3.part_number s + 1
  <= max_part_number (WriteBufferFromS3.settings (WriteBufferFromS3.config s)) ->
  WriteBufferFromS3.part_tags s2 = WriteBufferFromS3.part_tags s ++ [etag] ->
  WriteBufferFromS3.upload_object_tasks s2 = WriteBufferFromS3.upload_object_tasks s ->
  WriteBufferFromS3.num_added_bg_tasks s2 = WriteBufferFromS3.num_added_bg_tasks s ->
  WriteBufferFromS3.put_object_task s2 = WriteBufferFromS3.put_object_task s ->
  WriteBufferFromS3.trace s2 = WriteBufferFromS3.trace s ++ [(r, Success etag)] ->
  is_upload r = true ->
  part_number_of r = static_cast_int (WriteBufferFromS3.part_number s + 1) ->
  WriteBufferFromS3.schedule (WriteBufferFromS3.config s) = false ->
  WriteBufferFromS3.ledger s2.
Proof.
  intros (N & I & S & Q & U & P & C & B & E) Hc Hpn Hmax Htags Htasks Hnum Hput Htr Hup Hr
    Hsched.
  unfold WriteBufferFromS3.ledger. rewrite Hc, Hpn, Htags, Htasks, Hnum, Hput, Htr.
  pose proof (Q Hsched) as Hnil. rewrite Hnil in *.
  split; [exact N|]. split; [exact I|]. split; [exact S|]. split; [reflexivity|].
  split; [exact U|]. split; [intros [|j] t Hj; discriminate|]. split.
  { rewrite C, length_app. cbn [List.length]. lia. }
  split; [lia|].
  cbn [WriteBufferFromS3.returned_parts flat_map] in E |- *. rewrite app_nil_r in E |- *.
  rewrite completed_parts_same in *.
  rewrite upload_entries_app, map_app, completed_parts_app.
  apply Permutation_app; [exact E|].
  unfold upload_entries. cbn [filter fst]. rewrite Hup.
  unfold completed_of. cbn [map fst snd]. rewrite Hr, C. cbn [List.length].
  rewrite Nat.add_0_r. reflexivity.
Qed.

(** On an open multipart upload [writePart] gives the part the next number
    and its entry in the ledger. *)
Lemma buffer_writePart_ledger (s s' : WriteBufferFromS3.State) :
  WriteBufferFromS3.empty (WriteBufferFromS3.multipart_upload_id s) = false ->
  WriteBufferFromS3.writePart client s = Ok tt s' ->
  WriteBufferFromS3.ledger_step s s'.
Proof.
  intros Hopen H.
  split; [exact (proj1 (writePart_counter client s s' Hopen H))|].
  split.
  { pose proof (buffer_writePart_grows client s) as G. rewrite H in G. exact G. }
  intros Hclean L.
  destruct (Z.lt_ge_cases 0 (WriteBufferFromS3.temporary_buffer s)) as [Hpos|Hneg].
  2:{ unfold WriteBufferFromS3.writePart in H. cbn [bind gets] in H.
      assert (Hs' : exists lg, s' = WriteBufferFromS3.set_log lg s).
      { destruct (Z.ltb_spec (WriteBufferFromS3.temporary_buffer s) 0);
          [ok_inv H; eexists; reflexivity|].
        destruct (Z.eqb_spec (WriteBufferFromS3.temporary_buffer s) 0);
          [ok_inv H; eexists; reflexivity|lia]. }
      destruct Hs' as (lg & ->).
      refine (proj2 (proj2 (buffer_ledger_step_other s _ [] _ _ _ _ _ _ _ _)) Hclean L);
        try reflexivity; [symmetry; apply app_nil_r|constructor]. }
  assert (HX : forall X,
             X = WriteBufferFromS3.after_warning s ->
             WriteBufferFromS3.config X = WriteBufferFromS3.config s /\
             WriteBufferFromS3.part_number X = WriteBufferFromS3.part_number s /\
             WriteBufferFromS3.part_tags X = WriteBufferFromS3.part_tags s /\
             WriteBufferFromS3.upload_object_tasks X = WriteBufferFromS3.upload_object_tasks s /\
             WriteBufferFromS3.num_added_bg_tasks X = WriteBufferFromS3.num_added_bg_tasks s /\
             WriteBufferFromS3.put_object_task X = WriteBufferFromS3.put_object_task s /\
             WriteBufferFromS3.trace X = WriteBufferFromS3.trace s /\
             WriteBufferFromS3.multipart_upload_id X = WriteBufferFromS3.multipart_upload_id s).
  { intros X ->. unfold WriteBufferFromS3.after_warning. destruct (_ =? _); repeat split. }
  destruct (HX _ eq_refl) as (Xc & Xpn & Xtags & Xtasks & Xnum & Xput & Xtr & Xid).
  pose proof L as (N & I & S & Q & U & P & C & B & E).
  assert (Hnext : wrap (WriteBufferFromS3.part_number s + 1)
                  = WriteBufferFromS3.part_number s + 1).
  { apply wrap_small. unfold is_size_t. lia. }
  destruct (WriteBufferFromS3.schedule (WriteBufferFromS3.config s)) eqn:Hsched.
  - rewrite (writePart_scheduled client s Hpos Hsched) in H. cbv zeta in H.
    set (X := WriteBufferFromS3.with_new_task (WriteBufferFromS3.after_warning s)) in *.
    destruct (WriteBufferFromS3.fillUploadRequest X) as [r sf| | | |] eqn:Hfill;
      try discriminate.
    destruct (fillUploadRequest_ledger X sf r Hfill)
      as (Fc & Fpn & Ftags & Ftasks & Fnum & Fput & Ftr & Hup & Hr).
    destruct (fillUploadRequest_within_ceiling X sf r
                ltac:(subst X; cbn; rewrite Xid; exact Hopen) Hfill) as (_ & Hmax & _).
    subst X.
    cbn [WriteBufferFromS3.with_new_task WriteBufferFromS3.config
         WriteBufferFromS3.part_number WriteBufferFromS3.part_tags
         WriteBufferFromS3.upload_object_tasks WriteBufferFromS3.num_added_bg_tasks
         WriteBufferFromS3.put_object_task WriteBufferFromS3.trace
         WriteBufferFromS3.set_num_added_bg_tasks WriteBufferFromS3.set_upload_object_tasks]
      in Fc, Fpn, Ftags, Ftasks, Fnum, Fput, Ftr, Hr.
    rewrite Xc in Fc. rewrite Xpn in Fpn, Hr. rewrite Xtags in Ftags.
    rewrite ?Xtasks, ?Xnum in Ftasks. rewrite Xnum in Fnum. rewrite Xput in Fput.
    rewrite Xtr in Ftr.
    rewrite Hnext in Fpn, Hr. rewrite Fc, Fpn in Hmax.
    set (id := WriteBufferFromS3.num_added_bg_tasks s) in *.
    match type of H with
    | WriteBufferFromS3.pool_turn _ ?st = _ => set (sq := st) in *
    end.
    assert (Hqueue : WriteBufferFromS3.upload_object_tasks sq
                     = WriteBufferFromS3.upload_object_tasks s
                       ++ [WriteBufferFromS3.mkUploadPartTask id r false "" None
                             WriteBufferFromS3.Queued]).
    { subst sq. cbn. rewrite Ftasks.
      rewrite (buffer_update_last_task id (WriteBufferFromS3.with_req r) _
                 (WriteBufferFromS3.new_task id) I eq_refl).
      rewrite (buffer_update_last_task id (WriteBufferFromS3.with_stage WriteBufferFromS3.Queued) _
                 (WriteBufferFromS3.with_req r (WriteBufferFromS3.new_task id)) I eq_refl).
      reflexivity. }
    apply (proj2 (proj2 (buffer_pool_turn_ledger _ _ _ H)) Hclean).
    apply (buffer_ledger_enqueue s sq r L); try assumption.
  - rewrite (writePart_inline client s Hpos Hsched) in H.
    destruct (WriteBufferFromS3.fillUploadRequest (WriteBufferFromS3.after_warning s))
      as [r sf| | | |] eqn:Hfill; try discriminate.
    destruct (fillUploadRequest_ledger _ sf r Hfill)
      as (Fc & Fpn & Ftags & Ftasks & Fnum & Fput & Ftr & Hup & Hr).
    destruct (fillUploadRequest_within_ceiling _ sf r
                ltac:(rewrite Xid; exact Hopen) Hfill) as (_ & Hmax & _).
    rewrite Xc in Fc. rewrite Xpn in Fpn, Hr. rewrite Xtags in Ftags.
    rewrite ?Xtasks, ?Xnum in Ftasks. rewrite Xnum in Fnum. rewrite Xput in Fput.
    rewrite Xtr in Ftr.
    rewrite Hnext in Fpn, Hr. rewrite Fc, Fpn in Hmax.
    unfold WriteBufferFromS3.processUploadRequest, bind, WriteBufferFromS3.send in H.
    cbn [WriteBufferFromS3.req WriteBufferFromS3.with_req WriteBufferFromS3.new_task] in H.
    destruct (client (WriteBufferFromS3.trace sf) r) as [etag|e]; [|discriminate].
    cbn [ret] in H. ok_inv H.
    apply (buffer_ledger_inline s _ r etag L); cbn; try assumption; congruence.
Qed.

Lemma buffer_createMultipartUpload_ledger :
  returning WriteBufferFromS3.ledger_step (WriteBufferFromS3.createMultipartUpload client).
Proof.
  intros s [] s' H.
  unfold WriteBufferFromS3.createMultipartUpload, WriteBufferFromS3.send, bind in H.
  destruct (client _ _) as [upload_id|e] eqn:Hanswer; [|discriminate].
  cbn [modify] in H. ok_inv H.
  apply (buffer_ledger_step_other _ _ [(CreateMultipartUploadRequest, Success upload_id)]);
    try reflexivity.
  constructor; [reflexivity|constructor].
Qed.

(** A step that gives the buffer a [PutObject] task, or changes it, and
    leaves alone the rest of what the ledger is about. *)
Lemma buffer_ledger_step_put (s s' : WriteBufferFromS3.State) :
  WriteBufferFromS3.config s' = WriteBufferFromS3.config s ->
  WriteBufferFromS3.part_number s' = WriteBufferFromS3.part_number s ->
  WriteBufferFromS3.part_tags s' = WriteBufferFromS3.part_tags s ->
  WriteBufferFromS3.upload_object_tasks s' = WriteBufferFromS3.upload_object_tasks s ->
  WriteBufferFromS3.num_added_bg_tasks s' = WriteBufferFromS3.num_added_bg_tasks s ->
  (forall t, WriteBufferFromS3.put_object_task s' = Some t ->
             is_upload (WriteBufferFromS3.put_req t) = false) ->
  WriteBufferFromS3.trace s' = WriteBufferFromS3.trace s ->
  WriteBufferFromS3.ledger_step s s'.
Proof.
  intros Hc Hpn Htags Htasks Hnum Hput Htr.
  split; [exact Hc|]. split; [exists []; rewrite Htr; symmetry; apply app_nil_r|].
  intros _ (N & I & S & Q & U & P & C & B & E).
  unfold WriteBufferFromS3.ledger. rewrite Hc, Hpn, Htags, Htasks, Hnum, Htr.
  repeat (split; [assumption|]). exact E.
Qed.

Lemma buffer_makeSinglepartUpload_ledger :
  returning WriteBufferFromS3.ledger_step (WriteBufferFromS3.makeSinglepartUpload client).
Proof.
  intros s [] s' H. unfold WriteBufferFromS3.makeSinglepartUpload in H. cbn [bind gets] in H.
  destruct (WriteBufferFromS3.temporary_buffer s <? 0).
  { cbn in H. ok_inv H. apply (buffer_ledger_step_other _ _ []); try reflexivity;
      [symmetry; apply app_nil_r|constructor]. }
  cbn [bind gets] in H.
  destruct (WriteBufferFromS3.schedule (WriteBufferFromS3.config s)).
  - cbn [bind modify] in H. apply bind_ok in H. destruct H as (u & s1 & H1 & H2).
    unfold try_rethrow, WriteBufferFromS3.fillPutRequest in H1. cbn [bind gets ret modify] in H1.
    injection H1 as _ <-.
    eapply buffer_ledger_step_trans; [|exact (buffer_pool_turn_ledger _ _ _ H2)].
    apply buffer_ledger_step_put; try reflexivity.
    intros t Ht. cbn in Ht. injection Ht as <-. reflexivity.
  - unfold WriteBufferFromS3.fillPutRequest in H. cbn [bind gets ret] in H.
    match type of H with
    | WriteBufferFromS3.processPutRequest _ ?task _ = _ =>
        pose proof (preserves_ok _ _ _ _ _
                      (buffer_processPutRequest_quiet client task eq_refl) H) as Hquiet;
        pose proof (preserves_ok _ _ _ _ _
                      (buffer_processPutRequest_queue_state client task) H) as Hkeep
    end.
    exact (buffer_ledger_step_quiet _ _ Hquiet Hkeep).
Qed.

(** An assignment to members that the ledger is not about. *)
Lemma buffer_ledger_step_front (s s' : WriteBufferFromS3.State) :
  WriteBufferFromS3.config s' = WriteBufferFromS3.config s ->
  WriteBufferFromS3.part_number s' = WriteBufferFromS3.part_number s ->
  WriteBufferFromS3.part_tags s' = WriteBufferFromS3.part_tags s ->
  WriteBufferFromS3.upload_object_tasks s' = WriteBufferFromS3.upload_object_tasks s ->
  WriteBufferFromS3.num_added_bg_tasks s' = WriteBufferFromS3.num_added_bg_tasks s ->
  WriteBufferFromS3.put_object_task s' = WriteBufferFromS3.put_object_task s ->
  WriteBufferFromS3.trace s' = WriteBufferFromS3.trace s ->
  WriteBufferFromS3.ledger_step s s'.
Proof.
  intros Hc Hpn Htags Htasks Hnum Hput Htr.
  apply (buffer_ledger_step_other s s' []); try assumption.
  - rewrite Hput. reflexivity.
  - rewrite Htr. symmetry. apply app_nil_r.
  - constructor.
Qed.

Lemma buffer_nextImpl_ledger :
  returning WriteBufferFromS3.ledger_step (WriteBufferFromS3.nextImpl client).
Proof.
  intros s [] s' H.
  destruct (Z.eq_dec (WriteBufferFromS3.working_offset s) 0) as [Hz|Hnz].
  - unfold WriteBufferFromS3.nextImpl in H. cbn [bind gets] in H. rewrite Hz in H.
    cbn in H. ok_inv H. apply buffer_ledger_step_refl.
  - rewrite (nextImpl_steps client s Hnz) in H. cbv zeta in H.
    match type of H with
    | bind _ _ ?st = _ => set (s2 := st) in *
    end.
    assert (S2 : WriteBufferFromS3.ledger_step s s2).
    { subst s2. destruct (WriteBufferFromS3.temporary_buffer s =? -1);
        apply buffer_ledger_step_front; reflexivity. }
    apply bind_ok in H. destruct H as ([] & s3 & H3 & H).
    assert (S3 : WriteBufferFromS3.ledger_step s2 s3).
    { match type of H3 with
      | (if ?b then _ else _) _ = _ => destruct b
      end.
      - exact (buffer_createMultipartUpload_ledger _ _ _ H3).
      - cbv [ret] in H3. ok_inv H3. apply buffer_ledger_step_refl. }
    apply bind_ok in H. destruct H as ([] & s4 & H4 & H).
    assert (S4 : WriteBufferFromS3.ledger_step s3 s4).
    { destruct (WriteBufferFromS3.empty (WriteBufferFromS3.multipart_upload_id s3)) eqn:Hopen;
        cbn [negb andb] in H4;
        [cbv [ret] in H4; ok_inv H4; apply buffer_ledger_step_refl|].
      match type of H4 with
      | (if ?b then _ else _) _ = _ =>
          destruct b; [|cbv [ret] in H4; ok_inv H4; apply buffer_ledger_step_refl]
      end.
      apply bind_ok in H4. destruct H4 as ([] & s5 & H5 & H4).
      unfold WriteBufferFromS3.allocateBuffer in H4. cbv [modify] in H4. ok_inv H4.
      eapply buffer_ledger_step_trans; [exact (buffer_writePart_ledger s3 s5 Hopen H5)|].
      apply buffer_ledger_step_front; reflexivity. }
    eapply buffer_ledger_step_trans; [exact S2|].
    eapply buffer_ledger_step_trans; [exact S3|].
    eapply buffer_ledger_step_trans; [exact S4|].
    exact (buffer_waitForReadyBackGroundTasks_ledger _ _ _ H).
Qed.

Lemma buffer_next_ledger :
  returning WriteBufferFromS3.ledger_step (WriteBufferFromS3.next client).
Proof.
  intros s [] s' H. unfold WriteBufferFromS3.next in H. cbn [bind gets] in H.
  destruct (_ =? 0); [cbv [ret] in H; ok_inv H; apply buffer_ledger_step_refl|].
  apply bind_ok in H. destruct H as ([] & s1 & H1 & H). cbv [modify] in H. ok_inv H.
  unfold try_rethrow in H1.
  destruct (WriteBufferFromS3.nextImpl client s) as [[] s0| | | |] eqn:Hnext; try discriminate.
  ok_inv H1.
  eapply buffer_ledger_step_trans; [exact (buffer_nextImpl_ledger _ _ _ Hnext)|].
  apply buffer_ledger_step_front; reflexivity.
Qed.

Lemma buffer_write_all_ledger (chunks : list Z) :
  returning WriteBufferFromS3.ledger_step (WriteBufferFromS3.write_all client chunks).
Proof.
  induction chunks as [|n chunks IH]; cbn [WriteBufferFromS3.write_all];
    unfold WriteBufferFromS3.write; buffer_ledger_tac.
  apply buffer_next_ledger.
Qed.

Lemma buffer_preFinalize_ledger :
  returning WriteBufferFromS3.ledger_step (WriteBufferFromS3.preFinalize client).
Proof.
  intros s [] s' H. unfold WriteBufferFromS3.preFinalize in H.
  apply bind_ok in H. destruct H as ([] & s1 & H1 & H). cbn [bind gets] in H.
  apply bind_ok in H. destruct H as ([] & s2 & H2 & H). cbv [modify] in H. ok_inv H.
  eapply buffer_ledger_step_trans; [exact (buffer_next_ledger _ _ _ H1)|].
  eapply buffer_ledger_step_trans; [|apply buffer_ledger_step_front; reflexivity].
  destruct (WriteBufferFromS3.empty (WriteBufferFromS3.multipart_upload_id s1)) eqn:Hopen.
  - exact (buffer_makeSinglepartUpload_ledger _ _ _ H2).
  - exact (buffer_writePart_ledger s1 s2 Hopen H2).
Qed.

(** A streaming write that returns with a multipart upload has sent
    [CompleteMultipartUpload] with one entry for every part request that
    was answered, all of them with success. *)
Lemma buffer_streaming_write_ledger (cfg : WriteBufferFromS3.Config)
    (script : list (list WriteBufferFromS3.PoolEvent)) (chunks : list Z)
    (s' : WriteBufferFromS3.State) :
  Forall (fun n => 0 <= n) chunks ->
  0 <= max_part_number (WriteBufferFromS3.settings cfg) < SIZE_MODULUS - 1 ->
  WriteBufferFromS3.streaming_write client chunks (WriteBufferFromS3.construct cfg script)
  = Ok tt s' ->
  WriteBufferFromS3.empty (WriteBufferFromS3.multipart_upload_id s') = false ->
  exists before sent after,
    WriteBufferFromS3.trace s' = before ++ sent ++ after /\ sent <> [] /\
    Forall (fun entry =>
              fst entry
              = CompleteMultipartUploadRequest (WriteBufferFromS3.multipart_upload_id s')
                  (WriteBufferFromS3.completed_parts (WriteBufferFromS3.part_tags s')))
           sent /\
    Forall (fun entry => fst entry = HeadObjectRequest) after /\
    WriteBufferFromS3.part_tags s' <> [] /\
    one_entry_per_part before
      (WriteBufferFromS3.completed_parts (WriteBufferFromS3.part_tags s')) /\
    one_entry_per_part (WriteBufferFromS3.trace s')
      (WriteBufferFromS3.completed_parts (WriteBufferFromS3.part_tags s')).
Proof.
  intros Hchunks Hmax H Hopen.
  assert (Hclean : has_failed_upload (WriteBufferFromS3.trace s') = false).
  { destruct (buffer_streaming_write_parted client cfg script chunks s' Hchunks H)
      as ((_ & _ & _ & _ & Q) & E & _).
    destruct (has_failed_upload (WriteBufferFromS3.trace s')); [|reflexivity].
    specialize (Q eq_refl). rewrite E in Q. inversion Q. }
  unfold WriteBufferFromS3.streaming_write in H.
  apply bind_ok in H. destruct H as ([] & s1 & H1 & H).
  assert (L0 : WriteBufferFromS3.ledger (WriteBufferFromS3.construct cfg script)).
  { unfold WriteBufferFromS3.ledger. cbn.
    split; [constructor|]. split; [constructor|]. split; [constructor|].
    split; [reflexivity|]. split; [discriminate|].
    split; [intros [|j] t Hj; discriminate|]. split; [reflexivity|].
    split; [unfold SIZE_MODULUS in *; lia|constructor]. }
  pose proof (buffer_write_all_ledger chunks _ _ _ H1) as S1.
  unfold WriteBufferFromS3.finalizeImpl in H. cbn [bind gets] in H.
  apply bind_ok in H. destruct H as ([] & sa & Ha & H).
  assert (Sa : WriteBufferFromS3.ledger_step s1 sa).
  { destruct (negb _); [exact (buffer_preFinalize_ledger _ _ _ Ha)|].
    cbv [ret] in Ha. ok_inv Ha. apply buffer_ledger_step_refl. }
  clear Ha.
  apply bind_ok in H. destruct H as ([] & sb & Hb & H). cbn [bind gets] in H.
  destruct (buffer_waitForAllBackGroundTasks_ledger _ _ Hb) as (Sb & Hnil).
  apply bind_ok in H. destruct H as ([] & sc & Hc & H). cbn [bind gets] in H.
  (* the check of the object *)
  assert (Kd : keeps WriteBufferFromS3.queue_state sc s' /\
               exists after, WriteBufferFromS3.trace s' = WriteBufferFromS3.trace sc ++ after /\
                             Forall (fun entry => fst entry = HeadObjectRequest) after).
  { destruct (WriteBufferFromS3.check_objects_after_upload (WriteBufferFromS3.config sc)).
    - split; [exact (preserves_ok _ _ _ _ _ (buffer_checkObjectExists_queue_state client) H)|].
      unfold WriteBufferFromS3.checkObjectExists, bind, WriteBufferFromS3.send in H.
      destruct (client _ _) as [x|e]; [|discriminate]. cbv [ret] in H. ok_inv H.
      eexists. split; [reflexivity|]. constructor; [reflexivity|constructor].
    - cbv [ret] in H. ok_inv H. split; [reflexivity|]. exists []. rewrite app_nil_r.
      split; [reflexivity|constructor]. }
  destruct Kd as (Kd & after & Td & Hafter).
  assert (Kc : keeps WriteBufferFromS3.queue_state sb sc).
  { destruct (negb _); [|cbv [ret] in Hc; ok_inv Hc; reflexivity].
    exact (preserves_ok _ _ _ _ _ (buffer_completeMultipartUpload_queue_state client) Hc). }
  pose proof (keeps_trans _ _ _ _ Kc Kd) as K.
  unfold keeps, WriteBufferFromS3.queue_state in K.
  assert (Hf : WriteBufferFromS3.front_end s' = WriteBufferFromS3.front_end sb)
    by exact (f_equal (fun x => fst (fst (fst x))) K).
  assert (Htags : WriteBufferFromS3.part_tags s' = WriteBufferFromS3.part_tags sb)
    by exact (f_equal (fun x => snd (fst (fst x))) K).
  destruct (front_end_config sb s' Hf) as (_ & _ & Hid).
  rewrite Hid in Hopen. rewrite Hopen in Hc. cbn [negb] in Hc.
  (* the completion *)
  assert (Hcomplete : WriteBufferFromS3.part_tags sb <> [] /\
            exists sent, WriteBufferFromS3.trace sc = WriteBufferFromS3.trace sb ++ sent /\
              sent <> [] /\
              Forall (fun entry =>
                        fst entry
                        = CompleteMultipartUploadRequest (WriteBufferFromS3.multipart_upload_id sb)
                            (WriteBufferFromS3.completed_parts (WriteBufferFromS3.part_tags sb)))
                     sent).
  { unfold WriteBufferFromS3.completeMultipartUpload, bind, gets in Hc.
    destruct (WriteBufferFromS3.part_tags sb) as [|t tags] eqn:Ht; [discriminate|].
    split; [discriminate|].
    pose proof (std_max_1 (WriteBufferFromS3.max_unexpected_write_error_retries
                             (WriteBufferFromS3.config sb))) as Hm.
    match type of Hc with
    | WriteBufferFromS3.complete_retry_loop client ?f ?k ?m ?q sb = _ =>
        destruct (buffer_complete_retry_loop_sends client q m f k sb)
          as (sent & lg & Hfin & Hall & Hsent)
    end.
    rewrite Hc in Hfin. cbn [final_state] in Hfin. rewrite Hfin. cbn.
    exists sent. split; [reflexivity|]. split; [apply Hsent; lia|exact Hall]. }
  destruct Hcomplete as (Hne & sent & Tc & Hsent & Hall).
  assert (Hclean_b : has_failed_upload (WriteBufferFromS3.trace sb) = false).
  { rewrite Td, Tc in Hclean. apply has_failed_upload_app_false in Hclean.
    destruct Hclean as (Hclean & _). apply has_failed_upload_app_false in Hclean.
    apply Hclean. }
  pose proof (buffer_ledger_step_trans _ _ _ S1 Sa) as S1a.
  assert (Hclean_a : has_failed_upload (WriteBufferFromS3.trace sa) = false).
  { destruct Sb as (_ & (t & Tb) & _). rewrite Tb in Hclean_b.
    apply has_failed_upload_app_false in Hclean_b. apply Hclean_b. }
  pose proof (proj2 (proj2 S1a) Hclean_a L0) as La.
  pose proof (proj2 (proj2 Sb) Hclean_b La) as (_ & _ & _ & _ & _ & _ & _ & _ & E).
  rewrite (Hnil Hclean_b La) in E. cbn [WriteBufferFromS3.returned_parts flat_map] in E.
  rewrite app_nil_r in E.
  exists (WriteBufferFromS3.trace sb), sent, after. rewrite Htags, Hid.
  split; [rewrite Td, Tc, app_assoc; reflexivity|]. split; [exact Hsent|].
  split; [exact Hall|]. split; [exact Hafter|]. split; [exact Hne|].
  split; [split; [exact Hclean_b|exact E]|]. split; [exact Hclean|].
  rewrite Td, Tc, !upload_entries_app, (upload_entries_other sent),
    (upload_entries_other after), !app_nil_r; [exact E| |].
  - eapply Forall_impl; [|exact Hafter]. intros entry ->. reflexivity.
  - eapply Forall_impl; [|exact Hall]. intros entry ->. reflexivity.
Qed.

End BufferLedger.

Lemma completed_parts_made_from_tags (tags : list string) :
  made_from_tags tags (UploadHelper.completed_parts tags).
Proof.
  split; [|split; [|split]].
  - rewrite <- (completed_parts_from_etags 0 tags) at 2. symmetry. apply length_map.
  - apply completed_parts_from_etags.
  - apply completed_parts_numbered_from_one.
  - intros Hn. apply (completed_parts_numbered tags Hn).
Qed.

(** C5. Every multipart job that returns has sent [CompleteMultipartUpload]
    with exactly one entry for every part it uploaded. In the copy helpers
    the job is [performMultipartUpload] on a helper that has sent no part
    request and holds neither task nor tag, with an offset, a size and
    settings that are [size_t]; in the streaming buffer it is a streaming
    write of chunks of non-negative sizes that ends with a multipart upload
    open, under a [max_part_number] below 2^64 - 1. When such a job
    returns, at least one tag was collected; the payload of the
    [CompleteMultipartUpload] requests it has sent is made from the N tags
    collected, in their order, the entry at position i with the part
    number [static_cast<int>(i)], which is i when N fits the [int]; no
    part request was refused; and the entries of the payload are, one for
    one, the part requests that were answered, each with the tag the
    server returned and the part number the request carried. With no tag
    collected [completeMultipartUpload] raises an exception of kind
    [Remote] and sends nothing. *)
Theorem completeMultipartUpload_payload (client : Client) :
  (forall (start_offset size : Z) (s0 s' : UploadHelper.State),
     is_size_t start_offset -> is_size_t size ->
     settings_in_range (UploadHelper.settings (UploadHelper.config s0)) ->
     UploadHelper.bg_tasks s0 = [] -> UploadHelper.part_tags s0 = [] ->
     UploadHelper.multipart_upload_aborted s0 = false ->
     Forall (fun entry => is_upload (fst entry) = false) (UploadHelper.trace s0) ->
     UploadHelper.performMultipartUpload client start_offset size s0 = Ok tt s' ->
     let parts := UploadHelper.completed_parts (UploadHelper.part_tags s') in
     UploadHelper.part_tags s' <> [] /\
     made_from_tags (UploadHelper.part_tags s') parts /\
     completes_with (UploadHelper.trace s') (UploadHelper.multipart_upload_id s') parts /\
     one_entry_per_part (UploadHelper.trace s') parts) /\
  (forall (cfg : WriteBufferFromS3.Config) (script : list (list WriteBufferFromS3.PoolEvent))
          (chunks : list Z) (s' : WriteBufferFromS3.State),
     Forall (fun n => 0 <= n) chunks ->
     0 <= max_part_number (WriteBufferFromS3.settings cfg) < SIZE_MODULUS - 1 ->
     WriteBufferFromS3.streaming_write client chunks (WriteBufferFromS3.construct cfg script)
     = Ok tt s' ->
     WriteBufferFromS3.empty (WriteBufferFromS3.multipart_upload_id s') = false ->
     let parts := WriteBufferFromS3.completed_parts (WriteBufferFromS3.part_tags s') in
     WriteBufferFromS3.part_tags s' <> [] /\
     made_from_tags (WriteBufferFromS3.part_tags s') parts /\
     completes_with (WriteBufferFromS3.trace s') (WriteBufferFromS3.multipart_upload_id s')
       parts /\
     one_entry_per_part (WriteBufferFromS3.trace s') parts) /\
  (forall s : UploadHelper.State,
     UploadHelper.multipart_upload_aborted s = false -> UploadHelper.part_tags s = [] ->
     exists e, UploadHelper.completeMultipartUpload client s = Throw e s /\
               kind_of e = Remote) /\
  (forall s : WriteBufferFromS3.State,
     WriteBufferFromS3.part_tags s = [] ->
     exists e, WriteBufferFromS3.completeMultipartUpload client s = Throw e s /\
               kind_of e = Remote).
Proof.
  split; [|split; [|split]].
  - intros start_offset size s0 s' Hstart Hsize Hrange Htasks Htags Hab Hquiet H parts.
    destruct (copy_performMultipartUpload_ledger client start_offset size s0 s'
                Hstart Hsize Hrange Htasks Htags Hab Hquiet H)
      as (before & sent & Htrace & Hsent & Hall & Hne & Hbefore & Hone).
    split; [exact Hne|]. split; [apply completed_parts_made_from_tags|].
    split; [|exact Hone].
    exists before, sent, []. rewrite app_nil_r.
    split; [exact Htrace|]. split; [exact Hsent|]. split; [exact Hall|].
    split; [constructor|exact Hbefore].
  - intros cfg script chunks s' Hchunks Hmax H Hopen parts. subst parts.
    destruct (buffer_streaming_write_ledger client cfg script chunks s' Hchunks Hmax H Hopen)
      as (before & sent & after & Htrace & Hsent & Hall & Hafter & Hne & Hbefore & Hone).
    split; [exact Hne|]. split.
    { rewrite completed_parts_same. apply completed_parts_made_from_tags. }
    split; [|exact Hone].
    exists before, sent, after.
    split; [exact Htrace|]. split; [exact Hsent|]. split; [exact Hall|].
    split; [exact Hafter|exact Hbefore].
  - intros s Hab Htags.
    exact (proj1 (proj1 (completeMultipartUpload_sends_tags client) s Hab) Htags).
  - intros s Htags.
    exact (proj1 (proj2 (completeMultipartUpload_sends_tags client) s) Htags).
Qed.

Lemma completeMultipartUpload_payload_witness :
  (let s' := final_state
               (UploadHelper.performMultipartUpload Samples.labelling_client 0 30
                  (UploadHelper.construct Samples.scheduled_copy Samples.last_part_first)) in
   let parts := UploadHelper.completed_parts (UploadHelper.part_tags s') in
   map fst (UploadHelper.trace s')
   = [CreateMultipartUploadRequest;
      UploadPartRequest "upload-1" 3 10 (SourceRange 20 10);
      UploadPartRequest "upload-1" 2 10 (SourceRange 10 10);
      UploadPartRequest "upload-1" 1 10 (SourceRange 0 10);
      CompleteMultipartUploadRequest "upload-1"
        [mkCompletedPart "1" 1; mkCompletedPart "2" 2; mkCompletedPart "3" 3]] /\
   (UploadHelper.part_tags s' <> [] /\
    made_from_tags (UploadHelper.part_tags s') parts /\
    completes_with (UploadHelper.trace s') (UploadHelper.multipart_upload_id s') parts /\
    one_entry_per_part (UploadHelper.trace s') parts)) /\
  (let s' := final_state
               (WriteBufferFromS3.streaming_write Samples.labelling_client [15; 15; 15; 15]
                  (WriteBufferFromS3.construct Samples.scheduled_buffer
                     Samples.last_task_first)) in
   let parts := WriteBufferFromS3.completed_parts (WriteBufferFromS3.part_tags s') in
   map fst (WriteBufferFromS3.trace s')
   = [CreateMultipartUploadRequest;
      UploadPartRequest "upload-1" 3 15 (TemporaryBuffer 15);
      UploadPartRequest "upload-1" 2 15 (TemporaryBuffer 15);
      UploadPartRequest "upload-1" 1 30 (TemporaryBuffer 30);
      CompleteMultipartUploadRequest "upload-1"
        [mkCompletedPart "1" 1; mkCompletedPart "2" 2; mkCompletedPart "3" 3]] /\
   (WriteBufferFromS3.part_tags s' <> [] /\
    made_from_tags (WriteBufferFromS3.part_tags s') parts /\
    completes_with (WriteBufferFromS3.trace s') (WriteBufferFromS3.multipart_upload_id s')
      parts /\
    one_entry_per_part (WriteBufferFromS3.trace s') parts)) /\
  (let s := UploadHelper.construct Samples.scheduled_copy [] in
   exists e, UploadHelper.completeMultipartUpload Samples.labelling_client s = Throw e s /\
             kind_of e = Remote) /\
  (let s := Samples.inline_buffer in
   exists e, WriteBufferFromS3.completeMultipartUpload Samples.labelling_client s = Throw e s /\
             kind_of e = Remote).
Proof.
  split; [|split; [|split]].
  - split; [vm_compute; reflexivity|].
    apply (proj1 (completeMultipartUpload_payload Samples.labelling_client) 0 30
             (UploadHelper.construct Samples.scheduled_copy Samples.last_part_first)).
    + unfold is_size_t, SIZE_MODULUS. lia.
    + unfold is_size_t, SIZE_MODULUS. lia.
    + unfold settings_in_range, is_size_t, SIZE_MODULUS. simpl. lia.
    + reflexivity.
    + reflexivity.
    + reflexivity.
    + constructor.
    + vm_compute. reflexivity.
  - split; [vm_compute; reflexivity|].
    apply (proj1 (proj2 (completeMultipartUpload_payload Samples.labelling_client))
             Samples.scheduled_buffer Samples.last_task_first [15; 15; 15; 15]).
    + repeat constructor; lia.
    + unfold SIZE_MODULUS. simpl. lia.
    + vm_compute. reflexivity.
    + vm_compute. reflexivity.
  - apply (proj1 (proj2 (proj2 (completeMultipartUpload_payload Samples.labelling_client)))
             (UploadHelper.construct Samples.scheduled_copy [])); reflexivity.
  - apply (proj2 (proj2 (proj2 (completeMultipartUpload_payload Samples.labelling_client)))
             Samples.inline_buffer). reflexivity.
Defined.
